(** * chromatic.color.core: the ANSI SGR colour codec

    A shallow embedding of [src/chromatic/color/core.py]: the colour byte
    strings ([colorbytes] and its three subclasses), the SGR parameter
    sequence ([SgrSequence]) and the styled string ([ColorStr]).

    Python values are modelled as follows.
    - [bytes] and [str] are [string]; the escape character is ["027"%char].
    - [int] is [Z].
    - A raised exception is the [Raise] constructor of [result].
    - A method that mutates an [SgrSequence] in place is a function from the
      object's state to an outcome and the state it leaves behind, so that
      the state left by a call that raises half-way is part of the model.
    - A generator is the list of the items it yields together with the
      exception that ends it, if any. *)

From Stdlib Require Import ZArith List String Ascii Bool Lia DecimalString.
Import ListNotations.
Local Open Scope string_scope.
Local Open Scope list_scope.
Local Open Scope Z_scope.

(** ** Python runtime: exceptions, byte strings, dictionaries *)

Inductive exn : Set :=
| ValueError | TypeError | KeyError | IndexError | RuntimeError | StopIteration
| RangeError.

Inductive result (A : Type) : Type :=
| Ok (a : A)
| Raise (e : exn).
Arguments Ok {A} a.
Arguments Raise {A} e.

Definition bind {A B} (r : result A) (f : A -> result B) : result B :=
  match r with
  | Ok a => f a
  | Raise e => Raise e
  end.

Notation "x <- c1 ;; c2" := (bind c1 (fun x => c2))
  (at level 61, c1 at next level, right associativity).

Notation "' p <- c1 ;; c2" := (bind c1 (fun x => match x with p => c2 end))
  (at level 61, p pattern, c1 at next level, right associativity).

Definition bytes := string.

Definition ESC : ascii := "027"%char.

(** [CSI: Final[bytes] = b'\x1b['] and [SGR_RESET: Final[str] = '\x1b[0m']. *)
Definition CSI : bytes := String ESC "[".
Definition SGR_RESET : string := String ESC "[0m".

Definition byte_val (c : ascii) : Z := Z.of_N (N_of_ascii c).

Definition is_digit (c : ascii) : bool :=
  (48 <=? byte_val c) && (byte_val c <=? 57).

(** [b'%d' % n]. *)
Definition bytes_of_int (n : Z) : bytes := NilZero.string_of_int (Z.to_int n).

Fixpoint int_digits (acc : Z) (s : string) : option Z :=
  match s with
  | EmptyString => Some acc
  | String c s' =>
      if is_digit c then int_digits (10 * acc + (byte_val c - 48)) s' else None
  end.

(** [int(b)] for a byte string [b]: an optional sign and a non-empty run of
    ASCII digits; anything else raises [ValueError].  (Python also accepts
    surrounding white space and single underscores between digits; no byte
    string of those shapes is produced by [b'%d'].) *)
Definition py_int (s : bytes) : result Z :=
  let digits (d : string) (sign : Z) :=
    match d with
    | EmptyString => Raise ValueError
    | _ => match int_digits 0 d with
           | Some n => Ok (sign * n)
           | None => Raise ValueError
           end
    end in
  match s with
  | String "-" d => digits d (-1)
  | String "+" d => digits d 1
  | _ => digits s 1
  end.

(** [s.split(sep)] for a one-byte separator. *)
Fixpoint split (sep : ascii) (s : bytes) : list bytes :=
  match s with
  | EmptyString => [EmptyString]
  | String c s' =>
      if Ascii.eqb c sep then EmptyString :: split sep s'
      else match split sep s' with
           | h :: t => String c h :: t
           | [] => [String c EmptyString]
           end
  end.

(** [sep.join(l)]. *)
Definition join (sep : bytes) (l : list bytes) : bytes := String.concat sep l.

Fixpoint drop_prefix (p s : bytes) : option bytes :=
  match p with
  | EmptyString => Some s
  | String a p' =>
      match s with
      | String b s' => if Ascii.eqb a b then drop_prefix p' s' else None
      | EmptyString => None
      end
  end.

Definition removeprefix (p s : bytes) : bytes :=
  match drop_prefix p s with
  | Some r => r
  | None => s
  end.

Definition string_rev (s : string) : string :=
  string_of_list_ascii (List.rev (list_ascii_of_string s)).

Definition removesuffix (p s : bytes) : bytes :=
  match drop_prefix (string_rev p) (string_rev s) with
  | Some r => string_rev r
  | None => s
  end.

Definition startswith (s p : string) : bool :=
  match drop_prefix p s with
  | Some _ => true
  | None => false
  end.

(** [s.find(c)]: the first index of the byte [c], or [-1]. *)
Fixpoint find_byte (c : ascii) (s : bytes) : Z :=
  match s with
  | EmptyString => -1
  | String a s' =>
      if Ascii.eqb a c then 0
      else let i := find_byte c s' in if i =? -1 then -1 else i + 1
  end.

(** [s[:n]] for [0 <= n]. *)
Fixpoint take_bytes (n : nat) (s : bytes) : bytes :=
  match n, s with
  | S n', String c s' => String c (take_bytes n' s')
  | _, _ => EmptyString
  end.

(** Insertion-ordered dictionaries, as association lists without repeated
    keys. *)
Section Dict.
Context {K V : Type} (keq : K -> K -> bool).

Fixpoint dict_get (d : list (K * V)) (k : K) : option V :=
  match d with
  | [] => None
  | (k', v) :: d' => if keq k' k then Some v else dict_get d' k
  end.

(** [d[k] = v]: an existing key keeps its position. *)
Fixpoint dict_set (d : list (K * V)) (k : K) (v : V) : list (K * V) :=
  match d with
  | [] => [(k, v)]
  | (k', v') :: d' =>
      if keq k' k then (k', v) :: d' else (k', v') :: dict_set d' k v
  end.

(** [del d[k]]: [None] stands for the [KeyError] of an absent key. *)
Fixpoint dict_del (d : list (K * V)) (k : K) : option (list (K * V)) :=
  match d with
  | [] => None
  | (k', v) :: d' =>
      if keq k' k then Some d'
      else match dict_del d' k with
           | Some r => Some ((k', v) :: r)
           | None => None
           end
  end.

(** [{k: v for k, v in items}] and [d |= items]. *)
Definition dict_update (d : list (K * V)) (items : list (K * V)) : list (K * V) :=
  fold_left (fun acc kv => dict_set acc (fst kv) (snd kv)) items d.

Definition dict_of_items (items : list (K * V)) : list (K * V) :=
  dict_update [] items.

Definition dict_keys (d : list (K * V)) : list K := map fst d.
End Dict.

(** [range(a, a + n)]. *)
Fixpoint range (a : Z) (n : nat) : list Z :=
  match n with
  | O => []
  | S n' => a :: range (a + 1) n'
  end.

Definition mem (x : Z) (l : list Z) : bool := existsb (Z.eqb x) l.

(** ** Colour formats and colour keys *)

(** [ColorDictKeys = Literal['fg', 'bg']]. *)
Inductive ColorDictKeys : Set := fg | bg.

Definition key_eqb (a b : ColorDictKeys) : bool :=
  match a, b with
  | fg, fg | bg, bg => true
  | _, _ => false
  end.

(** The three subclasses of [colorbytes]. *)
Inductive AnsiColorType : Set := ansicolor4Bit | ansicolor8Bit | ansicolor24Bit.

Definition type_eqb (a b : AnsiColorType) : bool :=
  match a, b with
  | ansicolor4Bit, ansicolor4Bit
  | ansicolor8Bit, ansicolor8Bit
  | ansicolor24Bit, ansicolor24Bit => true
  | _, _ => false
  end.

Definition Int3Tuple : Set := (Z * Z * Z)%type.

Definition rgb_eqb (a b : Int3Tuple) : bool :=
  let '(r1, g1, b1) := a in
  let '(r2, g2, b2) := b in
  (r1 =? r2) && (g1 =? g2) && (b1 =? b2).

(** ** colorconv

    [core.py] imports its colour conversions with [from .colorconv import *];
    that module is not among the sources.  Its functions are modelled below
    from the specification. *)
Module colorconv.

(** Modelled from the spec: the 16 fixed reference RGB triples of the 4-bit
    palette (section 4.2, "8 standard + 8 bright, using the conventional
    ANSI palette values").  The docstrings of [core.py] fix the scale: red
    foreground 31 is [(170, 0, 0)], bright red 91 is [(255, 85, 85)], black
    background 40 is [(0, 0, 0)], green is [(0, 170, 0)]. *)
Definition ANSI_4BIT_RGB : list Int3Tuple :=
  [ (0, 0, 0); (170, 0, 0); (0, 170, 0); (170, 85, 0);
    (0, 0, 170); (170, 0, 170); (0, 170, 170); (170, 170, 170);
    (85, 85, 85); (255, 85, 85); (85, 255, 85); (255, 255, 85);
    (85, 85, 255); (255, 85, 255); (85, 255, 255); (255, 255, 255) ].

(** Modelled from the spec: [ansi_4bit_to_rgb], from an SGR colour code
    (30-37, 40-47 standard; 90-97, 100-107 bright) to the palette entry of
    its hue and intensity (section 3, "8 base hues x {standard, bright}"). *)
Definition ansi_4bit_to_rgb (code : Z) : Int3Tuple :=
  nth (Z.to_nat (code mod 10 + (if 90 <=? code then 8 else 0)))
      ANSI_4BIT_RGB (0, 0, 0).

Definition sq_dist (a b : Int3Tuple) : Z :=
  let '(r1, g1, b1) := a in
  let '(r2, g2, b2) := b in
  (r1 - r2) * (r1 - r2) + (g1 - g2) * (g1 - g2) + (b1 - b2) * (b1 - b2).

(** The first entry of [l] at the smallest squared distance from [rgb]. *)
Definition nearest (rgb : Int3Tuple) (l : list (Z * Int3Tuple))
  : Z * Int3Tuple :=
  fold_left
    (fun best x =>
       if sq_dist rgb (snd x) <? sq_dist rgb (snd best) then x else best)
    (tl l) (hd (0, (0, 0, 0)) l).

Definition base_entries : list (Z * Int3Tuple) :=
  combine (range 0 16) ANSI_4BIT_RGB.

(** Modelled from the spec: [nearest_ansi_4bit_rgb], section 4.2: "nearest
    of the 16 fixed reference RGB triples by squared Euclidean distance,
    ties broken by lowest index". *)
Definition nearest_ansi_4bit_rgb (rgb : Int3Tuple) : Int3Tuple :=
  snd (nearest rgb base_entries).

Definition cube_levels : list Z := [0; 95; 135; 175; 215; 255].
Definition cube_level (i : Z) : Z := nth (Z.to_nat i) cube_levels 0.

(** Modelled from the spec: [ansi_8bit_to_rgb], section 3: "index8 in
    [0,255] mapping to 0-15: same as Ansi4 palette, 16-231: 6x6x6 RGB cube,
    232-255: 24-step greyscale ramp", with cube levels
    0, 95, 135, 175, 215, 255 and ramp values 8, 18, ..., 238 (section 4.2);
    a value outside the domain is a [RangeError] (section 7). *)
Definition ansi_8bit_to_rgb (n : Z) : result Int3Tuple :=
  if (n <? 0) || (255 <? n) then Raise RangeError
  else if n <? 16 then Ok (nth (Z.to_nat n) ANSI_4BIT_RGB (0, 0, 0))
  else if n <? 232 then
    let i := n - 16 in
    Ok (cube_level (i / 36), cube_level ((i / 6) mod 6), cube_level (i mod 6))
  else let v := 8 + 10 * (n - 232) in Ok (v, v, v).

Definition cube_entries : list (Z * Int3Tuple) :=
  map (fun i => (16 + i, (cube_level (i / 36), cube_level ((i / 6) mod 6),
                          cube_level (i mod 6))))
      (range 0 216).

Definition grey_entries : list (Z * Int3Tuple) :=
  map (fun i => (232 + i, (8 + 10 * i, 8 + 10 * i, 8 + 10 * i))) (range 0 24).

(** Modelled from the spec: [rgb_to_ansi_8bit], section 4.2: "evaluates
    three candidate encodings - nearest of the 16 base colors, nearest point
    in the 6x6x6 cube, nearest step of the 24-entry greyscale ramp - and
    selects whichever candidate has the smallest squared error, ties broken
    in the order base, cube, greyscale". *)
Definition rgb_to_ansi_8bit (rgb : Int3Tuple) : Z :=
  let base := nearest rgb base_entries in
  let cube := nearest rgb cube_entries in
  let grey := nearest rgb grey_entries in
  fst (nearest rgb [base; cube; grey]).

(** Modelled from the spec: [hex2rgb] and [rgb2hex], section 3: a colour
    value is "an integer in [0, 0xFFFFFF] representing packed 8-bit R,G,B
    channels", and its construction from three channel values "fails with
    RangeError if any channel outside [0,255]" (section 4.1). *)
Definition hex2rgb (n : Z) : Int3Tuple :=
  (Z.land (Z.shiftr n 16) 255, Z.land (Z.shiftr n 8) 255, Z.land n 255).

Definition is_channel (x : Z) : bool := (0 <=? x) && (x <=? 255).

Definition pack_rgb (rgb : Int3Tuple) : Z :=
  let '(r, g, b) := rgb in
  Z.lor (Z.lor (Z.shiftl r 16) (Z.shiftl g 8)) b.

Definition in_range (rgb : Int3Tuple) : bool :=
  let '(r, g, b) := rgb in
  is_channel r && is_channel g && is_channel b.

Definition rgb2hex (rgb : Int3Tuple) : result Z :=
  if in_range rgb then Ok (pack_rgb rgb) else Raise RangeError.

(** Modelled from the spec: [rgb_diff], section 4.1: "channels are |a-b|
    per channel". *)
Definition rgb_diff (a b : Int3Tuple) : Int3Tuple :=
  let '(r1, g1, b1) := a in
  let '(r2, g2, b2) := b in
  (Z.abs (r1 - r2), Z.abs (g1 - g2), Z.abs (b1 - b2)).

End colorconv.
Import colorconv.

(** ** Global lookups of [core.py] *)

Definition kv_eqb (a b : ColorDictKeys * Int3Tuple) : bool :=
  key_eqb (fst a) (fst b) && rgb_eqb (snd a) (snd b).

(** [_ANSI16C_I2KV]: 4-bit colour code to (key, RGB), in the order of the
    comprehension. *)
Definition _ANSI16C_I2KV : list (Z * (ColorDictKeys * Int3Tuple)) :=
  dict_of_items Z.eqb
    (flat_map
       (fun i =>
          flat_map
            (fun j => [ (j, (fg, ansi_4bit_to_rgb j));
                        (j + 10, (bg, ansi_4bit_to_rgb (j + 10))) ])
            (range i 8))
       [30; 90]).

(** [_ANSI16C_KV2I = {v: k for k, v in _ANSI16C_I2KV.items()}]. *)
Definition _ANSI16C_KV2I : list ((ColorDictKeys * Int3Tuple) * Z) :=
  dict_of_items kv_eqb (map (fun kv => (snd kv, fst kv)) _ANSI16C_I2KV).

(** [_ANSI16C_STD] and [_ANSI16C_BRIGHT]. *)
Definition _ANSI16C_STD : list Z := flat_map (fun i => range i 8) [30; 40].

Definition _ANSI16C_BRIGHT : list Z :=
  filter (fun k => negb (mem k _ANSI16C_STD)) (dict_keys _ANSI16C_I2KV).

(** [_ANSI256_B2KEY = {b'38': 'fg', b'48': 'bg'}] and
    [_ANSI256_KEY2I = {'fg': 38, 'bg': 48}]. *)
Definition _ANSI256_B2KEY : list (bytes * ColorDictKeys) :=
  [("38", fg); ("48", bg)].

Definition _ANSI256_KEY2I (k : ColorDictKeys) : Z :=
  match k with
  | fg => 38
  | bg => 48
  end.

(** The values of the [IntEnum] [SgrParameter], in declaration order, and
    [_SGR_PARAM_VALUES]. *)
Definition SgrParameter : list Z :=
  range 0 27 ++ [28; 29] ++ range 30 21 ++ [52; 53; 54; 55; 60; 61; 62; 63]
  ++ range 90 8 ++ range 100 8.

Definition _SGR_PARAM_VALUES : list Z := SgrParameter.

(** ** colorbytes *)

(** An instance of a subclass of [colorbytes]: its class, its content as
    [bytes], and its one-entry [_rgb_dict_]. *)
Record colorbytes : Set := mk_colorbytes {
  cb_type : AnsiColorType;
  cb_bytes : bytes;
  cb_rgb_dict : ColorDictKeys * Int3Tuple
}.

(** What an SGR parameter holds: plain [bytes] or a [colorbytes] instance. *)
Inductive sgr_value : Set :=
| Plain (b : bytes)
| Colored (c : colorbytes).

Definition value_bytes (v : sgr_value) : bytes :=
  match v with
  | Plain b => b
  | Colored c => cb_bytes c
  end.

(** [rgb2ansi_color_esc(ret_format, mode, rgb)].  A [KeyError] of the 4-bit
    lookup is caught and, [mode] being a [str], re-raised as [ValueError]. *)
Definition rgb2ansi_color_esc
  (ret_format : AnsiColorType) (mode : ColorDictKeys) (rgb : Int3Tuple)
  : result bytes :=
  match ret_format with
  | ansicolor4Bit =>
      match dict_get kv_eqb _ANSI16C_KV2I (mode, nearest_ansi_4bit_rgb rgb) with
      | Some code => Ok (bytes_of_int code)
      | None => Raise ValueError
      end
  | ansicolor8Bit =>
      Ok (join ";" (map bytes_of_int [_ANSI256_KEY2I mode; 5; rgb_to_ansi_8bit rgb]))
  | ansicolor24Bit =>
      let '(r, g, b) := rgb in
      Ok (join ";" (map bytes_of_int [_ANSI256_KEY2I mode; 2; r; g; b]))
  end.

(** A value of the dictionary given to [from_rgb]: an iterable of three
    integers, or a packed integer converted by [hex2rgb]. *)
Inductive rgb_arg : Set :=
| RgbTuple (rgb : Int3Tuple)
| HexInt (n : Z).

(** [cls.from_rgb({k: v})] for a subclass [cls] of [colorbytes]. *)
Definition from_rgb (cls : AnsiColorType) (k : ColorDictKeys) (v : rgb_arg)
  : result colorbytes :=
  let rgb := match v with
             | RgbTuple t => t
             | HexInt n => hex2rgb n
             end in
  b <- rgb2ansi_color_esc cls k rgb ;;
  Ok (mk_colorbytes cls b (k, rgb)).

(** The [match] of [colorbytes.__new__] over the split parameter fields:
    the class implied by the fields, the colour key and the RGB value. *)
Definition match_ansi (fields : list bytes)
  : result (AnsiColorType * ColorDictKeys * Int3Tuple) :=
  match fields with
  | [color] =>
      n <- py_int color ;;
      match dict_get Z.eqb _ANSI16C_I2KV n with
      | Some (k, rgb) => Ok (ansicolor4Bit, k, rgb)
      | None => Raise KeyError
      end
  | [k; f; color] =>
      match dict_get String.eqb _ANSI256_B2KEY k with
      | Some key =>
          if String.eqb f "5" then
            n <- py_int color ;;
            rgb <- ansi_8bit_to_rgb n ;;
            Ok (ansicolor8Bit, key, rgb)
          else Raise ValueError
      | None => Raise ValueError
      end
  | [k; f; r; g; b] =>
      match dict_get String.eqb _ANSI256_B2KEY k with
      | Some key =>
          if String.eqb f "2" then
            r' <- py_int r ;;
            g' <- py_int g ;;
            b' <- py_int b ;;
            Ok (ansicolor24Bit, key, (r', g', b'))
          else Raise ValueError
      | None => Raise ValueError
      end
  | _ => Raise ValueError
  end.

(** [colorbytes.__new__(cls, __ansi)]; [cls = None] is the base class
    [colorbytes] itself.  The argument is a bytes-like object: plain bytes or
    an instance of a subclass. *)
Definition colorbytes_new (cls : option AnsiColorType) (__ansi : sgr_value)
  : result colorbytes :=
  let same :=
    match cls, __ansi with
    | Some t, Colored c => if type_eqb (cb_type c) t then Some c else None
    | _, _ => None
    end in
  match same with
  | Some c => Ok c
  | None =>
      let raw := value_bytes __ansi in
      '(typ, k, rgb) <-
        match_ansi (split ";" (removesuffix "m" (removeprefix CSI raw))) ;;
      let differs := match cls with
                     | Some t => negb (type_eqb typ t)
                     | None => true
                     end in
      b <- (if differs
            then rgb2ansi_color_esc (match cls with Some t => t | None => typ end) k rgb
            else Ok raw) ;;
      Ok (mk_colorbytes typ b (k, rgb))
  end.

(** ** SGR parameters and the generators that normalise them *)

(** [SgrParamWrapper]: a wrapper around one [_value_]. *)
Definition SgrParamWrapper : Set := sgr_value.

(** [SgrParamWrapper.__eq__] compares the hashes of the wrapped values; the
    hash of a byte string is modelled by its content. *)
Definition param_eqb (p q : SgrParamWrapper) : bool :=
  String.eqb (value_bytes p) (value_bytes q).

Definition is_color (p : SgrParamWrapper) : bool :=
  match p with
  | Colored _ => true
  | Plain _ => false
  end.

Definition is_reset (p : SgrParamWrapper) : bool := String.eqb (value_bytes p) "0".

(** A generator: what it yields, and the exception that ends it when it does
    not end by exhaustion. *)
Record gen (A : Type) : Type := mk_gen {
  yielded : list A;
  ended : option exn
}.
Arguments mk_gen {A} yielded ended.
Arguments yielded {A} g.
Arguments ended {A} g.

Definition gen_cons {A} (a : A) (g : gen A) : gen A :=
  mk_gen (a :: yielded g) (ended g).

Definition gen_raise {A} (e : exn) : gen A := mk_gen [] (Some e).

(** [int.from_bytes(b)] and [n.to_bytes(length)], big-endian. *)
Definition int_from_bytes (s : bytes) : Z :=
  fold_left (fun acc c => acc * 256 + byte_val c) (list_ascii_of_string s) 0.

Fixpoint int_to_bytes (length : nat) (n : Z) : list Z :=
  match length with
  | O => []
  | S l => int_to_bytes l (n / 256) ++ [n mod 256]
  end.

(** The loop of [_get_sgr_bitmask] over [prepass]; [alloc] parses the
    decimal text of the buffered values. *)
Definition alloc (buffer : list Z) : result Z :=
  py_int (String.concat "" (map bytes_of_int buffer)).

Fixpoint bitmask_loop (prepass : list (bool * Z)) (buffer allocated : list Z)
  : result (list Z) :=
  match prepass with
  | [] =>
      match buffer with
      | [] => Ok allocated
      | _ => n <- alloc buffer ;; Ok (allocated ++ [n])
      end
  | (c, v) :: rest =>
      if c then bitmask_loop rest (buffer ++ [v]) allocated
      else n <- alloc buffer ;; bitmask_loop rest [] (allocated ++ [n])
  end.

(** [_get_sgr_bitmask(__x)]. *)
Definition _get_sgr_bitmask (__x : bytes) : result (list Z) :=
  let idx := find_byte "m" __x in
  let stripped := removeprefix CSI __x in
  let sliced := if idx =? -1 then stripped else take_bytes (Z.to_nat idx) stripped in
  let x := removesuffix "m" sliced in
  let length := String.length x in
  let a := int_from_bytes (string_of_list_ascii (repeat ";"%char length)) in
  let b := int_from_bytes x in
  let prepass :=
    combine (map (fun m => negb (m =? 0))
                 (int_to_bytes length (Z.land (Z.lnot b) a)))
            (map (fun c => byte_val c mod 48) (list_ascii_of_string x)) in
  bitmask_loop prepass [] [].

(** The arguments these generators are applied to. *)
Inductive sgr_item : Set :=
| ItemColor (c : colorbytes)
| ItemInt (n : Z)
| ItemBytes (b : bytes)
| ItemParam (p : SgrParamWrapper)
| ItemOther.

Inductive sgr_arg : Set :=
| ArgNone
| ArgInt (n : Z)
| ArgBytes (b : bytes)
| ArgList (l : list sgr_item)
| ArgParam (p : SgrParamWrapper).

(** What [_iter_normalized_sgr] yields. *)
Inductive norm : Set :=
| NColor (c : colorbytes)
| NInt (n : Z).

Definition gen_of_result (r : result (list Z)) (k : gen norm) : gen norm :=
  match r with
  | Ok l => mk_gen (map NInt l ++ yielded k) (ended k)
  | Raise e => gen_raise e
  end.

Fixpoint normalize_items (l : list sgr_item) : gen norm :=
  match l with
  | [] => mk_gen [] None
  | ItemColor c :: l' => gen_cons (NColor c) (normalize_items l')
  | ItemInt n :: l' => gen_cons (NInt n) (normalize_items l')
  | ItemBytes b :: l' => gen_of_result (_get_sgr_bitmask b) (normalize_items l')
  | ItemParam p :: l' =>
      gen_of_result (_get_sgr_bitmask (value_bytes p)) (normalize_items l')
  | ItemOther :: _ => gen_raise TypeError
  end.

(** [_iter_normalized_sgr(__iter)].  [None] and an [SgrParamWrapper] are
    neither buffers nor iterable: the [for] statement raises [TypeError]. *)
Definition _iter_normalized_sgr (__iter : sgr_arg) : gen norm :=
  match __iter with
  | ArgBytes b => gen_of_result (_get_sgr_bitmask b) (mk_gen [] None)
  | ArgList l => normalize_items l
  | ArgInt _ | ArgNone | ArgParam _ => gen_raise TypeError
  end.

(** The exception seen by the coroutine of [_co_yield_colorbytes] when
    [next(__iter)] finds the source generator finished: the source's own
    exception, or the [RuntimeError] that replaces a [StopIteration] raised
    inside a generator. *)
Definition exhausted (src_end : option exn) : exn :=
  match src_end with
  | Some e => e
  | None => RuntimeError
  end.

(** [int(x)] and [b'%d' % x] for an item drawn from the source generator. *)
Definition norm_int (x : norm) : result Z :=
  match x with
  | NInt n => Ok n
  | NColor c => py_int (cb_bytes c)
  end.

Definition norm_format (x : norm) : result bytes :=
  match x with
  | NInt n => Ok (bytes_of_int n)
  | NColor _ => Raise TypeError
  end.

(** [key_pair = {38: 'fg', 48: 'bg'}.get]. *)
Definition key_pair (value : Z) : option ColorDictKeys :=
  if value =? 38 then Some fg else if value =? 48 then Some bg else None.

(** [new_8b(value, kind)] once the third field has been drawn. *)
Definition new_8b (value kind : Z) (x : norm) : result colorbytes :=
  f <- norm_format x ;;
  colorbytes_new (Some ansicolor8Bit)
    (Plain (join ";" [bytes_of_int value; bytes_of_int kind; f])).

(** [new_24b(key)] once the three fields have been drawn. *)
Definition new_24b (key : ColorDictKeys) (x y z : norm) : result colorbytes :=
  r <- norm_int x ;;
  g <- norm_int y ;;
  b <- norm_int z ;;
  from_rgb ansicolor24Bit key (RgbTuple (r, g, b)).

Definition yield_or_raise (r : result colorbytes) (k : gen sgr_value)
  : gen sgr_value :=
  match r with
  | Ok c => gen_cons (Colored c) k
  | Raise e => gen_raise e
  end.

(** [_gen_colorbytes] driving [_co_yield_colorbytes] over the items of the
    source generator, which ends with [src_end]. *)
Fixpoint gen_colorbytes_items (src_end : option exn) (items : list norm)
  : gen sgr_value :=
  match items with
  | [] => mk_gen [] src_end
  | NColor c :: rest => gen_cons (Colored c) (gen_colorbytes_items src_end rest)
  | NInt value :: rest =>
      match key_pair value with
      | Some key =>
          match rest with
          | [] => gen_raise (exhausted src_end)
          | kind :: rest1 =>
              match kind with
              | NInt 5 =>
                  match rest1 with
                  | [] => gen_raise (exhausted src_end)
                  | x :: rest2 =>
                      yield_or_raise (new_8b value 5 x)
                        (gen_colorbytes_items src_end rest2)
                  end
              | _ =>
                  match rest1 with
                  | x :: y :: z :: rest2 =>
                      yield_or_raise (new_24b key x y z)
                        (gen_colorbytes_items src_end rest2)
                  | _ => gen_raise (exhausted src_end)
                  end
              end
          end
      | None =>
          match dict_get Z.eqb _ANSI16C_I2KV value with
          | Some (k, rgb) =>
              yield_or_raise (from_rgb ansicolor4Bit k (RgbTuple rgb))
                (gen_colorbytes_items src_end rest)
          | None =>
              gen_cons (Plain (bytes_of_int value))
                (gen_colorbytes_items src_end rest)
          end
      end
  end.

Definition _gen_colorbytes (src : gen norm) : gen sgr_value :=
  gen_colorbytes_items (ended src) (yielded src).

(** [_iter_sgr(__x)]. *)
Definition _iter_sgr (__x : sgr_arg) : gen sgr_value :=
  _gen_colorbytes
    (_iter_normalized_sgr
       match __x with
       | ArgInt n => ArgList [ItemInt n]
       | _ => __x
       end).

(** ** SgrSequence *)

(** The slots of an [SgrSequence].  [_bytes_] is a memo of [__bytes__] that
    every mutating method resets to [None]; it is not part of the state and
    [__bytes__] is modelled by the computation it memoises. *)
Record SgrSequence : Set := mk_sgr {
  _sgr_params_ : list SgrParamWrapper;
  _rgb_dict_ : list (ColorDictKeys * Int3Tuple);
  _has_bright_colors_ : bool
}.

(** [SgrSequence()]. *)
Definition empty_sgr : SgrSequence := mk_sgr [] [] false.

Definition set_params (l : list SgrParamWrapper) (s : SgrSequence) : SgrSequence :=
  mk_sgr l (_rgb_dict_ s) (_has_bright_colors_ s).

Definition set_rgb_dict (d : list (ColorDictKeys * Int3Tuple)) (s : SgrSequence)
  : SgrSequence :=
  mk_sgr (_sgr_params_ s) d (_has_bright_colors_ s).

Definition set_bright (b : bool) (s : SgrSequence) : SgrSequence :=
  mk_sgr (_sgr_params_ s) (_rgb_dict_ s) b.

(** A method call on a mutable [SgrSequence]: the outcome and the state the
    object is left in, also when the call raises. *)
Definition method (A : Type) : Type := SgrSequence -> result A * SgrSequence.

Definition ret {A} (a : A) : method A := fun s => (Ok a, s).
Definition raise {A} (e : exn) : method A := fun s => (Raise e, s).
Definition lift {A} (r : result A) : method A := fun s => (r, s).

Definition mbind {A B} (m : method A) (f : A -> method B) : method B :=
  fun s =>
    match m s with
    | (Ok a, s') => f a s'
    | (Raise e, s') => (Raise e, s')
    end.

Notation "x <~ c1 ;; c2" := (mbind c1 (fun x => c2))
  (at level 61, c1 at next level, right associativity).
Notation "c1 ;;; c2" := (mbind c1 (fun _ => c2))
  (at level 61, right associativity).

Definition update (f : SgrSequence -> SgrSequence) : method unit :=
  fun s => (Ok tt, f s).

(** [values()]. *)
Definition values (s : SgrSequence) : list bytes := map value_bytes (_sgr_params_ s).

(** [__bytes__]. *)
Definition sgr_bytes (s : SgrSequence) : bytes :=
  match _sgr_params_ s with
  | [] => EmptyString
  | _ => (String ESC "[" ++ join ";" (values s) ++ "m")%string
  end.

(** [__str__]. *)
Definition sgr_str (s : SgrSequence) : string := sgr_bytes s.

(** [is_color()] and [is_reset()]. *)
Definition sgr_is_color (s : SgrSequence) : bool := existsb is_color (_sgr_params_ s).
Definition sgr_is_reset (s : SgrSequence) : bool := existsb is_reset (_sgr_params_ s).

(** The arguments [index], [find], [remove] and [is_same_kind] receive. *)
Inductive index_arg : Set :=
| IdxBytes (b : bytes)
| IdxInt (n : Z)
| IdxParam (p : SgrParamWrapper)
| IdxNone.

Definition arg_of_index_arg (a : index_arg) : sgr_arg :=
  match a with
  | IdxBytes b => ArgBytes b
  | IdxInt n => ArgInt n
  | IdxParam p => ArgParam p
  | IdxNone => ArgNone
  end.

(** [SgrParamWrapper.is_same_kind(other)].  [self == other] holds for a
    wrapper or a bytes object of equal content.  Otherwise the first value of
    [_iter_sgr(other)] is compared; [TypeError], [StopIteration] and
    [RuntimeError] are caught, any other exception escapes. *)
Definition is_same_kind (p : SgrParamWrapper) (other : index_arg) : result bool :=
  let equal :=
    match other with
    | IdxBytes b => String.eqb (value_bytes p) b
    | IdxParam q => param_eqb p q
    | IdxInt _ | IdxNone => false
    end in
  if equal then Ok true
  else
    let g := _iter_sgr (arg_of_index_arg other) in
    match yielded g with
    | v :: _ => Ok (String.eqb (value_bytes v) (value_bytes p))
    | [] =>
        match ended g with
        | None | Some TypeError | Some StopIteration | Some RuntimeError => Ok false
        | Some e => Raise e
        end
    end.

(** [index(value)]: the position of the first parameter of the same kind;
    [ValueError] when there is none. *)
Fixpoint index_from (i : Z) (l : list SgrParamWrapper) (value : index_arg)
  : result Z :=
  match l with
  | [] => Raise ValueError
  | p :: l' =>
      same <- is_same_kind p value ;;
      if same then Ok i else index_from (i + 1) l' value
  end.

Definition index (value : index_arg) : method Z :=
  fun s => (index_from 0 (_sgr_params_ s) value, s).

(** [find(value)]: [index], with [ValueError] turned into [-1]. *)
Definition find (value : index_arg) : method Z :=
  fun s =>
    match index value s with
    | (Raise ValueError, s') => (Ok (-1), s')
    | r => r
    end.

(** [get_color(__key)]. *)
Definition get_color (__key : ColorDictKeys) (s : SgrSequence)
  : option SgrParamWrapper :=
  if sgr_is_color s then
    List.find (fun v => match v with
                        | Colored c => key_eqb (fst (cb_rgb_dict c)) __key
                        | Plain _ => false
                        end)
              (_sgr_params_ s)
  else None.

Definition index_arg_of_color (c : option SgrParamWrapper) : index_arg :=
  match c with
  | Some p => IdxParam p
  | None => IdxNone
  end.

(** [list.pop(i)]: negative indices count from the end; [None] is the
    [IndexError] of an index out of range. *)
Fixpoint list_pop_nat {A} (i : nat) (l : list A) : option (A * list A) :=
  match l, i with
  | [], _ => None
  | a :: l', O => Some (a, l')
  | a :: l', S i' =>
      match list_pop_nat i' l' with
      | Some (x, r) => Some (x, a :: r)
      | None => None
      end
  end.

Definition list_pop {A} (i : Z) (l : list A) : option (A * list A) :=
  let n := Z.of_nat (List.length l) in
  let j := if i <? 0 then i + n else i in
  if (j <? 0) || (n <=? j) then None else list_pop_nat (Z.to_nat j) l.

(** The loop of [pop] over the remaining parameters after a bold code was
    popped: is there a 4-bit colour of standard intensity?  [int(px)] is
    evaluated for every 4-bit colour met before one is found. *)
Fixpoint has_std_4bit (l : list SgrParamWrapper) : result bool :=
  match l with
  | [] => Ok false
  | Colored c :: l' =>
      if type_eqb (cb_type c) ansicolor4Bit then
        n <- py_int (cb_bytes c) ;;
        if mem n _ANSI16C_STD then Ok true else has_std_4bit l'
      else has_std_4bit l'
  | Plain _ :: l' => has_std_4bit l'
  end.

Definition in_I2KV (n : Z) : bool :=
  match dict_get Z.eqb _ANSI16C_I2KV n with
  | Some _ => true
  | None => false
  end.

(** The body of [pop(__index)], with the recursive call [self.pop] as a
    parameter. *)
Definition pop_body (self_pop : Z -> method SgrParamWrapper) (__index : Z)
  : method SgrParamWrapper :=
  fun s =>
    match list_pop __index (_sgr_params_ s) with
    | None => (Raise IndexError, s)
    | Some (obj, rest) =>
        let s1 := set_params rest s in
        match obj with
        | Colored v =>
            match dict_del key_eqb (_rgb_dict_ s1) (fst (cb_rgb_dict v)) with
            | None => (Raise KeyError, s1)
            | Some d =>
                let s2 := set_rgb_dict d s1 in
                if _has_bright_colors_ s2 then
                  match py_int (cb_bytes v) with
                  | Raise e => (Raise e, s2)
                  | Ok vx =>
                      if in_I2KV vx then
                        let s3 := set_bright false s2 in
                        if mem vx _ANSI16C_STD then
                          (i <~ index (IdxBytes "1") ;;
                           _ <~ self_pop i ;;
                           ret obj) s3
                        else (Ok obj, s3)
                      else (Ok obj, s2)
                  end
                else (Ok obj, s2)
            end
        | Plain v =>
            if _has_bright_colors_ s1 && String.eqb v "1" then
              match has_std_4bit (_sgr_params_ s1) with
              | Raise e => (Raise e, s1)
              | Ok true => (Ok obj, set_bright false s1)
              | Ok false => (Ok obj, s1)
              end
            else (Ok obj, s1)
        end
    end.

(** [pop(__index=-1)].  The recursive call is made only after
    [_has_bright_colors_] was cleared, and a call that finds it cleared does
    not recurse: two unfoldings of the body are the whole recursion (see
    [pop_unfold]). *)
Definition pop : Z -> method SgrParamWrapper :=
  pop_body (pop_body (fun _ => raise RuntimeError)).

(** The value [append] wraps: for a 4-bit colour code the colour, promoted
    to its bright counterpart when a bold code is found (and popped); for any
    other code its decimal text. *)
Definition append_value (__value : Z) : method sgr_value :=
  match dict_get Z.eqb _ANSI16C_I2KV __value with
  | Some kv =>
      kv' <~
        (if mem __value _ANSI16C_BRIGHT then
           update (set_bright true) ;;; ret kv
         else
           b_idx <~ find (IdxBytes "1") ;;
           if negb (b_idx =? -1) then
             update (set_bright true) ;;;
             _ <~ pop b_idx ;;
             match dict_get Z.eqb _ANSI16C_I2KV (__value + 60) with
             | Some kv60 => ret kv60
             | None => raise TypeError
             end
           else update (set_bright false) ;;; ret kv) ;;
      c <~ lift (from_rgb ansicolor4Bit (fst kv') (RgbTuple (snd kv'))) ;;
      ret (Colored c)
  | None => ret (Plain (bytes_of_int __value))
  end.

(** The colour that holds the slot [key], when [_rgb_dict_] has the key, is
    popped: [self.pop(self.index(self.get_color(key)))]. *)
Definition vacate (key : ColorDictKeys) : method unit :=
  fun s =>
    match dict_get key_eqb (_rgb_dict_ s) key with
    | Some _ =>
        (i <~ index (index_arg_of_color (get_color key s)) ;;
         _ <~ pop i ;;
         ret tt) s
    | None => ret tt s
    end.

(** [append(__value)]. *)
Definition append (__value : Z) : method unit :=
  if negb (mem __value _SGR_PARAM_VALUES) then raise ValueError
  else
    value <~ append_value __value ;;
    match value with
    | Colored c =>
        vacate (fst (cb_rgb_dict c)) ;;;
        update (fun s => set_rgb_dict
                           (dict_set key_eqb (_rgb_dict_ s)
                              (fst (cb_rgb_dict c)) (snd (cb_rgb_dict c))) s)
    | Plain _ => ret tt
    end ;;;
    update (fun s => set_params (_sgr_params_ s ++ [value]) s).

(** [remove(value)]. *)
Definition remove (value : index_arg) : method unit :=
  i <~ index value ;;
  _ <~ pop i ;;
  ret tt.

(** [__contains__(item)]. *)
Definition sgr_contains (item : sgr_arg) (s : SgrSequence) : result bool :=
  match _sgr_params_ s with
  | [] => Ok false
  | _ =>
      let g := _iter_sgr item in
      match ended g with
      | None =>
          Ok (forallb (fun v => existsb (String.eqb (value_bytes v)) (values s))
                      (yielded g))
      | Some TypeError | Some RuntimeError => Ok false
      | Some e => Raise e
      end
  end.

(** The setter of the property [rgb_dict], applied to
    [(ansi_type, color_dict)]; a value [None] of [color_dict] is skipped. *)
Fixpoint rgb_dict_setter (ansi_type : AnsiColorType)
  (color_dict : list (ColorDictKeys * option rgb_arg)) : method unit :=
  match color_dict with
  | [] => ret tt
  | (k, None) :: rest => rgb_dict_setter ansi_type rest
  | (k, Some v) :: rest =>
      vacate k ;;;
      color_bytes <~ lift (from_rgb ansi_type k v) ;;
      update (fun s =>
                mk_sgr (_sgr_params_ s ++ [Colored color_bytes])
                       (dict_set key_eqb (_rgb_dict_ s)
                          (fst (cb_rgb_dict color_bytes))
                          (snd (cb_rgb_dict color_bytes)))
                       (_has_bright_colors_ s)) ;;;
      rgb_dict_setter ansi_type rest
  end.

(** *** SgrSequence.__init__ *)

(** [list.remove(x)]: the first element equal to [x] is removed; [None] is
    the [ValueError] raised when there is none. *)
Fixpoint list_remove (x : SgrParamWrapper) (l : list SgrParamWrapper)
  : option (list SgrParamWrapper) :=
  match l with
  | [] => None
  | p :: l' =>
      if param_eqb p x then Some l'
      else match list_remove x l' with
           | Some r => Some (p :: r)
           | None => None
           end
  end.

(** The first index [i] with [_sgr_params_[i]._value_ == b'1']. *)
Fixpoint first_bold (i : Z) (l : list SgrParamWrapper) : option Z :=
  match l with
  | [] => None
  | p :: l' => if String.eqb (value_bytes p) "1" then Some i else first_bold (i + 1) l'
  end.

(** The local variables of [__init__] while it consumes [_iter_sgr(__iter)]. *)
Record init_state : Set := mk_init {
  st_self : SgrSequence;
  st_values : list bytes;
  st_fg_slot : option SgrParamWrapper;
  st_bg_slot : option SgrParamWrapper;
  st_is_bold : bool;
  st_has_bold : bool
}.

Definition color_slot (k : ColorDictKeys) (st : init_state) : option SgrParamWrapper :=
  match k with
  | fg => st_fg_slot st
  | bg => st_bg_slot st
  end.

(** [update_colors(__param, __rgb_dict)] for the one-entry [__rgb_dict]
    [{k: v}]: the slot [k] is the only one visited with a value. *)
Definition update_colors (__param : SgrParamWrapper)
  (__rgb_dict : ColorDictKeys * Int3Tuple) (st : init_state) : result init_state :=
  let '(k, v) := __rgb_dict in
  params <-
    match color_slot k st with
    | Some slot =>
        match list_remove slot (_sgr_params_ (st_self st)) with
        | Some r => Ok r
        | None => Raise ValueError
        end
    | None => Ok (_sgr_params_ (st_self st))
    end ;;
  let self' := mk_sgr params (dict_set key_eqb (_rgb_dict_ (st_self st)) k v)
                      (_has_bright_colors_ (st_self st)) in
  Ok (mk_init self' (st_values st)
        (match k with fg => Some __param | bg => st_fg_slot st end)
        (match k with bg => Some __param | fg => st_bg_slot st end)
        (st_is_bold st) (st_has_bold st)).

Definition with_self (f : SgrSequence -> SgrSequence) (st : init_state) : init_state :=
  mk_init (f (st_self st)) (st_values st) (st_fg_slot st) (st_bg_slot st)
          (st_is_bold st) (st_has_bold st).

(** The 4-bit branch of the loop body: bright-colour bookkeeping and the
    promotion of a standard colour that follows a bold code. *)
Definition init_4bit (x : colorbytes) (st : init_state)
  : result (colorbytes * init_state) :=
  btoi <- py_int (cb_bytes x) ;;
  if mem btoi _ANSI16C_BRIGHT then Ok (x, with_self (set_bright true) st)
  else if st_is_bold st && mem btoi _ANSI16C_STD then
    let st1 := with_self (set_bright true) st in
    x' <- colorbytes_new (Some ansicolor4Bit) (Plain (bytes_of_int (btoi + 60))) ;;
    if st_has_bold st1 then
      match first_bold 0 (_sgr_params_ (st_self st1)) with
      | None => Raise StopIteration
      | Some i =>
          match list_pop i (_sgr_params_ (st_self st1)) with
          | None => Raise IndexError
          | Some (_, rest) =>
              Ok (x', mk_init (set_params rest (st_self st1)) (st_values st1)
                        (st_fg_slot st1) (st_bg_slot st1) (st_is_bold st1) false)
          end
      end
    else Ok (x', st1)
  else Ok (x, st).

(** One iteration of [for x in _iter_sgr(__iter)]. *)
Definition init_step (ansi_type : option AnsiColorType) (x : sgr_value)
  (st : init_state) : result init_state :=
  if existsb (String.eqb (value_bytes x)) (st_values st) then Ok st
  else
    '(x', param, st1) <-
      (if String.eqb (value_bytes x) "1" then
         Ok (x, x,
             if st_is_bold st then st
             else mk_init (st_self st) (st_values st) (st_fg_slot st)
                          (st_bg_slot st) true true)
       else
         match x with
         | Plain _ => Ok (x, x, st)
         | Colored c =>
             let is_diff_ansi_typ :=
               match ansi_type with
               | None => false
               | Some t => negb (type_eqb (cb_type c) t)
               end in
             (* [ansi_type.from_rgb(x)]: [x] is not a [Mapping] *)
             if is_diff_ansi_typ then Raise TypeError
             else
               '(c', st') <-
                 (if type_eqb (cb_type c) ansicolor4Bit then init_4bit c st
                  else Ok (c, st)) ;;
               st'' <- update_colors (Colored c') (cb_rgb_dict c') st' ;;
               Ok (Colored c', Colored c', st'')
         end) ;;
    Ok (mk_init (set_params (_sgr_params_ (st_self st1) ++ [param]) (st_self st1))
                (value_bytes x' :: st_values st1)
                (st_fg_slot st1) (st_bg_slot st1) (st_is_bold st1) (st_has_bold st1)).

Fixpoint init_loop (ansi_type : option AnsiColorType) (xs : list sgr_value)
  (st : init_state) : result init_state :=
  match xs with
  | [] => Ok st
  | x :: xs' => st' <- init_step ansi_type x st ;; init_loop ansi_type xs' st'
  end.

(** The argument of the constructor: another [SgrSequence], or anything
    [_iter_sgr] accepts. *)
Inductive init_arg : Set :=
| InitSgr (s : SgrSequence)
| InitIter (a : sgr_arg).

(** [not __iter]. *)
Definition falsy (a : sgr_arg) : bool :=
  match a with
  | ArgNone => true
  | ArgInt n => n =? 0
  | ArgBytes b => String.eqb b ""
  | ArgList l => match l with [] => true | _ => false end
  | ArgParam _ => false
  end.

(** [SgrSequence(__iter, ansi_type=ansi_type)]. *)
Definition SgrSequence_init (__iter : init_arg) (ansi_type : option AnsiColorType)
  : result SgrSequence :=
  match __iter with
  | InitSgr other => Ok other
  | InitIter a =>
      if falsy a then Ok empty_sgr
      else
        let g := _iter_sgr a in
        st <- init_loop ansi_type (yielded g)
                (mk_init empty_sgr [] None None false false) ;;
        match ended g with
        | Some e => Raise e
        | None =>
            let self := st_self st in
            match List.rev (_sgr_params_ self) with
            | [] => Raise IndexError
            | last :: _ =>
                if String.eqb (value_bytes last) "0"
                then Ok (mk_sgr [last] [] false)
                else Ok self
            end
        end
  end.

(** [SgrSequence.__add__(self, other)] for an [SgrSequence] [other]:
    [SgrSequence([*self, *other])]. *)
Definition SgrSequence_add (self other : SgrSequence) : result SgrSequence :=
  SgrSequence_init
    (InitIter (ArgList (map ItemParam (_sgr_params_ self ++ _sgr_params_ other))))
    None.

(** ** ColorStr *)

(** An instance of [ColorStr]: the content of the [str] it is, and its
    instance variables. *)
Record ColorStr : Set := mk_ColorStr {
  cs_str : string;
  _base_str_ : string;
  _sgr_ : SgrSequence;
  _no_reset_ : bool;
  _ansi_type_ : AnsiColorType
}.

Definition reset_suffix (no_reset : bool) : string :=
  if no_reset then EmptyString else SGR_RESET.

(** The content given to [str.__new__]:
    [''.join([str(sgr), base_str, suffix])]. *)
Definition serialize (sgr : SgrSequence) (base_str : string) (no_reset : bool)
  : string :=
  (sgr_str sgr ++ base_str ++ reset_suffix no_reset)%string.

(** The keyword arguments of [_weak_var_update]. *)
Record weak_vars : Set := mk_weak_vars {
  kw_sgr : option SgrSequence;
  kw_base_str : option string;
  kw_no_reset : option bool
}.

(** [_weak_var_update] applied to keyword arguments; it raises [ValueError]
    when none of them names an instance variable. *)
Definition _weak_var_update (self : ColorStr) (kwargs : weak_vars) : result ColorStr :=
  match kw_sgr kwargs, kw_base_str kwargs, kw_no_reset kwargs with
  | None, None, None => Raise ValueError
  | _, _, _ =>
      let sgr := match kw_sgr kwargs with Some s => s | None => _sgr_ self end in
      let base_str :=
        match kw_base_str kwargs with Some b => b | None => _base_str_ self end in
      let no_reset :=
        match kw_no_reset kwargs with Some b => b | None => _no_reset_ self end in
      Ok (mk_ColorStr (serialize sgr base_str no_reset) base_str sgr no_reset
                      (_ansi_type_ self))
  end.

(** The classes of the colour parameters of a sequence, in order. *)
Definition color_types (s : SgrSequence) : list AnsiColorType :=
  flat_map (fun p => match p with
                     | Colored c => [cb_type c]
                     | Plain _ => []
                     end)
           (_sgr_params_ s).

Definition count_type (t : AnsiColorType) (l : list AnsiColorType) : nat :=
  List.length (filter (type_eqb t) l).

(** [max(formats, key=formats.count)], also the [max] over the items of a
    [Counter]: the first class met among those met most often. *)
Definition most_common (formats : list AnsiColorType) (default : AnsiColorType)
  : AnsiColorType :=
  fold_left
    (fun best t =>
       if Nat.ltb (count_type best formats) (count_type t formats) then t else best)
    (tl formats) (hd default formats).

(** [as_ansi_type(__ansi_type)]. *)
Fixpoint convert_params (ansi_type : AnsiColorType) (l : list SgrParamWrapper)
  (new_rgb : list (ColorDictKeys * Int3Tuple))
  : result (list SgrParamWrapper * list (ColorDictKeys * Int3Tuple)) :=
  match l with
  | [] => Ok ([], new_rgb)
  | p :: l' =>
      match p with
      | Colored c =>
          if negb (type_eqb (cb_type c) ansi_type) then
            new_ansi <- colorbytes_new (Some ansi_type) p ;;
            '(ps, d) <- convert_params ansi_type l'
                          (dict_set key_eqb new_rgb (fst (cb_rgb_dict new_ansi))
                                    (snd (cb_rgb_dict new_ansi))) ;;
            Ok (Colored new_ansi :: ps, d)
          else
            '(ps, d) <- convert_params ansi_type l' new_rgb ;;
            Ok (p :: ps, d)
      | Plain _ =>
          '(ps, d) <- convert_params ansi_type l' new_rgb ;;
          Ok (p :: ps, d)
      end
  end.

Fixpoint params_eqb (a b : list SgrParamWrapper) : bool :=
  match a, b with
  | [], [] => true
  | p :: a', q :: b' => param_eqb p q && params_eqb a' b'
  | _, _ => false
  end.

Definition as_ansi_type (self : ColorStr) (ansi_type : AnsiColorType)
  : result ColorStr :=
  if sgr_is_color (_sgr_ self) then
    '(new_params, new_rgb) <-
      convert_params ansi_type (_sgr_params_ (_sgr_ self)) [] ;;
    if params_eqb new_params (_sgr_params_ (_sgr_ self)) then Ok self
    else
      let new_sgr := mk_sgr new_params new_rgb false in
      Ok (mk_ColorStr (serialize new_sgr (_base_str_ self) (_no_reset_ self))
                      (_base_str_ self) new_sgr (_no_reset_ self) ansi_type)
  else Ok self.

(** [bytes.count(sub)]: the non-overlapping occurrences of [sub]. *)
Fixpoint count_sub (fuel : nat) (sub s : bytes) : Z :=
  match fuel with
  | O => 0
  | S f =>
      match drop_prefix sub s with
      | Some r => 1 + count_sub f sub r
      | None =>
          match s with
          | EmptyString => 0
          | String _ s' => count_sub f sub s'
          end
      end
  end.

Definition count_CSI (s : bytes) : Z := count_sub (S (String.length s)) CSI s.

(** [s.partition(b'm')]: the parts before and after the first [m]. *)
Fixpoint partition_m (s : bytes) : bytes * bytes :=
  match s with
  | EmptyString => (EmptyString, EmptyString)
  | String c s' =>
      if Ascii.eqb c "m" then (EmptyString, s')
      else let '(a, b) := partition_m s' in (String c a, b)
  end.

(** The colour specifications of the model: none, a [ColorStr], or an
    [SgrSequence].  (The other shapes the constructor accepts - a literal
    escape sequence given as [color_spec], a scalar colour, a pair, a
    mapping - are resolved by [_solve_color_spec] and are not modelled.) *)
Inductive color_spec : Set :=
| SpecColorStr (c : ColorStr)
| SpecSgr (s : SgrSequence).

(** [_get_color_str_vars(base_str, color_spec, ansi_type)] for a
    [color_spec] that is a literal escape sequence, the case
    [ColorStr.__new__] reaches for an [obj] that starts with [CSI]; [str] and
    its encoding are identified. *)
Definition get_color_str_vars_literal (DEFAULT_ANSI : AnsiColorType)
  (base_str : option string) (literal : bytes) (ansi_type : option AnsiColorType)
  : result (SgrSequence * string) :=
  let ansi_type := match ansi_type with Some t => t | None => DEFAULT_ANSI end in
  let csi_count := count_CSI literal in
  if csi_count =? 0 then Raise ValueError
  else
    '(spec, base) <-
      (if 1 <? csi_count then
         let '(spec, byte_str) :=
           partition_m (removesuffix SGR_RESET (removeprefix CSI literal)) in
         if 1 <? count_CSI spec then Raise ValueError
         else Ok (spec, Some byte_str)
       else Ok (literal, base_str)) ;;
    sgr_params <- SgrSequence_init (InitIter (ArgBytes spec)) (Some ansi_type) ;;
    Ok (sgr_params, match base with Some b => b | None => EmptyString end).

(** [ColorStr.__new__(cls, obj, color_spec, ansi_type=..., no_reset=...)].
    [DEFAULT_ANSI] is fixed when the module is loaded, from the environment
    of the process. *)
Definition ColorStr_new (DEFAULT_ANSI : AnsiColorType)
  (obj : option string) (spec : option color_spec)
  (ansi_type : option AnsiColorType) (no_reset : bool) : result ColorStr :=
  match spec with
  | Some (SpecColorStr c) =>
      match ansi_type with
      | Some t =>
          (* [color_spec.ansi] is iterated as integers, none of which has the
             type [ansi_type] *)
          if negb (String.eqb (sgr_bytes (_sgr_ c)) "") then as_ansi_type c t
          else Ok c
      | None => Ok c
      end
  | _ =>
      let default_type := match ansi_type with Some t => t | None => DEFAULT_ANSI end in
      let finish (sgr : SgrSequence) (base_str : string) :=
        let typ :=
          match ansi_type with
          | None =>
              if sgr_is_color sgr then most_common (color_types sgr) default_type
              else default_type
          | Some _ => default_type
          end in
        Ok (mk_ColorStr (serialize sgr base_str no_reset) base_str sgr no_reset typ) in
      match obj, spec with
      | None, None =>
          Ok (mk_ColorStr (reset_suffix no_reset) EmptyString empty_sgr no_reset
                          default_type)
      | Some o, None =>
          if startswith o CSI then
            '(sgr, base_str) <-
              get_color_str_vars_literal DEFAULT_ANSI None o ansi_type ;;
            finish sgr base_str
          else finish empty_sgr o
      | _, Some (SpecSgr s) =>
          finish s (match obj with Some o => o | None => EmptyString end)
      | _, Some (SpecColorStr c) => Ok c
      end
  end.

(** The loop of [update_sgr] for the bold code over a sequence with bright
    colours: [for i, param in enumerate(new_sgr)], whose body pops and
    appends to the list being iterated.  The list iterator yields
    [_sgr_params_[i]] for [i = 0, 1, ...] until [i] reaches the current
    length.  The list never grows, so the loop runs at most as many times as
    the list was long when it started ([fuel]). *)
Fixpoint demote_loop (fuel : nat) (i : Z) : method unit :=
  fun s =>
    match nth_error (_sgr_params_ s) (Z.to_nat i) with
    | None => (Ok tt, s)
    | Some param =>
        match fuel with
        | O => (Ok tt, s)
        | S fuel' =>
            match param with
            | Colored px =>
                if type_eqb (cb_type px) ansicolor4Bit then
                  (_ <~ pop i ;;
                   n <~ lift (py_int (cb_bytes px)) ;;
                   append (n - 60) ;;;
                   demote_loop fuel' (i + 1)) s
                else demote_loop fuel' (i + 1) s
            | Plain _ => demote_loop fuel' (i + 1) s
            end
        end
    end.

(** The loop [for x in p] of [update_sgr] on the copy [new_sgr]. *)
Fixpoint update_sgr_loop (p : list Z) : method unit :=
  match p with
  | [] => ret tt
  | x :: p' =>
      (fun s =>
         match sgr_contains (ArgInt x) s with
         | Raise e => (Raise e, s)
         | Ok true => (i <~ index (IdxInt x) ;; _ <~ pop i ;; ret tt) s
         | Ok false =>
             if (x =? 1) && _has_bright_colors_ s
             then demote_loop (List.length (_sgr_params_ s)) 0 s
             else append x s
         end) ;;;
      update_sgr_loop p'
  end.

(** [update_sgr( *p )] for integer arguments. *)
Definition update_sgr (self : ColorStr) (p : list Z) : result ColorStr :=
  match p with
  | [] => Ok self
  | _ =>
      if existsb (fun x => (x =? _ANSI256_KEY2I fg) || (x =? _ANSI256_KEY2I bg)) p
      then Raise ValueError
      else
        match update_sgr_loop p (_sgr_ self) with
        | (Raise e, _) => Raise e
        | (Ok _, new_sgr) =>
            let ansi_type :=
              if sgr_is_color new_sgr
              then most_common (color_types new_sgr) (_ansi_type_ self)
              else _ansi_type_ self in
            Ok (mk_ColorStr
                  (serialize new_sgr (_base_str_ self) (_no_reset_ self))
                  (_base_str_ self) new_sgr (_no_reset_ self) ansi_type)
        end
  end.

(** The right operands of the binary operators of [ColorStr]: a [ColorStr],
    a [str], a member of [SgrParameter], a [Color], or an object of another
    type (which has an attribute [_sgr_] or not). *)
Inductive operand : Set :=
| OpColorStr (c : ColorStr)
| OpStr (s : string)
| OpSgrParameter (x : Z)
| OpColor (n : Z)
| OpOther (has_sgr : bool).



(** [ColorStr.__matmul__(self, other)]. *)
Definition ColorStr_matmul (self : ColorStr) (other : operand) : result ColorStr :=
  match other with
  | OpColorStr o =>
      _weak_var_update self
        (mk_weak_vars (Some (_sgr_ o)) None (Some (_no_reset_ o)))
  | _ => Raise TypeError
  end.

(** The property [Color.rgb] of [Color.from_rgb(rgb)], and the properties
    [ColorStr._color_dict_] and [ColorStr.rgb_dict]. *)
Definition Color_from_rgb (rgb : Int3Tuple) : result Z := rgb2hex rgb.
Definition Color_rgb (color : Z) : Int3Tuple := hex2rgb color.

(** [{k: f(v) for k, v in d.items()}] for an [f] that may raise: the items
    are visited in order and the first exception ends the comprehension. *)
Fixpoint map_values {A B : Type} (f : A -> result B)
  (d : list (ColorDictKeys * A)) : result (list (ColorDictKeys * B)) :=
  match d with
  | [] => Ok []
  | (k, v) :: d' =>
      v' <- f v ;;
      r <- map_values f d' ;;
      Ok ((k, v') :: r)
  end.

Definition _color_dict_ (self : ColorStr) : result (list (ColorDictKeys * Z)) :=
  map_values Color_from_rgb (_rgb_dict_ (_sgr_ self)).

Definition ColorStr_rgb_dict (self : ColorStr)
  : result (list (ColorDictKeys * Int3Tuple)) :=
  color_dict <- _color_dict_ self ;;
  Ok (map (fun kv => (fst kv, Color_rgb (snd kv))) color_dict).

(** The iteration order of the set [self.rgb_dict.keys() & other.rgb_dict]:
    a set of strings is iterated in the order of hashes that change from one
    process to the next, so the order is an argument. *)
Definition set_order (fg_first : bool) : list ColorDictKeys :=
  if fg_first then [fg; bg] else [bg; fg].

(** [ColorStr.__sub__(self, other)]. *)
Definition ColorStr_sub (fg_first : bool) (self : ColorStr) (other : operand)
  : result ColorStr :=
  let _rgb_diff_color (a b : Int3Tuple) : result Z :=
    Color_from_rgb (rgb_diff a b) in
  diff_dict <-
    match other with
    | OpColor n =>
        self_rgb <- ColorStr_rgb_dict self ;;
        map_values (fun v => _rgb_diff_color v (Color_rgb n)) self_rgb
    | OpColorStr o =>
        self_rgb <- ColorStr_rgb_dict self ;;
        other_rgb <- ColorStr_rgb_dict o ;;
        map_values (fun ab => _rgb_diff_color (fst ab) (snd ab))
          (flat_map
             (fun k =>
                match dict_get key_eqb self_rgb k, dict_get key_eqb other_rgb k with
                | Some a, Some b => [(k, (a, b))]
                | _, _ => []
                end)
             (set_order fg_first))
    | _ => Raise TypeError
    end ;;
  match diff_dict with
  | [] => Ok self
  | _ =>
      match rgb_dict_setter (_ansi_type_ self)
              (map (fun kv => (fst kv, Some (HexInt (snd kv)))) diff_dict)
              (_sgr_ self) with
      | (Raise e, _) => Raise e
      | (Ok _, sgr) => _weak_var_update self (mk_weak_vars (Some sgr) None None)
      end
  end.

(** ** Well-formed sequences

    The invariant the constructor and the methods of [SgrSequence] maintain
    between [_sgr_params_] and [_rgb_dict_]. *)

(** The colour key [colorbytes.__new__] reads off a byte string, if it reads
    one. *)
Definition bytes_key (b : bytes) : option ColorDictKeys :=
  match match_ansi (split ";" (removesuffix "m" (removeprefix CSI b))) with
  | Ok (_, k, _) => Some k
  | Raise _ => None
  end.

(** The slot a parameter occupies. *)
Definition key_of (p : SgrParamWrapper) : option ColorDictKeys :=
  match p with
  | Colored c => Some (fst (cb_rgb_dict c))
  | Plain _ => None
  end.

Definition okey_eqb (a b : option ColorDictKeys) : bool :=
  match a, b with
  | Some x, Some y => key_eqb x y
  | None, None => true
  | _, _ => false
  end.

Definition occupies (k : ColorDictKeys) (p : SgrParamWrapper) : bool :=
  okey_eqb (key_of p) (Some k).

(** The number of colour entries of [l] in slot [k]. *)
Definition count_key (k : ColorDictKeys) (l : list SgrParamWrapper) : nat :=
  List.length (filter (occupies k) l).

Definition dict_count (k : ColorDictKeys) (d : list (ColorDictKeys * Int3Tuple)) : nat :=
  List.length (filter (fun kv => key_eqb (fst kv) k) d).

(** A parameter is coherent when its bytes denote the slot it occupies: a
    colour parses to its own key, anything else does not parse as a colour. *)
Definition coherent (p : SgrParamWrapper) : bool :=
  okey_eqb (bytes_key (value_bytes p)) (key_of p).

(** Every parameter is coherent, each slot holds at most one colour, and
    [_rgb_dict_] has exactly the keys of the occupied slots. *)
Definition wf (s : SgrSequence) : bool :=
  forallb coherent (_sgr_params_ s)
  && forallb
       (fun k =>
          Nat.leb (count_key k (_sgr_params_ s)) 1
          && Nat.eqb (dict_count k (_rgb_dict_ s)) (count_key k (_sgr_params_ s)))
       [fg; bg].

(** The state of a sequence after the calls [append(v)] for [v] in [vs], one
    after the other, whether they return or raise. *)
Definition run_appends (vs : list Z) (s : SgrSequence) : SgrSequence :=
  fold_left (fun st v => snd (append v st)) vs s.

(** ** Checks used by the proofs *)

(** The decimal text of [n]: non-empty, digits only, and read back by
    [int]. *)
Definition no_sep (s : bytes) : bool :=
  forallb (fun c => negb (Ascii.eqb c ";")) (list_ascii_of_string s).

Definition byte_ok (n : Z) : bool :=
  match bytes_of_int n with
  | EmptyString => false
  | String c _ as s =>
      is_digit c && no_sep s
      && negb (Ascii.eqb (hd ESC (List.rev (list_ascii_of_string s))) "m")
      && match py_int s with Ok m => m =? n | Raise _ => false end
  end.

(** The colour codes in their wire form (section 6 of the specification):
    a 4-bit SGR code, an 8-bit palette index, a 24-bit RGB value, the last
    two for the foreground or the background. *)
Inductive wire_code : Set :=
| Wire4 (code : Z)
| Wire8 (k : ColorDictKeys) (n : Z)
| Wire24 (k : ColorDictKeys) (rgb : Int3Tuple).

Definition wire_type (w : wire_code) : AnsiColorType :=
  match w with
  | Wire4 _ => ansicolor4Bit
  | Wire8 _ _ => ansicolor8Bit
  | Wire24 _ _ => ansicolor24Bit
  end.

(** The encoded bytes: [b'%d' % code], and the fields joined by [b';']. *)
Definition wire_bytes (w : wire_code) : bytes :=
  match w with
  | Wire4 code => bytes_of_int code
  | Wire8 k n => join ";" (map bytes_of_int [_ANSI256_KEY2I k; 5; n])
  | Wire24 k (r, g, b) => join ";" (map bytes_of_int [_ANSI256_KEY2I k; 2; r; g; b])
  end.

Definition is_byte (n : Z) : bool := (0 <=? n) && (n <? 256).

Definition valid_wire (w : wire_code) : bool :=
  match w with
  | Wire4 code => in_I2KV code
  | Wire8 _ n => is_byte n
  | Wire24 _ (r, g, b) => is_byte r && is_byte g && is_byte b
  end.

(** The value of the class of [w] made from the wire bytes:
    [ansicolor4Bit(b)], [ansicolor8Bit(b)] or [ansicolor24Bit(b)]. *)
Definition wire_value (w : wire_code) : result colorbytes :=
  colorbytes_new (Some (wire_type w)) (Plain (wire_bytes w)).

(** Is [r] the value with this class, these bytes and this [_rgb_dict_]? *)
Definition result_cb_is (r : result colorbytes) (t : AnsiColorType) (b : bytes)
  (kv : ColorDictKeys * Int3Tuple) : bool :=
  match r with
  | Ok c => type_eqb (cb_type c) t && String.eqb (cb_bytes c) b && kv_eqb (cb_rgb_dict c) kv
  | Raise _ => false
  end.

Definition check_wire4 (code : Z) : bool :=
  match dict_get Z.eqb _ANSI16C_I2KV code with
  | Some kv =>
      result_cb_is (wire_value (Wire4 code)) ansicolor4Bit (bytes_of_int code) kv
      && result_cb_is (colorbytes_new None (Plain (bytes_of_int code)))
           ansicolor4Bit (bytes_of_int code) kv
  | None => false
  end.

Definition check_wire8 (k : ColorDictKeys) (n : Z) : bool :=
  match ansi_8bit_to_rgb n with
  | Ok rgb =>
      result_cb_is (wire_value (Wire8 k n)) ansicolor8Bit (wire_bytes (Wire8 k n)) (k, rgb)
      && result_cb_is (colorbytes_new None (Plain (wire_bytes (Wire8 k n))))
           ansicolor8Bit (wire_bytes (Wire8 k (rgb_to_ansi_8bit rgb))) (k, rgb)
  | Raise _ => false
  end.

(** The last byte of [s], if any, is not [m]. *)
Definition last_not_m (s : bytes) : Prop :=
  Ascii.eqb (hd ESC (List.rev (list_ascii_of_string s))) "m" = false.

(** Equality of sequences, and the check behind the theorem on bold
    followed by a standard colour. *)
Definition value_eqb (a b : sgr_value) : bool :=
  match a, b with
  | Plain x, Plain y => String.eqb x y
  | Colored x, Colored y =>
      type_eqb (cb_type x) (cb_type y) && String.eqb (cb_bytes x) (cb_bytes y)
      && kv_eqb (cb_rgb_dict x) (cb_rgb_dict y)
  | _, _ => false
  end.

Fixpoint list_eqb {A} (eqb : A -> A -> bool) (a b : list A) : bool :=
  match a, b with
  | [], [] => true
  | x :: a', y :: b' => eqb x y && list_eqb eqb a' b'
  | _, _ => false
  end.

Definition sgr_eqb (a b : SgrSequence) : bool :=
  list_eqb value_eqb (_sgr_params_ a) (_sgr_params_ b)
  && list_eqb kv_eqb (_rgb_dict_ a) (_rgb_dict_ b)
  && Bool.eqb (_has_bright_colors_ a) (_has_bright_colors_ b).

Definition check_promotion (c : Z) : bool :=
  match (append 1 ;;; append c) empty_sgr with
  | (Ok _, bright) =>
      String.eqb (sgr_bytes bright)
                 (String ESC "[" ++ bytes_of_int (c + 60) ++ "m")%string
      && match values bright with
         | [v] => String.eqb v (bytes_of_int (c + 60))
         | _ => false
         end
      && match find (IdxBytes "1") bright with
         | (Ok i, s) => (i =? -1) && sgr_eqb s bright
         | _ => false
         end
      && _has_bright_colors_ bright
      && match remove (IdxInt (c + 60)) bright with
         | (Ok _, s) => sgr_eqb s empty_sgr
         | _ => false
         end
      && match (append 1 ;;; append c) (snd (remove (IdxInt (c + 60)) bright)) with
         | (Ok _, s) => sgr_eqb s bright
         | _ => false
         end
  | _ => false
  end.

(** [wf] as a proposition. *)
Definition WF (s : SgrSequence) : Prop :=
  Forall (fun p => coherent p = true) (_sgr_params_ s)
  /\ forall k,
       (count_key k (_sgr_params_ s) <= 1)%nat
       /\ dict_count k (_rgb_dict_ s) = count_key k (_sgr_params_ s).

(** A (recursive) call of [pop] is harmless when it keeps the invariant and
    adds no colour to any slot. *)
Definition shrinks (f : Z -> method SgrParamWrapper) : Prop :=
  forall j s,
    WF s ->
    WF (snd (f j s))
    /\ forall k,
         (count_key k (_sgr_params_ (snd (f j s))) <= count_key k (_sgr_params_ s))%nat.

(** The checks behind [append]: the colour made for a 4-bit code (and for
    its bright counterpart) is coherent and sits in the slot of the code;
    the text of any other recognised code does not parse as a colour. *)
Definition ok_entry (k : ColorDictKeys) (kv : ColorDictKeys * Int3Tuple) : bool :=
  key_eqb (fst kv) k
  && match from_rgb ansicolor4Bit (fst kv) (RgbTuple (snd kv)) with
     | Ok c => coherent (Colored c) && key_eqb (fst (cb_rgb_dict c)) k
     | Raise _ => false
     end.

Definition check_append (v : Z) : bool :=
  match dict_get Z.eqb _ANSI16C_I2KV v with
  | Some kv =>
      ok_entry (fst kv) kv
      && (mem v _ANSI16C_BRIGHT
          || match dict_get Z.eqb _ANSI16C_I2KV (v + 60) with
             | Some kv60 => ok_entry (fst kv) kv60
             | None => false
             end)
  | None => coherent (Plain (bytes_of_int v))
  end.




(** ** Sample values named in the statements *)

(** A [ColorStr] over the text ["x"] with the style [sgr], as
    [_weak_var_update] and the constructor lay it out. *)
Definition styled (sgr : SgrSequence) (no_reset : bool) (t : AnsiColorType)
  : ColorStr :=
  mk_ColorStr (serialize sgr "x" no_reset) "x" sgr no_reset t.


(** [SgrSequence([31])]: red in the foreground. *)
Definition standard_red : SgrSequence :=
  mk_sgr [Colored (mk_colorbytes ansicolor4Bit "31" (fg, (170, 0, 0)))]
         [(fg, (170, 0, 0))] false.

(** [SgrSequence([31, 101])]: red on a bright red background. *)
Definition red_on_bright_red : SgrSequence :=
  mk_sgr [Colored (mk_colorbytes ansicolor4Bit "31" (fg, (170, 0, 0)));
          Colored (mk_colorbytes ansicolor4Bit "101" (bg, (255, 85, 85)))]
         [(fg, (170, 0, 0)); (bg, (255, 85, 85))] true.

(** The sequence holding the one colour [t.from_rgb({k: rgb})]. *)
Definition one_color (t : AnsiColorType) (k : ColorDictKeys) (rgb : Int3Tuple)
  : result SgrSequence :=
  c <- from_rgb t k (RgbTuple rgb) ;;
  SgrSequence_init (InitIter (ArgList [ItemColor c])) None.

(** [SgrSequence([0])]: the reset code alone. *)
Definition reset_sgr : SgrSequence := mk_sgr [Plain "0"] [] false.


(** ** The bit trick of [_get_sgr_bitmask], byte by byte *)

(** The byte of [(~b & a)] at the place of the byte [c]: zero exactly when
    [c] has all the bits of [;] set. *)
Definition mask_byte (c : ascii) : Z := Z.land (Z.lnot (byte_val c)) 59.

(** The pair [prepass] holds for the byte [c]. *)
Definition prepass_of (c : ascii) : bool * Z :=
  (negb (mask_byte c =? 0), byte_val c mod 48).

Definition from_bytes_list (l : list ascii) : Z :=
  fold_left (fun acc c => acc * 256 + byte_val c) l 0.

(** The decimal text of [n] is a non-empty run of digits that the loop of
    [_get_sgr_bitmask] reads back as [n]. *)
Definition dec_ok (n : Z) : bool :=
  let l := list_ascii_of_string (bytes_of_int n) in
  match l with
  | [] => false
  | _ =>
      forallb is_digit l
      && match alloc (map (fun c => byte_val c mod 48) l) with
         | Ok m => m =? n
         | Raise _ => false
         end
  end.

(** A digit is no separator for the bit trick, and is neither [m] nor [;]. *)
Definition char_ok (c : ascii) : bool :=
  implb (is_digit c)
        (fst (prepass_of c) && negb (Ascii.eqb c "m") && negb (Ascii.eqb c ";")).

(** ** Styles as lists of entries

    The constructor reads a list of parameters through their bytes only, so
    what it builds from [[*self, *other]] is determined by the texts of the
    entries. *)

(** An entry of a style: a code that is no colour, or a colour in wire
    form. *)
Inductive entry : Set :=
| EPlain (v : Z)
| EColor (w : wire_code).

(** The integers [_get_sgr_bitmask] reads from the bytes of an entry. *)
Definition entry_ints (e : entry) : list Z :=
  match e with
  | EPlain v => [v]
  | EColor (Wire4 code) => [code]
  | EColor (Wire8 k n) => [_ANSI256_KEY2I k; 5; n]
  | EColor (Wire24 k (r, g, b)) => [_ANSI256_KEY2I k; 2; r; g; b]
  end.

Definition entry_bytes (e : entry) : bytes :=
  join ";" (map bytes_of_int (entry_ints e)).

Definition entry_key (e : entry) : option ColorDictKeys :=
  match e with
  | EPlain _ => None
  | EColor (Wire4 code) => option_map fst (dict_get Z.eqb _ANSI16C_I2KV code)
  | EColor (Wire8 k _) | EColor (Wire24 k _) => Some k
  end.

Definition valid_entry (e : entry) : bool :=
  match e with
  | EPlain v => is_byte v && negb (in_I2KV v) && negb (v =? 38) && negb (v =? 48)
  | EColor w => valid_wire w
  end.

(** The value [_gen_colorbytes] makes of the integers of an entry. *)
Definition regen (e : entry) : result sgr_value :=
  match e with
  | EPlain v => Ok (Plain (bytes_of_int v))
  | EColor (Wire4 code) =>
      match dict_get Z.eqb _ANSI16C_I2KV code with
      | Some (k, rgb) => c <- from_rgb ansicolor4Bit k (RgbTuple rgb) ;; Ok (Colored c)
      | None => Ok (Plain (bytes_of_int code))
      end
  | EColor (Wire8 k n) => c <- new_8b (_ANSI256_KEY2I k) 5 (NInt n) ;; Ok (Colored c)
  | EColor (Wire24 k (r, g, b)) =>
      c <- new_24b k (NInt r) (NInt g) (NInt b) ;; Ok (Colored c)
  end.

Definition regen_value (e : entry) : sgr_value :=
  match regen e with
  | Ok x => x
  | Raise _ => Plain EmptyString
  end.

(** The standard 4-bit colour that a bold code promotes, with the colour it
    is promoted to. *)
Definition promoted (x : sgr_value) : option colorbytes :=
  match x with
  | Colored c =>
      if type_eqb (cb_type c) ansicolor4Bit then
        match py_int (cb_bytes c) with
        | Ok code =>
            if mem code _ANSI16C_BRIGHT then None
            else if mem code _ANSI16C_STD then
              match colorbytes_new (Some ansicolor4Bit)
                      (Plain (bytes_of_int (code + 60))) with
              | Ok c' => Some c'
              | Raise _ => None
              end
            else None
        | Raise _ => None
        end
      else None
  | Plain _ => None
  end.

(** What the loop of the constructor relies on in a value it is handed: its
    bytes denote its slot, and a 4-bit colour reads as a bright code, or as
    a standard code whose bright counterpart is a colour of the same slot. *)
Definition good_value (x : sgr_value) : bool :=
  coherent x
  && match x with
     | Plain _ => true
     | Colored c =>
         if type_eqb (cb_type c) ansicolor4Bit then
           match py_int (cb_bytes c) with
           | Ok code =>
               mem code _ANSI16C_BRIGHT
               || (mem code _ANSI16C_STD
                   && match promoted x with
                      | Some c' =>
                          key_eqb (fst (cb_rgb_dict c')) (fst (cb_rgb_dict c))
                          && coherent (Colored c')
                      | None => false
                      end)
           | Raise _ => false
           end
         else true
     end.

(** The checks on the value made of a 4-bit colour code. *)
Definition check_regen4 (code : Z) : bool :=
  is_byte code && negb (code =? 38) && negb (code =? 48)
  && match regen (EColor (Wire4 code)) with
     | Ok (Colored c) =>
         String.eqb (cb_bytes c) (bytes_of_int code)
         && okey_eqb (Some (fst (cb_rgb_dict c))) (entry_key (EColor (Wire4 code)))
         && good_value (Colored c)
     | _ => false
     end.

(** The checks on the text of a code that is no colour. *)
Definition check_plain (v : Z) : bool :=
  in_I2KV v || (v =? 38) || (v =? 48)
  || (coherent (Plain (bytes_of_int v))
      && Bool.eqb (String.eqb (bytes_of_int v) "1") (v =? 1)
      && Bool.eqb (String.eqb (bytes_of_int v) "0") (v =? 0)).

(** ** The loop of the constructor

    What holds of the local variables of [__init__] between two iterations
    of its loop: the sequence under construction satisfies the class
    invariant, a pending bold code is among the parameters, and each slot
    variable names the colour of its slot among the parameters. *)
Definition has_bold_param (l : list SgrParamWrapper) : bool :=
  existsb (fun p => String.eqb (value_bytes p) "1") l.

Definition Inv (st : init_state) : Prop :=
  WF (st_self st)
  /\ (st_has_bold st = true -> has_bold_param (_sgr_params_ (st_self st)) = true)
  /\ (forall k,
        match color_slot k st with
        | Some p => In p (_sgr_params_ (st_self st)) /\ key_of p = Some k
        | None => count_key k (_sgr_params_ (st_self st)) = 0%nat
        end).

(** What one iteration does to the local variables: nothing when the bytes
    of [x] were seen before; otherwise it appends a parameter [x'], which is
    [x] or the bright counterpart of [x], and records it in its slot. *)
Definition Post (x : sgr_value) (st st' : init_state) : Prop :=
  if existsb (String.eqb (value_bytes x)) (st_values st) then st' = st
  else
    exists x' l,
      st_values st' = value_bytes x' :: st_values st
      /\ _sgr_params_ (st_self st') = l ++ [x']
      /\ (forall p, In p l -> In p (_sgr_params_ (st_self st)))
      /\ (forall p, In p (_sgr_params_ (st_self st)) -> key_of p = None ->
           String.eqb (value_bytes p) "1" = false -> In p l)
      /\ (x' = x
          \/ (st_is_bold st = true
              /\ exists c', promoted x = Some c' /\ x' = Colored c'))
      /\ key_of x' = key_of x
      /\ st_is_bold st' = (st_is_bold st || String.eqb (value_bytes x) "1")
      /\ forall k,
           color_slot k st'
           = if okey_eqb (key_of x) (Some k) then Some x' else color_slot k st.

Definition init0 : init_state := mk_init empty_sgr [] None None false false.

(** The parameters are not empty once a value was seen, and the reset code
    was not met. *)
Definition NE (st : init_state) : Prop :=
  st_values st <> [] -> _sgr_params_ (st_self st) <> [].

Definition NoReset (st : init_state) : Prop :=
  (forall p, In p (_sgr_params_ (st_self st)) -> String.eqb (value_bytes p) "0" = false)
  /\ existsb (String.eqb "0") (st_values st) = false.





(** Entries read through their bytes: none is the reset code; none is the
    bold or the reset code. *)
Definition reset_free (es : list entry) : bool :=
  forallb (fun e => negb (String.eqb (entry_bytes e) "0")) es.

Definition no_bold_reset (es : list entry) : bool :=
  forallb (fun e => negb (String.eqb (entry_bytes e) "1")
                    && negb (String.eqb (entry_bytes e) "0")) es.

(** The colours of slot [k] among the entries: how many there are, and the
    bytes of the first. *)
Definition in_slot (k : ColorDictKeys) (e : entry) : bool :=
  okey_eqb (entry_key e) (Some k).

Definition entry_count (k : ColorDictKeys) (es : list entry) : nat :=
  List.length (filter (in_slot k) es).

Definition one_per_slot (es : list entry) : bool :=
  forallb (fun k => Nat.leb (entry_count k es) 1) [fg; bg].


(** An extended-colour introducer whose fields are cut short: [38] or [48]
    alone, followed by [5] alone, or followed by a kind other than [5] and
    fewer than three fields. *)
Definition truncated (t : list Z) : bool :=
  match t with
  | [] => false
  | k :: rest =>
      ((k =? 38) || (k =? 48))
      && match rest with
         | [] => true
         | kind :: rest1 =>
             if kind =? 5 then match rest1 with [] => true | _ => false end
             else Nat.ltb (List.length rest1) 3
         end
  end.

(** [list(map(int, x.split(b';')))], which the docstring of
    [_get_sgr_bitmask] names as its equivalent. *)
Fixpoint ints_of_fields (fields : list bytes) : result (list Z) :=
  match fields with
  | [] => Ok []
  | f :: fields' =>
      n <- py_int f ;;
      ns <- ints_of_fields fields' ;;
      Ok (n :: ns)
  end.

Definition split_ints (x : bytes) : result (list Z) := ints_of_fields (split ";" x).

(** The class of a value and of an entry, when it is a colour. *)
Definition value_type (x : sgr_value) : option AnsiColorType :=
  match x with
  | Colored c => Some (cb_type c)
  | Plain _ => None
  end.

Definition entry_type (e : entry) : option AnsiColorType :=
  match e with
  | EPlain _ => None
  | EColor w => Some (wire_type w)
  end.

(** Every colour among the entries has the class [t]. *)
Definition typed_entries (t : AnsiColorType) (es : list entry) : bool :=
  forallb (fun e => match entry_type e with
                    | Some t' => type_eqb t' t
                    | None => true
                    end) es.

Definition plain_entry (e : entry) : bool :=
  match e with
  | EPlain _ => true
  | EColor _ => false
  end.

(** The deleter of the property [rgb_dict]:
    [for k in self._rgb_dict_.keys(): self.pop(self.index(self.get_color(k)))].
    The iterator of a dict view compares the size of the dict with the size
    it had when the iteration began each time it is asked for a key, also
    after the last key, and raises [RuntimeError] when they differ. *)
Fixpoint deleter_loop (size : nat) (keys : list ColorDictKeys) : method unit :=
  fun s =>
    if negb (Nat.eqb (List.length (_rgb_dict_ s)) size) then (Raise RuntimeError, s)
    else
      match keys with
      | [] => (Ok tt, s)
      | k :: keys' =>
          (i <~ index (index_arg_of_color (get_color k s)) ;;
           _ <~ pop i ;;
           deleter_loop size keys') s
      end.

Definition rgb_dict_deleter : method unit :=
  fun s => deleter_loop (List.length (_rgb_dict_ s)) (dict_keys (_rgb_dict_ s)) s.

(** [SgrSequence([4, 31, 44])]: underlined, red on blue. *)
Definition underlined_red_on_blue : SgrSequence :=
  mk_sgr [Plain "4";
          Colored (mk_colorbytes ansicolor4Bit "31" (fg, (170, 0, 0)));
          Colored (mk_colorbytes ansicolor4Bit "44" (bg, (0, 0, 170)))]
         [(fg, (170, 0, 0)); (bg, (0, 0, 170))] false.

(** No two of the byte strings are equal. *)
Fixpoint distinct (l : list bytes) : bool :=
  match l with
  | [] => true
  | x :: l' => negb (existsb (String.eqb x) l') && distinct l'
  end.

(** A 4-bit colour of bright intensity. *)
Definition bright_entry (e : entry) : bool :=
  match e with
  | EColor (Wire4 code) => mem code _ANSI16C_BRIGHT
  | _ => false
  end.

(** The [rgb_dict] items of the colours among the values, in order. *)
Definition colours_of (xs : list sgr_value) : list (ColorDictKeys * Int3Tuple) :=
  flat_map (fun x => match x with
                     | Colored c => [cb_rgb_dict c]
                     | Plain _ => []
                     end) xs.

(** The sequence whose parameters are the values of the entries. *)
Definition sequence_of (es : list entry) : SgrSequence :=
  mk_sgr (map regen_value es) (colours_of (map regen_value es))
         (existsb bright_entry es).

(** A value that sets [_has_bright_colors_]: a 4-bit colour whose code is of
    bright intensity. *)
Definition value_bright (x : sgr_value) : bool :=
  match x with
  | Colored c =>
      type_eqb (cb_type c) ansicolor4Bit
      && match py_int (cb_bytes c) with
         | Ok n => mem n _ANSI16C_BRIGHT
         | Raise _ => false
         end
  | Plain _ => false
  end.

(** What one iteration of the constructor does with a value that was not
    seen, is not the bold code and whose slot is free, when no bold code was
    met: the value is appended and recorded. *)
Definition fresh_step (st : init_state) (x : sgr_value) : init_state :=
  mk_init
    (mk_sgr (_sgr_params_ (st_self st) ++ [x])
            (match x with
             | Colored c =>
                 dict_set key_eqb (_rgb_dict_ (st_self st))
                          (fst (cb_rgb_dict c)) (snd (cb_rgb_dict c))
             | Plain _ => _rgb_dict_ (st_self st)
             end)
            (_has_bright_colors_ (st_self st) || value_bright x))
    (value_bytes x :: st_values st)
    (if occupies fg x then Some x else st_fg_slot st)
    (if occupies bg x then Some x else st_bg_slot st)
    false (st_has_bold st).

(** The calls [append(v)] for [v] in [vs], one after the other, up to the
    first that raises. *)
Fixpoint append_all (vs : list Z) : method unit :=
  match vs with
  | [] => ret tt
  | v :: vs' => append v ;;; append_all vs'
  end.

(** An entry [append] accepts: a member of [SgrParameter] that is no colour,
    or a 4-bit colour. *)
Definition appendable (e : entry) : bool :=
  match e with
  | EPlain v => mem v _SGR_PARAM_VALUES
  | EColor (Wire4 _) => true
  | EColor _ => false
  end.

(** The bright flag [append] leaves: the intensity of the last 4-bit colour
    appended. *)
Definition append_flag (es : list entry) (b0 : bool) : bool :=
  fold_left (fun b e => match e with
                        | EColor (Wire4 code) => mem code _ANSI16C_BRIGHT
                        | _ => b
                        end) es b0.

(** *** The setter of [rgb_dict] *)

(** A [color_dict] whose values are [Color] objects (integers) or [None]. *)
Definition color_items (color_dict : list (ColorDictKeys * option Z))
  : list (ColorDictKeys * option rgb_arg) :=
  map (fun kv => (fst kv, option_map HexInt (snd kv))) color_dict.

(** The colour the items of [color_dict] assign to the key [k], if they
    assign one: the value of the last item with this key whose value is not
    [None]. *)
Fixpoint assigned (k : ColorDictKeys) (color_dict : list (ColorDictKeys * option Z))
  : option Z :=
  match color_dict with
  | [] => None
  | (k', v) :: rest =>
      match assigned k rest with
      | Some n => Some n
      | None => if key_eqb k' k then v else None
      end
  end.

(** Every 4-bit colour of the palette has a code in either slot, and the
    code is a colour code of that slot. *)
Definition check_kv2i : bool :=
  forallb
    (fun x =>
       forallb
         (fun k =>
            match dict_get kv_eqb _ANSI16C_KV2I (k, snd x) with
            | Some code =>
                in_I2KV code
                && okey_eqb (entry_key (EColor (Wire4 code))) (Some k)
            | None => false
            end)
         [fg; bg])
    base_entries.

(** *** ColorStr.as_ansi_type *)

(** What [as_ansi_type] puts in the place of the parameter [p]: [p] itself
    when it is no colour or a colour of the class [ansi_type], and the value
    [ansi_type(p._value_)], a colour of the same slot, otherwise. *)
Definition converted (ansi_type : AnsiColorType) (p q : SgrParamWrapper) : Prop :=
  match p with
  | Plain _ => q = p
  | Colored c =>
      if type_eqb (cb_type c) ansi_type then q = p
      else exists c',
             q = Colored c'
             /\ colorbytes_new (Some ansi_type) p = Ok c'
             /\ fst (cb_rgb_dict c') = fst (cb_rgb_dict c)
  end.

(** Is a colour of the slot [k] whose class is not [ansi_type] among the
    parameters? *)
Definition converts (ansi_type : AnsiColorType) (k : ColorDictKeys)
  (l : list SgrParamWrapper) : bool :=
  existsb (fun p => match p with
                    | Colored c =>
                        key_eqb (fst (cb_rgb_dict c)) k
                        && negb (type_eqb (cb_type c) ansi_type)
                    | Plain _ => false
                    end) l.

(** *** ColorStr.__sub__ *)

(** The channels of the colours a style holds are 8-bit values. *)
Definition channels_ok (s : SgrSequence) : bool :=
  forallb (fun kv => in_range (snd kv)) (_rgb_dict_ s).

(** The colour that [self - other] gives the slot [k], if it gives one: the
    difference of the colour [self] has in the slot and the colour [other],
    or the colour [other] has in the slot. *)
Definition diff_rgb (self : ColorStr) (other : operand) (k : ColorDictKeys)
  : option Int3Tuple :=
  match dict_get key_eqb (_rgb_dict_ (_sgr_ self)) k with
  | Some a =>
      match other with
      | OpColor n => Some (rgb_diff a (Color_rgb n))
      | OpColorStr o =>
          match dict_get key_eqb (_rgb_dict_ (_sgr_ o)) k with
          | Some b => Some (rgb_diff a b)
          | None => None
          end
      | _ => None
      end
  | None => None
  end.

(** The channels of the colours of the right operand of [-] are 8-bit
    values; a [Color] is in range by construction. *)
Definition operand_in_range (other : operand) : bool :=
  match other with
  | OpColorStr o => channels_ok (_sgr_ o)
  | _ => true
  end.

(** *** The values of the colour classes *)

(** What [colorbytes.__new__] reads off a byte string: the class its fields
    imply, the slot and the colour. *)
Definition read_bytes (b : bytes)
  : result (AnsiColorType * ColorDictKeys * Int3Tuple) :=
  match_ansi (split ";" (removesuffix "m" (removeprefix CSI b))).

(** The values of the colour classes: what [from_rgb] returns, and what a
    class, or [colorbytes] itself, returns when it is applied to bytes or to
    a value of a colour class. *)
Inductive made : colorbytes -> Prop :=
| made_from_rgb (cls : AnsiColorType) (k : ColorDictKeys) (v : rgb_arg)
    (c : colorbytes) :
    from_rgb cls k v = Ok c -> made c
| made_of_bytes (cls : option AnsiColorType) (raw : bytes) (c : colorbytes) :
    colorbytes_new cls (Plain raw) = Ok c -> made c
| made_of_value (cls : option AnsiColorType) (c0 c : colorbytes) :
    made c0 -> colorbytes_new cls (Colored c0) = Ok c -> made c.

(** The checks on the 4-bit codes: the colour of a code is encoded by the
    code, and its channels are 8-bit values. *)
Definition check_encode4 : bool :=
  forallb
    (fun e =>
       match rgb2ansi_color_esc ansicolor4Bit (fst (snd e)) (snd (snd e)) with
       | Ok b => String.eqb b (bytes_of_int (fst e))
       | Raise _ => false
       end
       && in_range (snd (snd e)))
    _ANSI16C_I2KV.

(** The checks on the colours of the 4-bit palette: the code of a colour in
    a slot is a code of that colour in that slot, and the nearest colour of
    the palette to it is the colour itself. *)
Definition check_nearest4 : bool :=
  forallb
    (fun x =>
       rgb_eqb (nearest_ansi_4bit_rgb (snd x)) (snd x)
       && forallb
            (fun k =>
               match dict_get kv_eqb _ANSI16C_KV2I (k, snd x) with
               | Some code =>
                   match dict_get Z.eqb _ANSI16C_I2KV code with
                   | Some kv => kv_eqb kv (k, snd x)
                   | None => false
                   end
               | None => false
               end)
            [fg; bg])
    base_entries.

(** The check on an 8-bit index: its colour has 8-bit channels, and the
    index the quantiser picks for the colour denotes the same colour. *)
Definition check_palette8 (n : Z) : bool :=
  match ansi_8bit_to_rgb n with
  | Ok rgb =>
      in_range rgb
      && match ansi_8bit_to_rgb (rgb_to_ansi_8bit rgb) with
         | Ok rgb' => rgb_eqb rgb' rgb
         | Raise _ => false
         end
  | Raise _ => false
  end.

(** ** Proofs *)

(** *** Ranges and finite checks *)

Lemma range_In (n : nat) : forall a x, In x (range a n) <-> a <= x < a + Z.of_nat n.
Proof.
  induction n as [|n IH]; intros a x; simpl range.
  - simpl. lia.
  - simpl In. rewrite IH. lia.
Qed.

Lemma forallb_range (P : Z -> bool) (a : Z) (n : nat) :
  forallb P (range a n) = true ->
  forall x, a <= x < a + Z.of_nat n -> P x = true.
Proof.
  intros H x Hx. rewrite forallb_forall in H. apply H, range_In, Hx.
Qed.

Lemma mem_In (x : Z) (l : list Z) : mem x l = true <-> In x l.
Proof.
  unfold mem. rewrite existsb_exists. split.
  - intros [y [Hy E]]. apply Z.eqb_eq in E. now subst.
  - intros H. exists x. split; [exact H | apply Z.eqb_refl].
Qed.

Lemma forallb_mem (P : Z -> bool) (l : list Z) :
  forallb P l = true -> forall x, mem x l = true -> P x = true.
Proof.
  intros H x Hx. rewrite forallb_forall in H. apply H, mem_In, Hx.
Qed.

(** *** Decimal text of the integers 0..255 *)

Lemma byte_ok_all : forall n, 0 <= n < 256 -> byte_ok n = true.
Proof.
  apply (forallb_range byte_ok 0 256). vm_compute. reflexivity.
Qed.

(** *** Byte strings *)

Lemma list_ascii_app (a b : string) :
  list_ascii_of_string (a ++ b)%string
  = list_ascii_of_string a ++ list_ascii_of_string b.
Proof.
  induction a as [|c a IH]; simpl; [reflexivity | now rewrite IH].
Qed.

Lemma split_nosep (s : bytes) : no_sep s = true -> split ";" s = [s].
Proof.
  unfold no_sep. induction s as [|c s IH]; simpl; intros H; [reflexivity|].
  apply andb_true_iff in H. destruct H as [Hc Hs].
  apply negb_true_iff in Hc. rewrite Hc, (IH Hs). reflexivity.
Qed.

Lemma split_app (s rest : bytes) :
  no_sep s = true ->
  split ";" (s ++ String ";" rest)%string = s :: split ";" rest.
Proof.
  unfold no_sep. induction s as [|c s IH]; simpl; intros H; [reflexivity|].
  apply andb_true_iff in H. destruct H as [Hc Hs].
  apply negb_true_iff in Hc. rewrite Hc, (IH Hs). reflexivity.
Qed.

Lemma split_join (l : list bytes) :
  l <> [] -> Forall (fun s => no_sep s = true) l -> split ";" (join ";" l) = l.
Proof.
  induction l as [|s l IH]; intros Hne Hall; [congruence|].
  inversion Hall as [|? ? Hs Hl]; subst.
  destruct l as [|t l].
  - simpl. now apply split_nosep.
  - change (join ";" (s :: t :: l)) with (s ++ String ";" (join ";" (t :: l)))%string.
    rewrite (split_app _ _ Hs), IH; [reflexivity | congruence | exact Hl].
Qed.

Lemma digit_not_ESC (c : ascii) : is_digit c = true -> Ascii.eqb ESC c = false.
Proof.
  intros H. destruct (Ascii.eqb ESC c) eqn:E; [|reflexivity].
  apply Ascii.eqb_eq in E. subst c. discriminate H.
Qed.

Lemma removeprefix_CSI_digit (c : ascii) (s : bytes) :
  is_digit c = true -> removeprefix CSI (String c s) = String c s.
Proof.
  intros H. unfold removeprefix, CSI. cbn [drop_prefix].
  now rewrite (digit_not_ESC c H).
Qed.

Lemma string_rev_cons (s : bytes) :
  string_rev s = string_of_list_ascii (List.rev (list_ascii_of_string s)).
Proof. reflexivity. Qed.

Lemma removesuffix_m_last (s : bytes) :
  Ascii.eqb (hd ESC (List.rev (list_ascii_of_string s))) "m" = false ->
  removesuffix "m" s = s.
Proof.
  intros H. unfold removesuffix.
  change (string_rev "m") with "m". rewrite string_rev_cons.
  destruct (List.rev (list_ascii_of_string s)) as [|c t];
    cbn [drop_prefix string_of_list_ascii hd] in *.
  - reflexivity.
  - rewrite Ascii.eqb_sym, H. reflexivity.
Qed.

Lemma last_char_app (a b : bytes) :
  b <> EmptyString ->
  hd ESC (List.rev (list_ascii_of_string (a ++ b)%string))
  = hd ESC (List.rev (list_ascii_of_string b)).
Proof.
  intros Hb. rewrite list_ascii_app, rev_app_distr.
  destruct (List.rev (list_ascii_of_string b)) as [|x t] eqn:E.
  - apply (f_equal (@List.length _)) in E. rewrite length_rev in E.
    destruct b; [congruence | discriminate E].
  - reflexivity.
Qed.

(** What [byte_ok] gives for one integer of 0..255. *)
Lemma byte_ok_spec (n : Z) :
  0 <= n < 256 ->
  exists c s,
    bytes_of_int n = String c s
    /\ is_digit c = true
    /\ no_sep (bytes_of_int n) = true
    /\ Ascii.eqb (hd ESC (List.rev (list_ascii_of_string (bytes_of_int n)))) "m" = false
    /\ py_int (bytes_of_int n) = Ok n.
Proof.
  intros Hn. pose proof (byte_ok_all n Hn) as H. unfold byte_ok in H.
  destruct (bytes_of_int n) as [|c s] eqn:E; [discriminate H|].
  exists c, s.
  apply andb_true_iff in H. destruct H as [H Hint].
  apply andb_true_iff in H. destruct H as [H Hlast].
  apply andb_true_iff in H. destruct H as [Hdig Hsep].
  repeat split; try assumption.
  - now apply negb_true_iff.
  - destruct (py_int (String c s)) as [m|e]; [|discriminate].
    f_equal. now apply Z.eqb_eq.
Qed.

(** *** Decidable equalities *)

Lemma key_eqb_eq (a b : ColorDictKeys) : key_eqb a b = true <-> a = b.
Proof. destruct a, b; simpl; split; congruence. Qed.

Lemma type_eqb_eq (a b : AnsiColorType) : type_eqb a b = true <-> a = b.
Proof. destruct a, b; simpl; split; congruence. Qed.

Lemma rgb_eqb_eq (a b : Int3Tuple) : rgb_eqb a b = true <-> a = b.
Proof.
  destruct a as [[r1 g1] b1], b as [[r2 g2] b2]. unfold rgb_eqb.
  rewrite !andb_true_iff, !Z.eqb_eq. split.
  - intros [[-> ->] ->]. reflexivity.
  - intros H. inversion H. auto.
Qed.

Lemma kv_eqb_eq (a b : ColorDictKeys * Int3Tuple) : kv_eqb a b = true <-> a = b.
Proof.
  destruct a as [k1 v1], b as [k2 v2]. unfold kv_eqb. simpl.
  rewrite andb_true_iff, key_eqb_eq, rgb_eqb_eq. split.
  - intros [-> ->]. reflexivity.
  - intros H. inversion H. auto.
Qed.

Lemma result_cb_is_true r t b kv :
  result_cb_is r t b kv = true -> r = Ok (mk_colorbytes t b kv).
Proof.
  destruct r as [[t' b' kv']|e]; simpl; [|discriminate].
  rewrite !andb_true_iff, type_eqb_eq, String.eqb_eq, kv_eqb_eq.
  intros [[-> ->] ->]. reflexivity.
Qed.

(** *** The wire forms *)

Lemma in_I2KV_keys (code : Z) :
  in_I2KV code = true -> In code (dict_keys _ANSI16C_I2KV).
Proof.
  unfold in_I2KV. generalize _ANSI16C_I2KV as d.
  induction d as [|[k v] d IH]; simpl; [discriminate|].
  destruct (Z.eqb_spec k code) as [->|Hne]; [now left|].
  intros H. right. now apply IH.
Qed.

Lemma check_wire4_all (code : Z) : in_I2KV code = true -> check_wire4 code = true.
Proof.
  intros H. apply in_I2KV_keys in H. revert code H.
  apply forallb_forall. vm_compute. reflexivity.
Qed.

Lemma check_wire8_all (k : ColorDictKeys) (n : Z) :
  is_byte n = true -> check_wire8 k n = true.
Proof.
  unfold is_byte. rewrite andb_true_iff, Z.leb_le, Z.ltb_lt. intros H.
  revert n H. change (forall n, 0 <= n < 0 + Z.of_nat 256 -> check_wire8 k n = true).
  apply forallb_range. destruct k; vm_compute; reflexivity.
Qed.

Lemma is_byte_range (n : Z) : is_byte n = true -> 0 <= n < 256.
Proof. unfold is_byte. rewrite andb_true_iff, Z.leb_le, Z.ltb_lt. tauto. Qed.

(** The text of a non-empty list of integers of 0..255 joined by [;]
    begins with a digit, ends with a digit, and splits back into its
    fields. *)
Lemma join_dec_first (ns : list Z) :
  ns <> [] -> Forall (fun n => 0 <= n < 256) ns ->
  exists c s, join ";" (map bytes_of_int ns) = String c s /\ is_digit c = true.
Proof.
  intros Hne Hall. destruct ns as [|n ns]; [congruence|].
  inversion Hall as [|? ? Hn _]; subst.
  destruct (byte_ok_spec n Hn) as (c & s & E & Hd & _).
  exists c. simpl map. destruct (map bytes_of_int ns) as [|t l].
  - exists s. simpl. now rewrite E.
  - exists (s ++ String ";" (join ";" (t :: l)))%string.
    change (join ";" (bytes_of_int n :: t :: l))
      with (bytes_of_int n ++ String ";" (join ";" (t :: l)))%string.
    rewrite E. split; [reflexivity | exact Hd].
Qed.

Lemma join_dec_last (ns : list Z) :
  Forall (fun n => 0 <= n < 256) ns ->
  last_not_m (join ";" (map bytes_of_int ns)).
Proof.
  intros Hall. induction Hall as [|n ns Hn Hall IH]; [reflexivity|].
  destruct (byte_ok_spec n Hn) as (c & s & E & _ & _ & Hl & _).
  destruct ns as [|m ns'].
  - exact Hl.
  - destruct (join_dec_first (m :: ns')) as (c' & s' & Ej & _);
      [discriminate | exact Hall |].
    change (join ";" (map bytes_of_int (n :: m :: ns')))
      with (bytes_of_int n ++ (String ";" EmptyString
                               ++ join ";" (map bytes_of_int (m :: ns'))))%string.
    unfold last_not_m in *.
    rewrite last_char_app by (rewrite Ej; discriminate).
    rewrite last_char_app by (rewrite Ej; discriminate).
    exact IH.
Qed.

Lemma join_dec_split (ns : list Z) :
  ns <> [] -> Forall (fun n => 0 <= n < 256) ns ->
  split ";" (join ";" (map bytes_of_int ns)) = map bytes_of_int ns.
Proof.
  intros Hne Hall. apply split_join.
  - destruct ns; [congruence | discriminate].
  - apply Forall_forall. intros x Hx. apply in_map_iff in Hx.
    destruct Hx as (n & <- & Hin).
    rewrite Forall_forall in Hall.
    destruct (byte_ok_spec n (Hall n Hin)) as (c & s & _ & _ & Hs & _).
    exact Hs.
Qed.

(** Stripping the escape prefix and the final [m] leaves such a text as it
    is. *)
Lemma join_dec_strip (ns : list Z) :
  ns <> [] -> Forall (fun n => 0 <= n < 256) ns ->
  split ";" (removesuffix "m" (removeprefix CSI (join ";" (map bytes_of_int ns))))
  = map bytes_of_int ns.
Proof.
  intros Hne Hall.
  destruct (join_dec_first ns Hne Hall) as (c & s & E & Hd).
  rewrite E, (removeprefix_CSI_digit c s Hd), <- E.
  rewrite (removesuffix_m_last _ (join_dec_last ns Hall)).
  now apply join_dec_split.
Qed.

Lemma py_int_dec (n : Z) : 0 <= n < 256 -> py_int (bytes_of_int n) = Ok n.
Proof. intros H. now destruct (byte_ok_spec n H) as (c & s & _ & _ & _ & _ & E). Qed.

(** The parse of the 24-bit wire form. *)
Lemma match_ansi_24 (k : ColorDictKeys) (r g b : Z) :
  0 <= r < 256 -> 0 <= g < 256 -> 0 <= b < 256 ->
  match_ansi (split ";" (removesuffix "m" (removeprefix CSI
                (wire_bytes (Wire24 k (r, g, b))))))
  = Ok (ansicolor24Bit, k, (r, g, b)).
Proof.
  intros Hr Hg Hb. unfold wire_bytes. rewrite join_dec_strip.
  - assert (Hk : dict_get String.eqb _ANSI256_B2KEY (bytes_of_int (_ANSI256_KEY2I k))
                 = Some k) by (destruct k; reflexivity).
    cbn [map match_ansi]. rewrite Hk.
    change (String.eqb (bytes_of_int 2) "2") with true. cbn iota.
    rewrite (py_int_dec r Hr), (py_int_dec g Hg), (py_int_dec b Hb).
    reflexivity.
  - discriminate.
  - repeat constructor; try lia; destruct k; simpl; lia.
Qed.

(** *** Parsing the encoded wire bytes *)

Lemma wire24_value (k : ColorDictKeys) (r g b : Z) :
  0 <= r < 256 -> 0 <= g < 256 -> 0 <= b < 256 ->
  let c := mk_colorbytes ansicolor24Bit (wire_bytes (Wire24 k (r, g, b))) (k, (r, g, b)) in
  wire_value (Wire24 k (r, g, b)) = Ok c
  /\ colorbytes_new None (Plain (cb_bytes c)) = Ok c.
Proof.
  intros Hr Hg Hb c. unfold wire_value, colorbytes_new, c.
  cbn [wire_type value_bytes cb_bytes].
  rewrite (match_ansi_24 k r g b Hr Hg Hb). split; reflexivity.
Qed.

(** The two 8-bit indices 0 and 16 denote the same colour, so no choice of
    the quantiser [rgb_to_ansi_8bit] lets both of them survive a
    re-encoding from their RGB value. *)
Lemma ansi_8bit_to_rgb_not_injective :
  ansi_8bit_to_rgb 0 = ansi_8bit_to_rgb 16.
Proof. reflexivity. Qed.

(** Values in wire form.  For every colour code in wire form - a 4-bit code, an
    8-bit index or a 24-bit RGB value, foreground or background - the value
    [c] built from the encoded bytes exists and carries them, and
    [colorbytes(bytes(c))] returns a value of the same class and the same
    [rgb_dict].  For the 4-bit and the 24-bit format it is [c] itself.  For
    the 8-bit format its bytes carry the index that [rgb_to_ansi_8bit] picks
    for the colour of [c], which need not be the index of [c]. *)
Theorem colorbytes_wire_roundtrip (w : wire_code) :
  valid_wire w = true ->
  exists c c',
    wire_value w = Ok c
    /\ cb_type c = wire_type w
    /\ cb_bytes c = wire_bytes w
    /\ colorbytes_new None (Plain (cb_bytes c)) = Ok c'
    /\ cb_type c' = cb_type c
    /\ cb_rgb_dict c' = cb_rgb_dict c
    /\ match w with
       | Wire8 k n =>
           cb_bytes c' = wire_bytes (Wire8 k (rgb_to_ansi_8bit (snd (cb_rgb_dict c))))
       | _ => c' = c
       end.
Proof.
  destruct w as [code | k n | k [[r g] b]]; intros Hv; cbn [valid_wire] in Hv.
  - pose proof (check_wire4_all code Hv) as H. unfold check_wire4 in H.
    destruct (dict_get Z.eqb _ANSI16C_I2KV code) as [kv|]; [|discriminate].
    apply andb_true_iff in H. destruct H as [H1 H2].
    apply result_cb_is_true in H1, H2.
    exists (mk_colorbytes ansicolor4Bit (bytes_of_int code) kv),
           (mk_colorbytes ansicolor4Bit (bytes_of_int code) kv).
    cbn [cb_bytes cb_type cb_rgb_dict wire_type wire_bytes].
    rewrite H1, H2. repeat split; reflexivity.
  - pose proof (check_wire8_all k n Hv) as H. unfold check_wire8 in H.
    destruct (ansi_8bit_to_rgb n) as [rgb|]; [|discriminate].
    apply andb_true_iff in H. destruct H as [H1 H2].
    apply result_cb_is_true in H1, H2.
    exists (mk_colorbytes ansicolor8Bit (wire_bytes (Wire8 k n)) (k, rgb)),
           (mk_colorbytes ansicolor8Bit
              (wire_bytes (Wire8 k (rgb_to_ansi_8bit rgb))) (k, rgb)).
    cbn [cb_bytes cb_type cb_rgb_dict wire_type snd].
    rewrite H1, H2. repeat split; reflexivity.
  - apply andb_true_iff in Hv. destruct Hv as [Hv Hb].
    apply andb_true_iff in Hv. destruct Hv as [Hr Hg].
    apply is_byte_range in Hr, Hg, Hb.
    destruct (wire24_value k r g b Hr Hg Hb) as [H1 H2].
    exists (mk_colorbytes ansicolor24Bit (wire_bytes (Wire24 k (r, g, b)))
              (k, (r, g, b))),
           (mk_colorbytes ansicolor24Bit (wire_bytes (Wire24 k (r, g, b)))
              (k, (r, g, b))).
    cbn [cb_bytes cb_type cb_rgb_dict wire_type] in *.
    rewrite H1, H2. repeat split; reflexivity.
Qed.

Lemma colorbytes_wire_roundtrip_witness :
  exists c c',
    wire_value (Wire24 bg (1, 20, 255)) = Ok c
    /\ cb_type c = ansicolor24Bit
    /\ cb_bytes c = "48;2;1;20;255"
    /\ colorbytes_new None (Plain (cb_bytes c)) = Ok c'
    /\ cb_type c' = cb_type c
    /\ cb_rgb_dict c' = cb_rgb_dict c
    /\ c' = c.
Proof.
  apply (colorbytes_wire_roundtrip (Wire24 bg (1, 20, 255))). reflexivity.
Defined.

(** *** C5: quantising pure white to the 8-bit format *)

(** C5 (amended).  Under the algorithm of section 4.2, pure white is
    quantised to the base-colour entry 15, which is pure white itself at
    squared error 0.  The cube candidate, entry 231, is pure white too and
    loses the tie to the base candidate.  The greyscale candidate is the top
    of the ramp, entry 255, the grey [(238, 238, 238)] at squared error
    867. *)
Theorem white_to_ansi_8bit :
  rgb_to_ansi_8bit (255, 255, 255) = 15
  /\ ansi_8bit_to_rgb 15 = Ok (255, 255, 255)
  /\ nearest (255, 255, 255) base_entries = (15, (255, 255, 255))
  /\ nearest (255, 255, 255) cube_entries = (231, (255, 255, 255))
  /\ nearest (255, 255, 255) grey_entries = (255, (238, 238, 238))
  /\ sq_dist (255, 255, 255) (238, 238, 238) = 867.
Proof. repeat split; vm_compute; reflexivity. Qed.

(** C5 as stated fails: the entry selected for pure white is not the top of
    the greyscale ramp (entry 255), which is not pure white either. *)
Lemma white_to_ansi_8bit_counterexample :
  rgb_to_ansi_8bit (255, 255, 255) <> 255
  /\ ansi_8bit_to_rgb 255 = Ok (238, 238, 238).
Proof. split; [vm_compute; discriminate | reflexivity]. Qed.

(** *** C6: a ColorStr made from plain text *)

Lemma serialize_empty (text : string) (no_reset : bool) :
  serialize empty_sgr text no_reset = (text ++ reset_suffix no_reset)%string.
Proof. reflexivity. Qed.

(** C6 (amended).  A [ColorStr] made from a plain base string (one that does
    not start with the escape prefix) and no colour specification has an
    empty style and the input as its base string.  It serialises to the
    input followed by the reset sequence [ESC[0m]; it serialises to exactly
    the input only when [no_reset=True] is passed. *)
Theorem ColorStr_plain (DEFAULT_ANSI : AnsiColorType) (text : string)
  (ansi_type : option AnsiColorType) (no_reset : bool) :
  startswith text CSI = false ->
  exists c,
    ColorStr_new DEFAULT_ANSI (Some text) None ansi_type no_reset = Ok c
    /\ _sgr_ c = empty_sgr
    /\ _base_str_ c = text
    /\ _no_reset_ c = no_reset
    /\ cs_str c = (text ++ (if no_reset then EmptyString else SGR_RESET))%string.
Proof.
  intros H. unfold ColorStr_new. rewrite H.
  cbn [sgr_is_color empty_sgr _sgr_params_ existsb].
  eexists. split; [reflexivity|].
  cbn [_sgr_ _base_str_ _no_reset_ cs_str]. rewrite serialize_empty.
  repeat split; reflexivity.
Qed.

Lemma ColorStr_plain_witness :
  exists c,
    ColorStr_new ansicolor8Bit (Some "plain text") None None true = Ok c
    /\ _sgr_ c = empty_sgr
    /\ _base_str_ c = "plain text"
    /\ _no_reset_ c = true
    /\ cs_str c = "plain text".
Proof.
  apply (ColorStr_plain ansicolor8Bit "plain text" None true). reflexivity.
Defined.

(** C6 as stated fails: without [no_reset], the text comes back followed by
    the reset sequence. *)
Lemma ColorStr_plain_counterexample :
  ColorStr_new ansicolor8Bit (Some "hi") None None false
  = Ok (mk_ColorStr (String "h" (String "i" SGR_RESET)) "hi" empty_sgr false
                    ansicolor8Bit)
  /\ String "h" (String "i" SGR_RESET) <> "hi".
Proof. split; [reflexivity | discriminate]. Qed.

(** *** C10: the operator [@] *)

(** C10.  [a @ b] for two [ColorStr] values returns a new value with the
    base string of [a] and the SGR sequence and the [no_reset] flag of [b],
    serialised accordingly; the method writes to the new instance only.  Any
    other right operand raises [TypeError]. *)
Theorem ColorStr_matmul_spec (a : ColorStr) (other : operand) :
  match other with
  | OpColorStr b =>
      exists r,
        ColorStr_matmul a (OpColorStr b) = Ok r
        /\ _base_str_ r = _base_str_ a
        /\ _sgr_ r = _sgr_ b
        /\ _no_reset_ r = _no_reset_ b
        /\ cs_str r = serialize (_sgr_ b) (_base_str_ a) (_no_reset_ b)
  | _ => ColorStr_matmul a other = Raise TypeError
  end.
Proof.
  destruct other as [b | s | x | n | h]; try reflexivity.
  eexists. split; [reflexivity|]. repeat split; reflexivity.
Qed.

(** *** C4: bold followed by a standard 4-bit colour *)

Lemma sgr_eqb_eq (a b : SgrSequence) :
  sgr_eqb a b = true -> a = b.
Proof.
  destruct a as [pa da ha], b as [pb db hb]. unfold sgr_eqb. simpl.
  rewrite !andb_true_iff. intros [[Hp Hd] Hh].
  f_equal.
  - revert pb Hp. induction pa as [|x pa IH]; intros [|y pb] Hp;
      simpl in Hp; try discriminate; [reflexivity|].
    apply andb_true_iff in Hp. destruct Hp as [Hx Hp].
    f_equal; [|now apply IH].
    destruct x as [bx|[tx bx kx]], y as [by'|[ty by' ky]]; simpl in Hx;
      try discriminate.
    + apply String.eqb_eq in Hx. now subst.
    + rewrite !andb_true_iff, type_eqb_eq, String.eqb_eq, kv_eqb_eq in Hx.
      destruct Hx as [[-> ->] ->]. reflexivity.
  - revert db Hd. induction da as [|x da IH]; intros [|y db] Hd;
      simpl in Hd; try discriminate; [reflexivity|].
    apply andb_true_iff in Hd. destruct Hd as [Hx Hd].
    apply kv_eqb_eq in Hx. subst. f_equal. now apply IH.
  - destruct ha, hb; simpl in Hh; congruence.
Qed.

Lemma check_promotion_all (c : Z) : 30 <= c <= 37 -> check_promotion c = true.
Proof.
  intros H. apply (forallb_range check_promotion 30 8); [|lia].
  vm_compute. reflexivity.
Qed.

(** C4.  On an empty sequence, [append(1)] followed by the [append] of a
    standard foreground colour [c] (30..37, e.g. red, 31) leaves one entry,
    the bright colour [c + 60]: the sequence encodes to [ESC[<c+60>m] (for
    red, [ESC[91m]), holds no bold code, and has its bright-colours flag
    set.  Removing that colour empties the sequence and clears the flag, and
    appending bold and [c] again gives the same sequence, hence the same
    encoding. *)
Theorem bold_then_standard_is_bright (c : Z) :
  30 <= c <= 37 ->
  exists bright,
    (append 1 ;;; append c) empty_sgr = (Ok tt, bright)
    /\ sgr_bytes bright = (String ESC "[" ++ bytes_of_int (c + 60) ++ "m")%string
    /\ values bright = [bytes_of_int (c + 60)]
    /\ find (IdxBytes "1") bright = (Ok (-1), bright)
    /\ _has_bright_colors_ bright = true
    /\ remove (IdxInt (c + 60)) bright = (Ok tt, empty_sgr)
    /\ (append 1 ;;; append c) (snd (remove (IdxInt (c + 60)) bright))
       = (Ok tt, bright).
Proof.
  intros H. pose proof (check_promotion_all c H) as E.
  unfold check_promotion in E.
  destruct ((append 1 ;;; append c) empty_sgr) as [[[]|e] bright] eqn:Ea;
    [|discriminate E].
  repeat (apply andb_true_iff in E; let H := fresh "E" in destruct E as [E H]).
  exists bright. repeat split.
  - now apply String.eqb_eq.
  - destruct (values bright) as [|v [|? ?]]; try discriminate.
    apply String.eqb_eq in E4. now subst.
  - destruct (find (IdxBytes "1") bright) as [[i|?] s1]; try discriminate.
    apply andb_true_iff in E3. destruct E3 as [Hi Hs].
    apply Z.eqb_eq in Hi. apply sgr_eqb_eq in Hs. now subst.
  - destruct (_has_bright_colors_ bright); [reflexivity | discriminate].
  - destruct (remove (IdxInt (c + 60)) bright) as [[[]|?] s1]; try discriminate.
    apply sgr_eqb_eq in E1. now subst.
  - destruct (remove (IdxInt (c + 60)) bright) as [r1 s1]. cbn [snd] in *.
    destruct ((append 1 ;;; append c) s1) as [[[]|?] s2]; try discriminate.
    apply sgr_eqb_eq in E0. now subst.
Qed.

Lemma bold_then_red_is_bright_red :
  exists bright,
    (append 1 ;;; append 31) empty_sgr = (Ok tt, bright)
    /\ sgr_bytes bright = String ESC "[91m"
    /\ values bright = ["91"]
    /\ find (IdxBytes "1") bright = (Ok (-1), bright)
    /\ _has_bright_colors_ bright = true
    /\ remove (IdxInt 91) bright = (Ok tt, empty_sgr)
    /\ (append 1 ;;; append 31) (snd (remove (IdxInt 91) bright)) = (Ok tt, bright).
Proof.
  apply (bold_then_standard_is_bright 31). lia.
Defined.

(** *** C2: one colour for each slot *)

Lemma wf_WF (s : SgrSequence) : wf s = true <-> WF s.
Proof.
  unfold wf, WF. rewrite andb_true_iff, forallb_forall, Forall_forall.
  cbn [forallb]. rewrite !andb_true_iff, !Nat.leb_le, !Nat.eqb_eq.
  split.
  - intros [Hc [[Hf1 Hf2] [[Hb1 Hb2] _]]]. split; [exact Hc|].
    intros [|]; split; assumption.
  - intros [Hc Hk]. split; [exact Hc|].
    destruct (Hk fg) as [? ?], (Hk bg) as [? ?]. repeat split; assumption.
Qed.

Lemma count_key_app (k : ColorDictKeys) (l1 l2 : list SgrParamWrapper) :
  count_key k (l1 ++ l2) = (count_key k l1 + count_key k l2)%nat.
Proof. unfold count_key. now rewrite filter_app, length_app. Qed.

Lemma count_key_cons (k : ColorDictKeys) (p : SgrParamWrapper) (l : list SgrParamWrapper) :
  count_key k (p :: l) = ((if occupies k p then 1 else 0) + count_key k l)%nat.
Proof. unfold count_key. simpl. destruct (occupies k p); reflexivity. Qed.

Lemma list_pop_nat_split {A} (i : nat) (l : list A) (x : A) (r : list A) :
  list_pop_nat i l = Some (x, r) ->
  exists l1 l2, l = l1 ++ x :: l2 /\ r = l1 ++ l2 /\ List.length l1 = i.
Proof.
  revert i x r. induction l as [|a l IH]; intros [|i] x r H; simpl in H;
    try discriminate.
  - inversion H; subst. exists [], r. repeat split.
  - destruct (list_pop_nat i l) as [[y r']|] eqn:E; [|discriminate].
    inversion H; subst. destruct (IH i x r' E) as (l1 & l2 & -> & -> & Hl).
    exists (a :: l1), l2. simpl. repeat split. now rewrite Hl.
Qed.

Lemma list_pop_split {A} (i : Z) (l : list A) (x : A) (r : list A) :
  list_pop i l = Some (x, r) ->
  exists l1 l2, l = l1 ++ x :: l2 /\ r = l1 ++ l2.
Proof.
  unfold list_pop. destruct (_ || _); [discriminate|].
  intros H. apply list_pop_nat_split in H.
  destruct H as (l1 & l2 & H1 & H2 & _). now exists l1, l2.
Qed.

Lemma dict_count_del (d d' : list (ColorDictKeys * Int3Tuple)) (k : ColorDictKeys) :
  dict_del key_eqb d k = Some d' ->
  forall k', dict_count k' d
             = ((if key_eqb k k' then 1 else 0) + dict_count k' d')%nat.
Proof.
  revert d'. induction d as [|[a v] d IH]; intros d' H k'; simpl in H;
    [discriminate|].
  destruct (key_eqb a k) eqn:E.
  - inversion H; subst. apply key_eqb_eq in E. subst a.
    unfold dict_count. simpl. destruct (key_eqb k k'); reflexivity.
  - destruct (dict_del key_eqb d k) as [r|] eqn:Er; [|discriminate].
    inversion H; subst. unfold dict_count in *. simpl.
    specialize (IH r eq_refl k').
    destruct (key_eqb a k'); simpl; rewrite IH; destruct (key_eqb k k'); lia.
Qed.

Lemma dict_del_some (d : list (ColorDictKeys * Int3Tuple)) (k : ColorDictKeys) :
  (1 <= dict_count k d)%nat -> exists d', dict_del key_eqb d k = Some d'.
Proof.
  induction d as [|[a v] d IH]; unfold dict_count; simpl; [lia|].
  destruct (key_eqb a k) eqn:E; simpl; intros H.
  - eauto.
  - destruct (IH H) as [d' ->]. eauto.
Qed.

Lemma dict_count_set (d : list (ColorDictKeys * Int3Tuple)) (k : ColorDictKeys)
  (v : Int3Tuple) :
  forall k', dict_count k' (dict_set key_eqb d k v)
             = (if key_eqb k k'
                then Nat.max 1 (dict_count k' d)
                else dict_count k' d).
Proof.
  intros k'. induction d as [|[a w] d IH]; unfold dict_count in *;
    cbn [dict_set filter fst].
  - destruct (key_eqb k k'); reflexivity.
  - destruct (key_eqb a k) eqn:E; cbn [filter fst].
    + apply key_eqb_eq in E. subst a.
      destruct (key_eqb k k'); cbn [List.length]; lia.
    + destruct (key_eqb a k') eqn:E'; cbn [List.length]; rewrite IH;
        destruct (key_eqb k k') eqn:E''; try lia.
      apply key_eqb_eq in E', E''. subst. destruct k'; discriminate E.
Qed.

Lemma dict_get_count (d : list (ColorDictKeys * Int3Tuple)) (k : ColorDictKeys) :
  dict_get key_eqb d k = None <-> dict_count k d = 0%nat.
Proof.
  induction d as [|[a v] d IH]; unfold dict_count in *; simpl; [tauto|].
  destruct (key_eqb a k); simpl; [split; intros; discriminate | exact IH].
Qed.

Lemma WF_set_bright (b : bool) (s : SgrSequence) : WF s -> WF (set_bright b s).
Proof. intros H. exact H. Qed.

Lemma occupies_key_of (k : ColorDictKeys) (p : SgrParamWrapper) :
  occupies k p = true <-> key_of p = Some k.
Proof.
  unfold occupies. destruct (key_of p) as [k'|]; simpl.
  - rewrite key_eqb_eq. split; congruence.
  - split; discriminate.
Qed.

Lemma Forall_remove_mid {A} (P : A -> Prop) (l1 l2 : list A) (x : A) :
  Forall P (l1 ++ x :: l2) -> Forall P (l1 ++ l2).
Proof.
  rewrite !Forall_app. intros [H1 H2]. inversion H2; subst. now split.
Qed.

(** Popping a parameter that is not a colour keeps the invariant. *)
Lemma WF_remove_plain (s : SgrSequence) (l1 l2 : list SgrParamWrapper)
  (obj : SgrParamWrapper) :
  _sgr_params_ s = l1 ++ obj :: l2 ->
  key_of obj = None ->
  WF s ->
  WF (set_params (l1 ++ l2) s)
  /\ forall k, count_key k (l1 ++ l2) = count_key k (_sgr_params_ s).
Proof.
  intros E Hk [Hc Hn].
  assert (Hcount : forall k, count_key k (l1 ++ l2) = count_key k (_sgr_params_ s)).
  { intros k. rewrite E, !count_key_app, count_key_cons.
    unfold occupies. rewrite Hk. reflexivity. }
  split; [|exact Hcount]. split; cbn [set_params _sgr_params_ _rgb_dict_].
  - rewrite E in Hc. exact (Forall_remove_mid _ _ _ _ Hc).
  - intros k. rewrite Hcount. apply Hn.
Qed.

(** Popping a colour and deleting its key keeps the invariant and leaves
    its slot empty. *)
Lemma WF_remove_color (s : SgrSequence) (l1 l2 : list SgrParamWrapper)
  (c : colorbytes) :
  _sgr_params_ s = l1 ++ Colored c :: l2 ->
  WF s ->
  exists d,
    dict_del key_eqb (_rgb_dict_ s) (fst (cb_rgb_dict c)) = Some d
    /\ WF (set_rgb_dict d (set_params (l1 ++ l2) s))
    /\ count_key (fst (cb_rgb_dict c)) (l1 ++ l2) = 0%nat
    /\ forall k, (count_key k (l1 ++ l2) <= count_key k (_sgr_params_ s))%nat.
Proof.
  intros E [Hc Hn]. set (kc := fst (cb_rgb_dict c)).
  assert (Hcount : forall k, count_key k (_sgr_params_ s)
                     = ((if key_eqb kc k then 1 else 0) + count_key k (l1 ++ l2))%nat).
  { intros k. rewrite E, !count_key_app, count_key_cons.
    unfold occupies. cbn [key_of okey_eqb]. fold kc.
    destruct (key_eqb kc k); lia. }
  destruct (dict_del_some (_rgb_dict_ s) kc) as [d Hd].
  { destruct (Hn kc) as [_ ->]. rewrite Hcount.
    replace (key_eqb kc kc) with true by (destruct kc; reflexivity). lia. }
  exists d. split; [exact Hd|].
  pose proof (dict_count_del _ _ _ Hd) as Hdel.
  split; [|split].
  - split; cbn [set_params set_rgb_dict _sgr_params_ _rgb_dict_].
    + rewrite E in Hc. exact (Forall_remove_mid _ _ _ _ Hc).
    + intros k. destruct (Hn k) as [Hle Heq].
      specialize (Hdel k). specialize (Hcount k).
      destruct (key_eqb kc k); lia.
  - destruct (Hn kc) as [Hle _]. specialize (Hcount kc).
    replace (key_eqb kc kc) with true in Hcount by (destruct kc; reflexivity).
    lia.
  - intros k. specialize (Hcount k). destruct (key_eqb kc k); lia.
Qed.

Lemma index_state (a : index_arg) (s : SgrSequence) : snd (index a s) = s.
Proof. reflexivity. Qed.

(** One unfolding of [pop] keeps the invariant when the call it makes does,
    whatever the outcome; the colours left are among those of the list
    without the popped parameter. *)
Lemma pop_body_shrinks (f : Z -> method SgrParamWrapper) :
  shrinks f ->
  forall j s,
    WF s ->
    WF (snd (pop_body f j s))
    /\ (forall k, (count_key k (_sgr_params_ (snd (pop_body f j s)))
                   <= count_key k (_sgr_params_ s))%nat)
    /\ forall obj rest,
         list_pop j (_sgr_params_ s) = Some (obj, rest) ->
         forall k, (count_key k (_sgr_params_ (snd (pop_body f j s)))
                    <= count_key k rest)%nat.
Proof.
  intros Hf j s Hwf. unfold pop_body.
  destruct (list_pop j (_sgr_params_ s)) as [[obj rest]|] eqn:Epop.
  2:{ cbn [snd]. split; [exact Hwf|]. split; [intros; lia | discriminate]. }
  destruct (list_pop_split _ _ _ _ Epop) as (l1 & l2 & El & ->).
  destruct obj as [v | c].
  - (* a plain parameter *)
    destruct (WF_remove_plain s l1 l2 (Plain v) El eq_refl Hwf) as [Hwf1 Hc1].
    assert (Hgoal : forall s', _sgr_params_ s' = l1 ++ l2 -> WF s' ->
              WF s'
              /\ (forall k, (count_key k (_sgr_params_ s')
                             <= count_key k (_sgr_params_ s))%nat)
              /\ forall obj rest, Some (Plain v, l1 ++ l2) = Some (obj, rest) ->
                   forall k, (count_key k (_sgr_params_ s') <= count_key k rest)%nat).
    { intros s' Es' Hs'. split; [exact Hs'|]. split.
      - intros k. rewrite Es', Hc1. lia.
      - intros obj rest Heq k. inversion Heq; subst. rewrite Es'. lia. }
    destruct (_has_bright_colors_ (set_params (l1 ++ l2) s) && String.eqb v "1").
    + destruct (has_std_4bit _) as [[|]|e]; cbn [snd]; apply Hgoal;
        try reflexivity; exact Hwf1.
    + cbn [snd]. apply Hgoal; [reflexivity | exact Hwf1].
  - (* a colour *)
    destruct (WF_remove_color s l1 l2 c El Hwf) as (d & Hd & Hwf2 & Hzero & Hle).
    cbn [set_params _rgb_dict_]. rewrite Hd.
    set (s2 := set_rgb_dict d (set_params (l1 ++ l2) s)) in *.
    assert (Hgoal : forall s', WF s' ->
              (forall k, (count_key k (_sgr_params_ s') <= count_key k (l1 ++ l2))%nat) ->
              WF s'
              /\ (forall k, (count_key k (_sgr_params_ s')
                             <= count_key k (_sgr_params_ s))%nat)
              /\ forall obj rest, Some (Colored c, l1 ++ l2) = Some (obj, rest) ->
                   forall k, (count_key k (_sgr_params_ s') <= count_key k rest)%nat).
    { intros s' Hs' Hc'. split; [exact Hs'|]. split.
      - intros k. specialize (Hc' k). specialize (Hle k). lia.
      - intros obj rest Heq k. inversion Heq; subst. apply Hc'. }
    assert (Hs2 : forall k, (count_key k (_sgr_params_ s2) <= count_key k (l1 ++ l2))%nat)
      by (intros k; unfold s2; cbn [set_rgb_dict set_params _sgr_params_]; lia).
    destruct (_has_bright_colors_ s2); [|cbn [snd]; now apply Hgoal].
    destruct (py_int (cb_bytes c)) as [vx|e]; [|cbn [snd]; now apply Hgoal].
    destruct (in_I2KV vx); [|cbn [snd]; now apply Hgoal].
    destruct (mem vx _ANSI16C_STD); [|cbn [snd]; now apply Hgoal].
    unfold mbind, index, ret.
    destruct (index_from 0 (_sgr_params_ (set_bright false s2)) (IdxBytes "1"))
      as [i|e]; [|cbn [snd]; now apply Hgoal].
    destruct (Hf i (set_bright false s2) Hwf2) as [Hw3 Hc3].
    destruct (f i (set_bright false s2)) as [[o|e] s3]; cbn [snd] in *;
      apply Hgoal; try exact Hw3; try exact Hwf2; intros k;
      specialize (Hc3 k); specialize (Hs2 k);
      cbn [set_bright _sgr_params_] in Hc3; lia.
Qed.

Lemma raise_shrinks (e : exn) : shrinks (fun _ => raise e).
Proof. intros j s H. cbn [raise snd]. split; [exact H | intros; lia]. Qed.

Lemma pop_body_shrinks' (f : Z -> method SgrParamWrapper) :
  shrinks f -> shrinks (pop_body f).
Proof.
  intros Hf j s H. destruct (pop_body_shrinks f Hf j s H) as (H1 & H2 & _).
  now split.
Qed.

(** [pop] keeps the invariant, whether it returns or raises, and adds no
    colour; the parameter at the index it is given is gone afterwards. *)
Lemma pop_shrinks (j : Z) (s : SgrSequence) :
  WF s ->
  WF (snd (pop j s))
  /\ (forall k, (count_key k (_sgr_params_ (snd (pop j s)))
                 <= count_key k (_sgr_params_ s))%nat)
  /\ forall obj rest,
       list_pop j (_sgr_params_ s) = Some (obj, rest) ->
       forall k, (count_key k (_sgr_params_ (snd (pop j s))) <= count_key k rest)%nat.
Proof.
  apply pop_body_shrinks, pop_body_shrinks', raise_shrinks.
Qed.

(** A call of [pop] on a sequence without the bright-colours flag makes no
    recursive call. *)
Lemma pop_body_no_bright (f g : Z -> method SgrParamWrapper) (j : Z)
  (s : SgrSequence) :
  _has_bright_colors_ s = false -> pop_body f j s = pop_body g j s.
Proof.
  intros H. unfold pop_body.
  destruct (list_pop j (_sgr_params_ s)) as [[[v|c] rest]|]; try reflexivity.
  cbn [set_params _rgb_dict_].
  destruct (dict_del key_eqb (_rgb_dict_ s) (fst (cb_rgb_dict c))); [|reflexivity].
  cbn [set_rgb_dict set_params _has_bright_colors_]. rewrite H. reflexivity.
Qed.

(** The recursion equation of [pop]: the definition by two unfoldings is the
    recursive method of the source. *)
Lemma pop_unfold (j : Z) (s : SgrSequence) : pop j s = pop_body pop j s.
Proof.
  unfold pop at 1. unfold pop_body at 1 3.
  destruct (list_pop j (_sgr_params_ s)) as [[[v|c] rest]|]; reflexivity.
Qed.

Lemma okey_eqb_eq (a b : option ColorDictKeys) : okey_eqb a b = true <-> a = b.
Proof.
  destruct a as [x|], b as [y|]; simpl; try (split; congruence).
  rewrite key_eqb_eq. split; congruence.
Qed.

Lemma coherent_key (p : SgrParamWrapper) :
  coherent p = true -> key_of p = bytes_key (value_bytes p).
Proof. unfold coherent. rewrite okey_eqb_eq. congruence. Qed.

Lemma is_same_kind_param (q p : SgrParamWrapper) :
  is_same_kind q (IdxParam p) = Ok (param_eqb q p).
Proof. unfold is_same_kind. destruct (param_eqb q p); reflexivity. Qed.

Lemma is_same_kind_none (q : SgrParamWrapper) : is_same_kind q IdxNone = Ok false.
Proof. reflexivity. Qed.

Lemma is_same_kind_bold (q : SgrParamWrapper) :
  is_same_kind q (IdxBytes "1") = Ok (String.eqb (value_bytes q) "1").
Proof.
  unfold is_same_kind. destruct (String.eqb (value_bytes q) "1") eqn:E;
    [reflexivity|].
  change (yielded (_iter_sgr (arg_of_index_arg (IdxBytes "1")))) with [Plain "1"].
  cbv iota. cbn [value_bytes]. now rewrite String.eqb_sym, E.
Qed.

Lemma index_from_none (j : Z) (l : list SgrParamWrapper) :
  index_from j l IdxNone = Raise ValueError.
Proof.
  revert j. induction l as [|q l IH]; intros j; [reflexivity|].
  cbn [index_from]. rewrite is_same_kind_none. cbn [bind]. apply IH.
Qed.

(** [index] returns the position of the first parameter of the same kind. *)
Lemma index_from_found (a : index_arg) (same : SgrParamWrapper -> bool) :
  (forall q, is_same_kind q a = Ok (same q)) ->
  forall l j i,
    index_from j l a = Ok i ->
    exists l1 q l2,
      l = l1 ++ q :: l2 /\ i = j + Z.of_nat (List.length l1)
      /\ same q = true /\ Forall (fun x => same x = false) l1.
Proof.
  intros Hs. induction l as [|p l IH]; intros j i H; [discriminate H|].
  cbn [index_from] in H. rewrite Hs in H. cbn [bind] in H.
  destruct (same p) eqn:E.
  - inversion H; subst. exists [], p, l. cbn. repeat split; auto. lia.
  - destruct (IH _ _ H) as (l1 & q & l2 & -> & -> & Hq & Hall).
    exists (p :: l1), q, l2. cbn [List.length app]. repeat split; auto. lia.
Qed.

Lemma index_from_missing (a : index_arg) (same : SgrParamWrapper -> bool) :
  (forall q, is_same_kind q a = Ok (same q)) ->
  forall l j,
    Forall (fun x => same x = false) l -> index_from j l a = Raise ValueError.
Proof.
  intros Hs. induction l as [|p l IH]; intros j H; [reflexivity|].
  inversion H; subst. cbn [index_from]. rewrite Hs. cbn [bind].
  replace (same p) with false by auto. now apply IH.
Qed.

Lemma list_pop_app {A} (l1 l2 : list A) (q : A) :
  list_pop (Z.of_nat (List.length l1)) (l1 ++ q :: l2) = Some (q, l1 ++ l2).
Proof.
  unfold list_pop. rewrite length_app. cbn [List.length].
  replace (Z.of_nat (List.length l1) <? 0) with false by (symmetry; apply Z.ltb_ge; lia).
  replace (_ || _) with false.
  2:{ symmetry. apply orb_false_iff. split; [apply Z.ltb_ge | apply Z.leb_gt]; lia. }
  rewrite Nat2Z.id. induction l1 as [|a l1 IH]; [reflexivity|].
  cbn [List.length app list_pop_nat]. now rewrite IH.
Qed.

Lemma get_color_found (k : ColorDictKeys) (s : SgrSequence) (p : SgrParamWrapper) :
  get_color k s = Some p -> In p (_sgr_params_ s) /\ key_of p = Some k.
Proof.
  unfold get_color. destruct (sgr_is_color s); [|discriminate].
  intros H. apply find_some in H. destruct H as [Hin Hp]. split; [exact Hin|].
  destruct p as [b|c]; [discriminate|]. cbn [key_of]. f_equal.
  now apply key_eqb_eq.
Qed.

(** [vacate] keeps the invariant, whether it returns or raises, and adds no
    colour; when it returns the slot is empty. *)
Lemma vacate_spec (k : ColorDictKeys) (s : SgrSequence) :
  WF s ->
  WF (snd (vacate k s))
  /\ (forall k', (count_key k' (_sgr_params_ (snd (vacate k s)))
                  <= count_key k' (_sgr_params_ s))%nat)
  /\ (forall u, fst (vacate k s) = Ok u ->
      count_key k (_sgr_params_ (snd (vacate k s))) = 0%nat).
Proof.
  intros Hwf. unfold vacate.
  destruct (dict_get key_eqb (_rgb_dict_ s) k) as [rgb|] eqn:Eg.
  2:{ cbn [ret snd fst]. split; [exact Hwf|]. split; [intros; lia|].
      intros _ _. apply dict_get_count in Eg. destruct Hwf as [_ Hn].
      destruct (Hn k) as [_ <-]. exact Eg. }
  unfold mbind, index.
  destruct (index_from 0 (_sgr_params_ s) (index_arg_of_color (get_color k s)))
    as [i|e] eqn:Ei.
  2:{ cbn [snd fst]. split; [exact Hwf|]. split; [intros; lia | discriminate]. }
  destruct (pop_shrinks i s Hwf) as (Hw' & Hle & Hrest).
  assert (Hzero : count_key k (_sgr_params_ (snd (pop i s))) = 0%nat).
  { destruct (get_color k s) as [p|] eqn:Ec; cbn [index_arg_of_color] in Ei.
    2:{ rewrite index_from_none in Ei. discriminate Ei. }
    destruct (get_color_found k s p Ec) as [Hin Hkp].
    destruct (index_from_found (IdxParam p) (fun q => param_eqb q p)
                (fun q => is_same_kind_param q p) _ _ _ Ei)
      as (l1 & q & l2 & El & -> & Hq & _).
    change (0 + Z.of_nat (List.length l1)) with (Z.of_nat (List.length l1)) in *.
    destruct Hwf as [Hc Hn].
    assert (Hkq : key_of q = Some k).
    { rewrite Forall_forall in Hc.
      rewrite (coherent_key q), <- Hkp, (coherent_key p).
      - unfold param_eqb in Hq. apply String.eqb_eq in Hq. now rewrite Hq.
      - now apply Hc.
      - apply Hc. rewrite El. apply in_elt. }
    specialize (Hrest q (l1 ++ l2)). rewrite El in Hrest.
    specialize (Hrest (list_pop_app l1 l2 q) k).
    destruct (Hn k) as [Hle1 _]. rewrite El, !count_key_app, count_key_cons in Hle1.
    apply occupies_key_of in Hkq. rewrite Hkq in Hle1.
    rewrite count_key_app in Hrest. lia. }
  destruct (pop i s) as [[o|e] s']; cbn [snd fst ret] in *.
  - split; [exact Hw'|]. split; [exact Hle|]. intros _ _. exact Hzero.
  - split; [exact Hw'|]. split; [exact Hle | discriminate].
Qed.

Lemma check_append_all (v : Z) :
  mem v _SGR_PARAM_VALUES = true -> check_append v = true.
Proof.
  apply forallb_mem. vm_compute. reflexivity.
Qed.

Lemma ok_entry_spec (k : ColorDictKeys) (kv : ColorDictKeys * Int3Tuple) :
  ok_entry k kv = true ->
  exists c,
    from_rgb ansicolor4Bit (fst kv) (RgbTuple (snd kv)) = Ok c
    /\ coherent (Colored c) = true
    /\ fst (cb_rgb_dict c) = k.
Proof.
  unfold ok_entry. rewrite andb_true_iff. intros [_ H].
  destruct (from_rgb _ _ _) as [c|e]; [|discriminate].
  apply andb_true_iff in H. destruct H as [H1 H2]. apply key_eqb_eq in H2.
  now exists c.
Qed.

(** The value [append] is about to add is coherent and belongs to the slot
    of the code; computing it keeps the invariant and adds no colour. *)
Lemma append_value_spec (v : Z) (s : SgrSequence) :
  mem v _SGR_PARAM_VALUES = true ->
  WF s ->
  WF (snd (append_value v s))
  /\ (forall k, (count_key k (_sgr_params_ (snd (append_value v s)))
                 <= count_key k (_sgr_params_ s))%nat)
  /\ forall value,
       fst (append_value v s) = Ok value ->
       coherent value = true
       /\ key_of value = option_map fst (dict_get Z.eqb _ANSI16C_I2KV v).
Proof.
  intros Hv Hwf. pose proof (check_append_all v Hv) as Hchk.
  unfold check_append in Hchk.
  set (Q := fun rs : result sgr_value * SgrSequence =>
              WF (snd rs)
              /\ (forall k, (count_key k (_sgr_params_ (snd rs))
                             <= count_key k (_sgr_params_ s))%nat)
              /\ forall value,
                   fst rs = Ok value ->
                   coherent value = true
                   /\ key_of value = option_map fst (dict_get Z.eqb _ANSI16C_I2KV v)).
  change (Q (append_value v s)). unfold append_value.
  destruct (dict_get Z.eqb _ANSI16C_I2KV v) as [kv|].
  2:{ unfold Q. cbn [ret snd fst]. split; [exact Hwf|]. split; [intros; lia|].
      intros value H. inversion H; subst. split; [exact Hchk | reflexivity]. }
  apply andb_true_iff in Hchk. destruct Hchk as [Hkv Hkv60].
  assert (Hraise : forall e s1, WF s1 ->
             (forall k, (count_key k (_sgr_params_ s1)
                         <= count_key k (_sgr_params_ s))%nat) ->
             Q (Raise e, s1)).
  { intros e s1 Hw1 Hle1. unfold Q. cbn [snd fst].
    split; [exact Hw1|]. split; [exact Hle1 | discriminate]. }
  assert (Hfin : forall (kv' : ColorDictKeys * Int3Tuple) (s1 : SgrSequence),
             ok_entry (fst kv) kv' = true -> WF s1 ->
             (forall k, (count_key k (_sgr_params_ s1)
                         <= count_key k (_sgr_params_ s))%nat) ->
             Q ((c <~ lift (from_rgb ansicolor4Bit (fst kv') (RgbTuple (snd kv'))) ;;
                 ret (Colored c)) s1)).
  { intros kv' s1 Hok Hw1 Hle1.
    destruct (ok_entry_spec _ _ Hok) as (c & Ec & Hcoh & Hkey).
    unfold Q, mbind, lift, ret. rewrite Ec. cbn [snd fst].
    split; [exact Hw1|]. split; [exact Hle1|].
    intros value H. inversion H; subst value. split; [exact Hcoh|].
    cbn [key_of option_map]. now rewrite Hkey. }
  assert (Hs : forall b k, (count_key k (_sgr_params_ (set_bright b s))
                            <= count_key k (_sgr_params_ s))%nat)
    by (intros; cbn [set_bright _sgr_params_]; lia).
  unfold mbind at 1.
  destruct (mem v _ANSI16C_BRIGHT).
  - unfold mbind at 1. cbn [update ret].
    apply (Hfin kv (set_bright true s) Hkv Hwf (Hs true)).
  - cbn [orb] in Hkv60. unfold mbind at 1.
    unfold find, index.
    destruct (index_from 0 (_sgr_params_ s) (IdxBytes "1")) as [b_idx|e].
    + destruct (negb (b_idx =? -1)).
      * unfold mbind at 1. cbn [update].
        unfold mbind at 1.
        destruct (pop_shrinks b_idx (set_bright true s) Hwf) as (Hw1 & Hle1 & _).
        destruct (pop b_idx (set_bright true s)) as [[o|e] s1]; cbn [snd] in *.
        -- destruct (dict_get Z.eqb _ANSI16C_I2KV (v + 60)) as [kv60|];
             [|discriminate Hkv60].
           cbn [ret]. apply (Hfin kv60 s1 Hkv60 Hw1 Hle1).
        -- apply (Hraise e s1 Hw1 Hle1).
      * unfold mbind at 1. cbn [update ret].
        apply (Hfin kv (set_bright false s) Hkv Hwf (Hs false)).
    + destruct e; try (apply Hraise; [exact Hwf | intros; lia]).
      change (negb (-1 =? -1)) with false. cbv iota.
      unfold mbind at 1. cbn [update ret].
      apply (Hfin kv (set_bright false s) Hkv Hwf (Hs false)).
Qed.

Lemma key_eqb_refl (k : ColorDictKeys) : key_eqb k k = true.
Proof. destruct k; reflexivity. Qed.

Lemma count_key_nil (k : ColorDictKeys) : count_key k [] = 0%nat.
Proof. reflexivity. Qed.

Lemma WF_append_plain (s : SgrSequence) (p : SgrParamWrapper) :
  WF s -> coherent p = true -> key_of p = None ->
  WF (set_params (_sgr_params_ s ++ [p]) s).
Proof.
  intros [Hc Hn] Hp Hk. split; cbn [set_params _sgr_params_ _rgb_dict_].
  - apply Forall_app. split; [exact Hc | now constructor].
  - intros k. rewrite count_key_app, count_key_cons. unfold occupies.
    rewrite Hk, count_key_nil. cbn [okey_eqb].
    destruct (Hn k). split; lia.
Qed.

Lemma WF_append_color (s : SgrSequence) (c : colorbytes) :
  WF s -> coherent (Colored c) = true ->
  count_key (fst (cb_rgb_dict c)) (_sgr_params_ s) = 0%nat ->
  WF (set_params (_sgr_params_ s ++ [Colored c])
        (set_rgb_dict (dict_set key_eqb (_rgb_dict_ s) (fst (cb_rgb_dict c))
                                (snd (cb_rgb_dict c))) s)).
Proof.
  intros [Hc Hn] Hp Hz. split;
    cbn [set_params set_rgb_dict _sgr_params_ _rgb_dict_].
  - apply Forall_app. split; [exact Hc | now constructor].
  - intros k. rewrite count_key_app, count_key_cons, dict_count_set.
    rewrite count_key_nil. unfold occupies. cbn [key_of okey_eqb].
    destruct (Hn k) as [Hle Heq].
    destruct (key_eqb (fst (cb_rgb_dict c)) k) eqn:E.
    + apply key_eqb_eq in E. subst k. rewrite Heq, Hz. split; lia.
    + split; lia.
Qed.

(** [append] keeps the invariant, whether it returns or raises.  When it
    returns, the value it made is the last parameter; when that value is a
    colour, no parameter before it occupies its slot. *)
Lemma append_spec (v : Z) (s : SgrSequence) :
  WF s ->
  WF (snd (append v s))
  /\ forall u,
       fst (append v s) = Ok u ->
       exists value l,
         _sgr_params_ (snd (append v s)) = l ++ [value]
         /\ key_of value = option_map fst (dict_get Z.eqb _ANSI16C_I2KV v)
         /\ forall k, key_of value = Some k -> count_key k l = 0%nat.
Proof.
  intros Hwf.
  set (Q := fun rs : result unit * SgrSequence =>
              WF (snd rs)
              /\ forall u,
                   fst rs = Ok u ->
                   exists value l,
                     _sgr_params_ (snd rs) = l ++ [value]
                     /\ key_of value = option_map fst (dict_get Z.eqb _ANSI16C_I2KV v)
                     /\ forall k, key_of value = Some k -> count_key k l = 0%nat).
  change (Q (append v s)). unfold append.
  destruct (mem v _SGR_PARAM_VALUES) eqn:Hv; cbn [negb].
  2:{ unfold Q. cbn [raise snd fst]. split; [exact Hwf | discriminate]. }
  destruct (append_value_spec v s Hv Hwf) as (Hw1 & _ & Hval).
  unfold mbind at 1.
  destruct (append_value v s) as [[value|e] s1]; cbn [snd fst] in *.
  2:{ unfold Q. cbn [snd fst]. split; [exact Hw1 | discriminate]. }
  destruct (Hval value eq_refl) as [Hcoh Hkey].
  destruct value as [b|c].
  - unfold Q, mbind, ret, update. cbn [snd fst].
    split; [refine (WF_append_plain s1 (Plain b) Hw1 Hcoh _); reflexivity|].
    intros _ _. exists (Plain b), (_sgr_params_ s1).
    cbn [set_params _sgr_params_]. repeat split; [exact Hkey | discriminate].
  - unfold mbind at 1. unfold mbind at 1.
    destruct (vacate_spec (fst (cb_rgb_dict c)) s1 Hw1) as (Hw2 & _ & Hz).
    destruct (vacate (fst (cb_rgb_dict c)) s1) as [[u|e] s2]; cbn [snd fst] in *.
    2:{ unfold Q. cbn [snd fst]. split; [exact Hw2 | discriminate]. }
    specialize (Hz u eq_refl).
    unfold Q, update. cbn [snd fst].
    split; [exact (WF_append_color s2 c Hw2 Hcoh Hz)|].
    intros _ _. exists (Colored c), (_sgr_params_ s2).
    cbn [set_params set_rgb_dict _sgr_params_]. repeat split; [exact Hkey|].
    intros k Hk. cbn [key_of] in Hk. inversion Hk; subst k. exact Hz.
Qed.

Lemma firstn_snoc {A} (l : list A) (n : nat) (x : A) :
  nth_error l n = Some x -> firstn (S n) l = firstn n l ++ [x].
Proof.
  revert n. induction l as [|a l IH]; intros [|n] H; try discriminate.
  - inversion H. reflexivity.
  - cbn [nth_error] in H. cbn [firstn app] in *. f_equal. now apply IH.
Qed.

Lemma run_appends_snoc (vs : list Z) (n : nat) (v : Z) (s : SgrSequence) :
  nth_error vs n = Some v ->
  run_appends (firstn (S n) vs) s = snd (append v (run_appends (firstn n vs) s)).
Proof.
  intros H. unfold run_appends. rewrite (firstn_snoc vs n v H), fold_left_app.
  reflexivity.
Qed.

Lemma run_appends_WF (vs : list Z) (s : SgrSequence) :
  WF s -> WF (run_appends vs s).
Proof.
  revert s. induction vs as [|v vs IH]; intros s H; [exact H|].
  apply IH. now apply append_spec.
Qed.

(** Exclusivity under the invariant of the class.  Take a sequence that
    satisfies the invariant, and any
    finite list of calls of [append], each of which may return or raise.
    After every prefix of the calls the invariant holds, so there is at most
    one colour entry in the foreground slot and at most one in the background
    slot.  When the next call appends a colour code and returns, the colour
    is the last entry and no entry before it occupies its slot: the entry
    that occupied the slot was removed by the same call. *)
Theorem slot_exclusivity (s : SgrSequence) (vs : list Z) :
  wf s = true ->
  forall n,
    wf (run_appends (firstn n vs) s) = true
    /\ (forall k, (count_key k (_sgr_params_ (run_appends (firstn n vs) s)) <= 1)%nat)
    /\ forall v key rgb u,
         nth_error vs n = Some v ->
         dict_get Z.eqb _ANSI16C_I2KV v = Some (key, rgb) ->
         fst (append v (run_appends (firstn n vs) s)) = Ok u ->
         exists l c,
           _sgr_params_ (run_appends (firstn (S n) vs) s) = l ++ [Colored c]
           /\ fst (cb_rgb_dict c) = key
           /\ count_key key l = 0%nat.
Proof.
  intros Hwf n. apply wf_WF in Hwf.
  pose proof (run_appends_WF (firstn n vs) s Hwf) as Hn.
  split; [now apply wf_WF|]. split; [intros k; apply Hn|].
  intros v key rgb u Hv Hkv Hu.
  rewrite (run_appends_snoc vs n v s Hv).
  destruct (append_spec v _ Hn) as [_ Hlast].
  destruct (Hlast u Hu) as (value & l & El & Hkey & Hz).
  rewrite Hkv in Hkey. cbn [option_map fst] in Hkey.
  destruct value as [b|c]; [discriminate Hkey|].
  exists l, c. split; [exact El|]. cbn [key_of] in Hkey. inversion Hkey.
  split; [reflexivity|]. apply Hz. cbn [key_of]. now f_equal.
Qed.

Lemma slot_exclusivity_witness :
  wf (run_appends (firstn 2 [31; 4; 32; 41]) empty_sgr) = true
  /\ (forall k, (count_key k (_sgr_params_
                    (run_appends (firstn 2 [31; 4; 32; 41]%Z) empty_sgr)) <= 1)%nat)
  /\ forall v key rgb u,
       nth_error [31; 4; 32; 41] 2 = Some v ->
       dict_get Z.eqb _ANSI16C_I2KV v = Some (key, rgb) ->
       fst (append v (run_appends (firstn 2 [31; 4; 32; 41]) empty_sgr)) = Ok u ->
       exists l c,
         _sgr_params_ (run_appends (firstn 3 [31; 4; 32; 41]) empty_sgr)
         = l ++ [Colored c]
         /\ fst (cb_rgb_dict c) = key
         /\ count_key key l = 0%nat.
Proof.
  apply (slot_exclusivity empty_sgr [31; 4; 32; 41]). reflexivity.
Defined.

(** C2 (the inputs on which the code fails).  On the sequence
    [SgrSequence([v])] of one standard 4-bit colour, [append(c)] for a
    bright colour [c] of the same slot does not replace the colour: it
    raises [ValueError] and leaves the sequence empty, the old colour popped
    and the new one not added.  And a sequence can hold two colours of one
    slot: [as_ansi_type] rebuilds [_rgb_dict_] from the colours it converts
    alone, so on the text styled by [SgrSequence([31, 48, 2, 0, 0, 255])]
    it leaves the foreground colour 31 without its key, and the call
    [append(32)] that [update_sgr(32)] makes pops nothing and adds a second
    foreground colour. *)
Theorem append_replacement_slip (v c : Z) (k : ColorDictKeys) (rv rc : Int3Tuple)
  (DEFAULT_ANSI : AnsiColorType) :
  mem v _ANSI16C_STD = true ->
  mem c _ANSI16C_BRIGHT = true ->
  dict_get Z.eqb _ANSI16C_I2KV v = Some (k, rv) ->
  dict_get Z.eqb _ANSI16C_I2KV c = Some (k, rc) ->
  (exists old,
     SgrSequence_init (InitIter (ArgList [ItemInt v])) None
     = Ok (mk_sgr [Colored old] [(k, rv)] false)
     /\ cb_bytes old = bytes_of_int v
     /\ append c (mk_sgr [Colored old] [(k, rv)] false)
        = (Raise ValueError, empty_sgr))
  /\ exists s cs r r',
       SgrSequence_init (InitIter (ArgList (map ItemInt [31; 48; 2; 0; 0; 255]))) None
       = Ok s
       /\ wf s = true
       /\ ColorStr_new DEFAULT_ANSI (Some "x") (Some (SpecSgr s)) None false = Ok cs
       /\ as_ansi_type cs ansicolor4Bit = Ok r
       /\ values (_sgr_ r) = ["31"; "44"]
       /\ dict_keys (_rgb_dict_ (_sgr_ r)) = [bg]
       /\ update_sgr r [32] = Ok r'
       /\ values (_sgr_ r') = ["31"; "44"; "32"]
       /\ count_key fg (_sgr_params_ (_sgr_ r')) = 2%nat.
Proof.
  intros Hv Hc Hkv Hkc. split.
  - apply mem_In in Hv, Hc. simpl in Hv, Hc.
    repeat (destruct Hv as [<-|Hv]); try contradiction;
      vm_compute in Hkv; injection Hkv as <- <-;
      repeat (destruct Hc as [<-|Hc]); try contradiction;
      vm_compute in Hkc; try discriminate Hkc;
      (eexists; split; [vm_compute; reflexivity|];
       split; vm_compute; reflexivity).
  - destruct DEFAULT_ANSI; do 4 eexists;
      (split; [vm_compute; reflexivity|]);
      (split; [vm_compute; reflexivity|]);
      (split; [vm_compute; reflexivity|]);
      (split; [vm_compute; reflexivity|]);
      (split; [vm_compute; reflexivity|]);
      (split; [vm_compute; reflexivity|]);
      (split; [vm_compute; reflexivity|]);
      split; vm_compute; reflexivity.
Qed.

Lemma append_replacement_slip_witness :
  (exists old,
     SgrSequence_init (InitIter (ArgList [ItemInt 31])) None
     = Ok (mk_sgr [Colored old] [(fg, (170, 0, 0))] false)
     /\ cb_bytes old = bytes_of_int 31
     /\ append 91 (mk_sgr [Colored old] [(fg, (170, 0, 0))] false)
        = (Raise ValueError, empty_sgr))
  /\ exists s cs r r',
       SgrSequence_init (InitIter (ArgList (map ItemInt [31; 48; 2; 0; 0; 255]))) None
       = Ok s
       /\ wf s = true
       /\ ColorStr_new ansicolor8Bit (Some "x") (Some (SpecSgr s)) None false = Ok cs
       /\ as_ansi_type cs ansicolor4Bit = Ok r
       /\ values (_sgr_ r) = ["31"; "44"]
       /\ dict_keys (_rgb_dict_ (_sgr_ r)) = [bg]
       /\ update_sgr r [32] = Ok r'
       /\ values (_sgr_ r') = ["31"; "44"; "32"]
       /\ count_key fg (_sgr_params_ (_sgr_ r')) = 2%nat.
Proof.
  exact (append_replacement_slip 31 91 fg (170, 0, 0) (255, 85, 85) ansicolor8Bit
           eq_refl eq_refl eq_refl eq_refl).
Defined.

(** *** C8: toggling codes with [update_sgr] *)



Lemma existsb_split (b : bytes) (l : list SgrParamWrapper) :
  existsb (String.eqb b) (map value_bytes l) = false ->
  Forall (fun q => String.eqb (value_bytes q) b = false) l.
Proof.
  induction l as [|q l IH]; cbn [map existsb]; intros H; constructor.
  - apply orb_false_iff in H. rewrite String.eqb_sym. tauto.
  - apply IH. apply orb_false_iff in H. tauto.
Qed.




Lemma index_from_exists (a : index_arg) (same : SgrParamWrapper -> bool) :
  (forall q, is_same_kind q a = Ok (same q)) ->
  forall l j,
    existsb same l = true ->
    exists l1 q l2,
      l = l1 ++ q :: l2 /\ same q = true
      /\ Forall (fun x => same x = false) l1
      /\ index_from j l a = Ok (j + Z.of_nat (List.length l1)).
Proof.
  intros Hs. induction l as [|p l IH]; intros j H; [discriminate H|].
  cbn [existsb] in H. cbn [index_from]. rewrite Hs. cbn [bind].
  destruct (same p) eqn:E.
  - exists [], p, l. cbn. repeat split; auto. f_equal. lia.
  - destruct (IH (j + 1) H) as (l1 & q & l2 & -> & Hq & Hall & ->).
    exists (p :: l1), q, l2. cbn [app List.length]. repeat split; auto.
    f_equal. lia.
Qed.





(** *** C9: the difference of two ColorStr values *)

(** C9 (the example, and the input on which the code fails).  With a left
    operand whose foreground is [(200, 100, 50)] and a right operand whose
    foreground is [(50, 100, 200)], in any of the three colour formats, [-]
    returns a value whose foreground is [(150, 0, 150)].  With the left
    operand styled by [SgrSequence([31, 101])] - red on a bright red
    background, which sets the bright-colours flag - and a right operand with
    a foreground colour, [-] raises [ValueError]: [pop] takes the red entry
    for a colour promoted from bold and looks for a bold code to pop. *)
Theorem ColorStr_sub_example_and_slip (fg_first : bool) (t : AnsiColorType) :
  (exists sl sr r,
     one_color t fg (200, 100, 50) = Ok sl
     /\ one_color t fg (50, 100, 200) = Ok sr
     /\ ColorStr_sub fg_first (styled sl false t) (OpColorStr (styled sr false t)) = Ok r
     /\ ColorStr_rgb_dict r = Ok [(fg, (150, 0, 150))]
     /\ _base_str_ r = "x")
  /\ SgrSequence_init (InitIter (ArgList [ItemInt 31; ItemInt 101])) None
     = Ok red_on_bright_red
  /\ ColorStr_rgb_dict (styled red_on_bright_red false ansicolor4Bit)
     = Ok [(fg, (170, 0, 0)); (bg, (255, 85, 85))]
  /\ ColorStr_sub fg_first (styled red_on_bright_red false ansicolor4Bit)
       (OpColorStr (styled standard_red false ansicolor4Bit))
     = Raise ValueError
  /\ ColorStr_sub fg_first (styled red_on_bright_red false ansicolor4Bit)
       (OpColor 255)
     = Raise ValueError.
Proof.
  split; [|repeat split; destruct fg_first; vm_compute; reflexivity].
  destruct t, fg_first; eexists; eexists; eexists;
    (split; [vm_compute; reflexivity|]);
    (split; [vm_compute; reflexivity|]);
    (split; [vm_compute; reflexivity|]);
    split; reflexivity.
Qed.

(** *** C3: the reset code *)

(** [append(0)] adds the reset code after the parameters there are and
    discards nothing. *)
Lemma append_reset (s : SgrSequence) :
  append 0 s = (Ok tt, set_params (_sgr_params_ s ++ [Plain "0"]) s).
Proof. reflexivity. Qed.

(** C3 as stated fails: on the empty sequence one [append(0)] leaves one
    reset entry and two leave two; on the sequence holding bold, the bold
    entry is still there after [append(0)].  The constructor skips a value
    it has already read: of the parameters left by [append(0)],
    [append(1)], [append(0)] it keeps the reset code and bold, so the reset
    code has to be new to the sequence for it to end up alone. *)
Lemma append_reset_counterexample :
  append 0 empty_sgr = (Ok tt, reset_sgr)
  /\ (append 0 ;;; append 0) empty_sgr = (Ok tt, mk_sgr [Plain "0"; Plain "0"] [] false)
  /\ mk_sgr [Plain "0"; Plain "0"] [] false <> reset_sgr
  /\ (append 1 ;;; append 0) empty_sgr = (Ok tt, mk_sgr [Plain "1"; Plain "0"] [] false)
  /\ (append 0 ;;; append 1 ;;; append 0) empty_sgr
     = (Ok tt, mk_sgr [Plain "0"; Plain "1"; Plain "0"] [] false)
  /\ SgrSequence_init
       (InitIter (ArgList (map ItemParam [Plain "0"; Plain "1"; Plain "0"]))) None
     = Ok (mk_sgr [Plain "0"; Plain "1"] [] false).
Proof. repeat split; try reflexivity. discriminate. Qed.

(** *** C7: concatenation *)


(** *** The bit trick of [_get_sgr_bitmask] *)

Lemma from_bytes_list_snoc (l : list ascii) (c : ascii) :
  from_bytes_list (l ++ [c]) = from_bytes_list l * 256 + byte_val c.
Proof. unfold from_bytes_list. now rewrite fold_left_app. Qed.

Lemma byte_val_range (c : ascii) : 0 <= byte_val c < 256.
Proof.
  unfold byte_val. pose proof (N_ascii_bounded c). lia.
Qed.

(** One byte of the mask: the bitwise operations on the whole integers act
    on each byte separately. *)
Lemma mask_step (B A c : Z) :
  0 <= c < 256 ->
  Z.land (Z.lnot (B * 256 + c)) (A * 256 + 59) / 256 = Z.land (Z.lnot B) A
  /\ Z.land (Z.lnot (B * 256 + c)) (A * 256 + 59) mod 256 = Z.land (Z.lnot c) 59.
Proof.
  intros Hc. split.
  - change 256 with (2 ^ 8) at 3. rewrite <- Z.shiftr_div_pow2 by lia.
    rewrite Z.shiftr_land, <- Z.lnot_shiftr by lia.
    rewrite !Z.shiftr_div_pow2 by lia. change (2 ^ 8) with 256.
    rewrite !Z.div_add_l by lia.
    rewrite (Z.div_small c 256) by lia. rewrite (Z.div_small 59 256) by lia.
    now rewrite !Z.add_0_r.
  - change 256 with (2 ^ 8) at 3. rewrite <- Z.land_ones by lia.
    rewrite <- Z.land_assoc. rewrite (Z.land_ones (A * 256 + 59)) by lia.
    change (2 ^ 8) with 256.
    replace ((A * 256 + 59) mod 256) with 59
      by (rewrite Z.add_comm, Z.mod_add by lia; reflexivity).
    apply Z.bits_inj'. intros i Hi. rewrite !Z.land_spec, !Z.lnot_spec by lia.
    destruct (Z.ltb_spec i 8) as [Hlt|Hge].
    + f_equal. f_equal.
      rewrite <- (Z.mod_pow2_bits_low (B * 256 + c) 8 i) by lia.
      change (2 ^ 8) with 256.
      rewrite Z.add_comm, Z.mod_add, Z.mod_small by lia. reflexivity.
    + replace (Z.testbit 59 i) with false; [now rewrite !andb_false_r|].
      symmetry. apply Z.bits_above_log2; [lia|].
      change (Z.log2 59) with 5. lia.
Qed.

Lemma mask_bytes (l : list ascii) :
  int_to_bytes (List.length l)
    (Z.land (Z.lnot (from_bytes_list l))
            (from_bytes_list (repeat ";"%char (List.length l))))
  = map mask_byte l.
Proof.
  induction l as [|c l IH] using rev_ind; [reflexivity|].
  rewrite length_app, Nat.add_1_r. cbn [repeat].
  rewrite repeat_cons, !from_bytes_list_snoc. cbn [int_to_bytes].
  change (byte_val ";") with 59.
  destruct (mask_step (from_bytes_list l)
              (from_bytes_list (repeat ";"%char (List.length l)))
              (byte_val c) (byte_val_range c)) as [-> ->].
  rewrite IH, map_app. reflexivity.
Qed.

Lemma combine_map_same {A B C} (f : A -> B) (g : A -> C) (l : list A) :
  combine (map f l) (map g l) = map (fun x => (f x, g x)) l.
Proof. induction l as [|x l IH]; [reflexivity | cbn; now rewrite IH]. Qed.

Lemma find_byte_ge (c : ascii) (s : bytes) : -1 <= find_byte c s.
Proof.
  induction s as [|a s IH]; cbn [find_byte]; [lia|].
  destruct (Ascii.eqb a c); [lia|].
  destruct (find_byte c s =? -1); lia.
Qed.

Lemma find_byte_none (c : ascii) (s : bytes) :
  find_byte c s = -1 ->
  Forall (fun a => Ascii.eqb a c = false) (list_ascii_of_string s).
Proof.
  induction s as [|a s IH]; cbn [find_byte list_ascii_of_string]; intros H;
    [constructor|].
  destruct (Ascii.eqb a c) eqn:E; [discriminate H|].
  pose proof (find_byte_ge c s).
  destruct (Z.eqb_spec (find_byte c s) (-1)) as [E'|E']; [|lia].
  constructor; [exact E | now apply IH].
Qed.

Lemma no_m_last (s : bytes) : find_byte "m" s = -1 -> last_not_m s.
Proof.
  intros H. apply find_byte_none in H. unfold last_not_m.
  assert (Hr : Forall (fun a => Ascii.eqb a "m" = false)
                 (List.rev (list_ascii_of_string s)))
    by (apply Forall_rev; exact H).
  destruct (List.rev (list_ascii_of_string s)) as [|c t]; [reflexivity|].
  inversion Hr; subst. assumption.
Qed.

Lemma string_length_list (s : string) :
  String.length s = List.length (list_ascii_of_string s).
Proof. induction s as [|c s IH]; [reflexivity | cbn; now rewrite IH]. Qed.

(** [prepass] for a byte string that has no escape prefix and no [m]. *)
Lemma bitmask_prepass (x : bytes) :
  find_byte "m" x = -1 ->
  removeprefix CSI x = x ->
  _get_sgr_bitmask x = bitmask_loop (map prepass_of (list_ascii_of_string x)) [] [].
Proof.
  intros Hm Hp. unfold _get_sgr_bitmask. cbv zeta. rewrite Hm, Hp.
  change (-1 =? -1) with true. cbv iota.
  rewrite (removesuffix_m_last x (no_m_last x Hm)).
  unfold int_from_bytes. rewrite list_ascii_of_string_of_list_ascii.
  rewrite string_length_list.
  pose proof (mask_bytes (list_ascii_of_string x)) as Hmask.
  unfold from_bytes_list in Hmask. rewrite Hmask, map_map.
  rewrite combine_map_same. reflexivity.
Qed.

Lemma dec_ok_all (n : Z) : 0 <= n < 256 -> dec_ok n = true.
Proof.
  apply (forallb_range dec_ok 0 256). vm_compute. reflexivity.
Qed.

Lemma char_ok_all (c : ascii) : char_ok c = true.
Proof. destruct c as [[] [] [] [] [] [] [] []]; reflexivity. Qed.

Lemma digit_facts (c : ascii) :
  is_digit c = true ->
  fst (prepass_of c) = true /\ Ascii.eqb c "m" = false /\ Ascii.eqb c ";" = false.
Proof.
  intros H. pose proof (char_ok_all c) as Hc. unfold char_ok in Hc.
  rewrite H in Hc. cbn [implb] in Hc.
  apply andb_true_iff in Hc. destruct Hc as [Hc H3].
  apply andb_true_iff in Hc. destruct Hc as [H1 H2].
  apply negb_true_iff in H2, H3. auto.
Qed.

Lemma dec_ok_spec (n : Z) :
  0 <= n < 256 ->
  bytes_of_int n <> EmptyString
  /\ Forall (fun c => is_digit c = true) (list_ascii_of_string (bytes_of_int n))
  /\ alloc (map (fun c => byte_val c mod 48) (list_ascii_of_string (bytes_of_int n)))
     = Ok n.
Proof.
  intros H. pose proof (dec_ok_all n H) as Hd. unfold dec_ok in Hd.
  destruct (bytes_of_int n) as [|c s] eqn:E; [discriminate Hd|].
  cbn [list_ascii_of_string] in *.
  apply andb_true_iff in Hd. destruct Hd as [Hall Hal].
  split; [discriminate|]. split.
  - apply Forall_forall. rewrite forallb_forall in Hall. exact Hall.
  - destruct (alloc _) as [m|e]; [|discriminate Hal].
    apply Z.eqb_eq in Hal. now subst.
Qed.

(** A run of digits is gathered in the buffer. *)
Lemma bitmask_loop_digits (d : list ascii) :
  Forall (fun c => is_digit c = true) d ->
  forall rest buffer allocated,
    bitmask_loop (map prepass_of d ++ rest) buffer allocated
    = bitmask_loop rest (buffer ++ map (fun c => byte_val c mod 48) d) allocated.
Proof.
  induction 1 as [|c d Hc Hd IH]; intros rest buffer allocated.
  - cbn [map app]. now rewrite app_nil_r.
  - cbn [map app]. destruct (digit_facts c Hc) as [Hp _].
    unfold prepass_of at 1. unfold prepass_of in Hp. cbn [fst] in Hp.
    cbn [bitmask_loop]. rewrite Hp, IH, <- app_assoc. reflexivity.
Qed.

(** The loop over the text of integers joined by [;] allocates them. *)
Lemma bitmask_loop_join (ns : list Z) :
  ns <> [] -> Forall (fun n => 0 <= n < 256) ns ->
  forall allocated,
    bitmask_loop (map prepass_of (list_ascii_of_string (join ";" (map bytes_of_int ns))))
                 [] allocated
    = Ok (allocated ++ ns).
Proof.
  intros Hne Hall. induction Hall as [|n ns Hn Hall IH]; [congruence|].
  intros allocated. destruct (dec_ok_spec n Hn) as (Hnz & Hd & Ha).
  destruct ns as [|m ns'].
  - cbn [map join String.concat].
    rewrite <- (app_nil_r (map prepass_of _)), bitmask_loop_digits by exact Hd.
    cbn [app bitmask_loop].
    destruct (map _ (list_ascii_of_string (bytes_of_int n))) as [|v l] eqn:E.
    + destruct (bytes_of_int n); [congruence | discriminate E].
    + rewrite Ha. reflexivity.
  - change (join ";" (map bytes_of_int (n :: m :: ns')))
      with (bytes_of_int n ++ String ";" (join ";" (map bytes_of_int (m :: ns'))))%string.
    rewrite list_ascii_app. cbn [list_ascii_of_string]. rewrite map_app.
    rewrite bitmask_loop_digits by exact Hd. cbn [map app].
    change (prepass_of ";") with (false, 11). cbn [bitmask_loop].
    rewrite Ha. cbn [bind]. rewrite IH by discriminate.
    now rewrite <- app_assoc.
Qed.

Lemma find_byte_absent (c : ascii) (s : bytes) :
  Forall (fun a => Ascii.eqb a c = false) (list_ascii_of_string s) ->
  find_byte c s = -1.
Proof.
  induction s as [|a s IH]; cbn [find_byte list_ascii_of_string]; intros H;
    [reflexivity|].
  inversion H; subst. replace (Ascii.eqb a c) with false by auto.
  now rewrite IH.
Qed.

Lemma join_dec_no_m (ns : list Z) :
  Forall (fun n => 0 <= n < 256) ns ->
  Forall (fun a => Ascii.eqb a "m" = false)
         (list_ascii_of_string (join ";" (map bytes_of_int ns))).
Proof.
  induction 1 as [|n ns Hn Hall IH]; [constructor|].
  destruct (dec_ok_spec n Hn) as (_ & Hd & _).
  assert (Hdm : Forall (fun a => Ascii.eqb a "m" = false)
                  (list_ascii_of_string (bytes_of_int n))).
  { eapply Forall_impl; [|exact Hd]. intros a Ha. now destruct (digit_facts a Ha) as (_ & ? & _). }
  destruct ns as [|m ns']; [exact Hdm|].
  change (join ";" (map bytes_of_int (n :: m :: ns')))
    with (bytes_of_int n ++ String ";" (join ";" (map bytes_of_int (m :: ns'))))%string.
  rewrite list_ascii_app. apply Forall_app. split; [exact Hdm|].
  cbn [list_ascii_of_string]. constructor; [reflexivity | exact IH].
Qed.

(** [_get_sgr_bitmask] on the text of integers of 0..255 joined by [;]
    returns the integers. *)
Lemma bitmask_join (ns : list Z) :
  ns <> [] -> Forall (fun n => 0 <= n < 256) ns ->
  _get_sgr_bitmask (join ";" (map bytes_of_int ns)) = Ok ns.
Proof.
  intros Hne Hall. rewrite bitmask_prepass.
  - apply (bitmask_loop_join ns Hne Hall []).
  - apply find_byte_absent, join_dec_no_m, Hall.
  - destruct (join_dec_first ns Hne Hall) as (c & s & -> & Hd).
    now apply removeprefix_CSI_digit.
Qed.

(** *** Entries and the values made of them *)

Lemma check_regen4_all (code : Z) :
  in_I2KV code = true -> check_regen4 code = true.
Proof.
  intros H. apply in_I2KV_keys in H. revert code H.
  apply forallb_forall. vm_compute. reflexivity.
Qed.

Lemma check_plain_all (v : Z) : 0 <= v < 256 -> check_plain v = true.
Proof.
  apply (forallb_range check_plain 0 256). vm_compute. reflexivity.
Qed.

(** *** The loop of the constructor *)

Lemma list_remove_spec (p : SgrParamWrapper) (l : list SgrParamWrapper) :
  In p l ->
  exists l1 q l2,
    l = l1 ++ q :: l2 /\ list_remove p l = Some (l1 ++ l2) /\ param_eqb q p = true.
Proof.
  induction l as [|a l IH]; intros Hin; [destruct Hin|].
  cbn [list_remove]. destruct (param_eqb a p) eqn:E.
  - exists [], a, l. auto.
  - destruct Hin as [->|Hin].
    { unfold param_eqb in E. rewrite String.eqb_refl in E. discriminate. }
    destruct (IH Hin) as (l1 & q & l2 & -> & Hr & Hq). rewrite Hr.
    exists (a :: l1), q, l2. auto.
Qed.

Lemma first_bold_spec (l : list SgrParamWrapper) :
  has_bold_param l = true ->
  forall i,
    exists l1 q l2,
      l = l1 ++ q :: l2
      /\ first_bold i l = Some (i + Z.of_nat (List.length l1))
      /\ value_bytes q = "1".
Proof.
  induction l as [|a l IH]; intros H i; [discriminate|].
  cbn [has_bold_param existsb] in H. cbn [first_bold].
  destruct (String.eqb (value_bytes a) "1") eqn:E.
  - exists [], a, l. apply String.eqb_eq in E. cbn [List.length app].
    repeat split; auto. f_equal. lia.
  - cbn [orb] in H. destruct (IH H (i + 1)) as (l1 & q & l2 & -> & Hf & Hq).
    exists (a :: l1), q, l2. repeat split; auto. rewrite Hf. f_equal.
    cbn [List.length]. lia.
Qed.

Lemma coherent_colored_key (p : SgrParamWrapper) (k : ColorDictKeys) :
  coherent p = true -> bytes_key (value_bytes p) = Some k -> key_of p = Some k.
Proof. intros H E. rewrite (coherent_key p H). exact E. Qed.

Lemma key_of_some (p : SgrParamWrapper) (k : ColorDictKeys) :
  key_of p = Some k -> exists c, p = Colored c /\ fst (cb_rgb_dict c) = k.
Proof.
  destruct p as [b|c]; cbn; intros H; [discriminate|]. exists c. split; congruence.
Qed.

Lemma In_remove_mid {A} (l1 l2 : list A) (q p : A) :
  In p (l1 ++ q :: l2) -> p <> q -> In p (l1 ++ l2).
Proof.
  intros H N. apply in_app_or in H. apply in_or_app.
  destruct H as [H|[H|H]]; auto. congruence.
Qed.

Lemma In_mid_incl {A} (l1 l2 : list A) (q p : A) :
  In p (l1 ++ l2) -> In p (l1 ++ q :: l2).
Proof.
  intros H. apply in_app_or in H. apply in_or_app. destruct H; [left|right; right]; auto.
Qed.

Lemma count_key_mid (k : ColorDictKeys) (l1 l2 : list SgrParamWrapper)
  (q : SgrParamWrapper) :
  count_key k (l1 ++ q :: l2)
  = ((if occupies k q then 1 else 0) + count_key k (l1 ++ l2))%nat.
Proof. rewrite !count_key_app, count_key_cons. lia. Qed.

Lemma occupies_none (k : ColorDictKeys) (q : SgrParamWrapper) :
  key_of q = None -> occupies k q = false.
Proof. intros H. unfold occupies. rewrite H. reflexivity. Qed.

Lemma occupies_some (k k' : ColorDictKeys) (q : SgrParamWrapper) :
  key_of q = Some k -> occupies k' q = key_eqb k k'.
Proof. intros H. unfold occupies. rewrite H. reflexivity. Qed.

Lemma bytes_key_bold : bytes_key "1" = None.
Proof. reflexivity. Qed.

Lemma bytes_key_reset : bytes_key "0" = None.
Proof. reflexivity. Qed.

Lemma coherent_bold (q : SgrParamWrapper) :
  coherent q = true -> value_bytes q = "1" -> key_of q = None.
Proof. intros H E. rewrite (coherent_key q H), E. reflexivity. Qed.

(** Dropping a parameter that is no colour keeps [Inv]. *)
Lemma Inv_drop_plain (s : SgrSequence) (l1 l2 : list SgrParamWrapper)
  (q : SgrParamWrapper) (vs : list bytes) (f b : option SgrParamWrapper)
  (ib : bool) :
  Inv (mk_init s vs f b ib true) ->
  _sgr_params_ s = l1 ++ q :: l2 ->
  key_of q = None ->
  Inv (mk_init (set_params (l1 ++ l2) s) vs f b ib false).
Proof.
  intros (Hw & _ & Hs) E Hq.
  destruct (WF_remove_plain s l1 l2 q E Hq Hw) as [Hw' Hc].
  split; [exact Hw'|]. split; [discriminate|].
  intros k. specialize (Hs k). cbn [st_self set_params _sgr_params_] in *.
  destruct k; cbn [color_slot st_fg_slot st_bg_slot] in *.
  - destruct f as [p|].
    + destruct Hs as [Hin Hk]. split; [|exact Hk].
      rewrite E in Hin. apply (In_remove_mid _ _ q); [exact Hin|congruence].
    + rewrite Hc. exact Hs.
  - destruct b as [p|].
    + destruct Hs as [Hin Hk]. split; [|exact Hk].
      rewrite E in Hin. apply (In_remove_mid _ _ q); [exact Hin|congruence].
    + rewrite Hc. exact Hs.
Qed.

Lemma Inv_set_bright (st : init_state) :
  Inv st -> Inv (with_self (set_bright true) st).
Proof.
  intros (Hw & Hb & Hs). split; [apply WF_set_bright; exact Hw|].
  split; [exact Hb|]. intros k. specialize (Hs k).
  destruct k; exact Hs.
Qed.

Lemma promoted_new (c c' : colorbytes) (code : Z) :
  type_eqb (cb_type c) ansicolor4Bit = true ->
  py_int (cb_bytes c) = Ok code ->
  mem code _ANSI16C_BRIGHT = false ->
  promoted (Colored c) = Some c' ->
  colorbytes_new (Some ansicolor4Bit) (Plain (bytes_of_int (code + 60))) = Ok c'.
Proof.
  intros Ht Hp Hb. unfold promoted. rewrite Ht, Hp, Hb.
  destruct (mem code _ANSI16C_STD); [|discriminate].
  destruct (colorbytes_new _ _); congruence.
Qed.

(** The 4-bit branch returns; it keeps [Inv], the values seen and the slot
    variables, and hands back the colour or its bright counterpart. *)
Lemma init_4bit_spec (c : colorbytes) (st : init_state) :
  good_value (Colored c) = true ->
  type_eqb (cb_type c) ansicolor4Bit = true ->
  Inv st ->
  exists c' st',
    init_4bit c st = Ok (c', st')
    /\ Inv st'
    /\ st_values st' = st_values st
    /\ st_fg_slot st' = st_fg_slot st
    /\ st_bg_slot st' = st_bg_slot st
    /\ st_is_bold st' = st_is_bold st
    /\ (c' = c \/ (st_is_bold st = true /\ promoted (Colored c) = Some c'))
    /\ fst (cb_rgb_dict c') = fst (cb_rgb_dict c)
    /\ coherent (Colored c') = true
    /\ (forall p, In p (_sgr_params_ (st_self st')) -> In p (_sgr_params_ (st_self st)))
    /\ (forall p, In p (_sgr_params_ (st_self st)) ->
        String.eqb (value_bytes p) "1" = false -> In p (_sgr_params_ (st_self st'))).
Proof.
  intros Hg Ht HI. unfold good_value in Hg. apply andb_true_iff in Hg.
  destruct Hg as [Hco Hg]. rewrite Ht in Hg.
  destruct (py_int (cb_bytes c)) as [code|] eqn:Hp; [|discriminate].
  unfold init_4bit. rewrite Hp. cbn [bind].
  destruct (mem code _ANSI16C_BRIGHT) eqn:Hb.
  { exists c, (with_self (set_bright true) st).
    split; [reflexivity|]. split; [apply Inv_set_bright; exact HI|].
    repeat split; auto. }
  cbn [orb] in Hg. apply andb_true_iff in Hg. destruct Hg as [Hstd Hg].
  rewrite Hstd, andb_true_r.
  destruct (st_is_bold st) eqn:Hbold.
  2:{ exists c, st. split; [reflexivity|]. split; [exact HI|].
      repeat split; auto. }
  destruct (promoted (Colored c)) as [c'|] eqn:Hpr; [|discriminate].
  apply andb_true_iff in Hg. destruct Hg as [Hk Hco'].
  apply key_eqb_eq in Hk.
  rewrite (promoted_new c c' code Ht Hp Hb Hpr). cbn [bind].
  cbn [with_self st_has_bold st_self st_values st_fg_slot st_bg_slot st_is_bold].
  destruct (st_has_bold st) eqn:Hhb.
  2:{ exists c', (with_self (set_bright true) st).
      split; [reflexivity|]. split; [apply Inv_set_bright; exact HI|].
      repeat split; auto. }
  pose proof HI as (Hw & Hbp & Hs). specialize (Hbp Hhb).
  cbn [set_bright _sgr_params_].
  destruct (first_bold_spec _ Hbp 0) as (l1 & q & l2 & E & Hf & Hq).
  rewrite Hf. change (0 + Z.of_nat (List.length l1)) with (Z.of_nat (List.length l1)).
  rewrite E, list_pop_app.
  assert (Hcq : coherent q = true).
  { destruct Hw as [Hall _]. rewrite E in Hall.
    apply Forall_forall with (x := q) in Hall; [exact Hall|].
    apply in_or_app. right. left. reflexivity. }
  pose proof (coherent_bold q Hcq Hq) as Hkq.
  eexists c', _. split; [reflexivity|].
  split.
  { apply (Inv_drop_plain (set_bright true (st_self st)) l1 l2 q); auto.
    apply Inv_set_bright in HI. destruct st; cbn in *. subst. exact HI. }
  cbn [st_values st_fg_slot st_bg_slot st_is_bold st_self set_params _sgr_params_].
  repeat split; auto.
  - intros p Hin. apply In_mid_incl. exact Hin.
  - intros p Hin Hne. apply (In_remove_mid _ _ q); [exact Hin|].
    intros ->. rewrite Hq in Hne. discriminate.
Qed.

Lemma has_bold_param_app (l1 l2 : list SgrParamWrapper) :
  has_bold_param (l1 ++ l2) = has_bold_param l1 || has_bold_param l2.
Proof. apply existsb_app. Qed.

Lemma has_bold_param_mid (l1 l2 : list SgrParamWrapper) (q : SgrParamWrapper) :
  String.eqb (value_bytes q) "1" = false ->
  has_bold_param (l1 ++ q :: l2) = has_bold_param (l1 ++ l2).
Proof.
  intros H. rewrite !has_bold_param_app. cbn [has_bold_param existsb].
  rewrite H. reflexivity.
Qed.

Lemma WF_coherent_in (s : SgrSequence) (p : SgrParamWrapper) :
  WF s -> In p (_sgr_params_ s) -> coherent p = true.
Proof. intros [H _] Hin. exact (proj1 (Forall_forall _ _) H p Hin). Qed.

Lemma colored_not_bold (p : SgrParamWrapper) (k : ColorDictKeys) :
  coherent p = true -> key_of p = Some k ->
  String.eqb (value_bytes p) "1" = false /\ String.eqb (value_bytes p) "0" = false.
Proof.
  intros Hc Hk. rewrite (coherent_key p Hc) in Hk.
  split; apply String.eqb_neq; intros E; rewrite E in Hk; discriminate.
Qed.

(** [update_colors] returns; with the parameter appended, [Inv] holds again
    and the slot of the colour names the new parameter. *)
Lemma update_colors_spec (c : colorbytes) (st : init_state) (v : bytes) :
  coherent (Colored c) = true ->
  Inv st ->
  exists st1,
    update_colors (Colored c) (cb_rgb_dict c) st = Ok st1
    /\ st_values st1 = st_values st
    /\ st_is_bold st1 = st_is_bold st
    /\ st_has_bold st1 = st_has_bold st
    /\ (forall k, color_slot k st1
                  = if key_eqb (fst (cb_rgb_dict c)) k then Some (Colored c)
                    else color_slot k st)
    /\ (forall p, In p (_sgr_params_ (st_self st1)) -> In p (_sgr_params_ (st_self st)))
    /\ (forall p, In p (_sgr_params_ (st_self st)) -> key_of p = None ->
        In p (_sgr_params_ (st_self st1)))
    /\ Inv (mk_init (set_params (_sgr_params_ (st_self st1) ++ [Colored c]) (st_self st1))
                    (v :: st_values st1) (st_fg_slot st1) (st_bg_slot st1)
                    (st_is_bold st1) (st_has_bold st1)).
Proof.
  intros Hco HI. pose proof HI as (Hw & Hbp & Hs).
  unfold update_colors. destruct (cb_rgb_dict c) as [k rgb] eqn:Hkv.
  assert (Hkc : key_of (Colored c) = Some k) by (cbn; rewrite Hkv; reflexivity).
  pose proof (Hs k) as Hk.
  destruct (color_slot k st) as [p|] eqn:Hslot.
  - destruct Hk as [Hin Hkp].
    destruct (list_remove_spec p _ Hin) as (l1 & q & l2 & E & Hr & Hq).
    rewrite Hr. cbn [bind].
    assert (Hinq : In q (_sgr_params_ (st_self st))).
    { rewrite E. apply in_or_app. right. left. reflexivity. }
    pose proof (WF_coherent_in _ _ Hw Hinq) as Hcq.
    pose proof (WF_coherent_in _ _ Hw Hin) as Hcp.
    assert (Hkq : key_of q = Some k).
    { rewrite (coherent_key q Hcq). unfold param_eqb in Hq.
      apply String.eqb_eq in Hq. rewrite Hq, <- (coherent_key p Hcp). exact Hkp. }
    destruct (colored_not_bold q k Hcq Hkq) as [Hnb _].
    assert (Hcount : forall k',
               count_key k' ((l1 ++ l2) ++ [Colored c])
               = count_key k' (_sgr_params_ (st_self st))).
    { intros k'. rewrite E, count_key_app, count_key_mid, count_key_cons, count_key_nil.
      rewrite (occupies_some k k' q Hkq), (occupies_some k k' _ Hkc). lia. }
    eexists. split; [reflexivity|].
    cbn [st_values st_is_bold st_has_bold st_self st_fg_slot st_bg_slot
         _sgr_params_ set_params _rgb_dict_ _has_bright_colors_].
    split; [reflexivity|]. split; [reflexivity|]. split; [reflexivity|].
    split.
    { intros k'. destruct k, k'; reflexivity. }
    split.
    { intros p' Hp'. rewrite E. apply In_mid_incl. exact Hp'. }
    split.
    { intros p' Hp' Hn. rewrite E in Hp'. apply (In_remove_mid _ _ q); [exact Hp'|].
      intros ->. congruence. }
    split; [|split].
    + split.
      * unfold set_params; cbn [st_self _sgr_params_]. destruct Hw as [Hall _]. rewrite E in Hall.
        apply Forall_app. split; [exact (Forall_remove_mid _ _ _ _ Hall)|].
        constructor; [exact Hco|constructor].
      * intros k'. unfold set_params. cbn [st_self _sgr_params_ _rgb_dict_].
        rewrite Hcount.
        destruct Hw as [_ Hcnt]. destruct (Hcnt k') as [Hle Hd].
        split; [exact Hle|]. rewrite dict_count_set.
        destruct (key_eqb k k') eqn:Ek; [|exact Hd].
        apply key_eqb_eq in Ek. subst k'. rewrite Hd.
        assert (1 <= count_key k (_sgr_params_ (st_self st)))%nat.
        { rewrite E, count_key_mid, (occupies_some k k q Hkq), key_eqb_refl. lia. }
        lia.
    + unfold set_params; cbn [st_has_bold st_self _sgr_params_]. intros Hb. specialize (Hbp Hb).
      rewrite E, (has_bold_param_mid _ _ _ Hnb) in Hbp.
      rewrite has_bold_param_app, Hbp. reflexivity.
    + intros k'. unfold set_params; cbn [st_self _sgr_params_]. rewrite Hcount.
      specialize (Hs k').
      destruct k, k'; cbn [color_slot st_fg_slot st_bg_slot] in *.
      * split; [apply in_or_app; right; left; reflexivity|exact Hkc].
      * destruct (st_bg_slot st) as [p'|]; [|exact Hs].
        destruct Hs as [Hp' Hk']. split; [|exact Hk'].
        apply in_or_app. left. rewrite E in Hp'.
        apply (In_remove_mid _ _ q); [exact Hp'|]. intros ->. congruence.
      * destruct (st_fg_slot st) as [p'|]; [|exact Hs].
        destruct Hs as [Hp' Hk']. split; [|exact Hk'].
        apply in_or_app. left. rewrite E in Hp'.
        apply (In_remove_mid _ _ q); [exact Hp'|]. intros ->. congruence.
      * split; [apply in_or_app; right; left; reflexivity|exact Hkc].
  - cbn [bind].
    eexists. split; [reflexivity|].
    cbn [st_values st_is_bold st_has_bold st_self st_fg_slot st_bg_slot
         _sgr_params_ set_params _rgb_dict_ _has_bright_colors_].
    split; [reflexivity|]. split; [reflexivity|]. split; [reflexivity|].
    split.
    { intros k'. destruct k, k'; reflexivity. }
    split; [auto|]. split; [auto|].
    assert (Hk0 : count_key (fst (cb_rgb_dict c)) (_sgr_params_ (st_self st)) = 0%nat)
      by (rewrite Hkv; exact Hk).
    pose proof (WF_append_color (st_self st) c Hw Hco Hk0) as Hw'.
    rewrite Hkv in Hw'. cbn [fst snd] in Hw'.
    split; [exact Hw'|]. split.
    + unfold set_params; cbn [st_has_bold st_self _sgr_params_]. intros Hb.
      rewrite has_bold_param_app, (Hbp Hb). reflexivity.
    + intros k'. unfold set_params; cbn [st_self _sgr_params_].
      rewrite count_key_app, count_key_cons, count_key_nil,
        (occupies_some k k' _ Hkc).
      specialize (Hs k').
      destruct k, k'; cbn [color_slot st_fg_slot st_bg_slot key_eqb] in *.
      * split; [apply in_or_app; right; left; reflexivity|exact Hkc].
      * destruct (st_bg_slot st) as [p'|]; [|lia].
        destruct Hs as [Hp' Hk']. split; [|exact Hk'].
        apply in_or_app. left. exact Hp'.
      * destruct (st_fg_slot st) as [p'|]; [|lia].
        destruct Hs as [Hp' Hk']. split; [|exact Hk'].
        apply in_or_app. left. exact Hp'.
      * split; [apply in_or_app; right; left; reflexivity|exact Hkc].
Qed.

Lemma Inv_append_plain (st : init_state) (x : sgr_value) (v : list bytes)
  (ib hb : bool) :
  Inv st -> coherent x = true -> key_of x = None ->
  (hb = true -> st_has_bold st = true \/ String.eqb (value_bytes x) "1" = true) ->
  Inv (mk_init (set_params (_sgr_params_ (st_self st) ++ [x]) (st_self st)) v
               (st_fg_slot st) (st_bg_slot st) ib hb).
Proof.
  intros (Hw & Hbp & Hs) Hco Hk Hhb. split; [|split].
  - exact (WF_append_plain (st_self st) x Hw Hco Hk).
  - unfold set_params; cbn [st_has_bold st_self _sgr_params_]. intros H.
    rewrite has_bold_param_app. destruct (Hhb H) as [H'|H'].
    + rewrite (Hbp H'). reflexivity.
    + cbn [has_bold_param existsb]. rewrite H'. apply orb_true_r.
  - intros k. unfold set_params; cbn [st_self _sgr_params_].
    rewrite count_key_app, count_key_cons, count_key_nil, (occupies_none k x Hk).
    specialize (Hs k).
    destruct k; cbn [color_slot st_fg_slot st_bg_slot] in *.
    + destruct (st_fg_slot st) as [p|]; [|lia].
      destruct Hs as [Hin Hp]. split; [apply in_or_app; left; exact Hin|exact Hp].
    + destruct (st_bg_slot st) as [p|]; [|lia].
      destruct Hs as [Hin Hp]. split; [apply in_or_app; left; exact Hin|exact Hp].
Qed.

(** One iteration of the loop, without [ansi_type], returns on a good value;
    it keeps [Inv] and does what [Post] says. *)
Lemma init_step_spec (x : sgr_value) (st : init_state) :
  good_value x = true ->
  Inv st ->
  exists st', init_step None x st = Ok st' /\ Inv st' /\ Post x st st'.
Proof.
  intros Hg HI. unfold init_step, Post.
  destruct (existsb (String.eqb (value_bytes x)) (st_values st)) eqn:Hex.
  { exists st. auto. }
  pose proof Hg as Hg'. unfold good_value in Hg'. apply andb_true_iff in Hg'.
  destruct Hg' as [Hco _].
  destruct (String.eqb (value_bytes x) "1") eqn:H1.
  - pose proof H1 as H1'. apply String.eqb_eq in H1'.
    pose proof (coherent_bold x Hco H1') as Hk. cbn [bind].
    destruct (st_is_bold st) eqn:Hb.
    + eexists. split; [reflexivity|]. split.
      * apply Inv_append_plain; auto.
      * exists x, (_sgr_params_ (st_self st)).
        cbn [st_values st_self set_params _sgr_params_ st_is_bold].
        repeat split; auto.
        intros k. rewrite Hk. destruct k; reflexivity.
    + eexists. split; [reflexivity|]. split.
      * cbn [st_self st_values st_fg_slot st_bg_slot st_is_bold st_has_bold].
        apply Inv_append_plain; auto.
      * exists x, (_sgr_params_ (st_self st)).
        cbn [st_values st_self set_params _sgr_params_ st_is_bold].
        repeat split; auto.
        intros k. rewrite Hk. destruct k; reflexivity.
  - destruct x as [b|c].
    + cbn [bind]. eexists. split; [reflexivity|]. split.
      * apply Inv_append_plain; auto.
      * exists (Plain b), (_sgr_params_ (st_self st)).
        cbn [st_values st_self set_params _sgr_params_ st_is_bold].
        repeat split; auto using orb_false_r.
    + cbn [negb]. cbv iota.
      assert (Hstep : exists c' st',
                 (if type_eqb (cb_type c) ansicolor4Bit then init_4bit c st
                  else Ok (c, st)) = Ok (c', st')
                 /\ Inv st'
                 /\ st_values st' = st_values st
                 /\ st_fg_slot st' = st_fg_slot st
                 /\ st_bg_slot st' = st_bg_slot st
                 /\ st_is_bold st' = st_is_bold st
                 /\ (c' = c \/ (st_is_bold st = true /\ promoted (Colored c) = Some c'))
                 /\ fst (cb_rgb_dict c') = fst (cb_rgb_dict c)
                 /\ coherent (Colored c') = true
                 /\ (forall p, In p (_sgr_params_ (st_self st')) ->
                     In p (_sgr_params_ (st_self st)))
                 /\ (forall p, In p (_sgr_params_ (st_self st)) ->
                     String.eqb (value_bytes p) "1" = false ->
                     In p (_sgr_params_ (st_self st')))).
      { destruct (type_eqb (cb_type c) ansicolor4Bit) eqn:Ht.
        - exact (init_4bit_spec c st Hg Ht HI).
        - exists c, st. split; [reflexivity|]. split; [exact HI|].
          repeat split; auto. }
      destruct Hstep as (c' & st' & E4 & HI' & Hv & Hf & Hbg & Hib & Hc' & Hk'
                         & Hco' & Hsub & Hkeep).
      rewrite E4. cbn [bind].
      destruct (update_colors_spec c' st' (cb_bytes c') Hco' HI')
        as (st1 & Eu & Hv1 & Hib1 & Hhb1 & Hsl & Hsub1 & Hkeep1 & HI1).
      rewrite Eu. cbn [bind]. eexists. split; [reflexivity|]. split.
      * exact HI1.
      * exists (Colored c'), (_sgr_params_ (st_self st1)).
        cbn [st_values st_self set_params _sgr_params_ st_is_bold value_bytes].
        split; [rewrite Hv1, Hv; reflexivity|].
        split; [reflexivity|].
        split; [intros p Hp; apply Hsub, Hsub1, Hp|].
        split; [intros p Hp Hn Hne; apply Hkeep1; [apply Hkeep; assumption|exact Hn]|].
        split; [destruct Hc' as [->|[Hb Hpr]];
                [left; reflexivity|right; split; [exact Hb|exists c'; auto]]|].
        split; [cbn [key_of]; rewrite Hk'; reflexivity|].
        split; [rewrite Hib1, Hib, orb_false_r; reflexivity|].
        intros k. 
        change (color_slot k st1
                = if okey_eqb (key_of (Colored c)) (Some k) then Some (Colored c')
                  else color_slot k st).
        rewrite Hsl, Hk'. cbn [key_of okey_eqb].
        destruct (key_eqb (fst (cb_rgb_dict c)) k); [reflexivity|].
        destruct k; cbn [color_slot]; assumption.
Qed.

Lemma init_loop_app (xs ys : list sgr_value) (st : init_state) :
  init_loop None (xs ++ ys) st
  = (st' <- init_loop None xs st ;; init_loop None ys st').
Proof.
  revert st. induction xs as [|x xs IH]; intros st; [reflexivity|].
  cbn [app init_loop]. destruct (init_step None x st) as [st1|e]; cbn [bind]; auto.
Qed.

Lemma good_value_coherent (x : sgr_value) : good_value x = true -> coherent x = true.
Proof. unfold good_value. intros H. apply andb_true_iff in H. tauto. Qed.

Lemma Post_values (x : sgr_value) (st st' : init_state) :
  Post x st st' -> st_values st' <> [].
Proof.
  unfold Post. destruct (existsb (String.eqb (value_bytes x)) (st_values st)) eqn:E.
  - intros -> H. rewrite H in E. discriminate.
  - intros (x' & l & -> & _). discriminate.
Qed.

Lemma Post_NE (x : sgr_value) (st st' : init_state) :
  Post x st st' -> NE st -> NE st'.
Proof.
  unfold Post. destruct (existsb (String.eqb (value_bytes x)) (st_values st)) eqn:E.
  - intros ->. auto.
  - intros (x' & l & _ & Hp & _) _ _. rewrite Hp. destruct l; discriminate.
Qed.

Lemma Post_NoReset (x : sgr_value) (st st' : init_state) :
  Post x st st' -> Inv st' ->
  String.eqb (value_bytes x) "0" = false ->
  NoReset st -> NoReset st'.
Proof.
  unfold Post. destruct (existsb (String.eqb (value_bytes x)) (st_values st)) eqn:E.
  - intros ->. auto.
  - intros (x' & l & Hv & Hp & Hsub & _ & Hx' & _) HI Hx [Hps Hvs].
    assert (Hx0 : String.eqb (value_bytes x') "0" = false).
    { destruct Hx' as [->|(_ & c' & _ & ->)]; [exact Hx|].
      destruct HI as (Hw & _).
      assert (Hin : In (Colored c') (_sgr_params_ (st_self st')))
        by (rewrite Hp; apply in_or_app; right; left; reflexivity).
      exact (proj2 (colored_not_bold _ _ (WF_coherent_in _ _ Hw Hin) eq_refl)). }
    split.
    + intros p Hin. rewrite Hp in Hin. apply in_app_or in Hin.
      destruct Hin as [Hin|[<-|[]]]; [apply Hps, Hsub, Hin|exact Hx0].
    + rewrite Hv. cbn [existsb]. rewrite Hvs, orb_false_r.
      rewrite String.eqb_sym. exact Hx0.
Qed.

(** The loop returns on good values and keeps [Inv]. *)
Lemma init_loop_spec (xs : list sgr_value) :
  Forall (fun x => good_value x = true) xs ->
  forall st,
    Inv st -> NE st ->
    exists st',
      init_loop None xs st = Ok st'
      /\ Inv st' /\ NE st'
      /\ (xs <> [] -> st_values st' <> [])
      /\ (Forall (fun x => String.eqb (value_bytes x) "0" = false) xs ->
          NoReset st -> NoReset st').
Proof.
  induction 1 as [|x xs Hx Hxs IH]; intros st HI HN.
  - exists st. split; [reflexivity|]. split; [exact HI|]. split; [exact HN|].
    split; [intros H; now contradiction H|auto].
  - destruct (init_step_spec x st Hx HI) as (st1 & E1 & HI1 & HP).
    destruct (IH st1 HI1 (Post_NE _ _ _ HP HN)) as (st' & E & HI' & HN' & Hv & Hr).
    exists st'. cbn [init_loop]. rewrite E1. cbn [bind].
    split; [exact E|]. split; [exact HI'|]. split; [exact HN'|]. split.
    + intros _. destruct xs as [|y ys].
      * cbn [init_loop] in E. injection E as <-. exact (Post_values _ _ _ HP).
      * apply Hv. discriminate.
    + intros Hall Hnr. inversion Hall as [|? ? H0 Hall']; subst.
      apply Hr; [exact Hall'|]. exact (Post_NoReset _ _ _ HP HI1 H0 Hnr).
Qed.

Lemma Inv_init0 : Inv init0.
Proof.
  split; [|split].
  - split; [constructor|]. intros k. split; [cbn; lia|reflexivity].
  - discriminate.
  - intros k. destruct k; reflexivity.
Qed.

Lemma NE_init0 : NE init0.
Proof. intros H. now contradiction H. Qed.

Lemma NoReset_init0 : NoReset init0.
Proof. split; [intros p []|reflexivity]. Qed.



Lemma In_existsb (z : bytes) (vs : list bytes) :
  In z vs -> existsb (String.eqb z) vs = true.
Proof.
  intros H. apply existsb_exists. exists z. split; [exact H|apply String.eqb_refl].
Qed.


(** *** From entries to values *)

Lemma in_I2KV_facts (code : Z) :
  in_I2KV code = true ->
  0 <= code < 256 /\ key_pair code = None
  /\ exists c,
       regen (EColor (Wire4 code)) = Ok (Colored c)
       /\ cb_bytes c = bytes_of_int code
       /\ Some (fst (cb_rgb_dict c)) = entry_key (EColor (Wire4 code))
       /\ good_value (Colored c) = true.
Proof.
  intros H. pose proof (check_regen4_all code H) as Hc. unfold check_regen4 in Hc.
  apply andb_true_iff in Hc. destruct Hc as [Hc Hr].
  apply andb_true_iff in Hc. destruct Hc as [Hc H48].
  apply andb_true_iff in Hc. destruct Hc as [Hb H38].
  apply is_byte_range in Hb. split; [exact Hb|]. split.
  { unfold key_pair. apply negb_true_iff in H38, H48. rewrite H38, H48. reflexivity. }
  destruct (regen (EColor (Wire4 code))) as [[b|c]|]; try discriminate.
  apply andb_true_iff in Hr. destruct Hr as [Hr Hg].
  apply andb_true_iff in Hr. destruct Hr as [Hbytes Hk].
  exists c. apply String.eqb_eq in Hbytes. apply okey_eqb_eq in Hk. auto.
Qed.

Lemma valid_plain_facts (v : Z) :
  valid_entry (EPlain v) = true ->
  0 <= v < 256 /\ key_pair v = None /\ dict_get Z.eqb _ANSI16C_I2KV v = None
  /\ coherent (Plain (bytes_of_int v)) = true
  /\ String.eqb (bytes_of_int v) "1" = (v =? 1)
  /\ String.eqb (bytes_of_int v) "0" = (v =? 0).
Proof.
  cbn [valid_entry]. intros H.
  apply andb_true_iff in H. destruct H as [H H48].
  apply andb_true_iff in H. destruct H as [H H38].
  apply andb_true_iff in H. destruct H as [Hb HI].
  apply is_byte_range in Hb. apply negb_true_iff in H38, H48, HI.
  pose proof (check_plain_all v Hb) as Hc. unfold check_plain in Hc.
  rewrite HI, H38, H48 in Hc. cbn [orb] in Hc.
  apply andb_true_iff in Hc. destruct Hc as [Hc H0].
  apply andb_true_iff in Hc. destruct Hc as [Hco H1].
  apply Bool.eqb_prop in H0, H1.
  split; [exact Hb|]. split.
  { unfold key_pair. rewrite H38, H48. reflexivity. }
  split.
  { unfold in_I2KV in HI. destruct (dict_get Z.eqb _ANSI16C_I2KV v); congruence. }
  auto.
Qed.

Lemma colorbytes_new_key (raw : bytes) (c : colorbytes) :
  colorbytes_new None (Plain raw) = Ok c ->
  bytes_key raw = Some (fst (cb_rgb_dict c)).
Proof.
  unfold colorbytes_new, bytes_key. cbn [value_bytes].
  destruct (match_ansi _) as [[[t k] rgb]|e]; cbn [bind]; [|discriminate].
  destruct (rgb2ansi_color_esc t k rgb) as [b|e]; cbn [bind]; [|discriminate].
  intros H. injection H as <-. reflexivity.
Qed.

Lemma key_code_range (k : ColorDictKeys) :
  0 <= _ANSI256_KEY2I k < 256 /\ key_pair (_ANSI256_KEY2I k) = Some k.
Proof. destruct k; split; try reflexivity; cbn; lia. Qed.

(** The integers of a valid entry are bytes, and there is at least one. *)
Lemma entry_ints_ok (e : entry) :
  valid_entry e = true ->
  entry_ints e <> [] /\ Forall (fun n => 0 <= n < 256) (entry_ints e).
Proof.
  intros H. destruct e as [v|[code|k n|k [[r g] b]]]; cbn [entry_ints];
    (split; [discriminate|]).
  - destruct (valid_plain_facts v H) as [Hb _]. repeat constructor; lia.
  - destruct (in_I2KV_facts code H) as [Hb _]. repeat constructor; lia.
  - cbn in H. apply is_byte_range in H. pose proof (key_code_range k) as [Hk _].
    repeat constructor; lia.
  - cbn [valid_entry valid_wire] in H.
    apply andb_true_iff in H. destruct H as [H Hb].
    apply andb_true_iff in H. destruct H as [Hr Hg].
    apply is_byte_range in Hr, Hg, Hb. pose proof (key_code_range k) as [Hk _].
    repeat constructor; lia.
Qed.

(** The value made of a valid entry: it has the bytes and the slot of the
    entry, and the loop of the constructor can take it. *)
Lemma regen_spec (e : entry) :
  valid_entry e = true ->
  regen e = Ok (regen_value e)
  /\ value_bytes (regen_value e) = entry_bytes e
  /\ key_of (regen_value e) = entry_key e
  /\ good_value (regen_value e) = true.
Proof.
  intros H. unfold regen_value.
  destruct e as [v|[code|k n|k [[r g] b]]].
  - destruct (valid_plain_facts v H) as (_ & _ & _ & Hco & _).
    cbn [regen value_bytes key_of entry_key]. repeat split.
    unfold good_value. rewrite Hco. reflexivity.
  - destruct (in_I2KV_facts code H) as (_ & _ & c & -> & Hb & Hk & Hg).
    cbn [value_bytes key_of]. repeat split; auto.
  - cbn in H. pose proof (check_wire8_all k n H) as Hc. unfold check_wire8 in Hc.
    destruct (ansi_8bit_to_rgb n) as [rgb|]; [|discriminate].
    apply andb_true_iff in Hc. destruct Hc as [Hv Hn].
    apply result_cb_is_true in Hv, Hn.
    change (regen (EColor (Wire8 k n)))
      with (c <- wire_value (Wire8 k n) ;; Ok (Colored c)).
    rewrite Hv. cbn [bind value_bytes key_of cb_bytes cb_rgb_dict fst entry_key].
    repeat split.
    unfold good_value, coherent. cbn [value_bytes key_of cb_bytes cb_rgb_dict fst cb_type].
    rewrite (colorbytes_new_key _ _ Hn). cbn [cb_rgb_dict fst].
    rewrite (proj2 (okey_eqb_eq _ _) eq_refl). reflexivity.
  - cbn [valid_entry valid_wire] in H.
    apply andb_true_iff in H. destruct H as [H Hb].
    apply andb_true_iff in H. destruct H as [Hr Hg].
    apply is_byte_range in Hr, Hg, Hb.
    cbn [regen new_24b norm_int bind from_rgb rgb2ansi_color_esc
         value_bytes key_of cb_bytes cb_rgb_dict fst entry_key].
    repeat split.
    unfold good_value, coherent, bytes_key.
    cbn [value_bytes key_of cb_bytes cb_rgb_dict fst cb_type].
    change (join ";" (map bytes_of_int [_ANSI256_KEY2I k; 2; r; g; b]))
      with (wire_bytes (Wire24 k (r, g, b))).
    rewrite (match_ansi_24 k r g b Hr Hg Hb).
    rewrite (proj2 (okey_eqb_eq _ _) eq_refl). reflexivity.
Qed.

(** *** The generators on the integers and on the bytes of entries *)

Lemma gen_entry (e : entry) (rest : list norm) :
  valid_entry e = true ->
  gen_colorbytes_items None (map NInt (entry_ints e) ++ rest)
  = gen_cons (regen_value e) (gen_colorbytes_items None rest).
Proof.
  intros H. destruct (regen_spec e H) as (Hr & _).
  destruct e as [v|[code|k n|k [[r g] b]]].
  - destruct (valid_plain_facts v H) as (_ & Hk & Hd & _).
    cbn [entry_ints map app gen_colorbytes_items]. rewrite Hk, Hd. reflexivity.
  - destruct (in_I2KV_facts code H) as (_ & Hk & _).
    cbn [entry_ints map app gen_colorbytes_items]. rewrite Hk.
    cbn [regen] in Hr. unfold regen_value in *. cbn [regen] in *.
    destruct (dict_get Z.eqb _ANSI16C_I2KV code) as [[k rgb]|].
    + destruct (from_rgb ansicolor4Bit k (RgbTuple rgb)) as [c|]; cbn [bind] in *;
        [reflexivity|discriminate].
    + reflexivity.
  - destruct (key_code_range k) as [_ Hk].
    cbn [entry_ints map app gen_colorbytes_items]. rewrite Hk.
    unfold regen_value in *. cbn [regen] in *.
    destruct (new_8b (_ANSI256_KEY2I k) 5 (NInt n)) as [c|]; cbn [bind] in *;
      [reflexivity|discriminate].
  - destruct (key_code_range k) as [_ Hk].
    cbn [entry_ints map app gen_colorbytes_items]. rewrite Hk.
    unfold regen_value in *. cbn [regen] in *.
    destruct (new_24b k (NInt r) (NInt g) (NInt b)) as [c|]; cbn [bind] in *;
      [reflexivity|discriminate].
Qed.

Lemma gen_entries (es : list entry) :
  Forall (fun e => valid_entry e = true) es ->
  gen_colorbytes_items None (map NInt (flat_map entry_ints es))
  = mk_gen (map regen_value es) None.
Proof.
  induction 1 as [|e es He Hes IH]; [reflexivity|].
  cbn [flat_map]. rewrite map_app, (gen_entry e _ He), IH. reflexivity.
Qed.

Lemma normalize_ints (l : list Z) :
  normalize_items (map ItemInt l) = mk_gen (map NInt l) None.
Proof.
  induction l as [|n l IH]; [reflexivity|].
  cbn [map normalize_items]. rewrite IH. reflexivity.
Qed.

Lemma normalize_params (es : list entry) :
  Forall (fun e => valid_entry e = true) es ->
  forall ps,
    map value_bytes ps = map entry_bytes es ->
    normalize_items (map ItemParam ps)
    = mk_gen (map NInt (flat_map entry_ints es)) None.
Proof.
  induction 1 as [|e es He Hes IH]; intros ps Hps.
  - destruct ps; [reflexivity|discriminate].
  - destruct ps as [|p ps]; [discriminate|].
    cbn [map] in Hps. injection Hps as Hp Hps.
    cbn [map normalize_items flat_map]. rewrite (IH ps Hps), Hp.
    destruct (entry_ints_ok e He) as [Hne Hall].
    unfold entry_bytes. rewrite (bitmask_join _ Hne Hall).
    unfold gen_of_result. cbn [yielded ended]. rewrite map_app. reflexivity.
Qed.

(** [_iter_sgr] on the integers of valid entries, and on parameters that
    have the bytes of valid entries, yields the values made of the entries
    and ends normally. *)
Lemma iter_sgr_ints (es : list entry) :
  Forall (fun e => valid_entry e = true) es ->
  _iter_sgr (ArgList (map ItemInt (flat_map entry_ints es)))
  = mk_gen (map regen_value es) None.
Proof.
  intros H. unfold _iter_sgr, _gen_colorbytes, _iter_normalized_sgr.
  rewrite normalize_ints. cbn [yielded ended]. exact (gen_entries es H).
Qed.

Lemma iter_sgr_params (es : list entry) (ps : list SgrParamWrapper) :
  Forall (fun e => valid_entry e = true) es ->
  map value_bytes ps = map entry_bytes es ->
  _iter_sgr (ArgList (map ItemParam ps)) = mk_gen (map regen_value es) None.
Proof.
  intros H Hps. unfold _iter_sgr, _gen_colorbytes, _iter_normalized_sgr.
  rewrite (normalize_params es H ps Hps). cbn [yielded ended].
  exact (gen_entries es H).
Qed.

Lemma regen_values_good (es : list entry) :
  Forall (fun e => valid_entry e = true) es ->
  Forall (fun x => good_value x = true) (map regen_value es).
Proof.
  induction 1 as [|e es He Hes IH]; [constructor|].
  cbn [map]. constructor; [exact (proj2 (proj2 (proj2 (regen_spec e He))))|exact IH].
Qed.

(** *** The constructor on the values of entries *)

Lemma regen_values_bytes (es : list entry) :
  Forall (fun e => valid_entry e = true) es ->
  map value_bytes (map regen_value es) = map entry_bytes es.
Proof.
  induction 1 as [|e es He Hes IH]; [reflexivity|].
  cbn [map]. rewrite IH. f_equal. exact (proj1 (proj2 (regen_spec e He))).
Qed.

Lemma regen_values_no_reset (es : list entry) :
  Forall (fun e => valid_entry e = true) es ->
  reset_free es = true ->
  Forall (fun x => String.eqb (value_bytes x) "0" = false) (map regen_value es).
Proof.
  induction 1 as [|e es He Hes IH]; intros Hr; [constructor|].
  cbn [reset_free forallb] in Hr. apply andb_true_iff in Hr. destruct Hr as [H0 Hr].
  cbn [map]. constructor; [|exact (IH Hr)].
  rewrite (proj1 (proj2 (regen_spec e He))). apply negb_true_iff. exact H0.
Qed.

Lemma regen_values_no_bold (es : list entry) :
  Forall (fun e => valid_entry e = true) es ->
  no_bold_reset es = true ->
  Forall (fun x => String.eqb (value_bytes x) "1" = false) (map regen_value es)
  /\ reset_free es = true.
Proof.
  induction 1 as [|e es He Hes IH]; intros Hr; [split; [constructor|reflexivity]|].
  cbn [no_bold_reset forallb] in Hr. apply andb_true_iff in Hr. destruct Hr as [H0 Hr].
  apply andb_true_iff in H0. destruct H0 as [H1 H0].
  destruct (IH Hr) as [IH1 IH2]. split.
  - cbn [map]. constructor; [|exact IH1].
    rewrite (proj1 (proj2 (regen_spec e He))). apply negb_true_iff. exact H1.
  - cbn [reset_free forallb]. rewrite H0. exact IH2.
Qed.

Lemma regen_occupies (k : ColorDictKeys) (e : entry) :
  valid_entry e = true -> occupies k (regen_value e) = in_slot k e.
Proof.
  intros H. unfold occupies, in_slot. rewrite (proj1 (proj2 (proj2 (regen_spec e H)))).
  reflexivity.
Qed.

Lemma regen_count (k : ColorDictKeys) (es : list entry) :
  Forall (fun e => valid_entry e = true) es ->
  count_key k (map regen_value es) = entry_count k es.
Proof.
  induction 1 as [|e es He Hes IH]; [reflexivity|].
  cbn [map]. rewrite count_key_cons, IH, (regen_occupies k e He).
  unfold entry_count. cbn [filter]. destruct (in_slot k e); reflexivity.
Qed.


Lemma one_per_slot_count (es : list entry) :
  one_per_slot es = true -> forall k, (entry_count k es <= 1)%nat.
Proof.
  unfold one_per_slot. cbn [forallb]. intros H k.
  apply andb_true_iff in H. destruct H as [Hf H].
  apply andb_true_iff in H. destruct H as [Hb _].
  apply Nat.leb_le in Hf, Hb. destruct k; assumption.
Qed.

Lemma forallb_valid (es : list entry) :
  forallb valid_entry es = true -> Forall (fun e => valid_entry e = true) es.
Proof. intros H. apply Forall_forall. exact (proj1 (forallb_forall _ _) H). Qed.


Lemma get_color_find (k : ColorDictKeys) (s : SgrSequence) :
  get_color k s = List.find (occupies k) (_sgr_params_ s).
Proof.
  unfold get_color, sgr_is_color.
  assert (E : forall l,
             List.find (fun v => match v with
                                 | Colored c => key_eqb (fst (cb_rgb_dict c)) k
                                 | Plain _ => false
                                 end) l
             = List.find (occupies k) l).
  { induction l as [|a l IH]; [reflexivity|]. cbn [List.find]. rewrite IH.
    destruct a; reflexivity. }
  rewrite E. destruct (existsb is_color (_sgr_params_ s)) eqn:Ex; [reflexivity|].
  symmetry. induction (_sgr_params_ s) as [|a l IH]; [reflexivity|].
  cbn [existsb] in Ex. apply orb_false_iff in Ex. destruct Ex as [Ea El].
  cbn [List.find]. destruct a as [b|c]; [exact (IH El)|discriminate].
Qed.


Lemma WF_reset_only (s : SgrSequence) (last : SgrParamWrapper) :
  WF s -> In last (_sgr_params_ s) -> value_bytes last = "0" ->
  WF (mk_sgr [last] [] false).
Proof.
  intros Hw Hin H0. pose proof (WF_coherent_in s last Hw Hin) as Hco.
  assert (Hk : key_of last = None) by (rewrite (coherent_key last Hco), H0; reflexivity).
  split; [repeat constructor; exact Hco|].
  intros k. cbn [_sgr_params_ _rgb_dict_].
  rewrite count_key_cons, count_key_nil, (occupies_none k last Hk).
  split; [lia|reflexivity].
Qed.

(** The constructor on an argument that [_iter_sgr] turns into good values:
    the loop returns, and the result is the sequence built by the loop, or
    its last parameter alone when that is the reset code. *)
Lemma SgrSequence_init_values (a : sgr_arg) (xs : list sgr_value) :
  falsy a = false ->
  _iter_sgr a = mk_gen xs None ->
  xs <> [] ->
  Forall (fun x => good_value x = true) xs ->
  exists st l last,
    init_loop None xs init0 = Ok st
    /\ Inv st
    /\ _sgr_params_ (st_self st) = l ++ [last]
    /\ SgrSequence_init (InitIter a) None
       = Ok (if String.eqb (value_bytes last) "0" then mk_sgr [last] [] false
             else st_self st)
    /\ (Forall (fun x => String.eqb (value_bytes x) "0" = false) xs -> NoReset st).
Proof.
  intros Hf Hg Hne Hall.
  destruct (init_loop_spec xs Hall init0 Inv_init0 NE_init0)
    as (st & E & HI & HN & Hv & Hr).
  pose proof (HN (Hv Hne)) as Hp.
  destruct (exists_last Hp) as (l & last & El).
  exists st, l, last. split; [exact E|]. split; [exact HI|]. split; [exact El|].
  split; [|intros H; exact (Hr H NoReset_init0)].
  unfold SgrSequence_init. rewrite Hf, Hg. cbn [yielded ended].
  change (mk_init empty_sgr [] None None false false) with init0.
  rewrite E. cbn [bind]. rewrite El, rev_app_distr. cbn [List.rev app].
  destruct (String.eqb (value_bytes last) "0"); reflexivity.
Qed.

Lemma falsy_ints (l : list Z) : l <> [] -> falsy (ArgList (map ItemInt l)) = false.
Proof. destruct l; [congruence|reflexivity]. Qed.

Lemma falsy_params (l : list SgrParamWrapper) :
  l <> [] -> falsy (ArgList (map ItemParam l)) = false.
Proof. destruct l; [congruence|reflexivity]. Qed.

Lemma flat_map_entry_ints_nil (es : list entry) :
  Forall (fun e => valid_entry e = true) es -> es <> [] ->
  flat_map entry_ints es <> [].
Proof.
  intros H Hne. destruct es as [|e es]; [congruence|].
  inversion H as [|? ? He _]; subst. cbn [flat_map].
  destruct (entry_ints_ok e He) as [Hn _]. destruct (entry_ints e); [congruence|discriminate].
Qed.

(** The constructor on the values of entries followed by one or two reset
    codes. *)
Lemma init_loop_reset_tail (xs : list sgr_value) (st : init_state) :
  init_loop None xs init0 = Ok st ->
  NoReset st ->
  let st' := mk_init (set_params (_sgr_params_ (st_self st) ++ [Plain "0"]) (st_self st))
                     ("0" :: st_values st) (st_fg_slot st) (st_bg_slot st)
                     (st_is_bold st) (st_has_bold st) in
  init_loop None (xs ++ [Plain "0"]) init0 = Ok st'
  /\ init_loop None (xs ++ [Plain "0"; Plain "0"]) init0 = Ok st'.
Proof.
  intros E [_ Hv]. cbn zeta.
  assert (H1 : init_step None (Plain "0") st
               = Ok (mk_init (set_params (_sgr_params_ (st_self st) ++ [Plain "0"])
                                         (st_self st))
                             ("0" :: st_values st) (st_fg_slot st) (st_bg_slot st)
                             (st_is_bold st) (st_has_bold st))).
  { unfold init_step. cbn [value_bytes]. rewrite Hv. reflexivity. }
  split.
  - rewrite init_loop_app, E. cbn [bind init_loop]. rewrite H1. reflexivity.
  - rewrite init_loop_app, E. cbn [bind init_loop]. rewrite H1. cbn [bind].
    unfold init_step. cbn [value_bytes st_values existsb String.eqb Ascii.eqb Bool.eqb orb].
    reflexivity.
Qed.

Lemma valid_reset_entry : valid_entry (EPlain 0) = true.
Proof. reflexivity. Qed.

Lemma regen_values_snoc_reset (es tail : list entry) :
  map regen_value (es ++ tail) = map regen_value es ++ map regen_value tail.
Proof. apply map_app. Qed.

(** Whatever argument [_iter_sgr] reads as the values of reset-free entries
    followed by one or two reset codes, the constructor makes the reset
    sequence of it. *)
Lemma SgrSequence_init_reset_tail (a : sgr_arg) (es : list entry) (two : bool) :
  falsy a = false ->
  Forall (fun e => valid_entry e = true) es ->
  reset_free es = true ->
  _iter_sgr a
  = mk_gen (map regen_value es ++ (if two then [Plain "0"; Plain "0"] else [Plain "0"]))
           None ->
  SgrSequence_init (InitIter a) None = Ok reset_sgr.
Proof.
  intros Hf Hv Hr Hg.
  destruct (init_loop_spec _ (regen_values_good es Hv) init0 Inv_init0 NE_init0)
    as (st & E & _ & _ & _ & Hnr).
  specialize (Hnr (regen_values_no_reset es Hv Hr) NoReset_init0).
  destruct (init_loop_reset_tail _ st E Hnr) as [H1 H2].
  unfold SgrSequence_init. rewrite Hf, Hg. cbn [yielded ended].
  change (mk_init empty_sgr [] None None false false) with init0.
  destruct two; [rewrite H2|rewrite H1]; cbn [bind st_self set_params _sgr_params_];
    rewrite rev_app_distr; reflexivity.
Qed.


(** ** Further properties of the code *)

(** *** The constructor and the reset code *)

(** X1: the constructor keeps the reset code alone when it comes last.  For
    every list of valid entries none of which is the reset code,
    [SgrSequence] of their integers followed by [0], or by [0, 0], is the
    sequence that holds the reset code alone, with an empty [_rgb_dict_] and
    no bright colours; so is [s + SgrSequence([0])] for every sequence [s]
    whose values are the bytes of the entries. *)
Theorem SgrSequence_init_reset_last (es : list entry) :
  forallb valid_entry es = true ->
  reset_free es = true ->
  SgrSequence_init
    (InitIter (ArgList (map ItemInt (flat_map entry_ints es ++ [0])))) None
  = Ok reset_sgr
  /\ SgrSequence_init
       (InitIter (ArgList (map ItemInt (flat_map entry_ints es ++ [0; 0])))) None
     = Ok reset_sgr
  /\ forall s, values s = map entry_bytes es ->
               SgrSequence_add s reset_sgr = Ok reset_sgr.
Proof.
  intros Hv Hr. apply forallb_valid in Hv.
  assert (Hv1 : Forall (fun e => valid_entry e = true) (es ++ [EPlain 0])).
  { apply Forall_app. split; [exact Hv|]. repeat constructor. }
  assert (Hv2 : Forall (fun e => valid_entry e = true) (es ++ [EPlain 0; EPlain 0])).
  { apply Forall_app. split; [exact Hv|]. repeat constructor. }
  split; [|split].
  - apply (SgrSequence_init_reset_tail _ es false); auto.
    + apply falsy_ints. destruct (flat_map entry_ints es); discriminate.
    + pose proof (iter_sgr_ints _ Hv1) as H. rewrite flat_map_app, (map_app regen_value) in H.
      exact H.
  - apply (SgrSequence_init_reset_tail _ es true); auto.
    + apply falsy_ints. destruct (flat_map entry_ints es); discriminate.
    + pose proof (iter_sgr_ints _ Hv2) as H. rewrite flat_map_app, (map_app regen_value) in H.
      exact H.
  - intros s Hs. unfold SgrSequence_add.
    apply (SgrSequence_init_reset_tail _ es false); auto.
    + apply falsy_params. destruct (_sgr_params_ s); discriminate.
    + assert (Hb : map value_bytes (_sgr_params_ s ++ _sgr_params_ reset_sgr)
                   = map entry_bytes (es ++ [EPlain 0])).
      { rewrite !map_app. f_equal. exact Hs. }
      pose proof (iter_sgr_params _ _ Hv1 Hb) as H.
      rewrite (map_app regen_value) in H. exact H.
Qed.

Lemma SgrSequence_init_reset_last_witness :
  SgrSequence_init (InitIter (ArgList (map ItemInt [1; 31; 48; 5; 200; 0]))) None
  = Ok reset_sgr
  /\ SgrSequence_init (InitIter (ArgList (map ItemInt [1; 31; 48; 5; 200; 0; 0]))) None
     = Ok reset_sgr
  /\ forall s,
       values s = ["1"; "31"; "48;5;200"] ->
       SgrSequence_add s reset_sgr = Ok reset_sgr.
Proof.
  exact (SgrSequence_init_reset_last
           [EPlain 1; EColor (Wire4 31); EColor (Wire8 bg 200)] eq_refl eq_refl).
Defined.

(** *** Concatenation of styled strings *)



(** *** The serialised form of a sequence *)

Lemma bitmask_stripped (x body : bytes) :
  removesuffix "m"
    (if find_byte "m" x =? -1 then removeprefix CSI x
     else take_bytes (Z.to_nat (find_byte "m" x)) (removeprefix CSI x)) = body ->
  _get_sgr_bitmask x
  = bitmask_loop (map prepass_of (list_ascii_of_string body)) [] [].
Proof.
  intros H. unfold _get_sgr_bitmask. cbv zeta. rewrite H.
  unfold int_from_bytes. rewrite list_ascii_of_string_of_list_ascii.
  rewrite string_length_list.
  pose proof (mask_bytes (list_ascii_of_string body)) as Hmask.
  unfold from_bytes_list in Hmask. rewrite Hmask, map_map.
  rewrite combine_map_same. reflexivity.
Qed.

Lemma find_byte_app (c : ascii) (s t : bytes) :
  Forall (fun a => Ascii.eqb a c = false) (list_ascii_of_string s) ->
  find_byte c (s ++ String c t)%string = Z.of_nat (String.length s).
Proof.
  induction s as [|a s IH]; cbn [list_ascii_of_string String.append find_byte String.length];
    intros H.
  - rewrite Ascii.eqb_refl. reflexivity.
  - inversion H as [|? ? Ha Hs]; subst. rewrite Ha, (IH Hs).
    destruct (Z.of_nat (String.length s) =? -1) eqn:E; [lia|]. lia.
Qed.

Lemma take_bytes_all (n : nat) (s : bytes) :
  (String.length s <= n)%nat -> take_bytes n s = s.
Proof.
  revert n. induction s as [|a s IH]; intros n H; destruct n; cbn in *;
    try reflexivity; try lia.
  rewrite IH; [reflexivity|lia].
Qed.

Lemma string_of_list_ascii_app (l1 l2 : list ascii) :
  string_of_list_ascii (l1 ++ l2)
  = (string_of_list_ascii l1 ++ string_of_list_ascii l2)%string.
Proof. induction l1 as [|a l1 IH]; cbn; [reflexivity|]. rewrite IH. reflexivity. Qed.

Lemma removesuffix_app_m (s : bytes) : removesuffix "m" (s ++ "m")%string = s.
Proof.
  unfold removesuffix. change (string_rev "m") with "m".
  unfold string_rev at 1. rewrite list_ascii_app, rev_app_distr.
  cbn [list_ascii_of_string List.rev app string_of_list_ascii drop_prefix].
  rewrite Ascii.eqb_refl. unfold string_rev.
  rewrite list_ascii_of_string_of_list_ascii, rev_involutive.
  apply string_of_list_ascii_of_string.
Qed.

Lemma length_append (s t : string) :
  String.length (s ++ t)%string = (String.length s + String.length t)%nat.
Proof. induction s as [|a s IH]; cbn; [reflexivity|]. rewrite IH. reflexivity. Qed.

(** The bitmask of [ESC[ body m], for a body without [m]. *)
Lemma bitmask_wrapped (body : bytes) :
  Forall (fun a => Ascii.eqb a "m" = false) (list_ascii_of_string body) ->
  _get_sgr_bitmask (String ESC "[" ++ body ++ "m")%string
  = bitmask_loop (map prepass_of (list_ascii_of_string body)) [] [].
Proof.
  intros Hm. apply bitmask_stripped.
  assert (Hf : find_byte "m" (String ESC "[" ++ body ++ "m")%string
               = Z.of_nat (String.length (String ESC "[" ++ body)%string)).
  { change (String ESC "[" ++ body ++ "m")%string
      with ((String ESC "[" ++ body) ++ String "m" "")%string at 1.
    - apply find_byte_app. cbn [String.append list_ascii_of_string].
      repeat constructor. exact Hm. }
  rewrite Hf.
  destruct (Z.of_nat (String.length (String ESC "[" ++ body)%string) =? -1) eqn:E; [lia|].
  rewrite Nat2Z.id.
  change (removeprefix CSI (String ESC "[" ++ body ++ "m")%string) with (body ++ "m")%string.
  rewrite take_bytes_all.
  - apply removesuffix_app_m.
  - cbn [String.append String.length]. rewrite !length_append. cbn. lia.
Qed.

Lemma string_append_assoc (a b c : string) :
  ((a ++ b) ++ c)%string = (a ++ b ++ c)%string.
Proof. induction a as [|x a IH]; cbn; [reflexivity|]. rewrite IH. reflexivity. Qed.

Lemma concat_app_ne (sep : string) (l1 l2 : list string) :
  l1 <> [] -> l2 <> [] ->
  String.concat sep (l1 ++ l2)
  = (String.concat sep l1 ++ sep ++ String.concat sep l2)%string.
Proof.
  intros H1 H2. induction l1 as [|a l1 IH]; [congruence|].
  destruct l1 as [|b l1].
  - destruct l2 as [|c l2]; [congruence|]. reflexivity.
  - change (String.concat sep ((a :: b :: l1) ++ l2))
      with (a ++ sep ++ String.concat sep ((b :: l1) ++ l2))%string.
    rewrite IH by discriminate.
    change (String.concat sep (a :: b :: l1))
      with (a ++ sep ++ String.concat sep (b :: l1))%string.
    rewrite !string_append_assoc. reflexivity.
Qed.

(** The bytes of entries joined are the decimal texts of their integers
    joined. *)
Lemma join_entries (es : list entry) :
  Forall (fun e => valid_entry e = true) es ->
  join ";" (map entry_bytes es)
  = join ";" (map bytes_of_int (flat_map entry_ints es)).
Proof.
  unfold join. induction 1 as [|e es He Hes IH]; [reflexivity|].
  destruct (entry_ints_ok e He) as [Hne _].
  cbn [map flat_map]. rewrite map_app.
  destruct es as [|e' es].
  - cbn [flat_map map]. rewrite app_nil_r. reflexivity.
  - rewrite concat_app_ne.
    + rewrite <- IH. reflexivity.
    + destruct (entry_ints e); [congruence|discriminate].
    + inversion Hes as [|? ? He' _]; subst. cbn [flat_map].
      destruct (entry_ints_ok e' He') as [Hne' _].
      destruct (entry_ints e'); [congruence|discriminate].
Qed.

Lemma flat_ints_bytes (es : list entry) :
  Forall (fun e => valid_entry e = true) es ->
  Forall (fun n => 0 <= n < 256) (flat_map entry_ints es).
Proof.
  induction 1 as [|e es He Hes IH]; [constructor|].
  cbn [flat_map]. apply Forall_app. split; [|exact IH].
  exact (proj2 (entry_ints_ok e He)).
Qed.

Lemma ints_of_fields_dec (ns : list Z) :
  Forall (fun n => 0 <= n < 256) ns ->
  ints_of_fields (map bytes_of_int ns) = Ok ns.
Proof.
  induction 1 as [|n ns Hn Hns IH]; [reflexivity|].
  cbn [map ints_of_fields]. rewrite (py_int_dec n Hn), IH. reflexivity.
Qed.

(** *** [_get_sgr_bitmask] *)

(** X3: [_get_sgr_bitmask] reads back the integers of a parameter string.
    For a non-empty list of integers from 0 to 255, the decimal texts joined
    by [b';'] are read back as the list, bare or wrapped as [ESC[ ... m]; on
    the bare text this is what [list(map(int, x.split(b';')))] gives, as the
    docstring says.  On the empty bytes the two differ: [_get_sgr_bitmask]
    returns the empty list where [int(b'')] raises [ValueError]. *)
Theorem get_sgr_bitmask_decodes (ns : list Z) :
  ns <> [] ->
  Forall (fun n => 0 <= n < 256) ns ->
  let x := join ";" (map bytes_of_int ns) in
  _get_sgr_bitmask x = Ok ns
  /\ _get_sgr_bitmask (String ESC "[" ++ x ++ "m")%string = Ok ns
  /\ split_ints x = Ok ns
  /\ _get_sgr_bitmask "" = Ok []
  /\ split_ints "" = Raise ValueError.
Proof.
  intros Hne Hall. cbv zeta. split; [exact (bitmask_join ns Hne Hall)|].
  split.
  - rewrite (bitmask_wrapped _ (join_dec_no_m ns Hall)).
    exact (bitmask_loop_join ns Hne Hall []).
  - split; [|split; reflexivity].
    unfold split_ints. rewrite (join_dec_split ns Hne Hall).
    exact (ints_of_fields_dec ns Hall).
Qed.

Lemma get_sgr_bitmask_decodes_witness :
  _get_sgr_bitmask "1;38;5;200" = Ok [1; 38; 5; 200]
  /\ _get_sgr_bitmask (String ESC "[1;38;5;200m") = Ok [1; 38; 5; 200]
  /\ split_ints "1;38;5;200" = Ok [1; 38; 5; 200]
  /\ _get_sgr_bitmask "" = Ok []
  /\ split_ints "" = Raise ValueError.
Proof.
  apply (get_sgr_bitmask_decodes [1; 38; 5; 200]).
  - discriminate.
  - repeat constructor; lia.
Defined.

(** *** The constructor on integers, on bytes and on parameters *)

Lemma iter_sgr_bytes (es : list entry) :
  Forall (fun e => valid_entry e = true) es ->
  es <> [] ->
  _iter_sgr (ArgBytes (join ";" (map entry_bytes es)))
  = mk_gen (map regen_value es) None
  /\ _iter_sgr (ArgBytes (String ESC "[" ++ join ";" (map entry_bytes es) ++ "m")%string)
     = mk_gen (map regen_value es) None.
Proof.
  intros Hv Hne.
  pose proof (flat_map_entry_ints_nil es Hv Hne) as Hn.
  pose proof (flat_ints_bytes es Hv) as Hb.
  rewrite (join_entries es Hv).
  unfold _iter_sgr, _gen_colorbytes, _iter_normalized_sgr.
  rewrite (bitmask_join _ Hn Hb).
  rewrite (bitmask_wrapped _ (join_dec_no_m _ Hb)), (bitmask_loop_join _ Hn Hb []).
  unfold gen_of_result. cbn [yielded ended app]. rewrite app_nil_r.
  split; exact (gen_entries es Hv).
Qed.

Lemma join_entries_nonempty (es : list entry) :
  Forall (fun e => valid_entry e = true) es ->
  es <> [] ->
  String.eqb (join ";" (map entry_bytes es)) "" = false.
Proof.
  intros Hv Hne. rewrite (join_entries es Hv).
  destruct (join_dec_first _ (flat_map_entry_ints_nil es Hv Hne) (flat_ints_bytes es Hv))
    as (c & s & -> & _).
  reflexivity.
Qed.

(** The constructor is a function of what [_iter_sgr] makes of its
    argument. *)
Lemma SgrSequence_init_same_values (a b : sgr_arg) :
  falsy a = falsy b -> _iter_sgr a = _iter_sgr b ->
  SgrSequence_init (InitIter a) None = SgrSequence_init (InitIter b) None.
Proof. intros Hf Hg. unfold SgrSequence_init. rewrite Hf, Hg. reflexivity. Qed.

(** X4: the constructor returns a well-formed sequence.  For every list of
    valid entries, [SgrSequence] of the list of their integers returns a
    sequence that satisfies the class invariant [wf]; it returns the same
    sequence for the integers joined into a parameter string, bare or
    wrapped as [ESC[ ... m], and for any list of parameters that have the
    bytes of the entries. *)
Theorem SgrSequence_init_wf (es : list entry) :
  forallb valid_entry es = true ->
  exists s,
    SgrSequence_init
      (InitIter (ArgList (map ItemInt (flat_map entry_ints es)))) None = Ok s
    /\ wf s = true
    /\ SgrSequence_init (InitIter (ArgBytes (join ";" (map entry_bytes es)))) None
       = Ok s
    /\ (es <> [] ->
        SgrSequence_init
          (InitIter (ArgBytes (String ESC "[" ++ join ";" (map entry_bytes es) ++ "m")%string))
          None = Ok s)
    /\ forall ps,
         map value_bytes ps = map entry_bytes es ->
         SgrSequence_init (InitIter (ArgList (map ItemParam ps))) None = Ok s.
Proof.
  intros Hv. apply forallb_valid in Hv.
  destruct es as [|e0 es0] eqn:Ees.
  { exists empty_sgr. split; [reflexivity|]. split; [reflexivity|].
    split; [reflexivity|]. split; [congruence|].
    intros ps Hps. destruct ps; [reflexivity|discriminate]. }
  rewrite <- Ees in *.
  assert (Hne : es <> []) by (rewrite Ees; discriminate).
  pose proof (flat_map_entry_ints_nil es Hv Hne) as Hn.
  assert (Hxs : map regen_value es <> []) by (rewrite Ees; discriminate).
  destruct (SgrSequence_init_values _ _ (falsy_ints _ Hn) (iter_sgr_ints es Hv) Hxs
              (regen_values_good es Hv))
    as (st & l & last & E & HI & El & Einit & _).
  destruct (iter_sgr_bytes es Hv Hne) as [Hb1 Hb2].
  eexists. split; [exact Einit|]. split; [|split; [|split]].
  - apply wf_WF. destruct (String.eqb (value_bytes last) "0") eqn:E0.
    + apply (WF_reset_only (st_self st) last); [exact (proj1 HI)| |].
      * rewrite El. apply in_or_app. right. left. reflexivity.
      * apply String.eqb_eq. exact E0.
    + exact (proj1 HI).
  - rewrite <- Einit. apply SgrSequence_init_same_values.
    + cbn [falsy]. rewrite (join_entries_nonempty es Hv Hne).
      symmetry. apply falsy_ints. exact Hn.
    + rewrite Hb1. symmetry. exact (iter_sgr_ints es Hv).
  - intros _. rewrite <- Einit. apply SgrSequence_init_same_values.
    + rewrite (falsy_ints _ Hn). reflexivity.
    + rewrite Hb2. symmetry. exact (iter_sgr_ints es Hv).
  - intros ps Hps. rewrite <- Einit. apply SgrSequence_init_same_values.
    + rewrite (falsy_ints _ Hn). apply falsy_params.
      intros ->. rewrite Ees in Hps. discriminate.
    + rewrite (iter_sgr_params es ps Hv Hps). symmetry. exact (iter_sgr_ints es Hv).
Qed.

Lemma SgrSequence_init_wf_witness :
  exists s,
    SgrSequence_init (InitIter (ArgList (map ItemInt [1; 31; 48; 5; 200]))) None = Ok s
    /\ wf s = true
    /\ SgrSequence_init (InitIter (ArgBytes "1;31;48;5;200")) None = Ok s
    /\ ([EPlain 1; EColor (Wire4 31); EColor (Wire8 bg 200)] <> [] ->
        SgrSequence_init (InitIter (ArgBytes (String ESC "[1;31;48;5;200m"))) None
        = Ok s)
    /\ forall ps,
         map value_bytes ps = ["1"; "31"; "48;5;200"] ->
         SgrSequence_init (InitIter (ArgList (map ItemParam ps))) None = Ok s.
Proof.
  exact (SgrSequence_init_wf [EPlain 1; EColor (Wire4 31); EColor (Wire8 bg 200)]
           eq_refl).
Defined.

(** *** Extended colours cut short *)

Lemma gen_truncated (t : list Z) :
  truncated t = true ->
  gen_colorbytes_items None (map NInt t) = gen_raise RuntimeError.
Proof.
  destruct t as [|k rest]; [discriminate|].
  cbn [truncated]. intros H. apply andb_true_iff in H. destruct H as [Hk H].
  assert (Hkey : exists key, key_pair k = Some key).
  { unfold key_pair. apply orb_true_iff in Hk. destruct Hk as [Hk|Hk].
    - rewrite Hk. eauto.
    - rewrite Hk. destruct (k =? 38); eauto. }
  destruct Hkey as [key Hkey].
  cbn [map gen_colorbytes_items]. rewrite Hkey.
  destruct rest as [|kind rest1]; [reflexivity|].
  cbn [map]. destruct (kind =? 5) eqn:E5.
  - apply Z.eqb_eq in E5. subst kind. destruct rest1; [reflexivity|discriminate].
  - assert (Hlt : (List.length rest1 < 3)%nat) by (apply Nat.ltb_lt; exact H).
    assert (Hshort : match map NInt rest1 with
                     | _ :: _ :: _ :: _ => False
                     | _ => True
                     end).
    { destruct rest1 as [|a [|b [|c r]]]; cbn in *; auto; lia. }
    destruct kind as [|[[[p|p|]|[p|p|]|]|[p|p|]|]|p];
      try discriminate E5;
      destruct (map NInt rest1) as [|a [|b [|c r]]]; try reflexivity;
        destruct Hshort.
Qed.

Lemma gen_entries_then (es : list entry) (rest : list norm) :
  Forall (fun e => valid_entry e = true) es ->
  gen_colorbytes_items None (map NInt (flat_map entry_ints es) ++ rest)
  = mk_gen (map regen_value es ++ yielded (gen_colorbytes_items None rest))
           (ended (gen_colorbytes_items None rest)).
Proof.
  induction 1 as [|e es He Hes IH].
  - cbn [flat_map map app]. destruct (gen_colorbytes_items None rest); reflexivity.
  - cbn [flat_map]. rewrite map_app, <- app_assoc, (gen_entry e _ He), IH.
    reflexivity.
Qed.

(** X5: an extended-colour introducer cut short makes the constructor raise
    [RuntimeError].  After the integers of any valid entries, the code 38 or
    48 alone, followed by 5 alone, or followed by another kind and fewer than
    three fields, exhausts the source inside the coroutine of
    [_co_yield_colorbytes]; the [StopIteration] of [next] leaves a generator
    as a [RuntimeError], which [SgrSequence] does not catch, while
    [__contains__] answers [False] on a non-empty sequence. *)
Theorem SgrSequence_init_truncated (es : list entry) (t : list Z) :
  forallb valid_entry es = true ->
  truncated t = true ->
  SgrSequence_init
    (InitIter (ArgList (map ItemInt (flat_map entry_ints es ++ t)))) None
  = Raise RuntimeError
  /\ forall s, _sgr_params_ s <> [] ->
               sgr_contains (ArgList (map ItemInt (flat_map entry_ints es ++ t))) s
               = Ok false.
Proof.
  intros Hv Ht. apply forallb_valid in Hv.
  assert (Hg : _iter_sgr (ArgList (map ItemInt (flat_map entry_ints es ++ t)))
               = mk_gen (map regen_value es) (Some RuntimeError)).
  { unfold _iter_sgr, _gen_colorbytes, _iter_normalized_sgr.
    rewrite normalize_ints. cbn [yielded ended]. rewrite map_app.
    rewrite (gen_entries_then es _ Hv), (gen_truncated t Ht).
    cbn [gen_raise yielded ended]. rewrite app_nil_r. reflexivity. }
  split.
  - unfold SgrSequence_init. rewrite Hg. cbn [yielded ended].
    assert (Hf : falsy (ArgList (map ItemInt (flat_map entry_ints es ++ t))) = false).
    { apply falsy_ints. destruct t; [discriminate|].
      destruct (flat_map entry_ints es); discriminate. }
    rewrite Hf.
    destruct (init_loop_spec _ (regen_values_good es Hv) init0 Inv_init0 NE_init0)
      as (st & E & _).
    change (mk_init empty_sgr [] None None false false) with init0.
    rewrite E. reflexivity.
  - intros s Hs. unfold sgr_contains. rewrite Hg. cbn [ended].
    destruct (_sgr_params_ s); [congruence|reflexivity].
Qed.

Lemma SgrSequence_init_truncated_witness :
  SgrSequence_init (InitIter (ArgList (map ItemInt [1; 31; 38; 2; 10; 20]))) None
  = Raise RuntimeError
  /\ forall s, _sgr_params_ s <> [] ->
               sgr_contains (ArgList (map ItemInt [1; 31; 38; 2; 10; 20])) s
               = Ok false.
Proof.
  exact (SgrSequence_init_truncated [EPlain 1; EColor (Wire4 31)] [38; 2; 10; 20]
           eq_refl eq_refl).
Defined.

(** *** Searching a sequence *)

Lemma regen_type (e : entry) :
  valid_entry e = true -> value_type (regen_value e) = entry_type e.
Proof.
  intros H. unfold regen_value.
  destruct e as [v|[code|k n|k [[r g] b]]]; cbn [entry_type wire_type].
  - reflexivity.
  - destruct (in_I2KV_facts code H) as (_ & _ & c & Hr & _).
    cbn [regen] in *. unfold in_I2KV in H. cbn [valid_entry valid_wire] in H.
    unfold in_I2KV in H.
    destruct (dict_get Z.eqb _ANSI16C_I2KV code) as [[k rgb]|]; [|discriminate].
    unfold from_rgb in *.
    destruct (rgb2ansi_color_esc ansicolor4Bit k rgb); cbn [bind] in *;
      [reflexivity|discriminate].
  - cbn in H. pose proof (check_wire8_all k n H) as Hc. unfold check_wire8 in Hc.
    destruct (ansi_8bit_to_rgb n) as [rgb|]; [|discriminate].
    apply andb_true_iff in Hc. destruct Hc as [Hv _].
    apply result_cb_is_true in Hv.
    change (regen (EColor (Wire8 k n)))
      with (c <- wire_value (Wire8 k n) ;; Ok (Colored c)).
    rewrite Hv. reflexivity.
  - reflexivity.
Qed.

Lemma is_same_kind_entry_bytes (e : entry) (q : SgrParamWrapper) :
  valid_entry e = true ->
  is_same_kind q (IdxBytes (entry_bytes e))
  = Ok (String.eqb (value_bytes q) (entry_bytes e)).
Proof.
  intros H. unfold is_same_kind.
  destruct (String.eqb (value_bytes q) (entry_bytes e)) eqn:E; [reflexivity|].
  cbn [arg_of_index_arg].
  assert (Hv : Forall (fun e => valid_entry e = true) [e]) by (repeat constructor; exact H).
  destruct (iter_sgr_bytes [e] Hv) as [Hg _]; [discriminate|].
  change (join ";" (map entry_bytes [e])) with (entry_bytes e) in Hg.
  rewrite Hg. cbn [yielded map].
  rewrite (proj1 (proj2 (regen_spec e H))), String.eqb_sym, E. reflexivity.
Qed.

Lemma is_same_kind_entry_int (e : entry) (v : Z) (q : SgrParamWrapper) :
  valid_entry e = true -> entry_ints e = [v] ->
  is_same_kind q (IdxInt v) = Ok (String.eqb (value_bytes q) (entry_bytes e)).
Proof.
  intros H Hi. unfold is_same_kind. cbn [arg_of_index_arg].
  assert (Hv : Forall (fun e => valid_entry e = true) [e]) by (repeat constructor; exact H).
  pose proof (iter_sgr_ints [e] Hv) as Hg. cbn [flat_map] in Hg.
  rewrite Hi in Hg. cbn [app map] in Hg.
  change (_iter_sgr (ArgInt v)) with (_iter_sgr (ArgList [ItemInt v])).
  rewrite Hg. cbn [yielded].
  rewrite (proj1 (proj2 (regen_spec e H))), String.eqb_sym. reflexivity.
Qed.

Lemma index_from_ext (a b : index_arg) :
  (forall q, is_same_kind q a = is_same_kind q b) ->
  forall l j, index_from j l a = index_from j l b.
Proof.
  intros H l. induction l as [|p l IH]; intros j; [reflexivity|].
  cbn [index_from]. rewrite H. destruct (is_same_kind p b) as [[|]|]; cbn [bind]; auto.
Qed.

Lemma existsb_false_Forall {A} (f : A -> bool) (l : list A) :
  existsb f l = false -> Forall (fun x => f x = false) l.
Proof.
  induction l as [|a l IH]; cbn [existsb]; intros H; [constructor|].
  apply orb_false_iff in H. destruct H as [Ha Hl]. constructor; auto.
Qed.

Lemma Forall_not_in_bytes (b : bytes) (l : list SgrParamWrapper) :
  Forall (fun x => String.eqb (value_bytes x) b = false) l ->
  ~ In b (map value_bytes l).
Proof.
  induction 1 as [|x l Hx Hl IH]; [intros []|].
  cbn [map]. intros [E|Hin]; [|exact (IH Hin)].
  rewrite E, String.eqb_refl in Hx. discriminate.
Qed.

(** X6: [index] and [find] locate a value by its bytes.  For the bytes of a
    valid entry (and for its integer when it has one), either no value of the
    sequence has these bytes, and then [index] raises [ValueError] and [find]
    returns [-1]; or both return the position of the first value with these
    bytes.  The sequence is unchanged either way, and [find] never raises. *)
Theorem find_index_spec (e : entry) (s : SgrSequence) :
  valid_entry e = true ->
  let b := entry_bytes e in
  ((~ In b (values s)
    /\ index (IdxBytes b) s = (Raise ValueError, s)
    /\ find (IdxBytes b) s = (Ok (-1), s))
   \/ exists l1 l2,
        values s = l1 ++ b :: l2 /\ ~ In b l1
        /\ index (IdxBytes b) s = (Ok (Z.of_nat (List.length l1)), s)
        /\ find (IdxBytes b) s = (Ok (Z.of_nat (List.length l1)), s))
  /\ forall v, entry_ints e = [v] ->
               index (IdxInt v) s = index (IdxBytes b) s
               /\ find (IdxInt v) s = find (IdxBytes b) s.
Proof.
  intros H. cbv zeta. split.
  - pose proof (is_same_kind_entry_bytes e) as Hsame.
    unfold find, index, values.
    destruct (existsb (fun q => String.eqb (value_bytes q) (entry_bytes e))
                      (_sgr_params_ s)) eqn:Ex.
    + right.
      destruct (index_from_exists (IdxBytes (entry_bytes e))
                  (fun q => String.eqb (value_bytes q) (entry_bytes e))
                  (fun q => Hsame q H) _ 0 Ex)
        as (l1 & q & l2 & El & Hq & Hl1 & Ei).
      exists (map value_bytes l1), (map value_bytes l2).
      apply String.eqb_eq in Hq. rewrite El, map_app. cbn [map]. rewrite Hq.
      split; [reflexivity|]. split; [exact (Forall_not_in_bytes _ _ Hl1)|].
      rewrite <- El, Ei, length_map. cbn [Z.add]. split; reflexivity.
    + left. pose proof (existsb_false_Forall _ _ Ex) as Hall.
      split; [exact (Forall_not_in_bytes _ _ Hall)|].
      rewrite (index_from_missing (IdxBytes (entry_bytes e))
                 (fun q => String.eqb (value_bytes q) (entry_bytes e))
                 (fun q => Hsame q H) _ 0 Hall).
      split; reflexivity.
  - intros v Hv.
    assert (E : index (IdxInt v) s = index (IdxBytes (entry_bytes e)) s).
    { unfold index. f_equal. apply index_from_ext. intros q.
      rewrite (is_same_kind_entry_int e v q H Hv), (is_same_kind_entry_bytes e q H).
      reflexivity. }
    split; [exact E|]. unfold find. rewrite E. reflexivity.
Qed.

Lemma find_index_spec_witness :
  ((~ In "101" (values red_on_bright_red)
    /\ index (IdxBytes "101") red_on_bright_red = (Raise ValueError, red_on_bright_red)
    /\ find (IdxBytes "101") red_on_bright_red = (Ok (-1), red_on_bright_red))
   \/ exists l1 l2,
        values red_on_bright_red = l1 ++ "101" :: l2 /\ ~ In "101" l1
        /\ index (IdxBytes "101") red_on_bright_red
           = (Ok (Z.of_nat (List.length l1)), red_on_bright_red)
        /\ find (IdxBytes "101") red_on_bright_red
           = (Ok (Z.of_nat (List.length l1)), red_on_bright_red))
  /\ forall v, [101] = [v] ->
               index (IdxInt v) red_on_bright_red
               = index (IdxBytes "101") red_on_bright_red
               /\ find (IdxInt v) red_on_bright_red
                  = find (IdxBytes "101") red_on_bright_red.
Proof.
  exact (find_index_spec (EColor (Wire4 101)) red_on_bright_red eq_refl).
Defined.

(** *** Membership *)

Lemma forallb_regen_bytes (vs : list bytes) (es : list entry) :
  Forall (fun e => valid_entry e = true) es ->
  forallb (fun v => existsb (String.eqb (value_bytes v)) vs) (map regen_value es)
  = forallb (fun e => existsb (String.eqb (entry_bytes e)) vs) es.
Proof.
  induction 1 as [|e es He Hes IH]; [reflexivity|].
  cbn [map forallb]. rewrite IH, (proj1 (proj2 (regen_spec e He))). reflexivity.
Qed.

(** X7: [item in sequence] tests the bytes of the values the item reads as.
    On a non-empty sequence, a list of the integers of valid entries, or the
    parameter string of these integers, is contained exactly when the bytes
    of every entry are among the values of the sequence; nothing is
    contained in the empty sequence. *)
Theorem sgr_contains_spec (es : list entry) (s : SgrSequence) :
  forallb valid_entry es = true ->
  (_sgr_params_ s <> [] ->
   sgr_contains (ArgList (map ItemInt (flat_map entry_ints es))) s
   = Ok (forallb (fun e => existsb (String.eqb (entry_bytes e)) (values s)) es)
   /\ (es <> [] ->
       sgr_contains (ArgBytes (join ";" (map entry_bytes es))) s
       = Ok (forallb (fun e => existsb (String.eqb (entry_bytes e)) (values s)) es)))
  /\ (_sgr_params_ s = [] -> forall item, sgr_contains item s = Ok false).
Proof.
  intros Hv. apply forallb_valid in Hv. split.
  - intros Hs. unfold sgr_contains.
    destruct (_sgr_params_ s) as [|p ps] eqn:Ep; [congruence|].
    rewrite (iter_sgr_ints es Hv). cbn [ended yielded].
    rewrite (forallb_regen_bytes _ es Hv). split; [reflexivity|].
    intros Hne. destruct (iter_sgr_bytes es Hv Hne) as [-> _].
    cbn [ended yielded]. rewrite (forallb_regen_bytes _ es Hv). reflexivity.
  - intros Hs item. unfold sgr_contains. rewrite Hs. reflexivity.
Qed.

Lemma sgr_contains_spec_witness :
  (_sgr_params_ red_on_bright_red <> [] ->
   sgr_contains (ArgList (map ItemInt [101; 31])) red_on_bright_red
   = Ok (forallb (fun e => existsb (String.eqb (entry_bytes e))
                                   (values red_on_bright_red))
                 [EColor (Wire4 101); EColor (Wire4 31)])
   /\ ([EColor (Wire4 101); EColor (Wire4 31)] <> [] ->
       sgr_contains (ArgBytes "101;31") red_on_bright_red
       = Ok (forallb (fun e => existsb (String.eqb (entry_bytes e))
                                       (values red_on_bright_red))
                     [EColor (Wire4 101); EColor (Wire4 31)])))
  /\ (_sgr_params_ red_on_bright_red = [] ->
      forall item, sgr_contains item red_on_bright_red = Ok false).
Proof.
  exact (sgr_contains_spec [EColor (Wire4 101); EColor (Wire4 31)] red_on_bright_red
           eq_refl).
Defined.

(** *** Removing a parameter *)

(** X8: [pop] on a well-formed sequence without bright colours.  An index
    out of range raises [IndexError] and leaves the sequence as it was.
    Otherwise [pop] returns the parameter at the
    index and removes it from the parameters; when it is a colour, its key
    is deleted from [_rgb_dict_], else [_rgb_dict_] is unchanged.  The
    sequence stays well formed, without bright colours. *)
Theorem pop_spec (i : Z) (s : SgrSequence) :
  WF s ->
  _has_bright_colors_ s = false ->
  match list_pop i (_sgr_params_ s) with
  | None => pop i s = (Raise IndexError, s)
  | Some (obj, rest) =>
      exists d,
        pop i s = (Ok obj, mk_sgr rest d false)
        /\ WF (mk_sgr rest d false)
        /\ match key_of obj with
           | Some k => dict_del key_eqb (_rgb_dict_ s) k = Some d
           | None => d = _rgb_dict_ s
           end
  end.
Proof.
  intros Hw Hb. unfold pop, pop_body.
  destruct (list_pop i (_sgr_params_ s)) as [[obj rest]|] eqn:Epop; [|reflexivity].
  destruct (list_pop_split _ _ _ _ Epop) as (l1 & l2 & El & ->).
  destruct obj as [v|c].
  - destruct (WF_remove_plain s l1 l2 (Plain v) El eq_refl Hw) as [Hw1 _].
    exists (_rgb_dict_ s). cbn [set_params _has_bright_colors_ key_of].
    rewrite Hb. cbn [andb]. unfold set_params in *. rewrite Hb in *. auto.
  - destruct (WF_remove_color s l1 l2 c El Hw) as (d & Hd & Hw2 & _).
    exists d. cbn [set_params _rgb_dict_ set_rgb_dict _has_bright_colors_ key_of
                   _sgr_params_].
    rewrite Hd. cbn [set_rgb_dict set_params _rgb_dict_ _has_bright_colors_ _sgr_params_].
    rewrite Hb. unfold set_rgb_dict, set_params in *.
    cbn [_sgr_params_ _has_bright_colors_] in *. rewrite Hb in *. auto.
Qed.

Lemma pop_spec_witness :
  match list_pop (-1) (_sgr_params_ standard_red) with
  | None => pop (-1) standard_red = (Raise IndexError, standard_red)
  | Some (obj, rest) =>
      exists d,
        pop (-1) standard_red = (Ok obj, mk_sgr rest d false)
        /\ WF (mk_sgr rest d false)
        /\ match key_of obj with
           | Some k => dict_del key_eqb (_rgb_dict_ standard_red) k = Some d
           | None => d = _rgb_dict_ standard_red
           end
  end.
Proof.
  apply (pop_spec (-1) standard_red).
  - apply wf_WF. reflexivity.
  - reflexivity.
Defined.

(** *** The values made of integers *)

(** X9: [_iter_sgr] makes one value of each entry.  On the integers of valid
    entries it consumes one integer for a code that is no colour or a 4-bit
    colour, three for an 8-bit colour and five for a 24-bit colour; the value
    has the bytes, the slot and the class of the entry and its bytes denote
    its slot; the generator ends normally.  It yields the same values for
    parameters that have the bytes of the entries. *)
Theorem iter_sgr_entries (es : list entry) :
  forallb valid_entry es = true ->
  exists xs,
    _iter_sgr (ArgList (map ItemInt (flat_map entry_ints es))) = mk_gen xs None
    /\ map value_bytes xs = map entry_bytes es
    /\ map key_of xs = map entry_key es
    /\ map value_type xs = map entry_type es
    /\ Forall (fun x => coherent x = true) xs
    /\ forall ps,
         map value_bytes ps = map entry_bytes es ->
         _iter_sgr (ArgList (map ItemParam ps)) = mk_gen xs None.
Proof.
  intros Hv. apply forallb_valid in Hv. exists (map regen_value es).
  split; [exact (iter_sgr_ints es Hv)|].
  split; [exact (regen_values_bytes es Hv)|].
  assert (Hrest : map key_of (map regen_value es) = map entry_key es
                  /\ map value_type (map regen_value es) = map entry_type es
                  /\ Forall (fun x => coherent x = true) (map regen_value es)).
  { induction Hv as [|e es He Hes IH]; [repeat split; constructor|].
    destruct IH as (IH1 & IH2 & IH3). cbn [map].
    destruct (regen_spec e He) as (_ & _ & Hk & Hg).
    rewrite IH1, IH2, Hk, (regen_type e He).
    repeat split. constructor; [exact (good_value_coherent _ Hg)|exact IH3]. }
  destruct Hrest as (H1 & H2 & H3).
  repeat split; auto.
  intros ps Hps. exact (iter_sgr_params es ps Hv Hps).
Qed.

Lemma iter_sgr_entries_witness :
  exists xs,
    _iter_sgr (ArgList (map ItemInt [1; 31; 48; 5; 200; 38; 2; 1; 2; 3])) = mk_gen xs None
    /\ map value_bytes xs = ["1"; "31"; "48;5;200"; "38;2;1;2;3"]
    /\ map key_of xs = [None; Some fg; Some bg; Some fg]
    /\ map value_type xs
       = [None; Some ansicolor4Bit; Some ansicolor8Bit; Some ansicolor24Bit]
    /\ Forall (fun x => coherent x = true) xs
    /\ forall ps,
         map value_bytes ps = ["1"; "31"; "48;5;200"; "38;2;1;2;3"] ->
         _iter_sgr (ArgList (map ItemParam ps)) = mk_gen xs None.
Proof.
  exact (iter_sgr_entries
           [EPlain 1; EColor (Wire4 31); EColor (Wire8 bg 200);
            EColor (Wire24 fg (1, 2, 3))] eq_refl).
Defined.

(** *** The constructor with [ansi_type] *)

Lemma init_step_typed (t : AnsiColorType) (x : sgr_value) (st : init_state) :
  match value_type x with
  | Some t' => type_eqb t' t = true
  | None => True
  end ->
  init_step (Some t) x st = init_step None x st.
Proof.
  intros H. unfold init_step. destruct x as [b|c]; [reflexivity|].
  cbn [value_type] in H. rewrite H. reflexivity.
Qed.

Lemma init_loop_typed (t : AnsiColorType) (es : list entry) :
  Forall (fun e => valid_entry e = true) es ->
  typed_entries t es = true ->
  forall st,
    init_loop (Some t) (map regen_value es) st = init_loop None (map regen_value es) st.
Proof.
  induction 1 as [|e es He Hes IH]; intros Ht st; [reflexivity|].
  cbn [typed_entries forallb] in Ht. apply andb_true_iff in Ht. destruct Ht as [Hte Ht].
  cbn [map init_loop]. rewrite init_step_typed.
  - destruct (init_step None (regen_value e) st); cbn [bind]; [apply IH; exact Ht|reflexivity].
  - rewrite (regen_type e He). destruct (entry_type e); [exact Hte|exact I].
Qed.

Lemma init_loop_app_any (t : option AnsiColorType) (xs ys : list sgr_value)
  (st : init_state) :
  init_loop t (xs ++ ys) st = (st' <- init_loop t xs st ;; init_loop t ys st').
Proof.
  revert st. induction xs as [|x xs IH]; intros st; [reflexivity|].
  cbn [app init_loop]. destruct (init_step t x st) as [st1|e]; cbn [bind]; auto.
Qed.

Lemma init_step_mismatch (t : AnsiColorType) (c : colorbytes) (st : init_state) :
  type_eqb (cb_type c) t = false ->
  existsb (String.eqb (cb_bytes c)) (st_values st) = false ->
  coherent (Colored c) = true ->
  init_step (Some t) (Colored c) st = Raise TypeError.
Proof.
  intros Ht Hv Hco. unfold init_step. cbn [value_bytes]. rewrite Hv.
  destruct (colored_not_bold (Colored c) _ Hco eq_refl) as [H1 _].
  cbn [value_bytes] in H1. rewrite H1, Ht. reflexivity.
Qed.

(** After plain entries only, the values seen are their bytes, none of which
    reads as a colour. *)
Lemma init_loop_plain (es : list entry) :
  Forall (fun e => valid_entry e = true) es ->
  forallb plain_entry es = true ->
  forall st,
    Inv st ->
    (forall z, In z (st_values st) -> bytes_key z = None) ->
    exists st',
      init_loop None (map regen_value es) st = Ok st'
      /\ forall z, In z (st_values st') -> bytes_key z = None.
Proof.
  induction 1 as [|e es He Hes IH]; intros Hp st HI Hz.
  - exists st. split; [reflexivity|exact Hz].
  - cbn [forallb] in Hp. apply andb_true_iff in Hp. destruct Hp as [Hpe Hp].
    destruct (regen_spec e He) as (_ & Hb & Hk & Hg).
    destruct (init_step_spec _ st Hg HI) as (st1 & E1 & HI1 & HP).
    cbn [map init_loop]. rewrite E1. cbn [bind].
    apply (IH Hp st1 HI1). unfold Post in HP.
    destruct (existsb (String.eqb (value_bytes (regen_value e))) (st_values st)).
    + subst st1. exact Hz.
    + destruct HP as (x' & l & Hv & _ & _ & _ & Hx' & _).
      assert (x' = regen_value e) as ->.
      { destruct Hx' as [?|(_ & c' & Hpr & _)]; [assumption|].
        destruct e; [|discriminate]. discriminate Hpr. }
      intros z Hin. rewrite Hv in Hin. destruct Hin as [<-|Hin]; [|exact (Hz z Hin)].
      rewrite <- (coherent_key _ (good_value_coherent _ Hg)), Hk.
      destruct e; [reflexivity|discriminate].
Qed.

(** X10: with [ansi_type], the constructor raises [TypeError] on a colour of
    another class.  After the integers of valid entries that are no colours,
    the integers of a valid colour whose class is not [ansi_type] make the
    loop call [ansi_type.from_rgb] on the colour itself, which is no
    [Mapping]; whatever integers follow are not looked at.  When every
    colour among the entries has the class [ansi_type], the constructor
    returns what it returns without [ansi_type]. *)
Theorem SgrSequence_init_ansi_type (t : AnsiColorType) (es : list entry)
  (w : wire_code) (rest : list Z) :
  forallb valid_entry es = true ->
  (forallb plain_entry es = true ->
   valid_wire w = true ->
   wire_type w <> t ->
   SgrSequence_init
     (InitIter (ArgList (map ItemInt (flat_map entry_ints (es ++ [EColor w]) ++ rest))))
     (Some t)
   = Raise TypeError)
  /\ (typed_entries t es = true ->
      SgrSequence_init (InitIter (ArgList (map ItemInt (flat_map entry_ints es))))
                       (Some t)
      = SgrSequence_init (InitIter (ArgList (map ItemInt (flat_map entry_ints es))))
                         None).
Proof.
  intros Hv. apply forallb_valid in Hv. split.
  - intros Hp Hw Ht.
    assert (Hv' : Forall (fun e => valid_entry e = true) (es ++ [EColor w])).
    { apply Forall_app. split; [exact Hv|]. repeat constructor. exact Hw. }
    unfold SgrSequence_init.
    assert (Hf : falsy (ArgList (map ItemInt (flat_map entry_ints (es ++ [EColor w]) ++ rest)))
                 = false).
    { apply falsy_ints. rewrite flat_map_app. cbn [flat_map].
      destruct (entry_ints_ok (EColor w) Hw) as [Hn _].
      destruct (entry_ints (EColor w)); [congruence|].
      destruct (flat_map entry_ints es); discriminate. }
    rewrite Hf. unfold _iter_sgr, _gen_colorbytes, _iter_normalized_sgr.
    rewrite normalize_ints. cbn [yielded ended]. rewrite map_app.
    rewrite (gen_entries_then _ _ Hv'). cbn [yielded].
    rewrite map_app, <- app_assoc, init_loop_app_any.
    rewrite (init_loop_typed t es Hv).
    2:{ clear - Hp. induction es as [|e es IH]; [reflexivity|].
        cbn [forallb typed_entries] in *. apply andb_true_iff in Hp.
        destruct Hp as [He Hp]. destruct e; [|discriminate]. cbn. apply IH, Hp. }
    destruct (init_loop_plain es Hv Hp init0 Inv_init0) as (st & E & Hz).
    { intros z []. }
    change (mk_init empty_sgr [] None None false false) with init0.
    rewrite E. cbn [bind map app init_loop].
    destruct (regen_spec (EColor w) Hw) as (_ & Hb & Hk & Hg).
    pose proof (regen_type (EColor w) Hw) as Hty.
    destruct (regen_value (EColor w)) as [b|c] eqn:Ec; [discriminate Hty|].
    cbn [value_type entry_type] in Hty. injection Hty as Hty.
    rewrite init_step_mismatch; [reflexivity| | |].
    + rewrite Hty. destruct (type_eqb (wire_type w) t) eqn:Et; [|reflexivity].
      apply type_eqb_eq in Et. congruence.
    + destruct (existsb (String.eqb (cb_bytes c)) (st_values st)) eqn:Ex; [|reflexivity].
      apply existsb_exists in Ex. destruct Ex as (z & Hin & Ez).
      apply String.eqb_eq in Ez. subst z. specialize (Hz _ Hin).
      pose proof (coherent_key _ (good_value_coherent _ Hg)) as Hck.
      cbn [key_of value_bytes] in Hck. rewrite Hz in Hck. discriminate.
    + exact (good_value_coherent _ Hg).
  - intros Ht. unfold SgrSequence_init.
    destruct (falsy _); [reflexivity|].
    rewrite (iter_sgr_ints es Hv). cbn [yielded ended].
    rewrite (init_loop_typed t es Hv Ht). reflexivity.
Qed.

Lemma SgrSequence_init_ansi_type_witness :
  (forallb plain_entry [EPlain 1; EPlain 4] = true ->
   valid_wire (Wire8 fg 46) = true ->
   wire_type (Wire8 fg 46) <> ansicolor4Bit ->
   SgrSequence_init
     (InitIter (ArgList (map ItemInt [1; 4; 38; 5; 46; 7])))
     (Some ansicolor4Bit)
   = Raise TypeError)
  /\ (typed_entries ansicolor4Bit [EPlain 1; EPlain 4] = true ->
      SgrSequence_init (InitIter (ArgList (map ItemInt [1; 4]))) (Some ansicolor4Bit)
      = SgrSequence_init (InitIter (ArgList (map ItemInt [1; 4]))) None).
Proof.
  exact (SgrSequence_init_ansi_type ansicolor4Bit [EPlain 1; EPlain 4]
           (Wire8 fg 46) [7] eq_refl).
Defined.

(** *** Strings: prefixes, suffixes and counting *)

Lemma drop_prefix_app (p s : bytes) : drop_prefix p (p ++ s)%string = Some s.
Proof.
  induction p as [|a p IH]; [reflexivity|].
  cbn [String.append drop_prefix]. rewrite Ascii.eqb_refl. exact IH.
Qed.

Lemma string_rev_app (a b : bytes) :
  string_rev (a ++ b)%string = (string_rev b ++ string_rev a)%string.
Proof.
  unfold string_rev. rewrite list_ascii_app, rev_app_distr.
  apply string_of_list_ascii_app.
Qed.

Lemma string_rev_involutive (s : bytes) : string_rev (string_rev s) = s.
Proof.
  unfold string_rev. rewrite list_ascii_of_string_of_list_ascii, rev_involutive.
  apply string_of_list_ascii_of_string.
Qed.

Lemma removesuffix_app (p s : bytes) : removesuffix p (s ++ p)%string = s.
Proof.
  unfold removesuffix. rewrite string_rev_app, drop_prefix_app.
  apply string_rev_involutive.
Qed.

Lemma partition_m_app (body text : bytes) :
  Forall (fun a => Ascii.eqb a "m" = false) (list_ascii_of_string body) ->
  partition_m (body ++ String "m" text)%string = (body, text).
Proof.
  induction body as [|a body IH]; cbn [list_ascii_of_string String.append partition_m];
    intros H; [reflexivity|].
  inversion H as [|? ? Ha Hb]; subst. rewrite Ha, (IH Hb). reflexivity.
Qed.

Lemma count_sub_nonneg (fuel : nat) (sub s : bytes) : 0 <= count_sub fuel sub s.
Proof.
  revert s. induction fuel as [|f IH]; intros s; cbn [count_sub]; [lia|].
  destruct (drop_prefix sub s) as [r|].
  - specialize (IH r). lia.
  - destruct s; [lia|apply IH].
Qed.

Lemma count_sub_found (x t : bytes) :
  forall fuel, (String.length x < fuel)%nat ->
  1 <= count_sub fuel CSI (x ++ CSI ++ t)%string.
Proof.
  induction x as [|a x IH]; intros fuel Hf.
  - destruct fuel as [|f]; [cbn in Hf; lia|].
    cbn [String.append count_sub]. 
    change (drop_prefix CSI (CSI ++ t)%string) with (Some t).
    pose proof (count_sub_nonneg f CSI t). lia.
  - destruct fuel as [|f]; [cbn in Hf; lia|].
    cbn [String.length] in Hf. cbn [count_sub].
    destruct (drop_prefix CSI (String a x ++ CSI ++ t)%string) as [r|].
    + pose proof (count_sub_nonneg f CSI r). lia.
    + cbn [String.append]. apply IH. lia.
Qed.

Lemma count_sub_absent (s : bytes) :
  Forall (fun a => Ascii.eqb a ESC = false) (list_ascii_of_string s) ->
  forall fuel, count_sub fuel CSI s = 0.
Proof.
  induction s as [|a s IH]; intros H fuel; destruct fuel as [|f]; try reflexivity.
  cbn [list_ascii_of_string] in H. inversion H as [|? ? Ha Hs]; subst.
  cbn [count_sub CSI drop_prefix]. rewrite Ascii.eqb_sym, Ha. apply IH. exact Hs.
Qed.

Lemma join_dec_chars (P : ascii -> Prop) (ns : list Z) :
  (forall c, is_digit c = true -> P c) -> P ";"%char ->
  Forall (fun n => 0 <= n < 256) ns ->
  Forall P (list_ascii_of_string (join ";" (map bytes_of_int ns))).
Proof.
  intros Hd Hs. induction 1 as [|n ns Hn Hall IH]; [constructor|].
  destruct (dec_ok_spec n Hn) as (_ & Hdig & _).
  assert (Hdm : Forall P (list_ascii_of_string (bytes_of_int n))).
  { eapply Forall_impl; [|exact Hdig]. exact Hd. }
  destruct ns as [|m ns']; [exact Hdm|].
  change (join ";" (map bytes_of_int (n :: m :: ns')))
    with (bytes_of_int n ++ String ";" (join ";" (map bytes_of_int (m :: ns'))))%string.
  rewrite list_ascii_app. apply Forall_app. split; [exact Hdm|].
  cbn [list_ascii_of_string]. constructor; [exact Hs | exact IH].
Qed.

(** *** A styled text read back from its serialisation *)

Lemma count_CSI_serialised (r : bytes) :
  2 <= count_CSI (CSI ++ r ++ SGR_RESET)%string.
Proof.
  unfold count_CSI. cbn [count_sub]. rewrite drop_prefix_app.
  pose proof (count_sub_found r "0m"
                (String.length (CSI ++ r ++ SGR_RESET)%string)) as H.
  change (CSI ++ "0m")%string with SGR_RESET in H.
  assert (Hl : (String.length r < String.length (CSI ++ r ++ SGR_RESET)%string)%nat).
  { rewrite !length_append. cbn. lia. }
  specialize (H Hl). lia.
Qed.

(** [_get_color_str_vars] on the literal [ESC[ body m text ESC[0m], for a
    body without [m] and without [ESC]: the body is given to [SgrSequence]
    and the text is the base string. *)
Lemma literal_vars (D : AnsiColorType) (body text : bytes)
  (ansi_type : option AnsiColorType) :
  Forall (fun a => Ascii.eqb a "m" = false) (list_ascii_of_string body) ->
  Forall (fun a => Ascii.eqb a ESC = false) (list_ascii_of_string body) ->
  get_color_str_vars_literal D None
    (CSI ++ (body ++ String "m" text) ++ SGR_RESET)%string ansi_type
  = (sgr <- SgrSequence_init (InitIter (ArgBytes body))
              (Some (match ansi_type with Some t => t | None => D end)) ;;
     Ok (sgr, text)).
Proof.
  intros Hm He. unfold get_color_str_vars_literal. cbv zeta.
  pose proof (count_CSI_serialised (body ++ String "m" text)%string) as Hc.
  destruct (count_CSI (CSI ++ (body ++ String "m" text) ++ SGR_RESET)%string =? 0) eqn:E0;
    [lia|].
  destruct (1 <? count_CSI (CSI ++ (body ++ String "m" text) ++ SGR_RESET)%string) eqn:E1;
    [|lia].
  unfold removeprefix. rewrite drop_prefix_app, removesuffix_app.
  rewrite (partition_m_app body text Hm).
  unfold count_CSI at 1. rewrite (count_sub_absent body He). cbn [Z.ltb Z.compare bind].
  reflexivity.
Qed.

(** X11: a styled text is read back from its serialisation.  For a style
    that reads as a non-empty list of valid entries whose colours all have
    the default colour class, [ColorStr] applied to the text
    [ESC[ params m base ESC[0m] that the style and any base string serialise
    to (with the reset suffix) returns a [ColorStr] with that base string,
    with the flag [no_reset] it is given, and with the style that
    [SgrSequence] makes of the parameters; this style is well formed. *)
Theorem ColorStr_new_parses (D : AnsiColorType) (s : SgrSequence) (es : list entry)
  (text : string) (nr : bool) :
  values s = map entry_bytes es ->
  forallb valid_entry es = true ->
  typed_entries D es = true ->
  es <> [] ->
  exists s' r,
    SgrSequence_init (InitIter (ArgList (map ItemParam (_sgr_params_ s)))) None = Ok s'
    /\ wf s' = true
    /\ ColorStr_new D (Some (serialize s text false)) None None nr = Ok r
    /\ _sgr_ r = s'
    /\ _base_str_ r = text
    /\ _no_reset_ r = nr
    /\ cs_str r = serialize s' text nr.
Proof.
  intros Hs Hv Ht Hne. apply forallb_valid in Hv.
  pose proof (flat_ints_bytes es Hv) as Hb.
  assert (Hpne : _sgr_params_ s <> []).
  { unfold values in Hs. destruct (_sgr_params_ s); [|discriminate].
    destruct es; [congruence|discriminate]. }
  assert (Hxs : map regen_value es <> []) by (destruct es; [congruence|discriminate]).
  destruct (SgrSequence_init_values _ _ (falsy_params _ Hpne)
              (iter_sgr_params es _ Hv Hs) Hxs (regen_values_good es Hv))
    as (st & l & last & E & HI & El & Einit & _).
  set (s' := if String.eqb (value_bytes last) "0" then mk_sgr [last] [] false
             else st_self st) in *.
  assert (Hw : WF s').
  { unfold s'. destruct (String.eqb (value_bytes last) "0") eqn:E0.
    - apply (WF_reset_only (st_self st) last); [exact (proj1 HI)| |].
      + rewrite El. apply in_or_app. right. left. reflexivity.
      + apply String.eqb_eq. exact E0.
    - exact (proj1 HI). }
  assert (Hbytes : SgrSequence_init (InitIter (ArgBytes (join ";" (map entry_bytes es))))
                     (Some D) = Ok s').
  { unfold SgrSequence_init. cbn [falsy]. rewrite (join_entries_nonempty es Hv Hne).
    destruct (iter_sgr_bytes es Hv Hne) as [-> _]. cbn [yielded ended].
    rewrite (init_loop_typed D es Hv Ht).
    change (mk_init empty_sgr [] None None false false) with init0.
    rewrite E. cbn [bind]. rewrite El, rev_app_distr. cbn [List.rev app].
    unfold s'. destruct (String.eqb (value_bytes last) "0"); reflexivity. }
  assert (Hlit : serialize s text false
                 = (CSI ++ (join ";" (map entry_bytes es) ++ String "m" text)
                        ++ SGR_RESET)%string).
  { unfold serialize, sgr_str, sgr_bytes, reset_suffix.
    destruct (_sgr_params_ s) as [|p ps] eqn:Ep; [congruence|].
    rewrite Hs. cbn [CSI String.append]. rewrite !string_append_assoc. reflexivity. }
  exists s'. eexists. split; [exact Einit|]. split; [apply wf_WF; exact Hw|].
  rewrite Hlit. unfold ColorStr_new.
  unfold startswith. rewrite drop_prefix_app.
  rewrite literal_vars.
  - rewrite Hbytes. cbn [bind]. split; [reflexivity|].
    cbn [_sgr_ _base_str_ _no_reset_ cs_str]. repeat split.
  - rewrite (join_entries es Hv). exact (join_dec_no_m _ Hb).
  - rewrite (join_entries es Hv). apply join_dec_chars; [|reflexivity|exact Hb].
    intros c Hc. rewrite Ascii.eqb_sym. exact (digit_not_ESC c Hc).
Qed.

Lemma ColorStr_new_parses_witness :
  exists s' r,
    SgrSequence_init
      (InitIter (ArgList (map ItemParam (_sgr_params_ red_on_bright_red)))) None = Ok s'
    /\ wf s' = true
    /\ ColorStr_new ansicolor4Bit
         (Some (serialize red_on_bright_red "some text" false)) None None true = Ok r
    /\ _sgr_ r = s'
    /\ _base_str_ r = "some text"
    /\ _no_reset_ r = true
    /\ cs_str r = serialize s' "some text" true.
Proof.
  apply (ColorStr_new_parses ansicolor4Bit red_on_bright_red
           [EColor (Wire4 31); EColor (Wire4 101)] "some text" true);
    try reflexivity.
  discriminate.
Defined.

(** *** Deleting the colours *)

Lemma pop_at (s : SgrSequence) (l1 l2 : list SgrParamWrapper) (q : SgrParamWrapper) :
  WF s ->
  _has_bright_colors_ s = false ->
  _sgr_params_ s = l1 ++ q :: l2 ->
  exists d,
    pop (Z.of_nat (List.length l1)) s = (Ok q, mk_sgr (l1 ++ l2) d false)
    /\ WF (mk_sgr (l1 ++ l2) d false)
    /\ match key_of q with
       | Some k => dict_del key_eqb (_rgb_dict_ s) k = Some d
       | None => d = _rgb_dict_ s
       end.
Proof.
  intros Hw Hb El. unfold pop, pop_body. rewrite El, list_pop_app.
  destruct q as [v|c].
  - destruct (WF_remove_plain s l1 l2 (Plain v) El eq_refl Hw) as [Hw1 _].
    exists (_rgb_dict_ s). cbn [set_params _has_bright_colors_ key_of].
    rewrite Hb. cbn [andb]. unfold set_params in *. rewrite Hb in *. auto.
  - destruct (WF_remove_color s l1 l2 c El Hw) as (d & Hd & Hw2 & _).
    exists d. cbn [set_params _rgb_dict_ set_rgb_dict _has_bright_colors_ key_of
                   _sgr_params_].
    rewrite Hd. cbn [set_rgb_dict set_params _rgb_dict_ _has_bright_colors_ _sgr_params_].
    rewrite Hb. unfold set_rgb_dict, set_params in *.
    cbn [_sgr_params_ _has_bright_colors_] in *. rewrite Hb in *. auto.
Qed.

Lemma count_key_find (k : ColorDictKeys) (l : list SgrParamWrapper) :
  (1 <= count_key k l)%nat ->
  exists p, List.find (occupies k) l = Some p /\ In p l /\ occupies k p = true.
Proof.
  induction l as [|a l IH]; [rewrite count_key_nil; lia|].
  rewrite count_key_cons. cbn [List.find]. destruct (occupies k a) eqn:Ea.
  - intros _. exists a. split; [reflexivity|]. split; [left; reflexivity|exact Ea].
  - intros H. destruct IH as (p & Hf & Hin & Ho); [lia|].
    exists p. split; [exact Hf|]. split; [right; exact Hin|exact Ho].
Qed.

(** The colour of an occupied slot is found and popped. *)
Lemma pop_color_of (k : ColorDictKeys) (s : SgrSequence) :
  WF s ->
  _has_bright_colors_ s = false ->
  (1 <= dict_count k (_rgb_dict_ s))%nat ->
  exists l1 q l2 d,
    _sgr_params_ s = l1 ++ q :: l2
    /\ key_of q = Some k
    /\ dict_del key_eqb (_rgb_dict_ s) k = Some d
    /\ WF (mk_sgr (l1 ++ l2) d false)
    /\ (i <~ index (index_arg_of_color (get_color k s)) ;; pop i) s
       = (Ok q, mk_sgr (l1 ++ l2) d false).
Proof.
  intros Hw Hb Hd. pose proof Hw as [Hco Hcnt].
  destruct (Hcnt k) as [Hle Heq]. rewrite Heq in Hd.
  destruct (count_key_find k _ Hd) as (p & Hf & Hin & Ho).
  rewrite get_color_find, Hf. cbn [index_arg_of_color].
  assert (Hex : existsb (fun q => param_eqb q p) (_sgr_params_ s) = true).
  { apply existsb_exists. exists p. split; [exact Hin|].
    unfold param_eqb. apply String.eqb_refl. }
  destruct (index_from_exists (IdxParam p) (fun q => param_eqb q p)
              (fun q => is_same_kind_param q p) _ 0 Hex)
    as (l1 & q & l2 & El & Hq & _ & Ei).
  assert (Hkq : key_of q = Some k).
  { assert (Hinq : In q (_sgr_params_ s))
      by (rewrite El; apply in_or_app; right; left; reflexivity).
    rewrite (coherent_key q (WF_coherent_in s q Hw Hinq)).
    unfold param_eqb in Hq. apply String.eqb_eq in Hq. rewrite Hq.
    rewrite <- (coherent_key p (WF_coherent_in s p Hw Hin)).
    apply occupies_key_of. exact Ho. }
  destruct (pop_at s l1 l2 q Hw Hb El) as (d & Hpop & Hw' & Hdel).
  rewrite Hkq in Hdel.
  exists l1, q, l2, d.
  split; [exact El|]. split; [exact Hkq|]. split; [exact Hdel|]. split; [exact Hw'|].
  unfold mbind, index. cbv beta. rewrite Ei. cbn [Z.add]. exact Hpop.
Qed.

(** X12: [del sequence.rgb_dict] does not get past the first colour.  On a
    well-formed sequence without bright colours, the deleter returns when
    [_rgb_dict_] is empty; otherwise it pops the colour of the first key,
    which deletes the key, and the next step of the iteration over the keys
    raises [RuntimeError] because the dict changed size: the first colour is
    gone, every other parameter is still there. *)
Theorem rgb_dict_deleter_spec (s : SgrSequence) :
  WF s ->
  _has_bright_colors_ s = false ->
  match _rgb_dict_ s with
  | [] => rgb_dict_deleter s = (Ok tt, s)
  | (k, _) :: d =>
      exists l1 q l2,
        _sgr_params_ s = l1 ++ q :: l2
        /\ key_of q = Some k
        /\ rgb_dict_deleter s = (Raise RuntimeError, mk_sgr (l1 ++ l2) d false)
  end.
Proof.
  intros Hw Hb. unfold rgb_dict_deleter.
  destruct (_rgb_dict_ s) as [|[k v] d] eqn:Ed.
  - cbn [dict_keys map deleter_loop List.length]. rewrite Ed. reflexivity.
  - destruct (pop_color_of k s Hw Hb) as (l1 & q & l2 & d' & El & Hk & Hdel & _ & Hpop).
    { rewrite Ed. unfold dict_count. cbn [filter fst]. rewrite key_eqb_refl.
      cbn [List.length]. lia. }
    rewrite Ed in Hdel. cbn [dict_del] in Hdel. rewrite key_eqb_refl in Hdel.
    injection Hdel as <-.
    exists l1, q, l2. split; [exact El|]. split; [exact Hk|].
    cbn [dict_keys map fst deleter_loop]. rewrite Ed, Nat.eqb_refl. cbn [negb].
    unfold mbind in *. 
    destruct (index (index_arg_of_color (get_color k s)) s) as [[i|e] s1];
      [|discriminate Hpop].
    rewrite Hpop.
    assert (Hneq : Nat.eqb (List.length d) (S (List.length d)) = false)
      by (apply Nat.eqb_neq; lia).
    destruct (map fst d); cbn [deleter_loop _rgb_dict_ List.length];
      rewrite Hneq; reflexivity.
Qed.

Lemma rgb_dict_deleter_spec_witness :
  exists l1 q l2,
    _sgr_params_ underlined_red_on_blue = l1 ++ q :: l2
    /\ key_of q = Some fg
    /\ rgb_dict_deleter underlined_red_on_blue
       = (Raise RuntimeError, mk_sgr (l1 ++ l2) [(bg, (0, 0, 170))] false).
Proof.
  apply (rgb_dict_deleter_spec underlined_red_on_blue).
  - apply wf_WF. reflexivity.
  - reflexivity.
Defined.

(** *** The constructor on a list without repetitions *)

Lemma init_step_fresh (x : sgr_value) (st : init_state) :
  good_value x = true ->
  existsb (String.eqb (value_bytes x)) (st_values st) = false ->
  String.eqb (value_bytes x) "1" = false ->
  st_is_bold st = false ->
  (forall k, key_of x = Some k -> color_slot k st = None) ->
  init_step None x st = Ok (fresh_step st x).
Proof.
  intros Hg Hex H1 Hb Hslot. unfold init_step, fresh_step. rewrite Hex, H1.
  destruct x as [b|c].
  - cbn [bind value_bytes set_params _sgr_params_ _rgb_dict_ _has_bright_colors_
         value_bright occupies key_of okey_eqb].
    rewrite orb_false_r, Hb. destruct st as [[ps d hb] vs f g ib hbd]. reflexivity.
  - unfold good_value in Hg. apply andb_true_iff in Hg. destruct Hg as [_ Hg].
    specialize (Hslot (fst (cb_rgb_dict c)) eq_refl).
    assert (Hupd : forall st0 : init_state,
               color_slot (fst (cb_rgb_dict c)) st0 = None ->
               update_colors (Colored c) (cb_rgb_dict c) st0
               = Ok (mk_init
                       (mk_sgr (_sgr_params_ (st_self st0))
                               (dict_set key_eqb (_rgb_dict_ (st_self st0))
                                         (fst (cb_rgb_dict c)) (snd (cb_rgb_dict c)))
                               (_has_bright_colors_ (st_self st0)))
                       (st_values st0)
                       (if occupies fg (Colored c) then Some (Colored c)
                        else st_fg_slot st0)
                       (if occupies bg (Colored c) then Some (Colored c)
                        else st_bg_slot st0)
                       (st_is_bold st0) (st_has_bold st0))).
    { intros st0 Hs0. unfold update_colors, occupies. cbn [key_of okey_eqb].
      destruct (cb_rgb_dict c) as [k v]. cbn [fst snd] in *. rewrite Hs0.
      cbn [bind]. destruct k; reflexivity. }
    cbn [negb value_bytes value_bright]. 
    destruct (type_eqb (cb_type c) ansicolor4Bit) eqn:Ht.
    + destruct (py_int (cb_bytes c)) as [code|] eqn:Hp; [|discriminate].
      unfold init_4bit. rewrite Hp. cbn [bind andb].
      destruct (mem code _ANSI16C_BRIGHT) eqn:Hbr.
      * cbn [bind]. rewrite Hupd by (destruct st, (fst (cb_rgb_dict c)); exact Hslot).
        cbn [bind with_self st_self st_values st_fg_slot st_bg_slot st_is_bold
             st_has_bold set_bright set_params _sgr_params_ _rgb_dict_
             _has_bright_colors_].
        rewrite orb_true_r, Hb. reflexivity.
      * rewrite Hb. cbn [andb bind]. rewrite (Hupd st Hslot).
        cbn [bind st_self st_values st_fg_slot st_bg_slot st_is_bold st_has_bold
             set_params _sgr_params_ _rgb_dict_ _has_bright_colors_].
        rewrite orb_false_r, Hb. reflexivity.
    + cbn [bind andb]. rewrite (Hupd st Hslot).
      cbn [bind st_self st_values st_fg_slot st_bg_slot st_is_bold st_has_bold
           set_params _sgr_params_ _rgb_dict_ _has_bright_colors_].
      rewrite orb_false_r, Hb. reflexivity.
Qed.

Lemma init_loop_fresh (es : list entry) :
  Forall (fun e => valid_entry e = true) es ->
  no_bold_reset es = true ->
  distinct (map entry_bytes es) = true ->
  (forall k, (entry_count k es <= 1)%nat) ->
  forall st,
    st_is_bold st = false ->
    (forall e, In e es ->
               existsb (String.eqb (entry_bytes e)) (st_values st) = false) ->
    (forall k, (1 <= entry_count k es)%nat -> color_slot k st = None) ->
    init_loop None (map regen_value es) st
    = Ok (fold_left fresh_step (map regen_value es) st).
Proof.
  induction 1 as [|e es He Hes IH]; intros Hnb Hd Hc st Hb Hv Hs; [reflexivity|].
  cbn [no_bold_reset forallb] in Hnb. apply andb_true_iff in Hnb.
  destruct Hnb as [Hnbe Hnb]. apply andb_true_iff in Hnbe. destruct Hnbe as [H1 _].
  apply negb_true_iff in H1.
  cbn [map distinct] in Hd. apply andb_true_iff in Hd. destruct Hd as [Hde Hd].
  apply negb_true_iff in Hde.
  destruct (regen_spec e He) as (_ & Hbytes & Hkey & Hg).
  assert (Hcount : forall k, entry_count k (e :: es)
                             = ((if in_slot k e then 1 else 0) + entry_count k es)%nat).
  { intros k. unfold entry_count. cbn [filter]. destruct (in_slot k e); reflexivity. }
  cbn [map init_loop fold_left].
  rewrite (init_step_fresh (regen_value e) st Hg).
  - cbn [bind]. apply IH; auto.
    + intros k. specialize (Hc k). rewrite Hcount in Hc. lia.
    + intros e' He'. cbn [fresh_step st_values existsb]. rewrite Hbytes.
      rewrite (Hv e' (or_intror He')), orb_false_r.
      destruct (String.eqb (entry_bytes e') (entry_bytes e)) eqn:E; [|reflexivity].
      apply String.eqb_eq in E.
      assert (existsb (String.eqb (entry_bytes e)) (map entry_bytes es) = true); [|congruence].
      apply existsb_exists. exists (entry_bytes e'). split.
      * apply in_map. exact He'.
      * rewrite E. apply String.eqb_refl.
    + intros k Hk. pose proof (Hc k) as Hck. rewrite Hcount in Hck.
      assert (Ho : in_slot k e = false) by (destruct (in_slot k e); [lia|reflexivity]).
      rewrite <- (regen_occupies k e He) in Ho.
      assert (Hsk : color_slot k st = None) by (apply Hs; rewrite Hcount; lia).
      destruct k; cbn [color_slot fresh_step st_fg_slot st_bg_slot] in *;
        rewrite Ho; exact Hsk.
  - rewrite Hbytes. apply Hv. left. reflexivity.
  - rewrite Hbytes. exact H1.
  - exact Hb.
  - intros k Hk. apply Hs. rewrite Hcount. unfold in_slot. rewrite <- Hkey, Hk.
    cbn [okey_eqb]. rewrite key_eqb_refl. lia.
Qed.

Lemma dict_set_fresh (d : list (ColorDictKeys * Int3Tuple)) (k : ColorDictKeys)
  (v : Int3Tuple) :
  dict_get key_eqb d k = None -> dict_set key_eqb d k v = d ++ [(k, v)].
Proof.
  induction d as [|[k' v'] d IH]; cbn [dict_get dict_set app]; [reflexivity|].
  destruct (key_eqb k' k); [discriminate|]. intros H. rewrite (IH H). reflexivity.
Qed.

Lemma dict_get_app_fresh (d : list (ColorDictKeys * Int3Tuple)) (k k' : ColorDictKeys)
  (v : Int3Tuple) :
  key_eqb k' k = false ->
  dict_get key_eqb (d ++ [(k', v)]) k = dict_get key_eqb d k.
Proof.
  intros H. induction d as [|[k0 v0] d IH]; cbn [dict_get app].
  - rewrite H. reflexivity.
  - destruct (key_eqb k0 k); [reflexivity|exact IH].
Qed.

(** The state of the sequence after fresh steps. *)
Lemma fold_fresh_self (xs : list sgr_value) :
  forall st,
    (forall k, (count_key k xs <= 1)%nat) ->
    (forall k, (1 <= count_key k xs)%nat ->
               dict_get key_eqb (_rgb_dict_ (st_self st)) k = None) ->
    st_self (fold_left fresh_step xs st)
    = mk_sgr (_sgr_params_ (st_self st) ++ xs)
             (_rgb_dict_ (st_self st) ++ colours_of xs)
             (_has_bright_colors_ (st_self st) || existsb value_bright xs).
Proof.
  induction xs as [|x xs IH]; intros st Hc Hd.
  - cbn [fold_left colours_of flat_map existsb]. rewrite !app_nil_r, orb_false_r.
    destruct (st_self st). reflexivity.
  - cbn [fold_left]. rewrite IH.
    + cbn [fresh_step st_self _sgr_params_ _rgb_dict_ _has_bright_colors_
           colours_of flat_map existsb].
      rewrite <- app_assoc, orb_assoc. cbn [app]. f_equal.
      destruct x as [b|c]; [reflexivity|].
      rewrite dict_set_fresh.
      * rewrite <- app_assoc. destruct (cb_rgb_dict c). reflexivity.
      * apply Hd. rewrite count_key_cons.
        unfold occupies. cbn [key_of okey_eqb]. rewrite key_eqb_refl. lia.
    + intros k. specialize (Hc k). rewrite count_key_cons in Hc. lia.
    + intros k Hk. pose proof (Hc k) as Hck. rewrite count_key_cons in Hck.
      assert (Ho : occupies k x = false) by (destruct (occupies k x); [lia|reflexivity]).
      assert (Hdk : dict_get key_eqb (_rgb_dict_ (st_self st)) k = None)
        by (apply Hd; rewrite count_key_cons; lia).
      cbn [fresh_step st_self _rgb_dict_]. destruct x as [b|c]; [exact Hdk|].
      unfold occupies in Ho. cbn [key_of okey_eqb] in Ho.
      destruct (dict_get key_eqb (_rgb_dict_ (st_self st)) (fst (cb_rgb_dict c))) eqn:Eg.
      * (* the key of [c] is present: [dict_set] keeps the keys *)
        clear - Hdk Ho. induction (_rgb_dict_ (st_self st)) as [|[k0 v0] d IH];
          cbn [dict_set dict_get] in *.
        -- rewrite Ho. reflexivity.
        -- destruct (key_eqb k0 (fst (cb_rgb_dict c))) eqn:E0; cbn [dict_get].
           ++ destruct (key_eqb k0 k); [discriminate|exact Hdk].
           ++ destruct (key_eqb k0 k); [discriminate|]. apply IH. exact Hdk.
      * rewrite (dict_set_fresh _ _ _ Eg), (dict_get_app_fresh _ _ _ _ Ho). exact Hdk.
Qed.

Lemma regen_bright (es : list entry) :
  Forall (fun e => valid_entry e = true) es ->
  existsb value_bright (map regen_value es) = existsb bright_entry es.
Proof.
  induction 1 as [|e es He Hes IH]; [reflexivity|].
  cbn [map existsb]. rewrite IH. f_equal.
  pose proof (regen_type e He) as Hty.
  destruct e as [v|[code|k n|k rgb]]; cbn [entry_type wire_type bright_entry] in *.
  - destruct (regen_value (EPlain v)); [reflexivity|discriminate].
  - destruct (in_I2KV_facts code He) as (Hr & _ & c & Hreg & Hb & _).
    unfold regen_value in *. rewrite Hreg in *. cbn [value_type value_bright] in *.
    injection Hty as ->. rewrite Hb, (py_int_dec code Hr). reflexivity.
  - destruct (regen_value (EColor (Wire8 k n))) as [b|c]; [reflexivity|].
    cbn [value_type value_bright] in *. injection Hty as ->. reflexivity.
  - destruct (regen_value (EColor (Wire24 k rgb))) as [b|c]; [reflexivity|].
    cbn [value_type value_bright] in *. injection Hty as ->. reflexivity.
Qed.

Lemma SgrSequence_init_fresh (a : sgr_arg) (es : list entry) :
  falsy a = false ->
  _iter_sgr a = mk_gen (map regen_value es) None ->
  es <> [] ->
  Forall (fun e => valid_entry e = true) es ->
  no_bold_reset es = true ->
  one_per_slot es = true ->
  distinct (map entry_bytes es) = true ->
  SgrSequence_init (InitIter a) None = Ok (sequence_of es).
Proof.
  intros Hf Hg Hne Hv Hnb Ho Hd.
  pose proof (one_per_slot_count es Ho) as Hc.
  unfold SgrSequence_init. rewrite Hf, Hg. cbn [yielded ended].
  rewrite (init_loop_fresh es Hv Hnb Hd Hc); try reflexivity.
  - cbn [bind]. rewrite fold_fresh_self.
    + cbn [st_self _sgr_params_ _rgb_dict_ _has_bright_colors_ empty_sgr app orb].
      rewrite (regen_bright es Hv).
      assert (Hxs : map regen_value es <> []) by (destruct es; [congruence|discriminate]).
      destruct (exists_last Hxs) as (l & last & El).
      destruct (regen_values_no_bold es Hv Hnb) as [_ Hrf].
      pose proof (regen_values_no_reset es Hv Hrf) as Hall.
      assert (H0 : String.eqb (value_bytes last) "0" = false).
      { apply (proj1 (Forall_forall _ _) Hall). rewrite El.
        apply in_or_app. right. left. reflexivity. }
      unfold sequence_of. rewrite El at 1. rewrite rev_app_distr.
      cbn [List.rev app]. rewrite H0. reflexivity.
    + intros k. rewrite (regen_count k es Hv). apply Hc.
    + intros k _. reflexivity.
  - intros k _. destruct k; reflexivity.
Qed.

(** X13: on a list without repetitions the constructor is the identity, and
    its result is read back from its own parameters and from its own bytes.
    For valid entries with distinct bytes, at most one colour per slot and
    neither the bold nor the reset code, [SgrSequence] of their integers is
    the sequence whose parameters are the values of the entries in order,
    whose [_rgb_dict_] lists their colours in order and whose bright flag
    tells whether a bright 4-bit colour is among them; it is well formed;
    and [SgrSequence(list(s))], [SgrSequence(bytes(s))] and
    [s + SgrSequence()] return that same sequence [s]. *)
Theorem SgrSequence_init_canonical (es : list entry) :
  forallb valid_entry es = true ->
  no_bold_reset es = true ->
  one_per_slot es = true ->
  distinct (map entry_bytes es) = true ->
  let s := sequence_of es in
  SgrSequence_init (InitIter (ArgList (map ItemInt (flat_map entry_ints es)))) None
  = Ok s
  /\ values s = map entry_bytes es
  /\ wf s = true
  /\ SgrSequence_init (InitIter (ArgList (map ItemParam (_sgr_params_ s)))) None = Ok s
  /\ SgrSequence_init (InitIter (ArgBytes (sgr_bytes s))) None = Ok s
  /\ SgrSequence_add s empty_sgr = Ok s.
Proof.
  intros Hv Hnb Ho Hd. cbv zeta. apply forallb_valid in Hv.
  destruct es as [|e0 es0] eqn:Ees.
  { repeat split. }
  rewrite <- Ees in *.
  assert (Hne : es <> []) by (rewrite Ees; discriminate).
  pose proof (flat_map_entry_ints_nil es Hv Hne) as Hn.
  assert (Hvals : values (sequence_of es) = map entry_bytes es)
    by exact (regen_values_bytes es Hv).
  assert (Hpne : _sgr_params_ (sequence_of es) <> []).
  { cbn [sequence_of _sgr_params_]. rewrite Ees. discriminate. }
  assert (H1 : SgrSequence_init
                 (InitIter (ArgList (map ItemInt (flat_map entry_ints es)))) None
               = Ok (sequence_of es)).
  { apply SgrSequence_init_fresh; auto using falsy_ints, iter_sgr_ints. }
  split; [exact H1|]. split; [exact Hvals|]. split; [|split; [|split]].
  - assert (Hxs : map regen_value es <> []) by (rewrite Ees; discriminate).
    destruct (SgrSequence_init_values _ _ (falsy_ints _ Hn) (iter_sgr_ints es Hv) Hxs
                (regen_values_good es Hv))
      as (st & l & last & _ & HI & El & Einit & _).
    rewrite H1 in Einit. injection Einit as Es. apply wf_WF. rewrite Es.
    destruct (String.eqb (value_bytes last) "0") eqn:E0.
    + apply (WF_reset_only (st_self st) last); [exact (proj1 HI)| |].
      * rewrite El. apply in_or_app. right. left. reflexivity.
      * apply String.eqb_eq. exact E0.
    + exact (proj1 HI).
  - apply SgrSequence_init_fresh; auto using falsy_params.
    exact (iter_sgr_params es _ Hv Hvals).
  - assert (Hb : sgr_bytes (sequence_of es)
                 = (String ESC "[" ++ join ";" (map entry_bytes es) ++ "m")%string).
    { unfold sgr_bytes. rewrite Hvals.
      destruct (_sgr_params_ (sequence_of es)); [congruence|reflexivity]. }
    rewrite Hb. apply SgrSequence_init_fresh; auto.
    exact (proj2 (iter_sgr_bytes es Hv Hne)).
  - unfold SgrSequence_add. cbn [empty_sgr _sgr_params_]. rewrite app_nil_r.
    apply SgrSequence_init_fresh; auto using falsy_params.
    exact (iter_sgr_params es _ Hv Hvals).
Qed.

Lemma SgrSequence_init_canonical_witness :
  SgrSequence_init (InitIter (ArgList (map ItemInt [4; 31; 44]))) None
  = Ok underlined_red_on_blue
  /\ values underlined_red_on_blue = ["4"; "31"; "44"]
  /\ wf underlined_red_on_blue = true
  /\ SgrSequence_init
       (InitIter (ArgList (map ItemParam (_sgr_params_ underlined_red_on_blue)))) None
     = Ok underlined_red_on_blue
  /\ SgrSequence_init (InitIter (ArgBytes (sgr_bytes underlined_red_on_blue))) None
     = Ok underlined_red_on_blue
  /\ SgrSequence_add underlined_red_on_blue empty_sgr = Ok underlined_red_on_blue.
Proof.
  exact (SgrSequence_init_canonical [EPlain 4; EColor (Wire4 31); EColor (Wire4 44)]
           eq_refl eq_refl eq_refl eq_refl).
Defined.

(** *** Building a sequence by appends *)

Lemma I2KV_keys_are_parameters (code : Z) :
  in_I2KV code = true -> mem code _SGR_PARAM_VALUES = true.
Proof.
  intros H. apply in_I2KV_keys in H. revert code H.
  apply forallb_forall. vm_compute. reflexivity.
Qed.

Lemma append_entry (e : entry) (v : Z) (s : SgrSequence) :
  valid_entry e = true ->
  appendable e = true ->
  entry_ints e = [v] ->
  Forall (fun p => String.eqb (value_bytes p) "1" = false) (_sgr_params_ s) ->
  (forall k, entry_key e = Some k -> dict_get key_eqb (_rgb_dict_ s) k = None) ->
  append v s
  = (Ok tt,
     mk_sgr (_sgr_params_ s ++ [regen_value e])
            (_rgb_dict_ s ++ colours_of [regen_value e])
            (append_flag [e] (_has_bright_colors_ s))).
Proof.
  intros Hv Ha Hi Hnb Hk.
  destruct e as [v0|[code|k n|k rgb]]; try discriminate Ha.
  - cbn [entry_ints] in Hi. injection Hi as <-.
    destruct (valid_plain_facts v0 Hv) as (_ & _ & Hd & _).
    cbn [appendable] in Ha. unfold append, append_value. rewrite Ha, Hd.
    cbn [negb colours_of flat_map append_flag fold_left]. rewrite app_nil_r.
    destruct s. reflexivity.
  - cbn [entry_ints] in Hi. injection Hi as <-.
    cbn [valid_entry valid_wire] in Hv.
    destruct (in_I2KV_facts code Hv) as (_ & _ & c & Hreg & _ & Hkey & _).
    unfold append, append_value. rewrite (I2KV_keys_are_parameters code Hv).
    cbn [negb]. unfold regen_value. rewrite Hreg.
    cbn [regen entry_key] in Hreg, Hkey, Hk.
    destruct (dict_get Z.eqb _ANSI16C_I2KV code) as [[k rgb]|] eqn:Ed;
      [|discriminate Hreg].
    cbn [option_map fst] in Hkey, Hk. injection Hkey as Hkey.
    destruct (from_rgb ansicolor4Bit k (RgbTuple rgb)) as [c0|] eqn:Ef;
      cbn [bind] in Hreg; [|discriminate Hreg].
    injection Hreg as ->.
    specialize (Hk k eq_refl).
    assert (Hfind : find (IdxBytes "1") s = (Ok (-1), s)).
    { unfold find, index.
      rewrite (index_from_missing (IdxBytes "1")
                 (fun q => String.eqb (value_bytes q) "1")
                 is_same_kind_bold _ 0 Hnb).
      reflexivity. }
    cbn [colours_of flat_map append_flag fold_left app].
    destruct (mem code _ANSI16C_BRIGHT) eqn:Hb.
    + unfold mbind, update, ret, lift, vacate. cbn [fst snd]. rewrite Ef.
      cbn [set_bright _rgb_dict_ _sgr_params_ _has_bright_colors_ set_rgb_dict
           set_params].
      rewrite Hkey, Hk. unfold ret.
      rewrite (dict_set_fresh _ _ _ Hk). rewrite <- Hkey.
      destruct (cb_rgb_dict c). reflexivity.
    + unfold mbind at 1 2 3. unfold mbind at 3. rewrite Hfind.
      change (negb (-1 =? -1)) with false. cbv iota.
      unfold mbind, update, ret, lift, vacate. cbn [fst snd]. rewrite Ef.
      cbn [set_bright _rgb_dict_ _sgr_params_ _has_bright_colors_ set_rgb_dict
           set_params].
      rewrite Hkey, Hk. unfold ret.
      rewrite (dict_set_fresh _ _ _ Hk). rewrite <- Hkey.
      destruct (cb_rgb_dict c). reflexivity.
Qed.

Lemma dict_get_app_none (d d' : list (ColorDictKeys * Int3Tuple)) (k : ColorDictKeys) :
  dict_get key_eqb d k = None -> dict_get key_eqb d' k = None ->
  dict_get key_eqb (d ++ d') k = None.
Proof.
  intros Hd Hd'. induction d as [|[k0 v0] d IH]; cbn [app dict_get] in *; [exact Hd'|].
  destruct (key_eqb k0 k); [discriminate|]. apply IH. exact Hd.
Qed.

Lemma appendable_single (e : entry) :
  appendable e = true -> exists v, entry_ints e = [v].
Proof.
  destruct e as [v|[code|k n|k rgb]]; try discriminate; intros _; eexists; reflexivity.
Qed.

Lemma append_all_entries (es : list entry) :
  Forall (fun e => valid_entry e = true) es ->
  forallb appendable es = true ->
  no_bold_reset es = true ->
  (forall k, (entry_count k es <= 1)%nat) ->
  forall s,
    Forall (fun p => String.eqb (value_bytes p) "1" = false) (_sgr_params_ s) ->
    (forall k, (1 <= entry_count k es)%nat ->
               dict_get key_eqb (_rgb_dict_ s) k = None) ->
    append_all (flat_map entry_ints es) s
    = (Ok tt,
       mk_sgr (_sgr_params_ s ++ map regen_value es)
              (_rgb_dict_ s ++ colours_of (map regen_value es))
              (append_flag es (_has_bright_colors_ s))).
Proof.
  induction 1 as [|e es He Hes IH]; intros Ha Hnb Hc s Hb Hd.
  - cbn [flat_map append_all map colours_of append_flag fold_left].
    rewrite !app_nil_r. destruct s. reflexivity.
  - cbn [forallb] in Ha. apply andb_true_iff in Ha. destruct Ha as [Hae Ha].
    cbn [no_bold_reset forallb] in Hnb. apply andb_true_iff in Hnb.
    destruct Hnb as [Hnbe Hnb]. apply andb_true_iff in Hnbe. destruct Hnbe as [H1 _].
    apply negb_true_iff in H1.
    destruct (appendable_single e Hae) as [v Hi].
    destruct (regen_spec e He) as (_ & Hbytes & Hkey & Hg).
    assert (Hcount : forall k, entry_count k (e :: es)
                               = ((if in_slot k e then 1 else 0) + entry_count k es)%nat).
    { intros k. unfold entry_count. cbn [filter]. destruct (in_slot k e); reflexivity. }
    cbn [flat_map]. rewrite Hi. cbn [app append_all]. unfold mbind at 1.
    rewrite (append_entry e v s He Hae Hi Hb).
    2:{ intros k Hk. apply Hd. rewrite Hcount. unfold in_slot. rewrite Hk.
        cbn [okey_eqb]. rewrite key_eqb_refl. lia. }
    rewrite IH; auto.
    + cbn [_sgr_params_ _rgb_dict_ _has_bright_colors_ map colours_of flat_map
           append_flag fold_left].
      rewrite <- !app_assoc. reflexivity.
    + intros k. specialize (Hc k). rewrite Hcount in Hc. lia.
    + cbn [_sgr_params_]. apply Forall_app. split; [exact Hb|].
      repeat constructor. rewrite Hbytes. exact H1.
    + intros k Hk. cbn [_rgb_dict_]. pose proof (Hc k) as Hck. rewrite Hcount in Hck.
      assert (Ho : in_slot k e = false) by (destruct (in_slot k e); [lia|reflexivity]).
      apply dict_get_app_none; [apply Hd; rewrite Hcount; lia|].
      rewrite <- (regen_occupies k e He) in Ho. unfold occupies in Ho.
      cbn [colours_of flat_map]. destruct (regen_value e) as [b|c]; [reflexivity|].
      cbn [key_of okey_eqb app dict_get] in *. destruct (cb_rgb_dict c) as [k0 v0].
      cbn [fst] in Ho. rewrite Ho. reflexivity.
Qed.

(** X14: a sequence built by appends.  For valid entries that [append]
    accepts (members of [SgrParameter] that are no colours, and 4-bit
    colours), with at most one colour per slot and neither the bold nor the
    reset code, the calls [append(v)] on the empty sequence all return and
    leave the values of the entries in order (repeated codes are kept), with
    their colours in [_rgb_dict_]; the bright flag is the intensity of the
    last 4-bit colour appended.  When the bytes are distinct the constructor
    builds the same parameters and [_rgb_dict_] from the list, with the flag
    set when any of the colours is bright. *)
Theorem append_all_canonical (es : list entry) :
  forallb valid_entry es = true ->
  forallb appendable es = true ->
  no_bold_reset es = true ->
  one_per_slot es = true ->
  append_all (flat_map entry_ints es) empty_sgr
  = (Ok tt,
     mk_sgr (map regen_value es) (colours_of (map regen_value es))
            (append_flag es false))
  /\ (distinct (map entry_bytes es) = true ->
      SgrSequence_init (InitIter (ArgList (map ItemInt (flat_map entry_ints es)))) None
      = Ok (mk_sgr (map regen_value es) (colours_of (map regen_value es))
                   (existsb bright_entry es))).
Proof.
  intros Hv Ha Hnb Ho. apply forallb_valid in Hv. split.
  - rewrite (append_all_entries es Hv Ha Hnb (one_per_slot_count es Ho) empty_sgr).
    + reflexivity.
    + constructor.
    + intros k _. reflexivity.
  - intros Hd. destruct es as [|e0 es0] eqn:Ees; [reflexivity|].
    rewrite <- Ees in *.
    assert (Hne : es <> []) by (rewrite Ees; discriminate).
    apply (SgrSequence_init_fresh _ es); auto.
    + apply falsy_ints. exact (flat_map_entry_ints_nil es Hv Hne).
    + exact (iter_sgr_ints es Hv).
Qed.

Lemma append_all_canonical_witness :
  append_all [91; 4; 44] empty_sgr
  = (Ok tt,
     mk_sgr (map regen_value [EColor (Wire4 91); EPlain 4; EColor (Wire4 44)])
            (colours_of (map regen_value [EColor (Wire4 91); EPlain 4; EColor (Wire4 44)]))
            false)
  /\ (distinct ["91"; "4"; "44"] = true ->
      SgrSequence_init (InitIter (ArgList (map ItemInt [91; 4; 44]))) None
      = Ok (mk_sgr
              (map regen_value [EColor (Wire4 91); EPlain 4; EColor (Wire4 44)])
              (colours_of
                 (map regen_value [EColor (Wire4 91); EPlain 4; EColor (Wire4 44)]))
              true)).
Proof.
  exact (append_all_canonical [EColor (Wire4 91); EPlain 4; EColor (Wire4 44)]
           eq_refl eq_refl eq_refl eq_refl).
Defined.

(** *** Appending a colour *)

Lemma slot_position (k : ColorDictKeys) (s : SgrSequence) :
  WF s ->
  (1 <= dict_count k (_rgb_dict_ s))%nat ->
  exists l1 v l2,
    _sgr_params_ s = l1 ++ Colored v :: l2
    /\ fst (cb_rgb_dict v) = k
    /\ index (index_arg_of_color (get_color k s)) s
       = (Ok (Z.of_nat (List.length l1)), s).
Proof.
  intros Hw Hd. pose proof Hw as [Hco Hcnt].
  destruct (Hcnt k) as [Hle Heq]. rewrite Heq in Hd.
  destruct (count_key_find k _ Hd) as (p & Hf & Hin & Ho).
  rewrite get_color_find, Hf. cbn [index_arg_of_color].
  assert (Hex : existsb (fun q => param_eqb q p) (_sgr_params_ s) = true).
  { apply existsb_exists. exists p. split; [exact Hin|].
    unfold param_eqb. apply String.eqb_refl. }
  destruct (index_from_exists (IdxParam p) (fun q => param_eqb q p)
              (fun q => is_same_kind_param q p) _ 0 Hex)
    as (l1 & q & l2 & El & Hq & _ & Ei).
  assert (Hkq : key_of q = Some k).
  { assert (Hinq : In q (_sgr_params_ s))
      by (rewrite El; apply in_or_app; right; left; reflexivity).
    rewrite (coherent_key q (WF_coherent_in s q Hw Hinq)).
    unfold param_eqb in Hq. apply String.eqb_eq in Hq. rewrite Hq.
    rewrite <- (coherent_key p (WF_coherent_in s p Hw Hin)).
    apply occupies_key_of. exact Ho. }
  destruct (key_of_some q k Hkq) as (v & -> & Hv).
  exists l1, v, l2. split; [exact El|]. split; [exact Hv|].
  unfold index. rewrite Ei. reflexivity.
Qed.

(** [pop] of a colour while [_has_bright_colors_] is set, on a sequence
    without the bold code. *)
Lemma pop_at_bright (s : SgrSequence) (l1 l2 : list SgrParamWrapper) (v : colorbytes) :
  WF s ->
  _has_bright_colors_ s = true ->
  _sgr_params_ s = l1 ++ Colored v :: l2 ->
  Forall (fun p => String.eqb (value_bytes p) "1" = false) (l1 ++ l2) ->
  exists d,
    dict_del key_eqb (_rgb_dict_ s) (fst (cb_rgb_dict v)) = Some d
    /\ WF (mk_sgr (l1 ++ l2) d false)
    /\ count_key (fst (cb_rgb_dict v)) (l1 ++ l2) = 0%nat
    /\ pop (Z.of_nat (List.length l1)) s
       = match py_int (cb_bytes v) with
         | Raise e => (Raise e, mk_sgr (l1 ++ l2) d true)
         | Ok vx =>
             if in_I2KV vx then
               if mem vx _ANSI16C_STD
               then (Raise ValueError, mk_sgr (l1 ++ l2) d false)
               else (Ok (Colored v), mk_sgr (l1 ++ l2) d false)
             else (Ok (Colored v), mk_sgr (l1 ++ l2) d true)
         end.
Proof.
  intros Hw Hb El Hnb.
  destruct (WF_remove_color s l1 l2 v El Hw) as (d & Hd & Hw2 & Hz & _).
  destruct s as [ps d0 hb].
  cbn [_sgr_params_ _rgb_dict_ _has_bright_colors_ set_rgb_dict set_params] in *.
  subst hb ps.
  exists d. split; [exact Hd|]. split.
  { destruct Hw2 as [H1 H2]. split; [exact H1|exact H2]. }
  split; [exact Hz|].
  unfold pop, pop_body at 1. cbn [_sgr_params_]. rewrite list_pop_app.
  cbn [set_params _rgb_dict_ _sgr_params_ _has_bright_colors_]. rewrite Hd.
  cbn [set_rgb_dict set_params _has_bright_colors_ _sgr_params_ _rgb_dict_].
  destruct (py_int (cb_bytes v)) as [vx|e]; [|reflexivity].
  destruct (in_I2KV vx); [|reflexivity].
  destruct (mem vx _ANSI16C_STD); [|reflexivity].
  unfold mbind, index, set_bright, set_rgb_dict, set_params.
  cbn [_sgr_params_ _rgb_dict_ _has_bright_colors_].
  rewrite (index_from_missing (IdxBytes "1")
             (fun q => String.eqb (value_bytes q) "1") is_same_kind_bold _ 0 Hnb).
  reflexivity.
Qed.

Lemma Forall_mid_drop {A} (P : A -> Prop) (l1 l2 : list A) (x : A) :
  Forall P (l1 ++ x :: l2) -> Forall P (l1 ++ l2).
Proof.
  intros H. apply Forall_app in H. destruct H as [H1 H2].
  inversion H2; subst. apply Forall_app. split; assumption.
Qed.

Lemma append_value_no_bold (c : Z) (s : SgrSequence) (k : ColorDictKeys)
  (rgb : Int3Tuple) :
  Forall (fun p => String.eqb (value_bytes p) "1" = false) (_sgr_params_ s) ->
  dict_get Z.eqb _ANSI16C_I2KV c = Some (k, rgb) ->
  exists x,
    from_rgb ansicolor4Bit k (RgbTuple rgb) = Ok x
    /\ cb_bytes x = bytes_of_int c
    /\ cb_rgb_dict x = (k, rgb)
    /\ coherent (Colored x) = true
    /\ append_value c s = (Ok (Colored x), set_bright (mem c _ANSI16C_BRIGHT) s).
Proof.
  intros Hnb Hd.
  assert (Hin : in_I2KV c = true) by (unfold in_I2KV; rewrite Hd; reflexivity).
  destruct (in_I2KV_facts c Hin) as (_ & _ & x & Hreg & Hb & _ & Hg).
  cbn [regen] in Hreg. rewrite Hd in Hreg.
  destruct (from_rgb ansicolor4Bit k (RgbTuple rgb)) as [x0|] eqn:Ef;
    cbn [bind] in Hreg; [|discriminate Hreg].
  injection Hreg as ->.
  exists x. split; [reflexivity|]. split; [exact Hb|]. split.
  { unfold from_rgb in Ef. destruct (rgb2ansi_color_esc _ _ _); cbn [bind] in Ef;
      [|discriminate]. injection Ef as <-. reflexivity. }
  split; [exact (good_value_coherent _ Hg)|].
  unfold append_value. rewrite Hd.
  assert (Hfind : find (IdxBytes "1") s = (Ok (-1), s)).
  { unfold find, index.
    rewrite (index_from_missing (IdxBytes "1")
               (fun q => String.eqb (value_bytes q) "1")
               is_same_kind_bold _ 0 Hnb).
    reflexivity. }
  destruct (mem c _ANSI16C_BRIGHT).
  - unfold mbind, update, ret, lift. cbn [fst snd]. rewrite Ef. reflexivity.
  - unfold mbind at 1 2. unfold mbind at 2. rewrite Hfind.
    change (negb (-1 =? -1)) with false. cbv iota.
    unfold mbind, update, ret, lift. cbn [fst snd]. rewrite Ef. reflexivity.
Qed.

(** X15: [append] of a 4-bit colour code on a well-formed sequence without
    the bold code.  Into a free slot the colour is appended and the bright
    flag becomes the intensity of the colour.  Into an occupied slot, a
    standard colour replaces the colour of the slot and clears the flag.  A
    bright colour sets the flag before the old colour is popped, so [pop]
    reads the old colour as an integer: an extended colour makes [int]
    raise [ValueError]; a standard 4-bit colour makes [pop] look for the
    bold code and raise [ValueError]; in both cases the old colour is gone
    and the new one is not appended; a bright 4-bit colour is replaced, and
    the flag is left cleared although the new colour is bright. *)
Theorem append_colour_spec (c : Z) (s : SgrSequence) (k : ColorDictKeys)
  (rgb : Int3Tuple) :
  WF s ->
  Forall (fun p => String.eqb (value_bytes p) "1" = false) (_sgr_params_ s) ->
  dict_get Z.eqb _ANSI16C_I2KV c = Some (k, rgb) ->
  exists x,
    from_rgb ansicolor4Bit k (RgbTuple rgb) = Ok x
    /\ cb_bytes x = bytes_of_int c
    /\ match dict_get key_eqb (_rgb_dict_ s) k with
       | None =>
           append c s
           = (Ok tt, mk_sgr (_sgr_params_ s ++ [Colored x])
                            (_rgb_dict_ s ++ [(k, rgb)])
                            (mem c _ANSI16C_BRIGHT))
       | Some _ =>
           exists l1 v l2 d,
             _sgr_params_ s = l1 ++ Colored v :: l2
             /\ fst (cb_rgb_dict v) = k
             /\ dict_del key_eqb (_rgb_dict_ s) k = Some d
             /\ append c s
                = let replaced b :=
                    (Ok tt, mk_sgr ((l1 ++ l2) ++ [Colored x]) (d ++ [(k, rgb)]) b) in
                  if mem c _ANSI16C_BRIGHT then
                    match py_int (cb_bytes v) with
                    | Raise e => (Raise e, mk_sgr (l1 ++ l2) d true)
                    | Ok vx =>
                        if in_I2KV vx then
                          if mem vx _ANSI16C_STD
                          then (Raise ValueError, mk_sgr (l1 ++ l2) d false)
                          else replaced false
                        else replaced true
                    end
                  else replaced false
       end.
Proof.
  intros Hw Hnb Hd.
  destruct (append_value_no_bold c s k rgb Hnb Hd) as (x & Ef & Hb & Hkv & Hco & Hav).
  exists x. split; [exact Ef|]. split; [exact Hb|].
  assert (Hin : in_I2KV c = true) by (unfold in_I2KV; rewrite Hd; reflexivity).
  assert (Happ : append c s
                 = ((vacate k ;;;
                     update (fun s0 => set_rgb_dict
                                         (dict_set key_eqb (_rgb_dict_ s0) k rgb) s0)) ;;;
                    update (fun s0 => set_params (_sgr_params_ s0 ++ [Colored x]) s0))
                     (set_bright (mem c _ANSI16C_BRIGHT) s)).
  { unfold append. rewrite (I2KV_keys_are_parameters c Hin). cbn [negb].
    unfold mbind at 1. rewrite Hav. rewrite Hkv. reflexivity. }
  rewrite Happ. clear Happ Hav.
  set (b := mem c _ANSI16C_BRIGHT).
  pose proof (WF_set_bright b s Hw) as Hwb.
  destruct (dict_get key_eqb (_rgb_dict_ s) k) as [v0|] eqn:Eg.
  - assert (Hcount : (1 <= dict_count k (_rgb_dict_ (set_bright b s)))%nat).
    { cbn [set_bright _rgb_dict_].
      destruct (dict_count k (_rgb_dict_ s)) eqn:E0; [|lia].
      apply dict_get_count in E0. congruence. }
    destruct (slot_position k (set_bright b s) Hwb Hcount)
      as (l1 & v & l2 & El & Hv & Hidx).
    cbn [set_bright _sgr_params_] in El.
    exists l1, v, l2.
    assert (Hrest : Forall (fun p => String.eqb (value_bytes p) "1" = false) (l1 ++ l2)).
    { rewrite El in Hnb. exact (Forall_mid_drop _ _ _ _ Hnb). }
    assert (Hvac : vacate k (set_bright b s)
                   = (_ <~ pop (Z.of_nat (List.length l1)) ;; ret tt) (set_bright b s)).
    { unfold vacate. cbn [set_bright _rgb_dict_]. rewrite Eg.
      unfold mbind at 1. 
      change (mk_sgr (_sgr_params_ s) (_rgb_dict_ s) b) with (set_bright b s).
      rewrite Hidx. reflexivity. }
    assert (Hfresh : forall d, 
               WF (mk_sgr (l1 ++ l2) d false) -> count_key k (l1 ++ l2) = 0%nat ->
               dict_set key_eqb d k rgb = d ++ [(k, rgb)]).
    { intros d [_ Hc] Hz. apply dict_set_fresh. apply dict_get_count.
      destruct (Hc k) as [_ He]. cbn [_rgb_dict_ _sgr_params_] in He. lia. }
    destruct b eqn:Eb.
    + destruct (pop_at_bright (set_bright true s) l1 l2 v Hwb eq_refl El Hrest)
        as (d & Hdel & Hw' & Hz & Hpop).
      cbn [set_bright _rgb_dict_] in Hdel. rewrite Hv in Hdel, Hz.
      exists d. split; [exact El|]. split; [exact Hv|]. split; [exact Hdel|].
      cbv zeta. unfold mbind at 1 2. rewrite Hvac. unfold mbind at 1.
      unfold SgrParamWrapper in *. rewrite Hpop.
      destruct (py_int (cb_bytes v)) as [vx|e]; [|reflexivity].
      destruct (in_I2KV vx).
      * destruct (mem vx _ANSI16C_STD); [reflexivity|].
        unfold ret, update, set_rgb_dict, set_params.
        cbn [_rgb_dict_ _sgr_params_ _has_bright_colors_].
        rewrite (Hfresh d Hw' Hz). reflexivity.
      * unfold ret, update, set_rgb_dict, set_params.
        cbn [_rgb_dict_ _sgr_params_ _has_bright_colors_].
        rewrite (Hfresh d Hw' Hz). reflexivity.
    + destruct (pop_at (set_bright false s) l1 l2 (Colored v) Hwb eq_refl El)
        as (d & Hpop & Hw' & Hdel).
      cbn [key_of set_bright _rgb_dict_] in Hdel. rewrite Hv in Hdel.
      exists d. split; [exact El|]. split; [exact Hv|]. split; [exact Hdel|].
      cbv zeta. unfold mbind at 1 2. rewrite Hvac. unfold mbind at 1.
      unfold SgrParamWrapper in *. rewrite Hpop.
      unfold ret, update, set_rgb_dict, set_params.
      cbn [_rgb_dict_ _sgr_params_ _has_bright_colors_].
      rewrite (Hfresh d Hw').
      * reflexivity.
      * destruct (WF_remove_color (set_bright false s) l1 l2 v El Hwb)
          as (d' & _ & _ & Hz & _). rewrite Hv in Hz. exact Hz.
  - unfold mbind, vacate, update, ret. cbn [set_bright _rgb_dict_]. rewrite Eg.
    unfold set_rgb_dict, set_params.
    cbn [_rgb_dict_ _sgr_params_ _has_bright_colors_].
    rewrite (dict_set_fresh _ _ _ Eg). reflexivity.
Qed.

Lemma append_colour_spec_witness :
  exists x,
    from_rgb ansicolor4Bit fg (RgbTuple (255, 85, 85)) = Ok x
    /\ cb_bytes x = bytes_of_int 91
    /\ exists l1 v l2 d,
         _sgr_params_ standard_red = l1 ++ Colored v :: l2
         /\ fst (cb_rgb_dict v) = fg
         /\ dict_del key_eqb (_rgb_dict_ standard_red) fg = Some d
         /\ append 91 standard_red
            = match py_int (cb_bytes v) with
              | Raise e => (Raise e, mk_sgr (l1 ++ l2) d true)
              | Ok vx =>
                  if in_I2KV vx then
                    if mem vx _ANSI16C_STD
                    then (Raise ValueError, mk_sgr (l1 ++ l2) d false)
                    else (Ok tt, mk_sgr ((l1 ++ l2) ++ [Colored x])
                                        (d ++ [(fg, (255, 85, 85))]) false)
                  else (Ok tt, mk_sgr ((l1 ++ l2) ++ [Colored x])
                                      (d ++ [(fg, (255, 85, 85))]) true)
              end.
Proof.
  apply (append_colour_spec 91 standard_red fg (255, 85, 85)).
  - apply wf_WF. reflexivity.
  - repeat constructor.
  - reflexivity.
Defined.

Lemma fold_left_choice {A} (f : A -> A -> A) (L l : list A) (a : A) :
  (forall x y, f x y = x \/ f x y = y) ->
  In a L -> incl l L -> In (fold_left f l a) L.
Proof.
  intros Hf. revert a. induction l as [|x l IH]; intros a Ha Hl; [exact Ha|].
  cbn [fold_left]. apply IH.
  - destruct (Hf a x) as [-> | ->]; [exact Ha | apply Hl; left; reflexivity].
  - intros y Hy. apply Hl. right. exact Hy.
Qed.

Lemma nearest_In (rgb : Int3Tuple) (l : list (Z * Int3Tuple)) :
  l <> [] -> In (nearest rgb l) l.
Proof.
  intros Hl. destruct l as [|x l]; [congruence|].
  unfold nearest. cbn [tl hd].
  apply fold_left_choice.
  - intros a b. destruct (sq_dist rgb (snd b) <? sq_dist rgb (snd a)); auto.
  - left. reflexivity.
  - intros y Hy. right. exact Hy.
Qed.

Lemma rgb_to_ansi_8bit_byte (rgb : Int3Tuple) :
  is_byte (rgb_to_ansi_8bit rgb) = true.
Proof.
  assert (Hall : forallb (fun x => is_byte (fst x))
                   (base_entries ++ cube_entries ++ grey_entries) = true)
    by (vm_compute; reflexivity).
  rewrite forallb_forall in Hall. apply (Hall (nearest rgb _)).
  pose proof (nearest_In rgb [nearest rgb base_entries; nearest rgb cube_entries;
                              nearest rgb grey_entries]) as H.
  unfold rgb_to_ansi_8bit. cbv zeta.
  destruct H as [H | [H | [H | []]]]; [discriminate| | |]; rewrite <- H;
    rewrite !in_app_iff.
  - left. apply nearest_In. discriminate.
  - right. left. apply nearest_In. discriminate.
  - right. right. apply nearest_In. discriminate.
Qed.

Lemma hex2rgb_bytes (n : Z) :
  valid_wire (Wire24 fg (hex2rgb n)) = true.
Proof.
  assert (Hb : forall x, is_byte (Z.land x 255) = true).
  { intros x. change 255 with (Z.ones 8). rewrite Z.land_ones by lia.
    pose proof (Z.mod_pos_bound x (2 ^ 8) ltac:(lia)) as H.
    unfold is_byte. apply andb_true_iff. split; [apply Z.leb_le | apply Z.ltb_lt]; lia. }
  unfold hex2rgb. cbn [valid_wire]. rewrite !Hb. reflexivity.
Qed.

Lemma coherent_of_entry (e : entry) (c : colorbytes) :
  valid_entry e = true ->
  cb_bytes c = entry_bytes e ->
  entry_key e = Some (fst (cb_rgb_dict c)) ->
  coherent (Colored c) = true.
Proof.
  intros Hv Hb Hk.
  destruct (regen_spec e Hv) as (_ & Hbytes & Hkey & Hg).
  apply good_value_coherent in Hg. unfold coherent in *.
  rewrite Hbytes, Hkey in Hg. cbn [value_bytes key_of].
  rewrite Hb, <- Hk. exact Hg.
Qed.

Lemma from_rgb_color (t : AnsiColorType) (k : ColorDictKeys) (n : Z) :
  exists c,
    from_rgb t k (HexInt n) = Ok c
    /\ cb_rgb_dict c = (k, hex2rgb n)
    /\ cb_type c = t
    /\ coherent (Colored c) = true.
Proof.
  unfold from_rgb. destruct t; cbn [rgb2ansi_color_esc].
  - assert (Hall : check_kv2i = true) by (vm_compute; reflexivity).
    unfold check_kv2i in Hall. rewrite forallb_forall in Hall.
    assert (Hne : base_entries <> []) by discriminate.
    specialize (Hall (nearest (hex2rgb n) base_entries)
                     (nearest_In (hex2rgb n) base_entries Hne)).
    rewrite forallb_forall in Hall.
    assert (Hk : In k [fg; bg]) by (destruct k; simpl; auto).
    specialize (Hall k Hk). unfold nearest_ansi_4bit_rgb.
    destruct (dict_get kv_eqb _ANSI16C_KV2I _) as [code|]; [|discriminate].
    apply andb_true_iff in Hall. destruct Hall as [Hin Hkey].
    cbn [bind]. eexists. split; [reflexivity|]. split; [reflexivity|].
    split; [reflexivity|].
    apply (coherent_of_entry (EColor (Wire4 code))); [exact Hin|reflexivity|].
    cbn [cb_rgb_dict fst].
    destruct (entry_key (EColor (Wire4 code))) as [k'|]; [|discriminate].
    cbn [okey_eqb] in Hkey. apply key_eqb_eq in Hkey. congruence.
  - cbn [bind]. eexists. split; [reflexivity|]. split; [reflexivity|].
    split; [reflexivity|].
    apply (coherent_of_entry (EColor (Wire8 k (rgb_to_ansi_8bit (hex2rgb n)))));
      [exact (rgb_to_ansi_8bit_byte _)|reflexivity|reflexivity].
  - pose proof (hex2rgb_bytes n) as Hb.
    destruct (hex2rgb n) as [[r g] b] eqn:E.
    cbn [bind]. eexists. split; [reflexivity|]. split; [reflexivity|].
    split; [reflexivity|].
    apply (coherent_of_entry (EColor (Wire24 k (r, g, b))));
      [exact Hb|reflexivity|reflexivity].
Qed.

Lemma filter_unoccupied (k : ColorDictKeys) (l : list SgrParamWrapper) :
  count_key k l = 0%nat -> filter (fun p => negb (occupies k p)) l = l.
Proof.
  induction l as [|p l IH]; [reflexivity|].
  rewrite count_key_cons. cbn [filter].
  destruct (occupies k p); cbn [negb]; intros H; [lia|].
  rewrite IH by lia. reflexivity.
Qed.

Lemma filter_occupant (k : ColorDictKeys) (l1 l2 : list SgrParamWrapper)
  (q : SgrParamWrapper) :
  key_of q = Some k -> (count_key k (l1 ++ q :: l2) <= 1)%nat ->
  filter (fun p => negb (occupies k p)) (l1 ++ q :: l2) = l1 ++ l2
  /\ count_key k (l1 ++ l2) = 0%nat.
Proof.
  intros Hq Hc. rewrite count_key_app, count_key_cons in Hc.
  assert (Ho : occupies k q = true) by (apply occupies_key_of; exact Hq).
  rewrite Ho in Hc.
  rewrite filter_app. cbn [filter]. rewrite Ho. cbn [negb].
  rewrite !filter_unoccupied by lia. split; [reflexivity|].
  rewrite count_key_app. lia.
Qed.

Lemma dict_get_del (d d' : list (ColorDictKeys * Int3Tuple)) (k k' : ColorDictKeys) :
  dict_del key_eqb d k = Some d' -> key_eqb k k' = false ->
  dict_get key_eqb d' k' = dict_get key_eqb d k'.
Proof.
  revert d'. induction d as [|[a v] d IH]; intros d' Hd Hk; [discriminate|].
  cbn [dict_del] in Hd. cbn [dict_get].
  destruct (key_eqb a k) eqn:Ea.
  - injection Hd as <-. apply key_eqb_eq in Ea. subst a. rewrite Hk. reflexivity.
  - destruct (dict_del key_eqb d k) as [r|]; [|discriminate].
    injection Hd as <-. cbn [dict_get]. rewrite (IH r eq_refl Hk). reflexivity.
Qed.

Lemma dict_get_set (d : list (ColorDictKeys * Int3Tuple)) (k k' : ColorDictKeys)
  (v : Int3Tuple) :
  dict_get key_eqb (dict_set key_eqb d k v) k'
  = if key_eqb k k' then Some v else dict_get key_eqb d k'.
Proof.
  induction d as [|[a w] d IH]; cbn [dict_set dict_get].
  - destruct (key_eqb k k'); reflexivity.
  - destruct (key_eqb a k) eqn:Ea; cbn [dict_get].
    + apply key_eqb_eq in Ea. subst a. destruct (key_eqb k k'); reflexivity.
    + rewrite IH. destruct (key_eqb a k') eqn:Ea'; [|reflexivity].
      apply key_eqb_eq in Ea'. subst a.
      destruct (key_eqb k k') eqn:E; [|reflexivity].
      apply key_eqb_eq in E. subst k'. rewrite key_eqb_refl in Ea. discriminate.
Qed.

Lemma vacate_plain (k : ColorDictKeys) (s : SgrSequence) :
  WF s -> _has_bright_colors_ s = false ->
  exists d,
    vacate k s
    = (Ok tt, mk_sgr (filter (fun p => negb (occupies k p)) (_sgr_params_ s)) d false)
    /\ WF (mk_sgr (filter (fun p => negb (occupies k p)) (_sgr_params_ s)) d false)
    /\ count_key k (filter (fun p => negb (occupies k p)) (_sgr_params_ s)) = 0%nat
    /\ forall k', dict_get key_eqb d k'
                  = if key_eqb k k' then None else dict_get key_eqb (_rgb_dict_ s) k'.
Proof.
  intros Hw Hb. unfold vacate.
  destruct (dict_get key_eqb (_rgb_dict_ s) k) as [v|] eqn:Eg.
  - assert (Hc : (1 <= dict_count k (_rgb_dict_ s))%nat).
    { destruct (dict_count k (_rgb_dict_ s)) eqn:E0; [|lia].
      apply dict_get_count in E0. congruence. }
    destruct (pop_color_of k s Hw Hb Hc) as (l1 & q & l2 & d & El & Hq & Hdel & Hw' & Hpop).
    assert (Hone : (count_key k (l1 ++ q :: l2) <= 1)%nat).
    { rewrite <- El. destruct Hw as [_ Hn]. exact (proj1 (Hn k)). }
    destruct (filter_occupant k l1 l2 q Hq Hone) as [Hf Hz].
    exists d. rewrite El, Hf. split; [|split; [exact Hw'|split; [exact Hz|]]].
    + unfold mbind in *. 
      destruct (index (index_arg_of_color (get_color k s)) s) as [[i|e] s1];
        [|discriminate Hpop].
      rewrite Hpop. reflexivity.
    + intros k'. destruct (key_eqb k k') eqn:Ek.
      * apply key_eqb_eq in Ek. subst k'. apply dict_get_count.
        destruct Hw' as [_ Hn]. destruct (Hn k) as [_ He].
        cbn [_rgb_dict_ _sgr_params_] in He. lia.
      * exact (dict_get_del _ _ _ _ Hdel Ek).
  - assert (Hz : count_key k (_sgr_params_ s) = 0%nat).
    { destruct Hw as [_ Hn]. destruct (Hn k) as [_ He].
      apply dict_get_count in Eg. lia. }
    exists (_rgb_dict_ s). rewrite (filter_unoccupied k _ Hz).
    destruct s as [ps d b]. cbn [_sgr_params_ _rgb_dict_ _has_bright_colors_] in *.
    subst b. split; [reflexivity|]. split; [exact Hw|]. split; [exact Hz|].
    intros k'. destruct (key_eqb k k') eqn:Ek; [|reflexivity].
    apply key_eqb_eq in Ek. subst k'. exact Eg.
Qed.

Lemma occupies_colored (k k' : ColorDictKeys) (c : colorbytes) :
  fst (cb_rgb_dict c) = k -> occupies k' (Colored c) = key_eqb k k'.
Proof. intros <-. reflexivity. Qed.

Lemma find_assign (k k' : ColorDictKeys) (l : list SgrParamWrapper) (c : colorbytes) :
  fst (cb_rgb_dict c) = k ->
  List.find (occupies k') (filter (fun p => negb (occupies k p)) l ++ [Colored c])
  = if key_eqb k k' then Some (Colored c) else List.find (occupies k') l.
Proof.
  intros Hc. induction l as [|p l IH].
  - cbn [filter app List.find]. rewrite (occupies_colored k k' c Hc).
    destruct (key_eqb k k'); reflexivity.
  - cbn [filter List.find]. destruct (occupies k p) eqn:Ek; cbn [negb].
    + rewrite IH. destruct (key_eqb k k') eqn:E; [reflexivity|].
      destruct (occupies k' p) eqn:Ek'; [|reflexivity].
      apply occupies_key_of in Ek, Ek'. rewrite Ek in Ek'. injection Ek' as <-.
      rewrite key_eqb_refl in E. discriminate.
    + cbn [app List.find]. destruct (occupies k' p) eqn:Ek'; [|exact IH].
      destruct (key_eqb k k') eqn:E; [|reflexivity].
      apply key_eqb_eq in E. subst k'. congruence.
Qed.

Lemma filter_plain_assign (k : ColorDictKeys) (l : list SgrParamWrapper)
  (c : colorbytes) :
  filter (fun p => negb (is_color p))
         (filter (fun p => negb (occupies k p)) l ++ [Colored c])
  = filter (fun p => negb (is_color p)) l.
Proof.
  induction l as [|p l IH].
  - reflexivity.
  - cbn [filter]. destruct (occupies k p) eqn:Ek; cbn [negb].
    + apply occupies_key_of in Ek. destruct p as [b|c0]; [discriminate Ek|].
      cbn [is_color negb]. exact IH.
    + cbn [app filter]. destruct (negb (is_color p)); [rewrite IH|]; [reflexivity|exact IH].
Qed.

Lemma setter_item (t : AnsiColorType) (k : ColorDictKeys) (n : Z)
  (rest : list (ColorDictKeys * option rgb_arg)) (s : SgrSequence) :
  WF s -> _has_bright_colors_ s = false ->
  exists c s1,
    from_rgb t k (HexInt n) = Ok c
    /\ rgb_dict_setter t ((k, Some (HexInt n)) :: rest) s = rgb_dict_setter t rest s1
    /\ WF s1 /\ _has_bright_colors_ s1 = false
    /\ _sgr_params_ s1
       = filter (fun p => negb (occupies k p)) (_sgr_params_ s) ++ [Colored c]
    /\ forall k', dict_get key_eqb (_rgb_dict_ s1) k'
                  = if key_eqb k k' then Some (hex2rgb n)
                    else dict_get key_eqb (_rgb_dict_ s) k'.
Proof.
  intros Hw Hb.
  destruct (from_rgb_color t k n) as (c & Ef & Hkv & _ & Hco).
  destruct (vacate_plain k s Hw Hb) as (d & Hvac & Hw1 & Hz & Hd).
  set (ps := filter (fun p => negb (occupies k p)) (_sgr_params_ s)) in *.
  exists c, (mk_sgr (ps ++ [Colored c]) (dict_set key_eqb d k (hex2rgb n)) false).
  split; [exact Ef|]. split.
  { cbn [rgb_dict_setter]. unfold mbind at 1. rewrite Hvac.
    unfold mbind at 1. unfold lift. rewrite Ef.
    unfold mbind at 1. unfold update.
    cbn [_sgr_params_ _rgb_dict_ _has_bright_colors_]. rewrite Hkv. reflexivity. }
  split.
  { pose proof (WF_append_color (mk_sgr ps d false) c Hw1 Hco) as H.
    rewrite Hkv in H. cbn [fst snd] in H.
    unfold set_params, set_rgb_dict in H.
    cbn [_sgr_params_ _rgb_dict_ _has_bright_colors_] in H. exact (H Hz). }
  split; [reflexivity|]. split; [reflexivity|].
  intros k'. cbn [_rgb_dict_]. rewrite dict_get_set, Hd.
  destruct (key_eqb k k'); reflexivity.
Qed.

(** X16: the setter of [rgb_dict] on a well-formed sequence whose bright
    flag is not set, given [Color] values (or [None]) for some keys and any
    colour class: it returns, the sequence stays well formed with the flag
    still unset, and the parameters that are no colours are the same, in the
    same order.  A key with a colour among the items now holds the colour
    [ansi_type.from_rgb] makes of the last such colour, and [_rgb_dict_]
    the channels of that colour; a key with no item, or with [None] only,
    keeps the colour it had, or stays empty: [None] does not clear a
    slot. *)
Theorem rgb_dict_setter_spec (ansi_type : AnsiColorType)
  (color_dict : list (ColorDictKeys * option Z)) (s : SgrSequence) :
  WF s -> _has_bright_colors_ s = false ->
  exists s',
    rgb_dict_setter ansi_type (color_items color_dict) s = (Ok tt, s')
    /\ WF s'
    /\ _has_bright_colors_ s' = false
    /\ filter (fun p => negb (is_color p)) (_sgr_params_ s')
       = filter (fun p => negb (is_color p)) (_sgr_params_ s)
    /\ forall k,
         match assigned k color_dict with
         | Some n =>
             exists c,
               from_rgb ansi_type k (HexInt n) = Ok c
               /\ get_color k s' = Some (Colored c)
               /\ dict_get key_eqb (_rgb_dict_ s') k = Some (hex2rgb n)
         | None =>
             get_color k s' = get_color k s
             /\ dict_get key_eqb (_rgb_dict_ s') k
                = dict_get key_eqb (_rgb_dict_ s) k
         end.
Proof.
  revert s. induction color_dict as [|[k0 [n0|]] rest IH]; intros s Hw Hb.
  - exists s. split; [reflexivity|]. split; [exact Hw|]. split; [exact Hb|].
    split; [reflexivity|]. intros k. cbn [assigned]. split; reflexivity.
  - destruct (setter_item ansi_type k0 n0 (color_items rest) s Hw Hb)
      as (c & s1 & Ef & Hrun & Hw1 & Hb1 & Hps & Hd).
    destruct (IH s1 Hw1 Hb1) as (s' & Hrest & Hw' & Hb' & Hplain & Hk).
    exists s'. split.
    { cbn [color_items map fst snd option_map]. fold (color_items rest).
      rewrite Hrun. exact Hrest. }
    split; [exact Hw'|]. split; [exact Hb'|]. split.
    { rewrite Hplain, Hps. apply filter_plain_assign. }
    intros k. specialize (Hk k). cbn [assigned].
    destruct (assigned k rest) as [n|]; [exact Hk|].
    destruct Hk as [Hg Hdg]. rewrite Hg, Hdg, Hd.
    assert (Hc : fst (cb_rgb_dict c) = k0).
    { unfold from_rgb in Ef. destruct (rgb2ansi_color_esc _ _ _); cbn [bind] in Ef;
        [|discriminate]. injection Ef as <-. reflexivity. }
    rewrite !get_color_find, Hps, (find_assign k0 k _ c Hc).
    destruct (key_eqb k0 k) eqn:E.
    + apply key_eqb_eq in E. rewrite E in Ef. exists c.
      split; [exact Ef|]. split; reflexivity.
    + split; reflexivity.
  - destruct (IH s Hw Hb) as (s' & Hrest & Hw' & Hb' & Hplain & Hk).
    exists s'. split; [exact Hrest|]. split; [exact Hw'|]. split; [exact Hb'|].
    split; [exact Hplain|].
    intros k. specialize (Hk k). cbn [assigned].
    destruct (assigned k rest) as [n|]; [exact Hk|].
    destruct (key_eqb k0 k); exact Hk.
Qed.

Lemma rgb_dict_setter_spec_witness :
  exists s',
    rgb_dict_setter ansicolor24Bit (color_items [(fg, Some 255); (bg, None)])
      underlined_red_on_blue = (Ok tt, s')
    /\ WF s'
    /\ _has_bright_colors_ s' = false
    /\ filter (fun p => negb (is_color p)) (_sgr_params_ s')
       = filter (fun p => negb (is_color p)) (_sgr_params_ underlined_red_on_blue)
    /\ forall k,
         match assigned k [(fg, Some 255); (bg, None)] with
         | Some n =>
             exists c,
               from_rgb ansicolor24Bit k (HexInt n) = Ok c
               /\ get_color k s' = Some (Colored c)
               /\ dict_get key_eqb (_rgb_dict_ s') k = Some (hex2rgb n)
         | None =>
             get_color k s' = get_color k underlined_red_on_blue
             /\ dict_get key_eqb (_rgb_dict_ s') k
                = dict_get key_eqb (_rgb_dict_ underlined_red_on_blue) k
         end.
Proof.
  apply (rgb_dict_setter_spec ansicolor24Bit [(fg, Some 255); (bg, None)]
           underlined_red_on_blue).
  - apply wf_WF. reflexivity.
  - reflexivity.
Defined.

Lemma rgb2ansi_color_esc_total (t : AnsiColorType) (k : ColorDictKeys)
  (rgb : Int3Tuple) :
  exists b, rgb2ansi_color_esc t k rgb = Ok b.
Proof.
  destruct t; cbn [rgb2ansi_color_esc].
  - assert (Hall : check_kv2i = true) by (vm_compute; reflexivity).
    unfold check_kv2i in Hall. rewrite forallb_forall in Hall.
    assert (Hne : base_entries <> []) by discriminate.
    specialize (Hall (nearest rgb base_entries) (nearest_In rgb base_entries Hne)).
    rewrite forallb_forall in Hall.
    assert (Hk : In k [fg; bg]) by (destruct k; simpl; auto).
    specialize (Hall k Hk). unfold nearest_ansi_4bit_rgb.
    destruct (dict_get kv_eqb _ANSI16C_KV2I _) as [code|]; [|discriminate].
    eexists. reflexivity.
  - eexists. reflexivity.
  - destruct rgb as [[r g] b]. eexists. reflexivity.
Qed.

Lemma colorbytes_new_convert (t : AnsiColorType) (c : colorbytes) :
  coherent (Colored c) = true ->
  type_eqb (cb_type c) t = false ->
  exists c',
    colorbytes_new (Some t) (Colored c) = Ok c'
    /\ fst (cb_rgb_dict c') = fst (cb_rgb_dict c).
Proof.
  intros Hco Ht. unfold colorbytes_new. rewrite Ht.
  unfold coherent, bytes_key in Hco. cbn [value_bytes key_of] in *.
  destruct (match_ansi _) as [[[typ k] rgb]|e]; [|discriminate Hco].
  cbn [okey_eqb] in Hco. apply key_eqb_eq in Hco.
  cbn [bind].
  destruct (negb (type_eqb typ t)).
  - destruct (rgb2ansi_color_esc_total t k rgb) as [b ->]. cbn [bind].
    eexists. split; [reflexivity|]. exact Hco.
  - cbn [bind]. eexists. split; [reflexivity|]. exact Hco.
Qed.

Lemma convert_params_spec (t : AnsiColorType) (l : list SgrParamWrapper)
  (acc : list (ColorDictKeys * Int3Tuple)) :
  Forall (fun p => coherent p = true) l ->
  exists ps d,
    convert_params t l acc = Ok (ps, d)
    /\ Forall2 (converted t) l ps
    /\ forall k, dict_get key_eqb d k = None
                 <-> dict_get key_eqb acc k = None /\ converts t k l = false.
Proof.
  intros Hl. revert acc. induction Hl as [|p l Hp _ IH]; intros acc.
  - exists [], acc. split; [reflexivity|]. split; [constructor|].
    intros k. cbn [converts existsb]. tauto.
  - cbn [convert_params]. destruct p as [b|c].
    + destruct (IH acc) as (ps & d & -> & Hf & Hd). cbn [bind].
      exists (Plain b :: ps), d. split; [reflexivity|].
      split; [constructor; [reflexivity|exact Hf]|].
      intros k. rewrite (Hd k). unfold converts. cbn [existsb orb]. tauto.
    + destruct (type_eqb (cb_type c) t) eqn:Et; cbn [negb].
      * destruct (IH acc) as (ps & d & -> & Hf & Hd). cbn [bind].
        exists (Colored c :: ps), d. split; [reflexivity|].
        split; [constructor; [|exact Hf]|].
        { unfold converted. rewrite Et. reflexivity. }
        intros k. rewrite (Hd k). unfold converts. cbn [existsb].
        rewrite Et. cbn [negb]. rewrite andb_false_r. cbn [orb]. tauto.
      * destruct (colorbytes_new_convert t c Hp Et) as (c' & Hn & Hk).
        rewrite Hn. cbn [bind].
        destruct (IH (dict_set key_eqb acc (fst (cb_rgb_dict c'))
                               (snd (cb_rgb_dict c')))) as (ps & d & -> & Hf & Hd).
        cbn [bind]. exists (Colored c' :: ps), d. split; [reflexivity|].
        split; [constructor; [|exact Hf]|].
        { unfold converted. rewrite Et. exists c'. auto. }
        intros k. rewrite (Hd k), dict_get_set, Hk. unfold converts.
        cbn [existsb]. rewrite Et. cbn [negb]. rewrite andb_true_r.
        destruct (key_eqb (fst (cb_rgb_dict c)) k); cbn [orb].
        -- split; [intros [H _] | intros [_ H]]; discriminate H.
        -- tauto.
Qed.

Lemma params_eqb_refl (l : list SgrParamWrapper) : params_eqb l l = true.
Proof.
  induction l as [|p l IH]; [reflexivity|].
  cbn [params_eqb]. unfold param_eqb. rewrite String.eqb_refl. exact IH.
Qed.

Lemma converted_same (t : AnsiColorType) (l ps : list SgrParamWrapper) :
  (forall k, converts t k l = false) -> Forall2 (converted t) l ps -> ps = l.
Proof.
  intros Hn Hf. induction Hf as [|p q l ps Hpq _ IH]; [reflexivity|].
  assert (Hq : q = p).
  { destruct p as [b|c]; [exact Hpq|]. unfold converted in Hpq.
    destruct (type_eqb (cb_type c) t) eqn:Et; [exact Hpq|].
    specialize (Hn (fst (cb_rgb_dict c))). unfold converts in Hn.
    cbn [existsb] in Hn. rewrite key_eqb_refl, Et in Hn. discriminate Hn. }
  rewrite Hq, IH; [reflexivity|].
  intros k. specialize (Hn k). unfold converts in *. cbn [existsb] in Hn.
  apply orb_false_iff in Hn. exact (proj2 Hn).
Qed.

Lemma converts_no_color (t : AnsiColorType) (k : ColorDictKeys)
  (l : list SgrParamWrapper) :
  existsb is_color l = false -> converts t k l = false.
Proof.
  induction l as [|p l IH]; [reflexivity|].
  cbn [existsb]. intros H. apply orb_false_iff in H. destruct H as [Hp Hl].
  unfold converts. cbn [existsb]. destruct p as [b|c]; [|discriminate Hp].
  exact (IH Hl).
Qed.

(** X17: [as_ansi_type] on a text with a well-formed style does not raise.
    With [ps] the parameters in which every colour whose class is not
    [ansi_type] is replaced, in place, by [ansi_type(colour)], a colour of
    the same slot, it returns [self] when [ps] has the bytes of the
    parameters of [self], in particular when every colour has the class
    already; otherwise it returns a text with the same base string and
    [no_reset], the class [ansi_type], and the style made of [ps], with the
    bright flag unset and an [_rgb_dict_] that has exactly the slots of the
    colours that were replaced: the slot of a colour that had the class
    already is missing from it. *)
Theorem as_ansi_type_spec (self : ColorStr) (ansi_type : AnsiColorType) :
  WF (_sgr_ self) ->
  exists ps d,
    Forall2 (converted ansi_type) (_sgr_params_ (_sgr_ self)) ps
    /\ (forall k, dict_get key_eqb d k = None
                  <-> converts ansi_type k (_sgr_params_ (_sgr_ self)) = false)
    /\ as_ansi_type self ansi_type
       = Ok (if params_eqb ps (_sgr_params_ (_sgr_ self)) then self
             else mk_ColorStr
                    (serialize (mk_sgr ps d false) (_base_str_ self) (_no_reset_ self))
                    (_base_str_ self) (mk_sgr ps d false) (_no_reset_ self)
                    ansi_type)
    /\ ((forall k, converts ansi_type k (_sgr_params_ (_sgr_ self)) = false) ->
        as_ansi_type self ansi_type = Ok self).
Proof.
  intros [Hco _].
  destruct (convert_params_spec ansi_type (_sgr_params_ (_sgr_ self)) [] Hco)
    as (ps & d & Hrun & Hf & Hd).
  assert (Hd' : forall k, dict_get key_eqb d k = None
                          <-> converts ansi_type k (_sgr_params_ (_sgr_ self)) = false).
  { intros k. rewrite (Hd k). cbn [dict_get]. tauto. }
  assert (Hres : as_ansi_type self ansi_type
       = Ok (if params_eqb ps (_sgr_params_ (_sgr_ self)) then self
             else mk_ColorStr
                    (serialize (mk_sgr ps d false) (_base_str_ self) (_no_reset_ self))
                    (_base_str_ self) (mk_sgr ps d false) (_no_reset_ self)
                    ansi_type)).
  { unfold as_ansi_type. destruct (sgr_is_color (_sgr_ self)) eqn:Ec.
    - rewrite Hrun. cbn [bind].
      destruct (params_eqb ps (_sgr_params_ (_sgr_ self))); reflexivity.
    - rewrite (converted_same ansi_type _ ps
                 (fun k => converts_no_color ansi_type k _ Ec) Hf).
      rewrite params_eqb_refl. reflexivity. }
  exists ps, d. split; [exact Hf|]. split; [exact Hd'|]. split; [exact Hres|].
  intros Hn. rewrite Hres, (converted_same ansi_type _ ps Hn Hf), params_eqb_refl.
  reflexivity.
Qed.

Lemma as_ansi_type_spec_witness :
  exists ps d,
    Forall2 (converted ansicolor24Bit)
            (_sgr_params_ (_sgr_ (styled underlined_red_on_blue false ansicolor4Bit))) ps
    /\ (forall k, dict_get key_eqb d k = None
                  <-> converts ansicolor24Bit k
                        (_sgr_params_ (_sgr_ (styled underlined_red_on_blue false
                                                ansicolor4Bit))) = false)
    /\ as_ansi_type (styled underlined_red_on_blue false ansicolor4Bit) ansicolor24Bit
       = Ok (if params_eqb ps (_sgr_params_ underlined_red_on_blue)
             then styled underlined_red_on_blue false ansicolor4Bit
             else mk_ColorStr
                    (serialize (mk_sgr ps d false) "x" false)
                    "x" (mk_sgr ps d false) false ansicolor24Bit)
    /\ ((forall k, converts ansicolor24Bit k
                     (_sgr_params_ (_sgr_ (styled underlined_red_on_blue false
                                             ansicolor4Bit))) = false) ->
        as_ansi_type (styled underlined_red_on_blue false ansicolor4Bit) ansicolor24Bit
        = Ok (styled underlined_red_on_blue false ansicolor4Bit)).
Proof.
  apply (as_ansi_type_spec (styled underlined_red_on_blue false ansicolor4Bit)
           ansicolor24Bit).
  apply wf_WF. reflexivity.
Defined.

Lemma rgb_dict_setter_run (t : AnsiColorType)
  (items : list (ColorDictKeys * option Z)) (s : SgrSequence) :
  WF s -> _has_bright_colors_ s = false ->
  exists s',
    rgb_dict_setter t (color_items items) s = (Ok tt, s')
    /\ WF s'
    /\ _has_bright_colors_ s' = false
    /\ filter (fun p => negb (is_color p)) (_sgr_params_ s')
       = filter (fun p => negb (is_color p)) (_sgr_params_ s)
    /\ forall k,
         match assigned k items with
         | Some n =>
             exists c,
               from_rgb t k (HexInt n) = Ok c
               /\ get_color k s' = Some (Colored c)
               /\ dict_get key_eqb (_rgb_dict_ s') k = Some (hex2rgb n)
         | None =>
             get_color k s' = get_color k s
             /\ dict_get key_eqb (_rgb_dict_ s') k
                = dict_get key_eqb (_rgb_dict_ s) k
         end.
Proof.
  revert s. induction items as [|[k0 [n0|]] rest IH]; intros s Hw Hb.
  - exists s. split; [reflexivity|]. split; [exact Hw|]. split; [exact Hb|].
    split; [reflexivity|]. intros k. cbn [assigned]. split; reflexivity.
  - destruct (setter_item t k0 n0 (color_items rest) s Hw Hb)
      as (c & s1 & Ef & Hrun & Hw1 & Hb1 & Hps & Hd).
    destruct (IH s1 Hw1 Hb1) as (s' & Hrest & Hw' & Hb' & Hplain & Hk).
    exists s'. split.
    { cbn [color_items map fst snd option_map]. fold (color_items rest).
      rewrite Hrun. exact Hrest. }
    split; [exact Hw'|]. split; [exact Hb'|]. split.
    { rewrite Hplain, Hps. apply filter_plain_assign. }
    intros k. specialize (Hk k). cbn [assigned].
    destruct (assigned k rest) as [n|]; [exact Hk|].
    destruct Hk as [Hg Hdg]. rewrite Hg, Hdg, Hd.
    assert (Hc : fst (cb_rgb_dict c) = k0).
    { unfold from_rgb in Ef. destruct (rgb2ansi_color_esc _ _ _); cbn [bind] in Ef;
        [|discriminate]. injection Ef as <-. reflexivity. }
    rewrite !get_color_find, Hps, (find_assign k0 k _ c Hc).
    destruct (key_eqb k0 k) eqn:E.
    + apply key_eqb_eq in E. rewrite E in Ef. exists c.
      split; [exact Ef|]. split; reflexivity.
    + split; reflexivity.
  - destruct (IH s Hw Hb) as (s' & Hrest & Hw' & Hb' & Hplain & Hk).
    exists s'. split; [exact Hrest|]. split; [exact Hw'|]. split; [exact Hb'|].
    split; [exact Hplain|].
    intros k. specialize (Hk k). cbn [assigned].
    destruct (assigned k rest) as [n|]; [exact Hk|].
    destruct (key_eqb k0 k); exact Hk.
Qed.

Lemma dict_count_map (f : ColorDictKeys * Int3Tuple -> ColorDictKeys * Int3Tuple)
  (d : list (ColorDictKeys * Int3Tuple)) (k : ColorDictKeys) :
  (forall kv, fst (f kv) = fst kv) -> dict_count k (map f d) = dict_count k d.
Proof.
  intros Hf. unfold dict_count. induction d as [|kv d IH]; [reflexivity|].
  cbn [map filter]. rewrite Hf. destruct (key_eqb (fst kv) k); cbn [List.length];
    rewrite IH; reflexivity.
Qed.

Lemma assigned_unique (g : Int3Tuple -> Z) (d : list (ColorDictKeys * Int3Tuple))
  (k : ColorDictKeys) :
  (dict_count k d <= 1)%nat ->
  assigned k (map (fun kv => (fst kv, Some (g (snd kv)))) d)
  = option_map g (dict_get key_eqb d k).
Proof.
  induction d as [|[k' v] d IH]; [reflexivity|].
  unfold dict_count in *. cbn [map filter fst snd assigned dict_get].
  destruct (key_eqb k' k) eqn:E; cbn [List.length]; intros H.
  - assert (H0 : dict_count k d = 0%nat) by (unfold dict_count; lia).
    rewrite IH by lia. apply dict_get_count in H0. rewrite H0. reflexivity.
  - rewrite IH by lia. destruct (dict_get key_eqb d k); reflexivity.
Qed.

Lemma assigned_head (k : ColorDictKeys) (n : Z)
  (rest : list (ColorDictKeys * option Z)) :
  assigned k ((k, Some n) :: rest) <> None.
Proof.
  cbn [assigned]. destruct (assigned k rest); [discriminate|].
  rewrite key_eqb_refl. discriminate.
Qed.

Lemma sub_tail (self : ColorStr) (dd : list (ColorDictKeys * Z))
  (f : ColorDictKeys -> option Z) :
  WF (_sgr_ self) -> _has_bright_colors_ (_sgr_ self) = false ->
  (forall k, assigned k (map (fun kv => (fst kv, Some (snd kv))) dd) = f k) ->
  exists r,
    match dd with
    | [] => Ok self
    | _ =>
        match rgb_dict_setter (_ansi_type_ self)
                (map (fun kv => (fst kv, Some (HexInt (snd kv)))) dd)
                (_sgr_ self) with
        | (Raise e, _) => Raise e
        | (Ok _, sgr) => _weak_var_update self (mk_weak_vars (Some sgr) None None)
        end
    end = Ok r
    /\ _base_str_ r = _base_str_ self
    /\ _no_reset_ r = _no_reset_ self
    /\ _ansi_type_ r = _ansi_type_ self
    /\ WF (_sgr_ r)
    /\ _has_bright_colors_ (_sgr_ r) = false
    /\ filter (fun p => negb (is_color p)) (_sgr_params_ (_sgr_ r))
       = filter (fun p => negb (is_color p)) (_sgr_params_ (_sgr_ self))
    /\ (forall k,
          match f k with
          | Some n =>
              exists c,
                from_rgb (_ansi_type_ self) k (HexInt n) = Ok c
                /\ get_color k (_sgr_ r) = Some (Colored c)
                /\ dict_get key_eqb (_rgb_dict_ (_sgr_ r)) k = Some (hex2rgb n)
          | None =>
              get_color k (_sgr_ r) = get_color k (_sgr_ self)
              /\ dict_get key_eqb (_rgb_dict_ (_sgr_ r)) k
                 = dict_get key_eqb (_rgb_dict_ (_sgr_ self)) k
          end)
    /\ ((forall k, f k = None) -> r = self).
Proof.
  intros Hw Hb Hf.
  destruct dd as [|[k0 n0] rest].
  - exists self. split; [reflexivity|]. repeat (split; [reflexivity || exact Hw || exact Hb|]).
    split; [|reflexivity].
    intros k. rewrite <- Hf. cbn [map assigned]. split; reflexivity.
  - destruct (rgb_dict_setter_run (_ansi_type_ self)
                (map (fun kv => (fst kv, Some (snd kv))) ((k0, n0) :: rest))
                (_sgr_ self) Hw Hb)
      as (s' & Hrun & Hw' & Hb' & Hplain & Hk).
    unfold color_items in Hrun. rewrite map_map in Hrun.
    cbn [fst snd option_map] in Hrun.
    exists (mk_ColorStr (serialize s' (_base_str_ self) (_no_reset_ self))
                        (_base_str_ self) s' (_no_reset_ self) (_ansi_type_ self)).
    split.
    { cbv iota. rewrite Hrun. reflexivity. }
    cbn [_base_str_ _no_reset_ _ansi_type_ _sgr_].
    repeat (split; [reflexivity || exact Hw' || exact Hb' || exact Hplain|]).
    split.
    + intros k. rewrite <- Hf. exact (Hk k).
    + intros Hn. exfalso. specialize (Hn k0). rewrite <- Hf in Hn.
      exact (assigned_head k0 n0 _ Hn).
Qed.

Lemma is_channel_spec (x : Z) : is_channel x = true <-> 0 <= x <= 255.
Proof.
  unfold is_channel. rewrite andb_true_iff, !Z.leb_le. tauto.
Qed.

Lemma in_range_spec (r g b : Z) :
  in_range (r, g, b) = true <-> 0 <= r <= 255 /\ 0 <= g <= 255 /\ 0 <= b <= 255.
Proof.
  unfold in_range. rewrite !andb_true_iff, !is_channel_spec. tauto.
Qed.

Lemma channel_bit_high (x i : Z) :
  0 <= x <= 255 -> 8 <= i -> Z.testbit x i = false.
Proof.
  intros Hx Hi. rewrite <- (Z.mod_small x (2 ^ 8)) by (change (2 ^ 8) with 256; lia).
  apply Z.mod_pow2_bits_high. lia.
Qed.

Lemma testbit_255 (i : Z) : 0 <= i -> Z.testbit 255 i = (i <? 8).
Proof.
  intros Hi. change 255 with (Z.ones 8).
  destruct (Z.ltb_spec i 8).
  - apply Z.ones_spec_low. lia.
  - apply Z.ones_spec_high. lia.
Qed.

(** Unpacking what was packed from three 8-bit channels gives them back. *)
Lemma hex2rgb_pack (rgb : Int3Tuple) :
  in_range rgb = true -> hex2rgb (pack_rgb rgb) = rgb.
Proof.
  destruct rgb as [[r g] b]. intros H. apply in_range_spec in H.
  destruct H as (Hr & Hg & Hb).
  unfold hex2rgb, pack_rgb. f_equal; [f_equal|]; apply Z.bits_inj'; intros i Hi;
    rewrite Z.land_spec, (testbit_255 i Hi);
    rewrite ?Z.shiftr_spec by lia;
    rewrite !Z.lor_spec, !Z.shiftl_spec by lia;
    destruct (Z.ltb_spec i 8) as [Hlt|Hge];
    rewrite ?andb_true_r, ?andb_false_r.
  - replace (i + 16 - 16) with i by lia.
    rewrite (channel_bit_high g (i + 16 - 8)) by lia.
    rewrite (channel_bit_high b (i + 16)) by lia.
    rewrite !orb_false_r. reflexivity.
  - symmetry. apply channel_bit_high; lia.
  - rewrite (Z.testbit_neg_r r (i + 8 - 16)) by lia.
    replace (i + 8 - 8) with i by lia.
    rewrite (channel_bit_high b (i + 8)) by lia.
    rewrite orb_false_r. reflexivity.
  - symmetry. apply channel_bit_high; lia.
  - rewrite (Z.testbit_neg_r r (i - 16)) by lia.
    rewrite (Z.testbit_neg_r g (i - 8)) by lia. reflexivity.
  - symmetry. apply channel_bit_high; lia.
Qed.

Lemma rgb_diff_in_range (a b : Int3Tuple) :
  in_range a = true -> in_range b = true -> in_range (rgb_diff a b) = true.
Proof.
  destruct a as [[r1 g1] b1], b as [[r2 g2] b2]. intros Ha Hb.
  apply in_range_spec in Ha, Hb. unfold rgb_diff. cbv beta iota.
  apply in_range_spec. lia.
Qed.

Lemma hex2rgb_in_range (n : Z) : in_range (hex2rgb n) = true.
Proof.
  assert (Hb : forall x, 0 <= Z.land x 255 <= 255).
  { intros x.
    assert (Hl : Z.land x 255 = x mod 256)
      by (change 255 with (Z.ones 8); apply Z.land_ones; lia).
    rewrite Hl. pose proof (Z.mod_pos_bound x 256 eq_refl) as H. lia. }
  unfold hex2rgb. apply in_range_spec. repeat split; apply Hb.
Qed.

Lemma map_values_ok {A B : Type} (f : A -> result B) (g : A -> B)
  (d : list (ColorDictKeys * A)) :
  (forall kv, In kv d -> f (snd kv) = Ok (g (snd kv))) ->
  map_values f d = Ok (map (fun kv => (fst kv, g (snd kv))) d).
Proof.
  induction d as [|[k v] d IH]; intros H; [reflexivity|].
  cbn [map_values map fst snd].
  pose proof (H (k, v) (or_introl eq_refl)) as Hv. cbn [snd] in Hv.
  rewrite Hv. cbn [bind].
  rewrite IH by (intros kv Hin; apply H; right; exact Hin). reflexivity.
Qed.

Lemma channels_ok_In (s : SgrSequence) (kv : ColorDictKeys * Int3Tuple) :
  channels_ok s = true -> In kv (_rgb_dict_ s) -> in_range (snd kv) = true.
Proof.
  unfold channels_ok. rewrite forallb_forall. intros H Hin. exact (H kv Hin).
Qed.

Lemma dict_get_In (d : list (ColorDictKeys * Int3Tuple)) (k : ColorDictKeys)
  (v : Int3Tuple) :
  dict_get key_eqb d k = Some v -> exists k', In (k', v) d.
Proof.
  induction d as [|[a w] d IH]; cbn [dict_get]; [discriminate|].
  destruct (key_eqb a k).
  - intros E. injection E as <-. exists a. left. reflexivity.
  - intros E. destruct (IH E) as [k' Hin]. exists k'. right. exact Hin.
Qed.

Lemma channels_ok_get (s : SgrSequence) (k : ColorDictKeys) (v : Int3Tuple) :
  channels_ok s = true -> dict_get key_eqb (_rgb_dict_ s) k = Some v ->
  in_range v = true.
Proof.
  intros H E. destruct (dict_get_In _ _ _ E) as [k' Hin].
  exact (channels_ok_In s (k', v) H Hin).
Qed.

(** The colours a text reports are the colours of its style, when their
    channels are 8-bit values. *)
Lemma ColorStr_rgb_dict_ok (self : ColorStr) :
  channels_ok (_sgr_ self) = true ->
  ColorStr_rgb_dict self = Ok (_rgb_dict_ (_sgr_ self)).
Proof.
  intros H. unfold ColorStr_rgb_dict, _color_dict_.
  rewrite (map_values_ok Color_from_rgb pack_rgb).
  - cbn [bind]. rewrite map_map. cbn [fst snd]. f_equal.
    rewrite <- (map_id (_rgb_dict_ (_sgr_ self))) at 2.
    apply map_ext_in. intros [k v] Hin. cbn [fst snd]. unfold Color_rgb.
    rewrite (hex2rgb_pack v (channels_ok_In _ _ H Hin)). reflexivity.
  - intros kv Hin. unfold Color_from_rgb, rgb2hex.
    rewrite (channels_ok_In _ _ H Hin). reflexivity.
Qed.

Lemma diff_rgb_in_range (self : ColorStr) (other : operand) (k : ColorDictKeys)
  (rgb : Int3Tuple) :
  channels_ok (_sgr_ self) = true -> operand_in_range other = true ->
  diff_rgb self other k = Some rgb -> in_range rgb = true.
Proof.
  intros Hs Ho. unfold diff_rgb.
  destruct (dict_get key_eqb (_rgb_dict_ (_sgr_ self)) k) as [a|] eqn:Ea;
    [|discriminate].
  pose proof (channels_ok_get _ _ _ Hs Ea) as Ha.
  destruct other as [o|s|x|n|h]; try discriminate.
  - cbn [operand_in_range] in Ho.
    destruct (dict_get key_eqb (_rgb_dict_ (_sgr_ o)) k) as [b|] eqn:Eb;
      [|discriminate].
    intros E. injection E as <-.
    exact (rgb_diff_in_range a b Ha (channels_ok_get _ _ _ Ho Eb)).
  - intros E. injection E as <-.
    exact (rgb_diff_in_range a _ Ha (hex2rgb_in_range n)).
Qed.

Lemma sub_finish (self : ColorStr) (dd : list (ColorDictKeys * Z))
  (g : ColorDictKeys -> option Int3Tuple) :
  WF (_sgr_ self) -> _has_bright_colors_ (_sgr_ self) = false ->
  (forall k rgb, g k = Some rgb -> in_range rgb = true) ->
  (forall k, assigned k (map (fun kv => (fst kv, Some (snd kv))) dd)
             = option_map pack_rgb (g k)) ->
  exists r,
    match dd with
    | [] => Ok self
    | _ =>
        match rgb_dict_setter (_ansi_type_ self)
                (map (fun kv => (fst kv, Some (HexInt (snd kv)))) dd)
                (_sgr_ self) with
        | (Raise e, _) => Raise e
        | (Ok _, sgr) => _weak_var_update self (mk_weak_vars (Some sgr) None None)
        end
    end = Ok r
    /\ _base_str_ r = _base_str_ self
    /\ _no_reset_ r = _no_reset_ self
    /\ _ansi_type_ r = _ansi_type_ self
    /\ WF (_sgr_ r)
    /\ _has_bright_colors_ (_sgr_ r) = false
    /\ filter (fun p => negb (is_color p)) (_sgr_params_ (_sgr_ r))
       = filter (fun p => negb (is_color p)) (_sgr_params_ (_sgr_ self))
    /\ (forall k,
          match g k with
          | Some rgb =>
              exists n c,
                rgb2hex rgb = Ok n
                /\ from_rgb (_ansi_type_ self) k (HexInt n) = Ok c
                /\ get_color k (_sgr_ r) = Some (Colored c)
                /\ dict_get key_eqb (_rgb_dict_ (_sgr_ r)) k = Some rgb
          | None =>
              get_color k (_sgr_ r) = get_color k (_sgr_ self)
              /\ dict_get key_eqb (_rgb_dict_ (_sgr_ r)) k
                 = dict_get key_eqb (_rgb_dict_ (_sgr_ self)) k
          end)
    /\ ((forall k, g k = None) -> r = self).
Proof.
  intros Hw Hb Hg Hf.
  destruct (sub_tail self dd (fun k => option_map pack_rgb (g k)) Hw Hb Hf)
    as (r & Hr & H1 & H2 & H3 & H4 & H5 & H6 & Hk & Hself).
  exists r. repeat (split; [assumption|]). split.
  - intros k. specialize (Hk k). destruct (g k) as [rgb|] eqn:Eg; cbn [option_map] in Hk.
    + destruct Hk as (c & Hc & Hget & Hd).
      exists (pack_rgb rgb), c. pose proof (Hg k rgb Eg) as Hin.
      split; [unfold rgb2hex; rewrite Hin; reflexivity|].
      split; [exact Hc|]. split; [exact Hget|].
      rewrite Hd, (hex2rgb_pack rgb Hin). reflexivity.
    + exact Hk.
  - intros Hn. apply Hself. intros k. rewrite (Hn k). reflexivity.
Qed.

Lemma sub_color_dict (self : ColorStr) (n : Z) :
  WF (_sgr_ self) -> channels_ok (_sgr_ self) = true ->
  exists dd,
    (self_rgb <- ColorStr_rgb_dict self ;;
     map_values (fun v => Color_from_rgb (rgb_diff v (Color_rgb n))) self_rgb)
    = Ok dd
    /\ forall k, assigned k (map (fun kv => (fst kv, Some (snd kv))) dd)
                 = option_map pack_rgb (diff_rgb self (OpColor n) k).
Proof.
  intros [_ Hn] Hc. rewrite (ColorStr_rgb_dict_ok self Hc). cbn [bind].
  rewrite (map_values_ok _ (fun v => pack_rgb (rgb_diff v (Color_rgb n)))).
  - eexists. split; [reflexivity|]. intros k.
    rewrite map_map. cbn [fst snd].
    rewrite (assigned_unique (fun v => pack_rgb (rgb_diff v (Color_rgb n)))).
    + unfold diff_rgb.
      destruct (dict_get key_eqb (_rgb_dict_ (_sgr_ self)) k); reflexivity.
    + destruct (Hn k) as [H1 H2]. lia.
  - intros kv Hin. unfold Color_from_rgb, rgb2hex, Color_rgb.
    rewrite (rgb_diff_in_range _ _ (channels_ok_In _ _ Hc Hin)
               (hex2rgb_in_range n)).
    reflexivity.
Qed.

Lemma sub_common_dict (fg_first : bool) (self o : ColorStr) :
  channels_ok (_sgr_ self) = true -> channels_ok (_sgr_ o) = true ->
  exists dd,
    (self_rgb <- ColorStr_rgb_dict self ;;
     other_rgb <- ColorStr_rgb_dict o ;;
     map_values (fun ab => Color_from_rgb (rgb_diff (fst ab) (snd ab)))
       (flat_map
          (fun k =>
             match dict_get key_eqb self_rgb k, dict_get key_eqb other_rgb k with
             | Some a, Some b => [(k, (a, b))]
             | _, _ => []
             end)
          (set_order fg_first)))
    = Ok dd
    /\ forall k, assigned k (map (fun kv => (fst kv, Some (snd kv))) dd)
                 = option_map pack_rgb (diff_rgb self (OpColorStr o) k).
Proof.
  intros Hs Ho.
  rewrite (ColorStr_rgb_dict_ok self Hs), (ColorStr_rgb_dict_ok o Ho). cbn [bind].
  assert (Hpair : forall k a b,
             dict_get key_eqb (_rgb_dict_ (_sgr_ self)) k = Some a ->
             dict_get key_eqb (_rgb_dict_ (_sgr_ o)) k = Some b ->
             Color_from_rgb (rgb_diff a b) = Ok (pack_rgb (rgb_diff a b))).
  { intros k a b Ea Eb. unfold Color_from_rgb, rgb2hex.
    rewrite (rgb_diff_in_range a b (channels_ok_get _ _ _ Hs Ea)
               (channels_ok_get _ _ _ Ho Eb)).
    reflexivity. }
  unfold diff_rgb, set_order.
  destruct fg_first; cbn [flat_map];
    destruct (dict_get key_eqb (_rgb_dict_ (_sgr_ self)) fg) as [a1|] eqn:E1;
    destruct (dict_get key_eqb (_rgb_dict_ (_sgr_ self)) bg) as [a2|] eqn:E2;
    destruct (dict_get key_eqb (_rgb_dict_ (_sgr_ o)) fg) as [b1|] eqn:E3;
    destruct (dict_get key_eqb (_rgb_dict_ (_sgr_ o)) bg) as [b2|] eqn:E4;
    cbn [app map_values fst snd];
    rewrite ?(Hpair fg a1 b1 E1 E3), ?(Hpair bg a2 b2 E2 E4); cbn [bind];
    (eexists; split; [reflexivity|]);
    intros k; destruct k; cbn [map assigned fst snd key_eqb option_map];
    rewrite ?E1, ?E2, ?E3, ?E4; reflexivity.
Qed.

(** X18: [self - other] on a text with a well-formed style whose bright flag
    is not set, when the channels of the colours of [self] and of [other]
    are 8-bit values.  For [other] a [Color] or a [ColorStr] the operator
    returns a text with the base string, [no_reset] and colour class of
    [self] and a well-formed style with the same parameters that are no
    colours.  A slot that has a colour in [self] (and in [other], when it is
    a [ColorStr]) holds the colour of the class of [self] made of the
    per-channel absolute difference of the two colours, and [_rgb_dict_]
    holds that difference; every other slot is as in [self]; when there is
    no such slot the result is [self].  Any other operand raises
    [TypeError]. *)
Theorem ColorStr_sub_spec (fg_first : bool) (self : ColorStr) (other : operand) :
  WF (_sgr_ self) -> _has_bright_colors_ (_sgr_ self) = false ->
  channels_ok (_sgr_ self) = true -> operand_in_range other = true ->
  match other with
  | OpColor _ | OpColorStr _ =>
      exists r,
        ColorStr_sub fg_first self other = Ok r
        /\ _base_str_ r = _base_str_ self
        /\ _no_reset_ r = _no_reset_ self
        /\ _ansi_type_ r = _ansi_type_ self
        /\ WF (_sgr_ r)
        /\ _has_bright_colors_ (_sgr_ r) = false
        /\ filter (fun p => negb (is_color p)) (_sgr_params_ (_sgr_ r))
           = filter (fun p => negb (is_color p)) (_sgr_params_ (_sgr_ self))
        /\ (forall k,
              match diff_rgb self other k with
              | Some rgb =>
                  exists n c,
                    rgb2hex rgb = Ok n
                    /\ from_rgb (_ansi_type_ self) k (HexInt n) = Ok c
                    /\ get_color k (_sgr_ r) = Some (Colored c)
                    /\ dict_get key_eqb (_rgb_dict_ (_sgr_ r)) k = Some rgb
              | None =>
                  get_color k (_sgr_ r) = get_color k (_sgr_ self)
                  /\ dict_get key_eqb (_rgb_dict_ (_sgr_ r)) k
                     = dict_get key_eqb (_rgb_dict_ (_sgr_ self)) k
              end)
        /\ ((forall k, diff_rgb self other k = None) -> r = self)
  | _ => ColorStr_sub fg_first self other = Raise TypeError
  end.
Proof.
  intros Hw Hb Hs Ho. destruct other as [o|s|x|n|h]; try reflexivity.
  - destruct (sub_common_dict fg_first self o Hs Ho) as (dd & Hdd & Has).
    unfold ColorStr_sub. cbv zeta. rewrite Hdd. cbn [bind].
    exact (sub_finish self dd (diff_rgb self (OpColorStr o)) Hw Hb
             (fun k rgb => diff_rgb_in_range self (OpColorStr o) k rgb Hs Ho) Has).
  - destruct (sub_color_dict self n Hw Hs) as (dd & Hdd & Has).
    unfold ColorStr_sub. cbv zeta. rewrite Hdd. cbn [bind].
    exact (sub_finish self dd (diff_rgb self (OpColor n)) Hw Hb
             (fun k rgb => diff_rgb_in_range self (OpColor n) k rgb Hs Ho) Has).
Qed.

Lemma ColorStr_sub_spec_witness :
  exists r,
    ColorStr_sub true (styled underlined_red_on_blue false ansicolor4Bit)
      (OpColor 255) = Ok r
    /\ _base_str_ r = "x"
    /\ _no_reset_ r = false
    /\ _ansi_type_ r = ansicolor4Bit
    /\ WF (_sgr_ r)
    /\ _has_bright_colors_ (_sgr_ r) = false
    /\ filter (fun p => negb (is_color p)) (_sgr_params_ (_sgr_ r))
       = [Plain "4"]
    /\ (forall k,
          match diff_rgb (styled underlined_red_on_blue false ansicolor4Bit)
                  (OpColor 255) k with
          | Some rgb =>
              exists n c,
                rgb2hex rgb = Ok n
                /\ from_rgb ansicolor4Bit k (HexInt n) = Ok c
                /\ get_color k (_sgr_ r) = Some (Colored c)
                /\ dict_get key_eqb (_rgb_dict_ (_sgr_ r)) k = Some rgb
          | None =>
              get_color k (_sgr_ r) = get_color k underlined_red_on_blue
              /\ dict_get key_eqb (_rgb_dict_ (_sgr_ r)) k
                 = dict_get key_eqb (_rgb_dict_ underlined_red_on_blue) k
          end)
    /\ ((forall k, diff_rgb (styled underlined_red_on_blue false ansicolor4Bit)
                     (OpColor 255) k = None) ->
        r = styled underlined_red_on_blue false ansicolor4Bit).
Proof.
  apply (ColorStr_sub_spec true (styled underlined_red_on_blue false ansicolor4Bit)
           (OpColor 255)).
  - apply wf_WF. reflexivity.
  - reflexivity.
  - reflexivity.
  - reflexivity.
Defined.

(** *** Toggling a colour code with [update_sgr] *)

Lemma sgr_contains_colour (x : Z) (s : SgrSequence) :
  in_I2KV x = true ->
  sgr_contains (ArgInt x) s
  = Ok (match _sgr_params_ s with
        | [] => false
        | _ => existsb (String.eqb (bytes_of_int x)) (values s)
        end).
Proof.
  intros Hin. unfold sgr_contains.
  destruct (_sgr_params_ s) as [|p l] eqn:Ep; [reflexivity|].
  change (_iter_sgr (ArgInt x))
    with (_iter_sgr (ArgList (map ItemInt (flat_map entry_ints [EColor (Wire4 x)])))).
  assert (Hv : Forall (fun e => valid_entry e = true) [EColor (Wire4 x)])
    by (repeat constructor; exact Hin).
  rewrite (iter_sgr_ints _ Hv). cbn [ended yielded].
  rewrite (forallb_regen_bytes _ _ Hv). cbn [forallb]. rewrite andb_true_r.
  reflexivity.
Qed.

Lemma slot_free_no_bytes (x : Z) (k : ColorDictKeys) (rgb : Int3Tuple)
  (s : SgrSequence) :
  WF s ->
  dict_get Z.eqb _ANSI16C_I2KV x = Some (k, rgb) ->
  dict_get key_eqb (_rgb_dict_ s) k = None ->
  Forall (fun q => String.eqb (value_bytes q) (bytes_of_int x) = false)
         (_sgr_params_ s).
Proof.
  intros [Hco Hn] Hd Hfree.
  assert (Hin : in_I2KV x = true) by (unfold in_I2KV; rewrite Hd; reflexivity).
  destruct (in_I2KV_facts x Hin) as (_ & _ & c & _ & Hb & Hk & Hg).
  apply good_value_coherent, coherent_key in Hg. cbn [key_of value_bytes] in Hg.
  rewrite Hb in Hg. cbn [entry_key] in Hk. rewrite Hd in Hk. cbn [option_map fst] in Hk.
  assert (Hz : count_key k (_sgr_params_ s) = 0%nat).
  { destruct (Hn k) as [_ He]. apply dict_get_count in Hfree. lia. }
  clear Hn Hfree. induction Hco as [|q l Hq _ IH]; constructor.
  - rewrite count_key_cons in Hz.
    destruct (String.eqb (value_bytes q) (bytes_of_int x)) eqn:E; [|reflexivity].
    apply String.eqb_eq in E. apply coherent_key in Hq. rewrite E, <- Hg, Hk in Hq.
    apply occupies_key_of in Hq. rewrite Hq in Hz. lia.
  - apply IH. rewrite count_key_cons in Hz. lia.
Qed.

Lemma existsb_values_false (b : bytes) (l : list SgrParamWrapper) :
  Forall (fun q => String.eqb (value_bytes q) b = false) l ->
  existsb (String.eqb b) (map value_bytes l) = false.
Proof.
  induction 1 as [|q l Hq _ IH]; [reflexivity|].
  cbn [map existsb]. rewrite String.eqb_sym, Hq, IH. reflexivity.
Qed.

Lemma index_from_last (a : index_arg) (same : SgrParamWrapper -> bool)
  (l : list SgrParamWrapper) (q : SgrParamWrapper) (j : Z) :
  (forall p, is_same_kind p a = Ok (same p)) ->
  Forall (fun p => same p = false) l -> same q = true ->
  index_from j (l ++ [q]) a = Ok (j + Z.of_nat (List.length l)).
Proof.
  intros Hs Hl Hq. revert j. induction Hl as [|p l Hp _ IH]; intros j.
  - cbn [app index_from List.length]. rewrite Hs, Hq. cbn [bind]. f_equal. cbn. lia.
  - cbn [app index_from]. rewrite Hs, Hp. cbn [bind]. rewrite IH.
    f_equal. cbn [List.length]. lia.
Qed.

Lemma dict_del_app_fresh (d : list (ColorDictKeys * Int3Tuple)) (k : ColorDictKeys)
  (v : Int3Tuple) :
  dict_get key_eqb d k = None -> dict_del key_eqb (d ++ [(k, v)]) k = Some d.
Proof.
  induction d as [|[a w] d IH]; cbn [app dict_get dict_del].
  - rewrite key_eqb_refl. reflexivity.
  - destruct (key_eqb a k); [discriminate|]. intros H. rewrite (IH H). reflexivity.
Qed.

Lemma bright_not_std (x : Z) : mem x _ANSI16C_BRIGHT = true -> mem x _ANSI16C_STD = false.
Proof.
  intros H. apply mem_In in H. unfold _ANSI16C_BRIGHT in H.
  apply filter_In in H. destruct H as [_ H]. apply negb_true_iff in H. exact H.
Qed.

Lemma toggle_colour_in (x : Z) (k : ColorDictKeys) (rgb : Int3Tuple)
  (s : SgrSequence) (rest : list Z) :
  WF s ->
  Forall (fun p => String.eqb (value_bytes p) "1" = false) (_sgr_params_ s) ->
  dict_get Z.eqb _ANSI16C_I2KV x = Some (k, rgb) ->
  dict_get key_eqb (_rgb_dict_ s) k = None ->
  exists c,
    from_rgb ansicolor4Bit k (RgbTuple rgb) = Ok c
    /\ cb_bytes c = bytes_of_int x
    /\ cb_rgb_dict c = (k, rgb)
    /\ coherent (Colored c) = true
    /\ update_sgr_loop (x :: rest) s
       = update_sgr_loop rest
           (mk_sgr (_sgr_params_ s ++ [Colored c]) (_rgb_dict_ s ++ [(k, rgb)])
                   (mem x _ANSI16C_BRIGHT)).
Proof.
  intros Hw Hnb Hd Hfree.
  destruct (append_value_no_bold x s k rgb Hnb Hd) as (c & Ef & Hb & Hkv & Hco & Hav).
  exists c. split; [exact Ef|]. split; [exact Hb|]. split; [exact Hkv|].
  split; [exact Hco|].
  assert (Hin : in_I2KV x = true) by (unfold in_I2KV; rewrite Hd; reflexivity).
  assert (Hx1 : (x =? 1) = false).
  { destruct (Z.eqb_spec x 1) as [->|]; [discriminate Hin|reflexivity]. }
  cbn [update_sgr_loop]. unfold mbind at 1.
  rewrite (sgr_contains_colour x s Hin).
  assert (Habs : match _sgr_params_ s with
                 | [] => false
                 | _ => existsb (String.eqb (bytes_of_int x)) (values s)
                 end = false).
  { unfold values.
    rewrite (existsb_values_false _ _ (slot_free_no_bytes x k rgb s Hw Hd Hfree)).
    destruct (_sgr_params_ s); reflexivity. }
  rewrite Habs, Hx1. cbn [andb].
  unfold append. rewrite (I2KV_keys_are_parameters x Hin). cbn [negb].
  unfold mbind at 1. rewrite Hav. rewrite Hkv. cbn [fst snd].
  unfold mbind, vacate, update, ret. cbn [set_bright _rgb_dict_]. rewrite Hfree.
  unfold set_rgb_dict, set_params.
  cbn [_rgb_dict_ _sgr_params_ _has_bright_colors_].
  rewrite (dict_set_fresh _ _ _ Hfree). reflexivity.
Qed.

Lemma toggle_colour_out (x : Z) (k : ColorDictKeys) (rgb : Int3Tuple)
  (ps : list SgrParamWrapper) (d : list (ColorDictKeys * Int3Tuple))
  (c : colorbytes) (rest : list Z) :
  WF (mk_sgr ps d false) ->
  Forall (fun p => String.eqb (value_bytes p) "1" = false) ps ->
  dict_get Z.eqb _ANSI16C_I2KV x = Some (k, rgb) ->
  dict_get key_eqb d k = None ->
  cb_bytes c = bytes_of_int x ->
  cb_rgb_dict c = (k, rgb) ->
  coherent (Colored c) = true ->
  update_sgr_loop (x :: rest)
    (mk_sgr (ps ++ [Colored c]) (d ++ [(k, rgb)]) (mem x _ANSI16C_BRIGHT))
  = update_sgr_loop rest (mk_sgr ps d false).
Proof.
  intros Hw Hnb Hd Hfree Hb Hkv Hco.
  assert (Hin : in_I2KV x = true) by (unfold in_I2KV; rewrite Hd; reflexivity).
  destruct (in_I2KV_facts x Hin) as (Hrange & _).
  pose proof (slot_free_no_bytes x k rgb _ Hw Hd Hfree) as Hno.
  cbn [_sgr_params_] in Hno.
  assert (Hz : count_key k ps = 0%nat).
  { destruct Hw as [_ Hn]. destruct (Hn k) as [_ He].
    cbn [_rgb_dict_ _sgr_params_] in He. apply dict_get_count in Hfree. lia. }
  assert (Hw1 : forall b, WF (mk_sgr (ps ++ [Colored c]) (d ++ [(k, rgb)]) b)).
  { intros b. pose proof (WF_append_color (mk_sgr ps d false) c Hw Hco) as H.
    rewrite Hkv in H. cbn [fst snd] in H. unfold set_params, set_rgb_dict in H.
    cbn [_sgr_params_ _rgb_dict_ _has_bright_colors_] in H.
    rewrite (dict_set_fresh _ _ _ Hfree) in H. exact (H Hz). }
  set (b := mem x _ANSI16C_BRIGHT) in *.
  cbn [update_sgr_loop]. unfold mbind at 1.
  rewrite (sgr_contains_colour x _ Hin). cbn [_sgr_params_].
  assert (Hpres : match ps ++ [Colored c] with
                  | [] => false
                  | _ => existsb (String.eqb (bytes_of_int x))
                           (values (mk_sgr (ps ++ [Colored c]) (d ++ [(k, rgb)]) b))
                  end = true).
  { unfold values. cbn [_sgr_params_]. rewrite map_app, existsb_app.
    cbn [map existsb value_bytes]. rewrite Hb, String.eqb_refl, orb_true_r.
    destruct ps; reflexivity. }
  rewrite Hpres.
  assert (Hidx : index (IdxInt x) (mk_sgr (ps ++ [Colored c]) (d ++ [(k, rgb)]) b)
                 = (Ok (Z.of_nat (List.length ps)),
                    mk_sgr (ps ++ [Colored c]) (d ++ [(k, rgb)]) b)).
  { unfold index. cbn [_sgr_params_].
    f_equal.
    apply (index_from_last (IdxInt x)
             (fun q => String.eqb (value_bytes q) (bytes_of_int x)) ps (Colored c) 0
             (fun q => is_same_kind_entry_int (EColor (Wire4 x)) x q Hin eq_refl)
             Hno).
    cbn [value_bytes]. rewrite Hb. apply String.eqb_refl. }
  assert (Hdel : dict_del key_eqb (d ++ [(k, rgb)]) k = Some d)
    by (apply dict_del_app_fresh; exact Hfree).
  assert (Hpop : pop (Z.of_nat (List.length ps))
                   (mk_sgr (ps ++ [Colored c]) (d ++ [(k, rgb)]) b)
                 = (Ok (Colored c), mk_sgr ps d false)).
  { destruct b eqn:Eb.
    - destruct (pop_at_bright _ ps [] c (Hw1 true) eq_refl eq_refl)
        as (d' & Hdel' & _ & _ & Hpop).
      { rewrite app_nil_r. exact Hnb. }
      cbn [_rgb_dict_] in Hdel'. rewrite Hkv in Hdel'. cbn [fst] in Hdel'.
      rewrite Hdel in Hdel'. injection Hdel' as <-.
      rewrite Hpop, Hb, (py_int_dec x Hrange), Hin, (bright_not_std x Eb), app_nil_r.
      reflexivity.
    - destruct (pop_at _ ps [] (Colored c) (Hw1 false) eq_refl eq_refl)
        as (d' & Hpop & _ & Hdel').
      cbn [key_of _rgb_dict_] in Hdel'. rewrite Hkv in Hdel'. cbn [fst] in Hdel'.
      rewrite Hdel in Hdel'. injection Hdel' as <-.
      rewrite Hpop, app_nil_r. reflexivity. }
  unfold mbind at 1. rewrite Hidx. unfold mbind at 1. rewrite Hpop.
  reflexivity.
Qed.

Lemma colour_code_not_extended (x : Z) (l : list Z) :
  in_I2KV x = true ->
  existsb (fun y => (y =? _ANSI256_KEY2I fg) || (y =? _ANSI256_KEY2I bg)) (x :: l)
  = existsb (fun y => (y =? _ANSI256_KEY2I fg) || (y =? _ANSI256_KEY2I bg)) l.
Proof.
  intros Hin. destruct (in_I2KV_facts x Hin) as (_ & Hk & _).
  unfold key_pair in Hk. cbn [existsb].
  change (_ANSI256_KEY2I fg) with 38. change (_ANSI256_KEY2I bg) with 48.
  destruct (x =? 38); [discriminate Hk|].
  destruct (x =? 48); [discriminate Hk|]. reflexivity.
Qed.

(** X19: toggling a 4-bit colour code twice with [update_sgr].  On a text
    whose style is well formed, has the bright flag unset and no bold code,
    and whose slot for the colour is free, [update_sgr(x)] returns a text
    with the colour appended to the style (the bright flag telling whether
    the colour is bright), and [update_sgr(x)] on that text removes the
    colour again: its style is the style of the first text, and with it the
    base string, the [no_reset] flag and the text itself as the first text
    serialises.  [update_sgr(x, x)] returns a text with the style of the
    first text as well. *)
Theorem update_sgr_colour_twice (cs : ColorStr) (x : Z) (k : ColorDictKeys)
  (rgb : Int3Tuple) :
  WF (_sgr_ cs) ->
  _has_bright_colors_ (_sgr_ cs) = false ->
  Forall (fun p => String.eqb (value_bytes p) "1" = false) (_sgr_params_ (_sgr_ cs)) ->
  dict_get Z.eqb _ANSI16C_I2KV x = Some (k, rgb) ->
  dict_get key_eqb (_rgb_dict_ (_sgr_ cs)) k = None ->
  exists c r r' r2,
    from_rgb ansicolor4Bit k (RgbTuple rgb) = Ok c
    /\ cb_bytes c = bytes_of_int x
    /\ update_sgr cs [x] = Ok r
    /\ _sgr_ r = mk_sgr (_sgr_params_ (_sgr_ cs) ++ [Colored c])
                        (_rgb_dict_ (_sgr_ cs) ++ [(k, rgb)])
                        (mem x _ANSI16C_BRIGHT)
    /\ cs_str r = serialize (_sgr_ r) (_base_str_ cs) (_no_reset_ cs)
    /\ update_sgr r [x] = Ok r'
    /\ _sgr_ r' = _sgr_ cs
    /\ _base_str_ r' = _base_str_ cs
    /\ _no_reset_ r' = _no_reset_ cs
    /\ cs_str r' = serialize (_sgr_ cs) (_base_str_ cs) (_no_reset_ cs)
    /\ update_sgr cs [x; x] = Ok r2
    /\ _sgr_ r2 = _sgr_ cs
    /\ cs_str r2 = cs_str r'.
Proof.
  intros Hw Hb Hnb Hd Hfree.
  assert (Hin : in_I2KV x = true) by (unfold in_I2KV; rewrite Hd; reflexivity).
  destruct cs as [str base [ps d b] nr t].
  cbn [_sgr_ _sgr_params_ _rgb_dict_ _has_bright_colors_ _base_str_ _no_reset_] in *.
  subst b.
  destruct (toggle_colour_in x k rgb (mk_sgr ps d false) [] Hw Hnb Hd Hfree)
    as (c & Ef & Hbytes & Hkv & Hco & Hin1).
  destruct (toggle_colour_in x k rgb (mk_sgr ps d false) [x] Hw Hnb Hd Hfree)
    as (c2 & Ef2 & _ & _ & _ & Hin2).
  rewrite Ef in Ef2. injection Ef2 as <-.
  cbn [_sgr_params_ _rgb_dict_] in Hin1, Hin2.
  pose proof (toggle_colour_out x k rgb ps d c [] Hw Hnb Hd Hfree Hbytes Hkv Hco)
    as Hout.
  rewrite Hout in Hin2.
  assert (Hin1' : update_sgr_loop [x] (mk_sgr ps d false)
                  = (Ok tt, mk_sgr (ps ++ [Colored c]) (d ++ [(k, rgb)])
                                   (mem x _ANSI16C_BRIGHT))) by exact Hin1.
  assert (Hout' : update_sgr_loop [x]
                    (mk_sgr (ps ++ [Colored c]) (d ++ [(k, rgb)]) (mem x _ANSI16C_BRIGHT))
                  = (Ok tt, mk_sgr ps d false)) by exact Hout.
  assert (Hin2' : update_sgr_loop [x; x] (mk_sgr ps d false)
                  = (Ok tt, mk_sgr ps d false)) by exact Hin2.
  exists c. eexists. eexists. eexists.
  split; [exact Ef|]. split; [exact Hbytes|].
  split.
  { unfold update_sgr. rewrite (colour_code_not_extended x [] Hin). cbn [existsb].
    cbn [_sgr_]. rewrite Hin1'. reflexivity. }
  cbn [_sgr_ cs_str _base_str_ _no_reset_].
  split; [reflexivity|]. split; [reflexivity|]. split.
  { unfold update_sgr. rewrite (colour_code_not_extended x [] Hin). cbn [existsb].
    cbn [_sgr_]. rewrite Hout'. reflexivity. }
  cbn [_sgr_ cs_str _base_str_ _no_reset_].
  split; [reflexivity|]. split; [reflexivity|]. split; [reflexivity|].
  split; [reflexivity|]. split.
  { unfold update_sgr. rewrite !(colour_code_not_extended x _ Hin). cbn [existsb].
    cbn [_sgr_]. rewrite Hin2'. reflexivity. }
  cbn [_sgr_ cs_str]. split; reflexivity.
Qed.

Lemma update_sgr_colour_twice_witness :
  exists c r r' r2,
    from_rgb ansicolor4Bit bg (RgbTuple (255, 85, 85)) = Ok c
    /\ cb_bytes c = bytes_of_int 101
    /\ update_sgr (styled standard_red false ansicolor4Bit) [101] = Ok r
    /\ _sgr_ r = mk_sgr (_sgr_params_ standard_red ++ [Colored c])
                        (_rgb_dict_ standard_red ++ [(bg, (255, 85, 85))])
                        (mem 101 _ANSI16C_BRIGHT)
    /\ cs_str r = serialize (_sgr_ r) "x" false
    /\ update_sgr r [101] = Ok r'
    /\ _sgr_ r' = standard_red
    /\ _base_str_ r' = "x"
    /\ _no_reset_ r' = false
    /\ cs_str r' = serialize standard_red "x" false
    /\ update_sgr (styled standard_red false ansicolor4Bit) [101; 101] = Ok r2
    /\ _sgr_ r2 = standard_red
    /\ cs_str r2 = cs_str r'.
Proof.
  apply (update_sgr_colour_twice (styled standard_red false ansicolor4Bit) 101 bg
           (255, 85, 85)).
  - apply wf_WF. reflexivity.
  - reflexivity.
  - repeat constructor.
  - reflexivity.
  - reflexivity.
Defined.

(** *** Removing a value *)

(** X20: [remove] on a well-formed sequence whose bright flag is not set,
    for the bytes of a valid entry (and for its integer when it has one).
    When no value of the sequence has these bytes, [remove] raises
    [ValueError] and leaves the sequence as it was.  Otherwise it removes the
    first parameter with these bytes and no other, deletes the key of that
    parameter from [_rgb_dict_] when it is a colour, and the sequence stays
    well formed. *)
Theorem remove_spec (e : entry) (s : SgrSequence) :
  valid_entry e = true -> WF s -> _has_bright_colors_ s = false ->
  let b := entry_bytes e in
  ((~ In b (values s) /\ remove (IdxBytes b) s = (Raise ValueError, s))
   \/ exists l1 q l2 d,
        _sgr_params_ s = l1 ++ q :: l2
        /\ value_bytes q = b
        /\ ~ In b (map value_bytes l1)
        /\ remove (IdxBytes b) s = (Ok tt, mk_sgr (l1 ++ l2) d false)
        /\ WF (mk_sgr (l1 ++ l2) d false)
        /\ match key_of q with
           | Some k => dict_del key_eqb (_rgb_dict_ s) k = Some d
           | None => d = _rgb_dict_ s
           end)
  /\ forall v, entry_ints e = [v] -> remove (IdxInt v) s = remove (IdxBytes b) s.
Proof.
  intros H Hw Hb. cbv zeta. split.
  - pose proof (is_same_kind_entry_bytes e) as Hsame.
    unfold remove, values.
    destruct (existsb (fun q => String.eqb (value_bytes q) (entry_bytes e))
                      (_sgr_params_ s)) eqn:Ex.
    + right.
      destruct (index_from_exists (IdxBytes (entry_bytes e))
                  (fun q => String.eqb (value_bytes q) (entry_bytes e))
                  (fun q => Hsame q H) _ 0 Ex)
        as (l1 & q & l2 & El & Hq & Hl1 & Ei).
      destruct (pop_at s l1 l2 q Hw Hb El) as (d & Hpop & Hw' & Hd).
      exists l1, q, l2, d. apply String.eqb_eq in Hq.
      split; [exact El|]. split; [exact Hq|].
      split; [exact (Forall_not_in_bytes _ _ Hl1)|].
      split; [|split; [exact Hw'|exact Hd]].
      unfold mbind at 1. unfold index. rewrite Ei. cbn [Z.add].
      unfold mbind. unfold SgrParamWrapper in *. rewrite Hpop. reflexivity.
    + left. pose proof (existsb_false_Forall _ _ Ex) as Hall.
      split; [exact (Forall_not_in_bytes _ _ Hall)|].
      unfold mbind, index.
      rewrite (index_from_missing (IdxBytes (entry_bytes e))
                 (fun q => String.eqb (value_bytes q) (entry_bytes e))
                 (fun q => Hsame q H) _ 0 Hall).
      reflexivity.
  - intros v Hv. unfold remove, mbind, index.
    rewrite (index_from_ext (IdxInt v) (IdxBytes (entry_bytes e))); [reflexivity|].
    intros q. rewrite (is_same_kind_entry_int e v q H Hv).
    rewrite (is_same_kind_entry_bytes e q H). reflexivity.
Qed.

Lemma remove_spec_witness :
  ((~ In (entry_bytes (EColor (Wire4 31))) (values underlined_red_on_blue)
    /\ remove (IdxBytes (entry_bytes (EColor (Wire4 31)))) underlined_red_on_blue
       = (Raise ValueError, underlined_red_on_blue))
   \/ exists l1 q l2 d,
        _sgr_params_ underlined_red_on_blue = l1 ++ q :: l2
        /\ value_bytes q = entry_bytes (EColor (Wire4 31))
        /\ ~ In (entry_bytes (EColor (Wire4 31))) (map value_bytes l1)
        /\ remove (IdxBytes (entry_bytes (EColor (Wire4 31)))) underlined_red_on_blue
           = (Ok tt, mk_sgr (l1 ++ l2) d false)
        /\ WF (mk_sgr (l1 ++ l2) d false)
        /\ match key_of q with
           | Some k => dict_del key_eqb (_rgb_dict_ underlined_red_on_blue) k = Some d
           | None => d = _rgb_dict_ underlined_red_on_blue
           end)
  /\ forall v, entry_ints (EColor (Wire4 31)) = [v] ->
               remove (IdxInt v) underlined_red_on_blue
               = remove (IdxBytes (entry_bytes (EColor (Wire4 31))))
                   underlined_red_on_blue.
Proof.
  apply (remove_spec (EColor (Wire4 31)) underlined_red_on_blue).
  - reflexivity.
  - apply wf_WF. reflexivity.
  - reflexivity.
Defined.

(** *** C1: the round trip through the bytes of a colour value *)

Lemma dict_get_Z_In {V : Type} (d : list (Z * V)) (n : Z) (v : V) :
  dict_get Z.eqb d n = Some v -> In (n, v) d.
Proof.
  induction d as [|[a w] d IH]; cbn [dict_get]; [discriminate|].
  destruct (Z.eqb_spec a n) as [->|Hne].
  - intros E. injection E as <-. left. reflexivity.
  - intros E. right. exact (IH E).
Qed.

Lemma encode4 (n : Z) (k : ColorDictKeys) (rgb : Int3Tuple) :
  dict_get Z.eqb _ANSI16C_I2KV n = Some (k, rgb) ->
  rgb2ansi_color_esc ansicolor4Bit k rgb = Ok (bytes_of_int n)
  /\ in_range rgb = true.
Proof.
  intros H. apply dict_get_Z_In in H.
  assert (Hall : check_encode4 = true) by (vm_compute; reflexivity).
  unfold check_encode4 in Hall. rewrite forallb_forall in Hall.
  specialize (Hall _ H). cbn [fst snd] in Hall.
  apply andb_true_iff in Hall. destruct Hall as [Hb Hr]. split; [|exact Hr].
  destruct (rgb2ansi_color_esc ansicolor4Bit k rgb) as [b|]; [|discriminate].
  apply String.eqb_eq in Hb. now subst.
Qed.

Lemma palette8 (n : Z) (rgb : Int3Tuple) :
  ansi_8bit_to_rgb n = Ok rgb ->
  in_range rgb = true
  /\ ansi_8bit_to_rgb (rgb_to_ansi_8bit rgb) = Ok rgb.
Proof.
  intros H.
  assert (Hn : 0 <= n < 0 + Z.of_nat 256).
  { unfold ansi_8bit_to_rgb in H.
    destruct (n <? 0) eqn:E1; [discriminate H|].
    destruct (255 <? n) eqn:E2; [discriminate H|].
    apply Z.ltb_ge in E1, E2. lia. }
  assert (Hall : forallb check_palette8 (range 0 256) = true)
    by (vm_compute; reflexivity).
  pose proof (forallb_range check_palette8 0 256 Hall n Hn) as Hc.
  unfold check_palette8 in Hc. rewrite H in Hc.
  apply andb_true_iff in Hc. destruct Hc as [Hr Hq]. split; [exact Hr|].
  destruct (ansi_8bit_to_rgb (rgb_to_ansi_8bit rgb)) as [rgb'|]; [|discriminate].
  apply rgb_eqb_eq in Hq. now subst.
Qed.

(** What the bytes of a colour are read as: a 4-bit code with its colour,
    an 8-bit index with its colour, or a 24-bit colour. *)
Lemma match_ansi_inv (fields : list bytes) (typ : AnsiColorType)
  (k : ColorDictKeys) (rgb : Int3Tuple) :
  match_ansi fields = Ok (typ, k, rgb) ->
  (typ = ansicolor4Bit
   /\ exists n, dict_get Z.eqb _ANSI16C_I2KV n = Some (k, rgb))
  \/ (typ = ansicolor8Bit /\ exists n, ansi_8bit_to_rgb n = Ok rgb)
  \/ typ = ansicolor24Bit.
Proof.
  intros H.
  destruct fields as [|f1 [|f2 [|f3 [|f4 [|f5 [|f6 rest]]]]]];
    cbn [match_ansi] in H; try discriminate H.
  - destruct (py_int f1) as [n|]; cbn [bind] in H; [|discriminate H].
    destruct (dict_get Z.eqb _ANSI16C_I2KV n) as [[k' rgb']|] eqn:E;
      [|discriminate H].
    injection H as <- <- <-. left. split; [reflexivity|]. exists n. exact E.
  - destruct (dict_get String.eqb _ANSI256_B2KEY f1) as [key|]; [|discriminate H].
    destruct (String.eqb f2 "5"); [|discriminate H].
    destruct (py_int f3) as [n|]; cbn [bind] in H; [|discriminate H].
    destruct (ansi_8bit_to_rgb n) as [rgb'|] eqn:E; cbn [bind] in H;
      [|discriminate H].
    injection H as <- <- <-. right. left. split; [reflexivity|]. exists n. exact E.
  - destruct (dict_get String.eqb _ANSI256_B2KEY f1) as [key|]; [|discriminate H].
    destruct (String.eqb f2 "2"); [|discriminate H].
    destruct (py_int f3) as [r|]; cbn [bind] in H; [|discriminate H].
    destruct (py_int f4) as [g|]; cbn [bind] in H; [|discriminate H].
    destruct (py_int f5) as [b|]; cbn [bind] in H; [|discriminate H].
    injection H as <- <- <-. right. right. reflexivity.
Qed.

(** [colorbytes(raw)] on bytes that are read as a colour: the class read,
    the colour encoded again in the format of that class, the slot and the
    colour read. *)
Lemma colorbytes_new_plain (raw : bytes) (typ : AnsiColorType)
  (k : ColorDictKeys) (rgb : Int3Tuple) :
  read_bytes raw = Ok (typ, k, rgb) ->
  colorbytes_new None (Plain raw)
  = (b <- rgb2ansi_color_esc typ k rgb ;; Ok (mk_colorbytes typ b (k, rgb))).
Proof.
  intros H. unfold colorbytes_new. cbn [value_bytes].
  unfold read_bytes in H. rewrite H. reflexivity.
Qed.

Lemma colorbytes_new_read (raw : bytes) (c : colorbytes) :
  colorbytes_new None (Plain raw) = Ok c ->
  read_bytes raw = Ok (cb_type c, fst (cb_rgb_dict c), snd (cb_rgb_dict c)).
Proof.
  unfold colorbytes_new, read_bytes. cbn [value_bytes].
  destruct (match_ansi _) as [[[typ k] rgb]|]; cbn [bind]; [|discriminate].
  destruct (rgb2ansi_color_esc typ k rgb) as [b|]; cbn [bind]; [|discriminate].
  intros E. injection E as <-. reflexivity.
Qed.

Lemma in_range_bytes (r g b : Z) :
  in_range (r, g, b) = true -> 0 <= r < 256 /\ 0 <= g < 256 /\ 0 <= b < 256.
Proof. intros H. apply in_range_spec in H. lia. Qed.

(** The bytes of a colour in the format of a class are read as a colour of
    that class and that slot. *)
Lemma encoded_read (cls : AnsiColorType) (k : ColorDictKeys) (rgb : Int3Tuple) :
  (cls = ansicolor24Bit -> in_range rgb = true) ->
  exists b rgb',
    rgb2ansi_color_esc cls k rgb = Ok b
    /\ read_bytes b = Ok (cls, k, rgb')
    /\ in_range rgb' = true
    /\ match cls with
       | ansicolor4Bit => rgb' = nearest_ansi_4bit_rgb rgb
       | ansicolor8Bit => ansi_8bit_to_rgb (rgb_to_ansi_8bit rgb) = Ok rgb'
       | ansicolor24Bit => rgb' = rgb
       end.
Proof.
  intros Hr. destruct cls.
  - assert (Hall : check_nearest4 = true) by (vm_compute; reflexivity).
    unfold check_nearest4 in Hall. rewrite forallb_forall in Hall.
    assert (Hne : base_entries <> []) by discriminate.
    specialize (Hall (nearest rgb base_entries) (nearest_In rgb base_entries Hne)).
    apply andb_true_iff in Hall. destruct Hall as [_ Hall].
    rewrite forallb_forall in Hall.
    assert (Hk : In k [fg; bg]) by (destruct k; simpl; auto).
    specialize (Hall k Hk). cbn [rgb2ansi_color_esc]. unfold nearest_ansi_4bit_rgb.
    destruct (dict_get kv_eqb _ANSI16C_KV2I (k, snd (nearest rgb base_entries)))
      as [code|]; [|discriminate Hall].
    destruct (dict_get Z.eqb _ANSI16C_I2KV code) as [kv|] eqn:Ecode;
      [|discriminate Hall].
    apply kv_eqb_eq in Hall. subst kv.
    assert (Hin : in_I2KV code = true) by (unfold in_I2KV; rewrite Ecode; reflexivity).
    pose proof (check_wire4_all code Hin) as Hw. unfold check_wire4 in Hw.
    rewrite Ecode in Hw. apply andb_true_iff in Hw. destruct Hw as [_ Hw].
    apply result_cb_is_true in Hw. apply colorbytes_new_read in Hw.
    cbn [cb_type cb_rgb_dict fst snd] in Hw.
    exists (bytes_of_int code), (snd (nearest rgb base_entries)).
    split; [reflexivity|]. split; [exact Hw|].
    split; [exact (proj2 (encode4 code k _ Ecode))|reflexivity].
  - cbn [rgb2ansi_color_esc].
    pose proof (check_wire8_all k _ (rgb_to_ansi_8bit_byte rgb)) as Hw.
    unfold check_wire8 in Hw.
    destruct (ansi_8bit_to_rgb (rgb_to_ansi_8bit rgb)) as [rgb'|] eqn:E;
      [|discriminate Hw].
    apply andb_true_iff in Hw. destruct Hw as [_ Hw].
    apply result_cb_is_true in Hw. apply colorbytes_new_read in Hw.
    cbn [cb_type cb_rgb_dict fst snd] in Hw.
    exists (wire_bytes (Wire8 k (rgb_to_ansi_8bit rgb))), rgb'.
    split; [reflexivity|]. split; [exact Hw|].
    split; [exact (proj1 (palette8 _ _ E))|reflexivity].
  - destruct rgb as [[r g] b]. pose proof (Hr eq_refl) as Hin.
    destruct (in_range_bytes r g b Hin) as (H1 & H2 & H3).
    exists (wire_bytes (Wire24 k (r, g, b))), (r, g, b).
    split; [reflexivity|]. split; [exact (match_ansi_24 k r g b H1 H2 H3)|].
    split; [exact Hin|reflexivity].
Qed.

(** Reading bytes and encoding what was read gives a value in wire form,
    which reading and encoding again leaves as it is. *)
Lemma read_canonical (raw : bytes) (typ : AnsiColorType) (k : ColorDictKeys)
  (rgb : Int3Tuple) :
  read_bytes raw = Ok (typ, k, rgb) -> in_range rgb = true ->
  exists b1 w,
    rgb2ansi_color_esc typ k rgb = Ok b1
    /\ colorbytes_new None (Plain raw) = Ok (mk_colorbytes typ b1 (k, rgb))
    /\ valid_wire w = true
    /\ wire_value w = Ok (mk_colorbytes typ b1 (k, rgb))
    /\ colorbytes_new None (Plain b1) = Ok (mk_colorbytes typ b1 (k, rgb)).
Proof.
  intros H Hr. rewrite (colorbytes_new_plain raw typ k rgb H).
  destruct (match_ansi_inv _ _ _ _ H) as [[-> [n Hn]] | [[-> [n Hn]] | ->]].
  - destruct (encode4 n k rgb Hn) as [He _].
    assert (Hin : in_I2KV n = true) by (unfold in_I2KV; rewrite Hn; reflexivity).
    pose proof (check_wire4_all n Hin) as Hw. unfold check_wire4 in Hw.
    rewrite Hn in Hw. apply andb_true_iff in Hw. destruct Hw as [H1 H2].
    apply result_cb_is_true in H1, H2.
    exists (bytes_of_int n), (Wire4 n). rewrite He. cbn [bind].
    split; [reflexivity|]. split; [reflexivity|]. split; [exact Hin|].
    split; [exact H1|exact H2].
  - destruct (palette8 n rgb Hn) as [_ Hq].
    pose proof (check_wire8_all k _ (rgb_to_ansi_8bit_byte rgb)) as Hw.
    unfold check_wire8 in Hw. rewrite Hq in Hw.
    apply andb_true_iff in Hw. destruct Hw as [H1 H2].
    apply result_cb_is_true in H1, H2.
    exists (wire_bytes (Wire8 k (rgb_to_ansi_8bit rgb))),
           (Wire8 k (rgb_to_ansi_8bit rgb)).
    split; [reflexivity|]. split; [reflexivity|].
    split; [exact (rgb_to_ansi_8bit_byte rgb)|]. split; [exact H1|exact H2].
  - destruct rgb as [[r g] b].
    destruct (in_range_bytes r g b Hr) as (H1 & H2 & H3).
    destruct (wire24_value k r g b H1 H2 H3) as [Hv Hn].
    exists (wire_bytes (Wire24 k (r, g, b))), (Wire24 k (r, g, b)).
    split; [reflexivity|]. split; [reflexivity|]. split.
    + cbn [valid_wire]. unfold is_byte.
      repeat (apply andb_true_iff; split); try apply Z.leb_le; try apply Z.ltb_lt; lia.
    + split; [exact Hv|exact Hn].
Qed.

(** What a class makes of bytes, or of a value of another class: the value
    read from the bytes, holding the bytes themselves or the colour read
    encoded in another format. *)
Lemma colorbytes_new_parsed (cls : option AnsiColorType) (x : sgr_value)
  (c : colorbytes) :
  colorbytes_new cls x = Ok c ->
  (exists c0, x = Colored c0 /\ c = c0)
  \/ exists typ k rgb b,
       read_bytes (value_bytes x) = Ok (typ, k, rgb)
       /\ c = mk_colorbytes typ b (k, rgb)
       /\ (b = value_bytes x \/ exists t, rgb2ansi_color_esc t k rgb = Ok b).
Proof.
  unfold colorbytes_new, read_bytes.
  destruct (match cls, x with
            | Some t, Colored c0 => if type_eqb (cb_type c0) t then Some c0 else None
            | _, _ => None
            end) as [c0|] eqn:Esame.
  - intros E. injection E as <-. left.
    destruct cls as [t|]; [|discriminate Esame].
    destruct x as [b|c1]; [discriminate Esame|].
    destruct (type_eqb (cb_type c1) t); [|discriminate Esame].
    injection Esame as <-. exists c1. split; reflexivity.
  - destruct (match_ansi _) as [[[typ k] rgb]|]; cbn [bind]; [|discriminate].
    intros E. right. exists typ, k, rgb.
    destruct (match cls with
              | Some t => negb (type_eqb typ t)
              | None => true
              end).
    + destruct (rgb2ansi_color_esc _ k rgb) as [b|] eqn:Eb; cbn [bind] in E;
        [|discriminate E].
      injection E as <-. exists b. split; [reflexivity|]. split; [reflexivity|].
      right. eexists. exact Eb.
    + cbn [bind] in E. injection E as <-. exists (value_bytes x).
      split; [reflexivity|]. split; [reflexivity|]. left. reflexivity.
Qed.

(** The bytes of a value of the colour classes are read as a colour of the
    slot of the value. *)
Lemma made_readable (c : colorbytes) :
  made c -> in_range (snd (cb_rgb_dict c)) = true ->
  exists typ rgb,
    read_bytes (cb_bytes c) = Ok (typ, fst (cb_rgb_dict c), rgb)
    /\ in_range rgb = true.
Proof.
  assert (Hparsed : forall cls x c,
             colorbytes_new cls x = Ok c ->
             in_range (snd (cb_rgb_dict c)) = true ->
             (exists c0, x = Colored c0 /\ c = c0)
             \/ exists typ rgb,
                  read_bytes (cb_bytes c) = Ok (typ, fst (cb_rgb_dict c), rgb)
                  /\ in_range rgb = true).
  { intros cls x c0 Hn Hr.
    destruct (colorbytes_new_parsed cls x c0 Hn)
      as [Hsame | (typ & k & rgb & b & Hread & -> & Hb)]; [left; exact Hsame|].
    right. cbn [cb_bytes cb_rgb_dict fst snd] in *.
    destruct Hb as [-> | [t Ht]].
    - exists typ, rgb. split; [exact Hread|exact Hr].
    - destruct (encoded_read t k rgb (fun _ => Hr)) as (b' & rgb' & He & Hrd & Hin & _).
      rewrite Ht in He. injection He as <-.
      exists t, rgb'. split; [exact Hrd|exact Hin]. }
  induction 1 as [cls k v c Hf | cls raw c Hn | cls c0 c Hm IH Hn]; intros Hr.
  - unfold from_rgb in Hf.
    set (rgb := match v with RgbTuple t => t | HexInt n => hex2rgb n end) in *.
    destruct (encoded_read cls k rgb) as (b & rgb' & He & Hrd & Hin & _).
    { intros _.
      destruct (rgb2ansi_color_esc cls k rgb) as [b0|]; cbn [bind] in Hf;
        [|discriminate Hf].
      injection Hf as <-. exact Hr. }
    rewrite He in Hf. cbn [bind] in Hf. injection Hf as <-.
    exists cls, rgb'. split; [exact Hrd|exact Hin].
  - destruct (Hparsed _ _ _ Hn Hr) as [(c0 & Hx & _) | H]; [discriminate Hx|exact H].
  - destruct (Hparsed _ _ _ Hn Hr) as [(c1 & Hx & ->) | H]; [|exact H].
    injection Hx as <-. exact (IH Hr).
Qed.

(** C1 (amended).  For every value [c] of the colour classes - what
    [from_rgb] returns, and what a class or [colorbytes] returns for bytes
    or for a value of a colour class - whose colour has 8-bit channels,
    [colorbytes(bytes(c))] returns a value [c1] of the slot of [c].  It is a
    value in wire form, the one its class makes of its own bytes, and the
    round trip leaves it as it is: [colorbytes(bytes(c1))] is [c1].
    When [c] is itself in wire form, [c1] has the class and the [rgb_dict]
    of [c]; it is [c] for the 4-bit and the 24-bit format, and for the 8-bit
    format its bytes carry the index that [rgb_to_ansi_8bit] picks for the
    colour of [c].  When [c] is [cls.from_rgb] of a colour, [c1] has the
    class [cls]; it is [c] for the 24-bit format; for the 4-bit format it
    has the bytes of [c] and holds the colour of the palette nearest to the
    colour of [c]; for the 8-bit format it holds the colour of the index
    that [rgb_to_ansi_8bit] picks for the colour of [c]. *)
Theorem colorbytes_roundtrip (c : colorbytes) :
  made c -> in_range (snd (cb_rgb_dict c)) = true ->
  exists c1 w,
    colorbytes_new None (Plain (cb_bytes c)) = Ok c1
    /\ fst (cb_rgb_dict c1) = fst (cb_rgb_dict c)
    /\ valid_wire w = true
    /\ wire_value w = Ok c1
    /\ colorbytes_new None (Plain (cb_bytes c1)) = Ok c1
    /\ (forall w0, valid_wire w0 = true -> wire_value w0 = Ok c ->
          cb_type c1 = cb_type c
          /\ cb_rgb_dict c1 = cb_rgb_dict c
          /\ match w0 with
             | Wire8 k n =>
                 cb_bytes c1
                 = wire_bytes (Wire8 k (rgb_to_ansi_8bit (snd (cb_rgb_dict c))))
             | _ => c1 = c
             end)
    /\ (forall cls k v, from_rgb cls k v = Ok c ->
          cb_type c1 = cls
          /\ match cls with
             | ansicolor4Bit =>
                 cb_bytes c1 = cb_bytes c
                 /\ snd (cb_rgb_dict c1)
                    = nearest_ansi_4bit_rgb (snd (cb_rgb_dict c))
             | ansicolor8Bit =>
                 ansi_8bit_to_rgb (rgb_to_ansi_8bit (snd (cb_rgb_dict c)))
                 = Ok (snd (cb_rgb_dict c1))
             | ansicolor24Bit => c1 = c
             end).
Proof.
  intros Hm Hr.
  destruct (made_readable c Hm Hr) as (typ & rgb & Hread & Hin).
  destruct (read_canonical _ _ _ _ Hread Hin) as (b1 & w & Henc & Hnew & Hw & Hwv & Hfix).
  exists (mk_colorbytes typ b1 (fst (cb_rgb_dict c), rgb)), w.
  cbn [cb_bytes cb_rgb_dict cb_type fst snd].
  split; [exact Hnew|]. split; [reflexivity|]. split; [exact Hw|].
  split; [exact Hwv|]. split; [exact Hfix|]. split.
  - intros w0 Hv0 Hw0.
    destruct (colorbytes_wire_roundtrip w0 Hv0)
      as (c' & c'' & E1 & _ & _ & E2 & Ht & Hd & Hcase).
    rewrite Hw0 in E1. injection E1 as <-.
    rewrite Hnew in E2. injection E2 as <-.
    cbn [cb_type cb_rgb_dict cb_bytes] in Ht, Hd, Hcase.
    split; [exact Ht|]. split; [exact Hd|exact Hcase].
  - intros cls k v Hf. unfold from_rgb in Hf.
    set (rgb0 := match v with RgbTuple t => t | HexInt n => hex2rgb n end) in *.
    destruct (rgb2ansi_color_esc cls k rgb0) as [b0|] eqn:Eb0; cbn [bind] in Hf;
      [|discriminate Hf].
    injection Hf as <-. cbn [cb_bytes cb_rgb_dict cb_type fst snd] in *.
    destruct (encoded_read cls k rgb0 (fun _ => Hr))
      as (b' & rgb' & He & Hrd & _ & Hcls).
    rewrite Eb0 in He. injection He as <-.
    rewrite Hrd in Hread. injection Hread as <- <-.
    split; [reflexivity|].
    destruct cls.
    + subst rgb'. split; [|reflexivity].
      assert (Hall : check_nearest4 = true) by (vm_compute; reflexivity).
      unfold check_nearest4 in Hall. rewrite forallb_forall in Hall.
      assert (Hne : base_entries <> []) by discriminate.
      specialize (Hall (nearest rgb0 base_entries) (nearest_In rgb0 base_entries Hne)).
      apply andb_true_iff in Hall. destruct Hall as [Hnear _].
      apply rgb_eqb_eq in Hnear.
      cbn [rgb2ansi_color_esc] in Henc, Eb0.
      fold (nearest_ansi_4bit_rgb rgb0) in Hnear.
      rewrite Hnear in Henc. rewrite Eb0 in Henc. injection Henc as <-. reflexivity.
    + exact Hcls.
    + subst rgb'. rewrite Eb0 in Henc. injection Henc as <-. reflexivity.
Qed.

Lemma colorbytes_roundtrip_witness :
  exists c1 w,
    colorbytes_new None (Plain "33") = Ok c1
    /\ fst (cb_rgb_dict c1) = fg
    /\ valid_wire w = true
    /\ wire_value w = Ok c1
    /\ colorbytes_new None (Plain (cb_bytes c1)) = Ok c1
    /\ (forall w0, valid_wire w0 = true ->
          wire_value w0 = Ok (mk_colorbytes ansicolor4Bit "33" (fg, (200, 100, 50))) ->
          cb_type c1 = ansicolor4Bit
          /\ cb_rgb_dict c1 = (fg, (200, 100, 50))
          /\ match w0 with
             | Wire8 k n =>
                 cb_bytes c1
                 = wire_bytes (Wire8 k (rgb_to_ansi_8bit (200, 100, 50)))
             | _ => c1 = mk_colorbytes ansicolor4Bit "33" (fg, (200, 100, 50))
             end)
    /\ (forall cls k v,
          from_rgb cls k v = Ok (mk_colorbytes ansicolor4Bit "33" (fg, (200, 100, 50))) ->
          cb_type c1 = cls
          /\ match cls with
             | ansicolor4Bit =>
                 cb_bytes c1 = "33"
                 /\ snd (cb_rgb_dict c1) = nearest_ansi_4bit_rgb (200, 100, 50)
             | ansicolor8Bit =>
                 ansi_8bit_to_rgb (rgb_to_ansi_8bit (200, 100, 50))
                 = Ok (snd (cb_rgb_dict c1))
             | ansicolor24Bit =>
                 c1 = mk_colorbytes ansicolor4Bit "33" (fg, (200, 100, 50))
             end).
Proof.
  apply (colorbytes_roundtrip (mk_colorbytes ansicolor4Bit "33" (fg, (200, 100, 50)))).
  - apply (made_from_rgb ansicolor4Bit fg (RgbTuple (200, 100, 50))).
    vm_compute. reflexivity.
  - reflexivity.
Defined.

(** C1 as stated fails in each of its three conclusions.  The bytes: the
    8-bit value of index 16, the black corner of the colour cube, comes back
    with the bytes of index 0, and [ansicolor4Bit] keeps the bytes it is
    given, escape sequence included, where [colorbytes] returns the bare
    code.  The [rgb_dict]: [ansicolor4Bit.from_rgb] of the colour
    [(200, 100, 50)] holds that colour and the bytes of the nearest colour
    of the palette, and comes back holding the latter.  The class:
    [ansicolor4Bit] applied to 24-bit bytes returns a value of the class
    [ansicolor24Bit] with 4-bit bytes, which comes back as a value of the
    class [ansicolor4Bit]. *)
Lemma colorbytes_roundtrip_counterexample :
  (wire_value (Wire8 fg 16)
   = Ok (mk_colorbytes ansicolor8Bit "38;5;16" (fg, (0, 0, 0)))
   /\ colorbytes_new None (Plain "38;5;16")
      = Ok (mk_colorbytes ansicolor8Bit "38;5;0" (fg, (0, 0, 0)))
   /\ mk_colorbytes ansicolor8Bit "38;5;0" (fg, (0, 0, 0))
      <> mk_colorbytes ansicolor8Bit "38;5;16" (fg, (0, 0, 0)))
  /\ (colorbytes_new (Some ansicolor4Bit) (Plain (String ESC "[31m"))
      = Ok (mk_colorbytes ansicolor4Bit (String ESC "[31m") (fg, (170, 0, 0)))
      /\ colorbytes_new None (Plain (String ESC "[31m"))
         = Ok (mk_colorbytes ansicolor4Bit "31" (fg, (170, 0, 0))))
  /\ (from_rgb ansicolor4Bit fg (RgbTuple (200, 100, 50))
      = Ok (mk_colorbytes ansicolor4Bit "33" (fg, (200, 100, 50)))
      /\ colorbytes_new None (Plain "33")
         = Ok (mk_colorbytes ansicolor4Bit "33" (fg, (170, 85, 0))))
  /\ (colorbytes_new (Some ansicolor4Bit) (Plain "38;2;0;0;255")
      = Ok (mk_colorbytes ansicolor24Bit "34" (fg, (0, 0, 255)))
      /\ colorbytes_new None (Plain "34")
         = Ok (mk_colorbytes ansicolor4Bit "34" (fg, (0, 0, 170)))).
Proof.
  repeat split; try (vm_compute; reflexivity). discriminate.
Qed.

(** *** C3: appending the reset code *)

(** C3 (as the code has it).  For every sequence [s], [append(0)] returns
    and leaves the parameters of [s] followed by one reset entry: nothing is
    discarded, the colours recorded and the bright flag stay as they were.
    Two appends leave the parameters of [s] followed by two reset entries.
    The single-entry sequence is what the constructor makes of such
    parameters: when the values of [s] are the bytes of valid entries none
    of which is the reset code, [SgrSequence] applied to the parameters left
    by one append, or by two, returns the sequence that holds [b'0']
    alone. *)
Theorem append_reset_appends (s : SgrSequence) :
  append 0 s = (Ok tt, set_params (_sgr_params_ s ++ [Plain "0"]) s)
  /\ (append 0 ;;; append 0) s
     = (Ok tt, set_params (_sgr_params_ s ++ [Plain "0"; Plain "0"]) s)
  /\ forall es : list entry,
       forallb valid_entry es = true -> reset_free es = true ->
       values s = map entry_bytes es ->
       SgrSequence_init
         (InitIter (ArgList (map ItemParam (_sgr_params_ s ++ [Plain "0"])))) None
       = Ok reset_sgr
       /\ SgrSequence_init
            (InitIter (ArgList (map ItemParam
                                  (_sgr_params_ s ++ [Plain "0"; Plain "0"])))) None
          = Ok reset_sgr.
Proof.
  split; [reflexivity|]. split.
  - unfold mbind. rewrite append_reset. rewrite append_reset.
    destruct s as [ps d f]. unfold set_params. cbn [_sgr_params_ _rgb_dict_ _has_bright_colors_].
    rewrite <- app_assoc. reflexivity.
  - intros es Hv Hr Hs. apply forallb_valid in Hv.
    assert (Hv1 : Forall (fun e => valid_entry e = true) (es ++ [EPlain 0])).
    { apply Forall_app. split; [exact Hv|]. repeat constructor. }
    assert (Hv2 : Forall (fun e => valid_entry e = true) (es ++ [EPlain 0; EPlain 0])).
    { apply Forall_app. split; [exact Hv|]. repeat constructor. }
    split.
    + apply (SgrSequence_init_reset_tail _ es false); auto.
      * apply falsy_params. destruct (_sgr_params_ s); discriminate.
      * assert (Hb : map value_bytes (_sgr_params_ s ++ [Plain "0"])
                     = map entry_bytes (es ++ [EPlain 0])).
        { rewrite !map_app. f_equal. exact Hs. }
        pose proof (iter_sgr_params _ _ Hv1 Hb) as H.
        rewrite (map_app regen_value) in H. exact H.
    + apply (SgrSequence_init_reset_tail _ es true); auto.
      * apply falsy_params. destruct (_sgr_params_ s); discriminate.
      * assert (Hb : map value_bytes (_sgr_params_ s ++ [Plain "0"; Plain "0"])
                     = map entry_bytes (es ++ [EPlain 0; EPlain 0])).
        { rewrite !map_app. f_equal. exact Hs. }
        pose proof (iter_sgr_params _ _ Hv2 Hb) as H.
        rewrite (map_app regen_value) in H. exact H.
Qed.

Lemma append_reset_appends_witness :
  append 0 red_on_bright_red
  = (Ok tt, set_params (_sgr_params_ red_on_bright_red ++ [Plain "0"]) red_on_bright_red)
  /\ (append 0 ;;; append 0) red_on_bright_red
     = (Ok tt, set_params (_sgr_params_ red_on_bright_red ++ [Plain "0"; Plain "0"])
                 red_on_bright_red)
  /\ SgrSequence_init
       (InitIter (ArgList (map ItemParam (_sgr_params_ red_on_bright_red ++ [Plain "0"]))))
       None
     = Ok reset_sgr
  /\ SgrSequence_init
       (InitIter (ArgList (map ItemParam
                             (_sgr_params_ red_on_bright_red ++ [Plain "0"; Plain "0"]))))
       None
     = Ok reset_sgr.
Proof.
  destruct (append_reset_appends red_on_bright_red) as (H1 & H2 & H3).
  split; [exact H1|]. split; [exact H2|].
  exact (H3 [EColor (Wire4 31); EColor (Wire4 101)] eq_refl eq_refl eq_refl).
Defined.

(** *** C7: concatenation of two styled strings *)


